(* ===== verification/_CoqProject ===== *)
-Q . S2P
Prelude.v
CString.v
CNum.v
NetAddr.v
InetNet.v
Printf.v
Scan.v
Sha1.v
Pbkdf2.v
ImsgBuffer.v
Imsg.v
Channel.v
Engine.v
EngineProps.v
IfData.v
Fits.v
IfNet.v
Net80211.v
IfCore.v
IfWireless.v
IfMedia.v
IfProto.v
Brconfig.v
IfStatus.v
Gate.v
TypeProps.v
Ifconfig.v
GateTypes.v
IfKernel.v
WlanProps.v
Requests.v
FlagProps.v
AddrProps.v
GateProps.v
IfconfigProps.v
WirelessProps.v
BridgeProps.v
MediaProps.v
Daemon.v
DaemonProps.v
JoinProps.v
StatusProps.v
Conf.v
LexProps.v
ConfProps.v
System.v
Ctl.v
