(* ===== verification/Prelude.v ===== *)
(** * Verification of ifconfigd

    ifconfigd(8) is a daemon for OpenBSD 4.9 that connects a host to the
    wired and wireless networks of its configuration file.  It consists of
    two processes and a control program, and it is built from parts of the
    system:

    - the parent (src/ifconfigd/ifconfigd.c) reads the configuration
      (src/ifconfigd/parse.y), starts the engine and, on its request, scans
      for networks and configures interfaces.  It does so through
      ifconfig_gate(), which takes the words of an ifconfig(8) command line
      and calls the handlers of ifconfig(8);
    - the engine (src/ifconfigd/control.c, src/ifconfigd/ifconfigde.c) serves
      the control socket and passes the commands of its clients on to the
      parent, over a socket pair;
    - ifconfigctl(8) (src/ifconfigctl/ifconfigctl.c) sends one command;
    - the handlers are src/usr/src/sbin/ifconfig/ifcutil.c and brconfig.c,
      which the daemon shares with ifconfig(8) itself (ifconfig.c), the
      messages between processes src/usr/src/lib/libutil/imsg.c and
      imsg-buffer.c, the keys of wireless networks
      src/usr/src/sbin/bioctl/pbkdf2.c; beneath them are libc and the ioctl
      requests of the kernel, for wireless interfaces those of
      src/usr/src/sys/net80211 and the driver dev/pci/if_iwn.c.

    The daemon is built without INET6 and ifconfig(8) with it; both builds of
    the shared sources are modelled ([afs], [select_af] and the two command
    tables say which is which).

    ** How the code is modelled

    The target is amd64: LP64, little endian, plain char signed.  An integer
    is a Z with its wrap-around written out ([u16], [u32], [i32], ...); the
    memory a pointer designates is the list of bytes from there on; a string
    that only travels is a [string].

    Code that fails, exits or has effects runs in the monad [CM S A] of this
    file, a function from a state to an outcome and a state.  An outcome is
    [Ok] with a result, or [Stop]: the process exits ([SExit]), it executes
    another program ([SExec]), its behaviour is not defined ([SUndef]: a read
    or write outside an object, a null or dangling pointer, an indeterminate
    value), or a loop has used up its fuel ([SFuel]).  [wp] is total
    correctness in this monad: a [wp] excludes all four.  A component embeds
    its state in a record and runs the code of others on a part of it
    ([zoom]).  The environment [cenv] has errno, the descriptors that were
    closed, and a script of the answers of the allocator, so that every
    allocation may fail.

    What the kernel and the libraries that are not in these files answer is an
    argument or a class: [Kernel], [Libs] (IfData), [Files] (Conf), and the
    answers of recvmsg(2), sendmsg(2), accept(2) and others as arguments of
    the routines that call them.  [IfLaws] (IfKernel) is what theorems on
    flags and addresses rely on, and [TypedKernel] (Fits) what those on the
    form of requests rely on; the kernel translated from
    src/usr/src/sys/net/if.c, netinet/in.c, net80211/ieee80211_ioctl.c and
    dev/pci/if_iwn.c is an instance of both.  Its hardware and the state
    machine of 802.11 are the class [WlanEnv] (Net80211), with [WlanLaws],
    [WlanFrame] and [WlanConf] for what theorems rely on there.

    ** The files

    - CString, CNum, NetAddr, InetNet, Printf, Scan: the routines of libc for strings,
      numbers, searching, addresses and formatting.  Theorems: each does what its manual
      says on every string (strlcpy, strtok, strtonum, inet_aton,
      inet_net_pton); ether_aton and ether_ntoa are inverse; bsearch finds an
      element if there is one.
    - Sha1, Pbkdf2: SHA1Transform is the compression function of FIPS 180,
      any sequence of updates gives the digest of the concatenation,
      hmac_sha1 is HMAC of RFC 2104 and pkcs5_pbkdf2 PBKDF2 of RFC 2898.
    - ImsgBuffer, Imsg, Channel: composing, queueing, sending, receiving and
      taking messages with descriptors.  Channel joins two ends by a socket
      that may cut and join what it carries; theorems: messages arrive in
      order and intact ([imsg_fifo]), a receiver never sees a malformed frame
      ([imsg_get_in_sync]), nothing is left behind ([imsg_complete]), and
      everything can be delivered while the allocators do not fail
      ([imsg_delivery]).
    - Engine, EngineProps: control.c and ifconfigde.c as handlers of events and
      a step relation; theorems: the invariant of the process
      ([engine_invariant]), its behaviour on any bytes of a client
      ([engine_serves_client]), and how an event for both directions of the
      pipe ends it ([engine_dies_on_read_write]).
    - IfData, IfCore, IfWireless, IfMedia, IfProto, Brconfig: the globals, the
      requests and every handler of the command table.
    - Gate: the command table, ifconfig_gate() and the loop of ifconfig(8) it
      was copied from.  IfStatus, Ifconfig: the status output of ifconfig(8)
      for every kind of interface, and its main().
    - IfNet, Net80211, IfKernel: the interfaces of the kernel, the requests of
      net80211 with the driver iwn, the requests of if.c and in.c, and the
      laws they satisfy.
    - Fits, TypeProps, GateTypes, WlanProps, Requests: what it is for a request
      to fit the C structure the kernel takes it for.  Theorems: all requests of ifconfig_gate() and
      of ifconfig(8) do ([gate_requests_fit], [ifconfig_requests_fit]), and the
      code of the kernel is defined on requests that do, keeps the invariant
      of a wireless interface and answers in kind ([iwn_ioctl_defined]).
    - IfconfigProps: ifconfig(8) terminates ([ifconfig_main_terminates]).
    - StatusProps: what is printed for addresses, prefix lengths, bits and WPA
      parameters is what is there, and is read back ([inet_ntoa_roundtrip],
      [in6_prefix_roundtrip], [printb_names]); the WPA parameters are printed as
      a command line that gives any interface the same ones
      ([wpa_status_roundtrip]); the line of the time slots has no defined
      behaviour ([timeslot_status_undefined]).
    - FlagProps, AddrProps, GateProps: what ifconfig_gate() does to the flags
      and addresses of an interface, from its words to the kernel
      ([gate_flag], [gate_address]); what it does wrong with long names and
      with the address of an earlier call ([gate_flag_truncated],
      [gate_stale_address]); that it terminates
      ([ifconfig_gate_terminates]); that its loop agrees with that of
      ifconfig(8) ([gate_loop_ifconfig]).
    - WirelessProps, MediaProps, BridgeProps: the key setifwpakey() derives
      ([wpakey_derives]); what is printed can be given back, for network
      names, media words and bridge rules; the byte get_string() stores past
      its buffer ([get_string_overflow]).
    - Daemon, DaemonProps: scanning, connecting, monitoring, the dispatch of
      messages and signals.  Theorems: what a scan finds, that signals only
      follow the engine.
    - JoinProps: a wireless network of the configuration becomes the
      configuration of the interface in the kernel, through
      connect_wireless(), ifconfig_gate(), the handlers, ieee80211_ioctl() and
      the reset of the driver ([connect_wireless_configures]).
    - Conf, LexProps, ConfProps: the configuration file.  Theorems: yylex()
      terminates and reads back any list of tokens; parse_config() reads back
      any configuration; connecting to a network it makes exits or has no
      defined behaviour ([connect_never_returns]).
    - System: the engine, the socket pair and the parent as one system.
      Theorems: the parent handles what the engine queued, in order
      ([sys_fifo]); handling the command to use an ethernet network has no
      defined behaviour ([use_ethernet_never_served]).
    - Ctl: ifconfigctl(8).  Theorem: what each command sends ([ctl_sends]).

    ** Fuel

    A loop that is not structural has fuel.  Where it is computed in the
    definition it is enough, and a theorem says so: the rounds of
    ifconfig_gate() (as many as there are words), of SHA1Pad (64), of bsearch
    (the number of elements), of the handlers of the engine and the parent
    (the bytes received; [main_loop_fuel] for the parent) and of yylex() (the
    characters left).  printif() calls printgroup() for a name without a unit
    number and printgroup() calls printif() for its members, which have one:
    a depth of two is enough for a kernel whose groups have such members.  A
    theorem with [wp] or an equation to an [Ok] excludes a run that ends with
    [SFuel].  parse_config() takes its fuel as an argument:
    a file that includes itself is read for ever, and [conf_roundtrip] says
    how much is enough for a configuration.

    ** Not modelled

    - of net80211, the requests for statistics, for adding and removing nodes
      and for keys of 802.1X, which no command sends, the media requests, and
      the protocol itself: scanning, authentication, encryption and the state
      machine are parameters, since they run in interrupts and timeouts and
      not in the requests;
    - of the kernel's interfaces, cloning, groups, routing domains and labels,
      the routes that go with addresses, and the addresses of IPv6 and
      AppleTalk; drivers but iwn are a parameter;
    - what is written to the log (src/ifconfigd/log.c) and in messages;
    - the options of the daemon and of ifconfigctl(8), daemon(3), chroot(2) and the
      changing of user ids in the start of both processes;
    - the recovery of the parser after an error, which ends the daemon anyway,
      and cmdline_symset(), which nothing calls;
    - src/ifconfigd/network.c and src/ifconfigctl/parse.c, which the Makefiles
      do not build; src/patches, since the sources are modelled as they are
      under src/usr/src; and ifconfigd_dispatch_ifconfige() of ifconfigd.c,
      which is never registered;
    - libevent, beyond the registration of events; the sockets of the kernel;
      and the rest of the system under src/usr/src: what the programs call of
      it is a parameter. *)
From stdpp Require Import base list strings gmap.
From coqutil Require Import Byte Word.LittleEndianList.

#[global] Set Default Proof Using "Type".

Declare Scope c_scope.
Delimit Scope c_scope with C.
#[global] Open Scope Z_scope.

(** ** Machine integers (LP64, little endian, two's complement) *)

Definition u8 (z : Z) : Z := z `mod` 2 ^ 8.
Definition u16 (z : Z) : Z := z `mod` 2 ^ 16.
Definition u32 (z : Z) : Z := z `mod` 2 ^ 32.
Definition u64 (z : Z) : Z := z `mod` 2 ^ 64.
Definition sx (w z : Z) : Z := (z + 2 ^ (w - 1)) `mod` 2 ^ w - 2 ^ (w - 1).
Definition i16 (z : Z) : Z := sx 16 z.
Definition i32 (z : Z) : Z := sx 32 z.
Definition i64 (z : Z) : Z := sx 64 z.

Definition INT_MAX : Z := 2147483647.
Definition LLONG_MIN : Z := -9223372036854775808.
Definition LLONG_MAX : Z := 9223372036854775807.

(** The size of a pointer of the target. *)
Definition PTR_SIZE : Z := 8.

Definition Zlen {A} (l : list A) : Z := Z.of_nat (length l).
Definition Ztake {A} (n : Z) (l : list A) : list A := take (Z.to_nat n) l.
Definition Zdrop {A} (n : Z) (l : list A) : list A := drop (Z.to_nat n) l.

(** The first [n] elements of a buffer. *)
Definition elements {A} (n : Z) (l : list A) : option (list A) :=
  if n <=? Zlen l then Some (Ztake n l) else None.

(** A C truth value and the C bit tests. *)
Definition cbool (b : bool) : Z := if b then 1 else 0.
Definition has_bits (v m : Z) : bool := negb (Z.land v m =? 0).
Definition clear_bits (v m : Z) : Z := Z.ldiff v m.

(** ** Outcomes and the state monad of the C code

    A call returns ([Ok]), or the process stops in it: [SExit] is
    exit(3), err(3), fatal() and the like, [SExec] a successful execve(2),
    [SUndef] undefined behaviour (a wild or null dereference, a read past
    an object), [SFuel] a loop that was given too little fuel. *)

Inductive stop :=
| SExit (code : Z)
| SExec (argv : list string)
| SUndef
| SFuel.

Inductive outcome (A : Type) :=
| Ok (a : A)
| Stop (w : stop).
Arguments Ok {A} a.
Arguments Stop {A} w.

#[global] Instance stop_eq_dec : EqDecision stop.
Proof. solve_decision. Defined.

Definition CM (S A : Type) : Type := S → outcome A * S.

#[global] Instance CM_ret S : MRet (CM S) := λ A a s, (Ok a, s).
#[global] Instance CM_bind S : MBind (CM S) := λ A B f m s,
  match m s with
  | (Ok a, s') => f a s'
  | (Stop w, s') => (Stop w, s')
  end.

#[global] Instance CM_fmap S : FMap (CM S) := λ A B f m s,
  match m s with
  | (Ok a, s') => (Ok (f a), s')
  | (Stop w, s') => (Stop w, s')
  end.

Definition get {S} : CM S S := λ s, (Ok s, s).
Definition put {S} (s' : S) : CM S unit := λ _, (Ok tt, s').
Definition modify {S} (f : S → S) : CM S unit := λ s, (Ok tt, f s).
Definition gets {S A} (f : S → A) : CM S A := λ s, (Ok (f s), s).
Definition stopM {S A} (w : stop) : CM S A := λ s, (Stop w, s).

(** Run a computation on a part of a larger state. *)
Definition zoom {S T A} (getp : T → S) (setp : S → T → T) (m : CM S A) : CM T A :=
  λ t, let '(r, s') := m (getp t) in (r, setp s' t).

Section monad_laws.
Context {S : Type}.

Lemma bind_ret_l {A B} (a : A) (f : A → CM S B) s :
  (mret a ≫= f) s = f a s.
Proof. reflexivity. Qed.

Lemma bind_ok {A B} (m : CM S A) (f : A → CM S B) s a s' :
  m s = (Ok a, s') → (m ≫= f) s = f a s'.
Proof. intros E. unfold mbind, CM_bind. by rewrite E. Qed.

Lemma bind_stop {A B} (m : CM S A) (f : A → CM S B) s w s' :
  m s = (Stop w, s') → (m ≫= f) s = (Stop w, s').
Proof. intros E. unfold mbind, CM_bind. by rewrite E. Qed.

Lemma bind_gets {A B} (h : S → A) (f : A → CM S B) s : (gets h ≫= f) s = f (h s) s.
Proof. reflexivity. Qed.

Lemma bind_modify {B} (h : S → S) (f : unit → CM S B) s : (modify h ≫= f) s = f tt (h s).
Proof. reflexivity. Qed.

Lemma bind_assoc {A B C} (m : CM S A) (f : A → CM S B) (h : B → CM S C) s :
  ((m ≫= f) ≫= h) s = (m ≫= λ a, f a ≫= h) s.
Proof. unfold mbind, CM_bind. by destruct (m s) as [[a|w] s']. Qed.

Lemma bind_inv {A B} (m : CM S A) (f : A → CM S B) s b s' :
  (m ≫= f) s = (Ok b, s') → ∃ a s1, m s = (Ok a, s1) ∧ f a s1 = (Ok b, s').
Proof.
  unfold mbind, CM_bind. destruct (m s) as [[a|w] s1]; [eauto|done].
Qed.
End monad_laws.

(** ** Total correctness: [wp m Q s] says that [m] returns from [s], with a
    result and a state that satisfy [Q]. *)

Definition wp {S A} (m : CM S A) (Q : A → S → Prop) (s : S) : Prop :=
  match m s with (Ok a, s') => Q a s' | (Stop _, _) => False end.

Section wp.
Context {S : Type}.

Lemma wp_elim {A} (m : CM S A) Q s : wp m Q s → ∃ a s', m s = (Ok a, s') ∧ Q a s'.
Proof. unfold wp. destruct (m s) as [[a|w] s']; [eauto|done]. Qed.

Lemma wp_intro {A} (m : CM S A) (Q : A → S → Prop) s a s' : m s = (Ok a, s') → Q a s' → wp m Q s.
Proof. unfold wp. by intros ->. Qed.

Lemma wp_ret {A} (a : A) (Q : A → S → Prop) s : Q a s → wp (mret a) Q s.
Proof. done. Qed.

Lemma wp_bind {A B} (m : CM S A) (f : A → CM S B) Q s :
  wp m (λ a s', wp (f a) Q s') s → wp (m ≫= f) Q s.
Proof. unfold wp, mbind, CM_bind. by destruct (m s) as [[a|w] s']. Qed.

Lemma wp_mono {A} (m : CM S A) (P Q : A → S → Prop) s :
  wp m P s → (∀ a s', P a s' → Q a s') → wp m Q s.
Proof. unfold wp. destruct (m s) as [[a|w] s']; auto. Qed.

Lemma wp_gets {A} (f : S → A) (Q : A → S → Prop) s : Q (f s) s → wp (gets f) Q s.
Proof. done. Qed.

Lemma wp_modify (f : S → S) (Q : unit → S → Prop) s : Q tt (f s) → wp (modify f) Q s.
Proof. done. Qed.
End wp.

(** Symbolic execution of monadic code: unfold the combinators and
    reduce the matches they leave. *)
Ltac run_unfold :=
  cbv beta iota zeta delta
    [mbind CM_bind fmap CM_fmap mret CM_ret get put modify gets stopM zoom].
Tactic Notation "run" := run_unfold; simpl.
Tactic Notation "run" "in" hyp(H) :=
  cbv beta iota zeta delta
    [mbind CM_bind fmap CM_fmap mret CM_ret get put modify gets stopM zoom] in H; simpl in H.

(** ** The libc environment of a process

    [ce_alloc] scripts the allocator (the success of each malloc, calloc,
    realloc and strdup in turn; an exhausted script means success),
    [ce_errno] is errno, [ce_closed] the descriptors passed to close(2), in
    order. *)

Record cenv := mk_cenv {
  ce_alloc : list bool;
  ce_errno : Z;
  ce_closed : list Z;
}.

(** sys/errno.h *)
Definition EPERM := 1.
Definition ENOENT := 2.
Definition EINTR := 4.
Definition E2BIG := 7.
Definition ECHILD := 10.
Definition ENOMEM := 12.
Definition EEXIST := 17.
Definition EINVAL := 22.
Definition ENOTTY := 25.
Definition ERANGE := 34.
Definition EAGAIN := 35.
Definition EADDRNOTAVAIL := 49.
Definition ENETDOWN := 50.
Definition ENOBUFS := 55.

Definition set_errno (e : Z) : CM cenv unit :=
  modify (λ c, mk_cenv (ce_alloc c) e (ce_closed c)).

Definition alloc_ok : CM cenv bool := λ c,
  match ce_alloc c with
  | [] => (Ok true, c)
  | true :: o => (Ok true, mk_cenv o (ce_errno c) (ce_closed c))
  | false :: o => (Ok false, mk_cenv o ENOMEM (ce_closed c))
  end.

Definition close (fd : Z) : CM cenv unit :=
  modify (λ c, mk_cenv (ce_alloc c) (ce_errno c) (ce_closed c ++ [fd])).

(** An environment whose allocator never fails. *)
Definition alloc_never_fails (c : cenv) : Prop := Forall (λ b, b = true) (ce_alloc c).

Lemma alloc_ok_spec c :
  ∃ b c', alloc_ok c = (Ok b, c') ∧ ce_closed c' = ce_closed c
          ∧ (alloc_never_fails c → b = true ∧ alloc_never_fails c').
Proof.
  unfold alloc_never_fails, alloc_ok. destruct c as [[|[|] o] e cl]; simpl;
    eexists _, _; split_and!; try done; intros H; inversion_clear H; auto; done.
Qed.

(** Step over the next allocation of a computation. *)
Ltac alloc_step b c1 Hc Ha :=
  match goal with
  | |- context [alloc_ok ?c] =>
      let E := fresh "E" in
      destruct (alloc_ok_spec c) as (b & c1 & E & Hc & Ha); rewrite E
  end.

(** ** Generic lemmas *)

Create HintDb clib.
Create Rewrite HintDb clib.

Lemma Zlen_nonneg {A} (l : list A) : 0 ≤ Zlen l.
Proof. unfold Zlen. lia. Qed.

Lemma Zlen_app {A} (l k : list A) : Zlen (l ++ k) = Zlen l + Zlen k.
Proof. unfold Zlen. rewrite length_app. lia. Qed.

Lemma Zlen_nil {A} : Zlen (@nil A) = 0.
Proof. done. Qed.

Lemma Zlen_cons {A} (x : A) l : Zlen (x :: l) = 1 + Zlen l.
Proof. unfold Zlen. simpl. lia. Qed.

Lemma Zlen_Zdrop {A} n (l : list A) : 0 ≤ n → Zlen (Zdrop n l) = Z.max 0 (Zlen l - n).
Proof. intros. unfold Zlen, Zdrop. rewrite length_drop. lia. Qed.

Lemma Zlen_Ztake {A} n (l : list A) : 0 ≤ n → Zlen (Ztake n l) = Z.min n (Zlen l).
Proof. intros. unfold Zlen, Ztake. rewrite length_take. lia. Qed.

Lemma Zdrop_0 {A} (l : list A) : Zdrop 0 l = l.
Proof. done. Qed.

Lemma Ztake_Zdrop {A} n (l : list A) : Ztake n l ++ Zdrop n l = l.
Proof. apply take_drop. Qed.

Lemma Zdrop_app_le {A} n (l k : list A) :
  n ≤ Zlen l → Zdrop n (l ++ k) = Zdrop n l ++ k.
Proof. intros. unfold Zdrop, Zlen in *. apply drop_app_le. lia. Qed.

Lemma Zdrop_app_ge {A} n (l k : list A) :
  Zlen l ≤ n → Zdrop n (l ++ k) = Zdrop (n - Zlen l) k.
Proof.
  intros. unfold Zdrop, Zlen in *. rewrite drop_app_ge by lia.
  f_equal. lia.
Qed.

Lemma Zdrop_all {A} n (l : list A) : Zlen l ≤ n → Zdrop n l = [].
Proof. intros. unfold Zdrop, Zlen in *. apply drop_ge. lia. Qed.

Lemma Zdrop_Zdrop {A} n m (l : list A) :
  0 ≤ n → 0 ≤ m → Zdrop n (Zdrop m l) = Zdrop (m + n) l.
Proof.
  intros. unfold Zdrop. rewrite drop_drop. f_equal. lia.
Qed.

Lemma Ztake_app_exact {A} n (l k : list A) : n = Zlen l → Ztake n (l ++ k) = l.
Proof.
  intros ->. unfold Ztake, Zlen. rewrite Nat2Z.id. apply take_app_length.
Qed.

Lemma Zdrop_app_exact {A} n (l k : list A) : n = Zlen l → Zdrop n (l ++ k) = k.
Proof.
  intros ->. unfold Zdrop, Zlen. rewrite Nat2Z.id. apply drop_app_length.
Qed.

#[export] Hint Rewrite @Zlen_app @Zlen_cons @Zlen_nil : clib.

Lemma u16_small z : 0 ≤ z < 2 ^ 16 → u16 z = z.
Proof. apply Z.mod_small. Qed.
Lemma u32_small z : 0 ≤ z < 2 ^ 32 → u32 z = z.
Proof. apply Z.mod_small. Qed.
Lemma u64_small z : 0 ≤ z < 2 ^ 64 → u64 z = z.
Proof. apply Z.mod_small. Qed.
Lemma u16_range z : 0 ≤ u16 z < 2 ^ 16.
Proof. by apply Z.mod_pos_bound. Qed.
Lemma u32_range z : 0 ≤ u32 z < 2 ^ 32.
Proof. by apply Z.mod_pos_bound. Qed.
Lemma u64_range z : 0 ≤ u64 z < 2 ^ 64.
Proof. by apply Z.mod_pos_bound. Qed.

(** An or of fields that do not overlap is their sum. *)
Lemma lor_add_small x y k :
  0 ≤ k → 0 ≤ y < 2 ^ k → Z.lor (x * 2 ^ k) y = x * 2 ^ k + y.
Proof.
  intros Hk Hy. assert (Z.land (x * 2 ^ k) y = 0) as E.
  { apply Z.bits_inj'. intros n Hn. rewrite Z.land_spec, Z.bits_0.
    destruct (Z.lt_ge_cases n k).
    - by rewrite Z.mul_pow2_bits_low.
    - rewrite <- (Z.mod_small y (2 ^ k)), Z.mod_pow2_bits_high by lia. apply andb_false_r. }
  pose proof (Z.add_lor_land (x * 2 ^ k) y). lia.
Qed.

(** ** Little-endian fields of a structure *)

Lemma Zlen_le_split n z : Zlen (le_split n z) = Z.of_nat n.
Proof. unfold Zlen. by rewrite length_le_split. Qed.
#[export] Hint Rewrite @Zlen_le_split : clib.

Lemma le_combine_step (b : Init.Byte.byte) bs :
  le_combine (b :: bs) = Z.lor (byte.unsigned b) (Z.shiftl (le_combine bs) 8).
Proof. reflexivity. Qed.

Lemma le_combine_cons (b : Init.Byte.byte) bs :
  le_combine (b :: bs) = byte.unsigned b + le_combine bs * 2 ^ 8.
Proof.
  rewrite le_combine_step, Z.shiftl_mul_pow2, Z.lor_comm by done.
  rewrite lor_add_small; [lia|done|]. apply byte.unsigned_range.
Qed.

Lemma le_combine_split_u16 z : le_combine (le_split 2 z) = u16 z.
Proof. by rewrite le_combine_split. Qed.
Lemma le_combine_split_u32 z : le_combine (le_split 4 z) = u32 z.
Proof. by rewrite le_combine_split. Qed.
#[export] Hint Rewrite le_combine_split_u16 le_combine_split_u32 : clib.

(** [zlen] closes side conditions on lengths. *)
Ltac zlen := autorewrite with clib in *; try lia.
