(* ===== verification/CString.v ===== *)
(** * CString: the string routines of libc

    Models src/usr/src/lib/libc/string: strlen.c, strcmp.c, strncmp.c,
    strlcpy.c, strncpy.c, strcasecmp.c, index.c (strchr), rindex.c (strrchr)
    and strtok.c.  Memory from a pointer on is the list of its bytes; a read
    or write past the end of the object is [None].  [cstring_at m s] says
    that the memory [m] holds the string [s]; the theorems give each routine
    a meaning on strings, which is what the models of the callers use. *)
From stdpp Require Import base list strings.
From Stdlib Require Import Ascii.
From S2P Require Import Prelude.

Definition NUL : ascii := zero.

(** A byte as an unsigned char. *)
Definition uch (a : ascii) : Z := Z.of_N (N_of_ascii a).

#[global] Arguments Ascii.eqb : simpl never.

Definition is_nul (a : ascii) : bool := Ascii.eqb a NUL.

(** ** The routines *)

Fixpoint strlen (m : list ascii) : option Z :=
  match m with
  | [] => None
  | c :: m => if is_nul c then Some 0 else Z.succ <$> strlen m
  end.

Fixpoint strcmp (m1 m2 : list ascii) : option Z :=
  match m1, m2 with
  | a :: m1, b :: m2 =>
      if Ascii.eqb a b then
        if is_nul a then Some 0 else strcmp m1 m2
      else Some (uch a - uch b)
  | _, _ => None
  end.

Fixpoint strncmp (m1 m2 : list ascii) (n : nat) : option Z :=
  match n with
  | O => Some 0
  | S n =>
      match m1, m2 with
      | a :: m1, b :: m2 =>
          if negb (Ascii.eqb a b) then Some (uch a - uch b)
          else if is_nul a then Some 0 else strncmp m1 m2 n
      | _, _ => None
      end
  end.

(** The copying loop of strlcpy: the bytes written, and [Some s'] where the
    source is left when the NUL has not been copied. *)
Fixpoint strlcpy_copy (s : list ascii) (n : nat) : option (list ascii * option (list ascii)) :=
  match n with
  | O => Some ([], Some s)
  | S n =>
      match s with
      | [] => None
      | c :: s =>
          if is_nul c then Some ([c], None)
          else '(w, r) ← strlcpy_copy s n; Some (c :: w, r)
      end
  end.

(** Write [w] at the start of an array. *)
Definition overwrite (dst w : list ascii) : option (list ascii) :=
  if (length dst <? length w)%nat then None else Some (w ++ drop (length w) dst).

Definition strlcpy (dst src : list ascii) (siz : nat) : option (list ascii * Z) :=
  match siz with
  | O => n ← strlen src; Some (dst, n)
  | S n =>
      '(w, r) ← strlcpy_copy src n;
      match r with
      | None => dst ← overwrite dst w; Some (dst, Zlen w - 1)
      | Some s =>
          dst ← overwrite dst (w ++ [NUL]);
          k ← strlen s;
          Some (dst, Zlen w + k)
      end
  end.

Fixpoint strncpy_copy (s : list ascii) (n : nat) : option (list ascii) :=
  match n with
  | O => Some []
  | S n =>
      match s with
      | [] => None
      | c :: s => if is_nul c then Some (c :: repeat NUL n) else (cons c) <$> strncpy_copy s n
      end
  end.

Definition strncpy (dst src : list ascii) (n : nat) : option (list ascii) :=
  w ← strncpy_copy src n; overwrite dst w.

(** charmap of strcasecmp.c: upper case letters to lower case ones. *)
Definition charmap (a : ascii) : Z :=
  let c := uch a in if (65 <=? c) && (c <=? 90) then c + 32 else c.

#[global] Arguments charmap : simpl never.
#[local] Arguments Z.eqb : simpl never.

Fixpoint strcasecmp (m1 m2 : list ascii) : option Z :=
  match m1, m2 with
  | a :: m1, b :: m2 =>
      if charmap a =? charmap b then
        if is_nul a then Some 0 else strcasecmp m1 m2
      else Some (charmap a - charmap b)
  | _, _ => None
  end.

Fixpoint strncasecmp (m1 m2 : list ascii) (n : nat) : option Z :=
  match n with
  | O => Some 0
  | S n =>
      match m1, m2 with
      | a :: m1, b :: m2 =>
          if negb (charmap a =? charmap b) then Some (charmap a - charmap b)
          else if is_nul a then Some 0 else strncasecmp m1 m2 n
      | _, _ => None
      end
  end.

(** A pointer result is an offset from the argument, [None] for NULL. *)
Fixpoint strchr (p : list ascii) (ch : ascii) : option (option nat) :=
  match p with
  | [] => None
  | c :: p =>
      if Ascii.eqb c ch then Some (Some O)
      else if is_nul c then Some None
      else option_map (option_map S) (strchr p ch)
  end.

Fixpoint strrchr_loop (p : list ascii) (ch : ascii) (pos : nat) (save : option nat)
    : option (option nat) :=
  match p with
  | [] => None
  | c :: p =>
      let save := if Ascii.eqb c ch then Some pos else save in
      if is_nul c then Some save else strrchr_loop p ch (S pos) save
  end.

Definition strrchr (p : list ascii) (ch : ascii) : option (option nat) := strrchr_loop p ch O None.

(** strtok_r on the memory [s]; [delim] is the delimiter string.  The loop
    at [cont] skips delimiters; the result is the token and, unless the
    token ended at the NUL, the memory *last points to. *)
Definition is_delim (delim : list ascii) (c : ascii) : bool := existsb (Ascii.eqb c) delim.

Fixpoint strtok_scan (delim : list ascii) (s : list ascii) : option (list ascii * option (list ascii)) :=
  match s with
  | [] => None
  | c :: s =>
      if is_delim delim c then Some ([], Some s)
      else if is_nul c then Some ([], None)
      else '(t, last) ← strtok_scan delim s; Some (c :: t, last)
  end.

Fixpoint strtok_skip (delim : list ascii) (s : list ascii) : option (option (list ascii) * option (list ascii)) :=
  match s with
  | [] => None
  | c :: s' =>
      if is_delim delim c then strtok_skip delim s'
      else if is_nul c then Some (None, None)
      else '(t, last) ← strtok_scan delim s; Some (Some t, last)
  end.

Definition strtok_r (delim : list ascii) (s : option (list ascii)) (last : option (list ascii))
    : option (option (list ascii) * option (list ascii)) :=
  match s, last with
  | None, None => Some (None, None)
  | None, Some l => strtok_skip delim l
  | Some s, _ => strtok_skip delim s
  end.

(** The loop [for (t = strtok(s, d); t; t = strtok(NULL, d))] over a whole
    string: the tokens in order. *)
Fixpoint strtok_all (fuel : nat) (delim : list ascii) (s last : option (list ascii))
    : option (list (list ascii)) :=
  match fuel with
  | O => None
  | S fuel =>
      '(t, last) ← strtok_r delim s last;
      match t with
      | None => Some []
      | Some t => (cons t) <$> strtok_all fuel delim None last
      end
  end.

(** ** Strings in memory *)

Definition bytes (s : string) : list ascii := String.list_ascii_of_string s.

Definition no_nul (s : string) : Prop := Forall (λ c, is_nul c = false) (bytes s).

(** Memory that holds the string [s]. *)
Definition cstring_at (m : list ascii) (s : string) : Prop :=
  no_nul s ∧ ∃ rest, m = bytes s ++ NUL :: rest.

(** The first [n] characters. *)
Definition stake (n : nat) (s : string) : string :=
  String.string_of_list_ascii (take n (bytes s)).

Definition slen (s : string) : Z := Zlen (bytes s).

(** The order of strcmp on strings. *)
Fixpoint str_compare (s1 s2 : string) : Z :=
  match s1, s2 with
  | EmptyString, EmptyString => 0
  | EmptyString, String b _ => - uch b
  | String a _, EmptyString => uch a
  | String a s1, String b s2 => if Ascii.eqb a b then str_compare s1 s2 else uch a - uch b
  end.

Definition lower (s : string) : list Z := map charmap (bytes s).

Lemma is_nul_NUL : is_nul NUL = true.
Proof. done. Qed.

Lemma is_nul_spec c : is_nul c = true ↔ c = NUL.
Proof. apply Ascii.eqb_eq. Qed.

Lemma uch_inj a b : uch a = uch b → a = b.
Proof.
  unfold uch. intros H%N2Z.inj. rewrite <- (ascii_N_embedding a), <- (ascii_N_embedding b).
  by rewrite H.
Qed.

Lemma uch_range a : 0 ≤ uch a < 256.
Proof. unfold uch. pose proof (N_ascii_bounded a). lia. Qed.

Lemma uch_pos a : is_nul a = false → 0 < uch a.
Proof.
  intros Ha. pose proof (uch_range a). assert (uch a ≠ 0); [|lia].
  intros H0. change 0 with (uch NUL) in H0. apply uch_inj in H0. by subst.
Qed.

Lemma cstring_at_nil m : cstring_at m "" → ∃ rest, m = NUL :: rest.
Proof. by intros [_ [rest ->]]; eauto. Qed.

Lemma cstring_at_cons m c s :
  cstring_at m (String c s) → ∃ m', m = c :: m' ∧ is_nul c = false ∧ cstring_at m' s.
Proof.
  intros [[Hc Hs]%Forall_cons [rest ->]]. eexists. split; [reflexivity|].
  split; [done|]. split; [done|]. eauto.
Qed.

Lemma cstring_at_intro s rest : no_nul s → cstring_at (bytes s ++ NUL :: rest) s.
Proof. intros Hs. split; eauto. Qed.

(** Take a string off the memory that holds it. *)
Ltac cstr :=
  repeat match goal with
  | H : cstring_at _ EmptyString |- _ => apply cstring_at_nil in H as [? ->]
  | H : cstring_at _ (String _ _) |- _ => apply cstring_at_cons in H as (? & -> & ? & ?)
  end.

Lemma bytes_inj s t : bytes s = bytes t → s = t.
Proof.
  intros H. rewrite <- (String.string_of_list_ascii_of_string s), <- (String.string_of_list_ascii_of_string t).
  unfold bytes in H. by rewrite H.
Qed.

Lemma bytes_of_list l : bytes (String.string_of_list_ascii l) = l.
Proof. apply String.list_ascii_of_string_of_list_ascii. Qed.

Lemma slen_String c s : slen (String c s) = 1 + slen s.
Proof. unfold slen. simpl. apply Zlen_cons. Qed.

Lemma slen_nonneg s : 0 ≤ slen s.
Proof. apply Zlen_nonneg. Qed.

Lemma no_nul_take n s : no_nul s → no_nul (stake n s).
Proof. unfold no_nul, stake. rewrite bytes_of_list. apply Forall_take. Qed.

Lemma strlen_string m s : cstring_at m s → strlen m = Some (slen s).
Proof.
  revert m. induction s as [|c s IH]; intros m Hm; cstr; simpl; [done|].
  rewrite H, (IH x) by done. simpl. rewrite slen_String. f_equal. lia.
Qed.

Lemma is_nul_neq a b : is_nul a = true → is_nul b = false → Ascii.eqb a b = false.
Proof.
  intros ->%is_nul_spec Hb. apply Ascii.eqb_neq. by intros <-.
Qed.

(** ** Comparison *)

Lemma strcmp_string m1 m2 s1 s2 :
  cstring_at m1 s1 → cstring_at m2 s2 → strcmp m1 m2 = Some (str_compare s1 s2).
Proof.
  revert m1 m2 s2. induction s1 as [|a s1 IH]; intros m1 m2 [|b s2] H1 H2; cstr; simpl.
  - done.
  - by rewrite is_nul_neq.
  - rewrite Ascii.eqb_sym, is_nul_neq by done. f_equal. change (uch NUL) with 0. lia.
  - destruct (Ascii.eqb_spec a b) as [->|]; [|done]. rewrite H. by apply IH.
Qed.

Lemma str_compare_eq s1 s2 :
  no_nul s1 → no_nul s2 → str_compare s1 s2 = 0 ↔ s1 = s2.
Proof.
  revert s2. induction s1 as [|a s1 IH]; intros [|b s2] H1 H2; simpl.
  - done.
  - apply Forall_cons in H2 as [Hb%uch_pos _]. split; [lia|done].
  - apply Forall_cons in H1 as [Ha%uch_pos _]. split; [lia|done].
  - apply Forall_cons in H1 as [Ha H1], H2 as [Hb H2].
    destruct (Ascii.eqb_spec a b) as [->|Hne].
    + rewrite IH by done. split; [by intros ->|by intros [= ->]].
    + split; [|congruence]. intros H. destruct Hne. apply uch_inj. lia.
Qed.

Lemma str_compare_antisym s1 s2 : str_compare s2 s1 = - str_compare s1 s2.
Proof.
  revert s2. induction s1 as [|a s1 IH]; intros [|b s2]; simpl; [done|lia|lia|].
  rewrite Ascii.eqb_sym. destruct (Ascii.eqb a b); [apply IH|lia].
Qed.

Lemma str_compare_trans s1 s2 s3 :
  no_nul s2 → str_compare s1 s2 < 0 → str_compare s2 s3 < 0 → str_compare s1 s3 < 0.
Proof.
  revert s2 s3. induction s1 as [|a s1 IH]; intros [|b s2] [|c s3] Hn; simpl;
    try (pose proof (uch_range a)); try (pose proof (uch_range b)); try (pose proof (uch_range c));
    try lia.
  - apply Forall_cons in Hn as [Hb%uch_pos _]. destruct (Ascii.eqb_spec b c) as [->|]; lia.
  - apply Forall_cons in Hn as [_ Hn].
    destruct (Ascii.eqb_spec a b) as [->|Hab].
    + destruct (Ascii.eqb_spec b c); [by apply IH|lia].
    + destruct (Ascii.eqb_spec b c) as [->|], (Ascii.eqb_spec a c) as [->|]; (lia || congruence).
Qed.

Lemma stake_0 s : stake 0 s = ""%string.
Proof. done. Qed.

Lemma stake_cons n c s : stake (S n) (String c s) = String c (stake n s).
Proof. done. Qed.

Lemma strncmp_string n m1 m2 s1 s2 :
  cstring_at m1 s1 → cstring_at m2 s2 →
  strncmp m1 m2 n = Some (str_compare (stake n s1) (stake n s2)).
Proof.
  revert m1 m2 s1 s2. induction n as [|n IH]; intros m1 m2 [|a s1] [|b s2] H1 H2; cstr;
    rewrite ?stake_0, ?stake_cons; simpl; try done.
  - by rewrite is_nul_neq.
  - rewrite Ascii.eqb_sym, is_nul_neq by done. simpl. f_equal. change (uch NUL) with 0. lia.
  - destruct (Ascii.eqb_spec a b) as [->|]; [|done]. simpl. rewrite H. by apply IH.
Qed.

Lemma charmap_nul a b : is_nul a = true → is_nul b = false → charmap a ≠ charmap b.
Proof.
  intros ->%is_nul_spec Hb%uch_pos. unfold charmap. change (uch NUL) with 0. simpl.
  destruct (_ && _) eqn:E; lia.
Qed.

Lemma strcasecmp_string m1 m2 s1 s2 :
  cstring_at m1 s1 → cstring_at m2 s2 →
  ∃ z, strcasecmp m1 m2 = Some z ∧ (z = 0 ↔ lower s1 = lower s2).
Proof.
  revert m1 m2 s2. induction s1 as [|a s1 IH]; intros m1 m2 [|b s2] H1 H2; cstr; simpl.
  - by exists 0.
  - rewrite (proj2 (Z.eqb_neq _ _)) by (by apply charmap_nul).
    eexists. split; [done|]. pose proof (charmap_nul NUL b eq_refl H). split; [lia|done].
  - assert (charmap a ≠ charmap NUL) by (by apply not_eq_sym, charmap_nul).
    rewrite (proj2 (Z.eqb_neq _ _)) by done. eexists. split; [done|]. split; [lia|done].
  - destruct (Z.eqb_spec (charmap a) (charmap b)) as [E|E].
    + match goal with H : is_nul a = false |- _ => rewrite H end.
      destruct (IH x0 x s2) as (z & -> & Hz); [done..|]. exists z. split; [done|].
      rewrite Hz. unfold lower. simpl. rewrite E. split; [by intros ->|by intros [= ->]].
    + eexists. split; [done|]. unfold lower. simpl. split; [lia|]. by intros [= ? _].
Qed.

(** ** Copying *)

Lemma strlcpy_copy_string m s n :
  cstring_at m s →
  strlcpy_copy m n = Some
    (if decide (n ≤ String.length s)%nat then (bytes (stake n s), Some (drop n m))
     else (bytes s ++ [NUL], None)).
Proof.
  revert m n. induction s as [|c s IH]; intros m [|n] Hm; cstr; try done.
  rewrite stake_cons. simpl. rewrite H, (IH x n) by done. simpl.
  destruct (decide (n ≤ String.length s)%nat), (decide (S n ≤ S (String.length s))%nat);
    (done || lia).
Qed.

Lemma length_bytes s : length (bytes s) = String.length s.
Proof. induction s; simpl; [done|]. by f_equal. Qed.

Lemma cstring_at_drop n m s :
  cstring_at m s → (n ≤ String.length s)%nat →
  cstring_at (drop n m) (String.string_of_list_ascii (drop n (bytes s))).
Proof.
  intros [Hs [rest ->]] Hn. split.
  - unfold no_nul. rewrite bytes_of_list. by apply Forall_drop.
  - exists rest. rewrite bytes_of_list, drop_app_le; [done|]. by rewrite length_bytes.
Qed.

(** strlcpy into an array of at least [siz] bytes stores the longest prefix
    of the source that fits, NUL terminated, leaves the rest of the array
    alone and returns the length of the source. *)
Lemma strlcpy_string dst m s siz :
  cstring_at m s → (0 < siz ≤ length dst)%nat →
  let t := stake (siz - 1) s in
  strlcpy dst m siz =
    Some (bytes t ++ NUL :: drop (S (length (bytes t))) dst, slen s).
Proof.
  intros Hm Hsiz t. destruct siz as [|n]; [lia|]. unfold t. simpl. rewrite Nat.sub_0_r.
  rewrite (strlcpy_copy_string m s n Hm).
  destruct (decide (n ≤ String.length s)%nat) as [Hle|Hgt]; simpl.
  - assert (length (bytes (stake n s)) = n) as Hlen.
    { unfold stake. rewrite bytes_of_list, length_take, length_bytes. lia. }
    unfold overwrite. rewrite length_app, Hlen. simpl.
    rewrite (proj2 (Nat.ltb_ge _ _)) by lia. simpl.
    rewrite (strlen_string _ _ (cstring_at_drop n m s Hm Hle)). simpl. do 2 f_equal.
    + rewrite <- app_assoc. simpl. do 3 f_equal. lia.
    + unfold slen. rewrite bytes_of_list. unfold Zlen. rewrite Hlen, length_drop, length_bytes. lia.
  - assert (stake n s = s) as ->.
    { apply bytes_inj. unfold stake. rewrite bytes_of_list, take_ge; [done|]. rewrite length_bytes. lia. }
    unfold overwrite. rewrite length_app, length_bytes. simpl.
    rewrite (proj2 (Nat.ltb_ge _ _)) by lia. simpl. do 2 f_equal.
    + rewrite <- app_assoc. simpl. do 3 f_equal. lia.
    + unfold slen. rewrite Zlen_app. change (Zlen [NUL]) with 1. lia.
Qed.

(** strncpy pads with NULs and does not terminate a source that fills the
    destination. *)
Lemma strncpy_copy_string m s n :
  cstring_at m s →
  strncpy_copy m n = Some (bytes (stake n s) ++ repeat NUL (n - String.length s)).
Proof.
  revert m n. induction s as [|c s IH]; intros m [|n] Hm; cstr; try done.
  rewrite stake_cons. simpl. rewrite H, (IH x n) by done. done.
Qed.

(** ** Searching *)

Lemma strchr_string m s ch :
  cstring_at m s → is_nul ch = false →
  strchr m ch = Some (fst <$> list_find (λ c, c = ch) (bytes s)).
Proof.
  revert m. induction s as [|c s IH]; intros m Hm Hch; cstr; simpl.
  - by rewrite is_nul_neq.
  - rewrite H, (IH x) by done. destruct (Ascii.eqb_spec c ch) as [->|Hne].
    + by rewrite decide_True.
    + rewrite decide_False by done. unfold bytes. by destruct (list_find _ _) as [[]|].
Qed.

Lemma strrchr_loop_string m s ch pos save :
  cstring_at m s → is_nul ch = false →
  ∃ r, strrchr_loop m ch pos save = Some r ∧
    ((r = save ∧ ch ∉ bytes s) ∨
     ∃ i, r = Some (pos + i)%nat ∧ bytes s !! i = Some ch ∧
       ∀ j, (i < j)%nat → bytes s !! j ≠ Some ch).
Proof.
  revert m pos save. induction s as [|c s IH]; intros m pos save Hm Hch; cstr; simpl.
  - rewrite is_nul_neq by done. eexists. split; [done|]. left. split; [done|]. apply not_elem_of_nil.
  - rewrite H. destruct (IH x (S pos) (if Ascii.eqb c ch then Some pos else save))
      as (r & -> & Hr); [done..|].
    exists r. split; [done|]. destruct Hr as [[-> Hni]|(i & -> & Hi & Hmax)].
    + destruct (Ascii.eqb_spec c ch) as [->|Hne].
      * right. exists O. rewrite Nat.add_0_r. split_and!; [done..|].
        intros [|j] Hj; [lia|]. simpl. intros Hl%list_elem_of_lookup_2. done.
      * left. split; [done|]. apply not_elem_of_cons. split; [congruence|done].
    + right. exists (S i). split_and!; [f_equal; lia|done|].
      intros [|j] Hj; [lia|]. simpl. apply Hmax. lia.
Qed.

(** ** Tokens *)

(** The fields of a list between separators, empty ones included. *)
Fixpoint fields (sep : ascii → bool) (l : list ascii) : list (list ascii) :=
  match l with
  | [] => [[]]
  | c :: l =>
      if sep c then [] :: fields sep l
      else match fields sep l with
           | f :: fs => (c :: f) :: fs
           | [] => [[c]]
           end
  end.

Lemma fields_single sep w : forallb (λ c, negb (sep c)) w = true → fields sep w = [w].
Proof.
  induction w as [|c w IH]; simpl; intros Hw; [done|].
  apply andb_true_iff in Hw as [Hc%negb_true_iff Hw]. by rewrite Hc, IH.
Qed.

Lemma fields_word sep w l :
  forallb (λ c, negb (sep c)) w = true →
  match l with c :: _ => sep c = true | [] => False end →
  fields sep (w ++ l) = w :: tail (fields sep l).
Proof.
  induction w as [|c w IH]; simpl; intros Hw Hl.
  - destruct l as [|c l]; [done|]. simpl. by rewrite Hl.
  - apply andb_true_iff in Hw as [Hc%negb_true_iff Hw]. by rewrite Hc, IH.
Qed.

Lemma bytes_app s t : bytes (s +:+ t) = bytes s ++ bytes t.
Proof. induction s; simpl; [done|]. by f_equal. Qed.

(** The fields that are not empty. *)
Definition tokens (delim l : list ascii) : list (list ascii) :=
  filter (λ t, t ≠ []) (fields (is_delim delim) l).

Definition nul_free (l : list ascii) : Prop := Forall (λ c, is_nul c = false) l.

Section strtok_facts.
Context (delim : list ascii) (rest : list ascii).
Hypothesis Hdelim : nul_free delim.

Lemma is_delim_nul : is_delim delim NUL = false.
Proof using Hdelim.
  unfold is_delim. induction Hdelim as [|c l Hc Hl IH]; simpl; [done|].
  rewrite is_nul_neq by done. by apply IH.
Qed.

Lemma strtok_scan_fields l :
  nul_free l →
  (strtok_scan delim (l ++ NUL :: rest) = Some (l, None) ∧ fields (is_delim delim) l = [l]) ∨
  ∃ f l', (length l' < length l)%nat ∧ nul_free l' ∧
    strtok_scan delim (l ++ NUL :: rest) = Some (f, Some (l' ++ NUL :: rest)) ∧
    fields (is_delim delim) l = f :: fields (is_delim delim) l'.
Proof using Hdelim.
  induction 1 as [|c l Hc Hl IH]; simpl.
  - left. by rewrite is_delim_nul.
  - destruct (is_delim delim c) eqn:Ed.
    { right. exists [], l. split_and!; [lia|done..]. }
    rewrite Hc. destruct IH as [[-> ->]|(f & l' & Hlt & Hl' & -> & ->)]; simpl.
    + by left.
    + right. exists (c :: f), l'. split_and!; [lia|done..].
Qed.

Lemma strtok_skip_tokens l :
  nul_free l →
  (strtok_skip delim (l ++ NUL :: rest) = Some (None, None) ∧ tokens delim l = []) ∨
  ∃ t last, strtok_skip delim (l ++ NUL :: rest) = Some (Some t, last) ∧
    ((last = None ∧ tokens delim l = [t]) ∨
     ∃ l', last = Some (l' ++ NUL :: rest) ∧ (length l' < length l)%nat ∧ nul_free l' ∧
       tokens delim l = t :: tokens delim l').
Proof using Hdelim.
  unfold tokens. induction 1 as [|c l Hc Hl IH]; simpl.
  { left. by rewrite is_delim_nul. }
  destruct (is_delim delim c) eqn:Ed.
  { rewrite filter_cons, decide_False by naive_solver.
    destruct IH as [?|(t & last & -> & Hl')]; [by left|]. right. exists t, last.
    split; [done|]. destruct Hl' as [?|(l' & ? & ? & ? & ?)]; [by left|].
    right. exists l'. split_and!; [done|lia|done..]. }
  rewrite Hc. right.
  destruct (strtok_scan_fields l Hl) as [[-> ->]|(f & l' & Hlt & Hl' & -> & ->)]; simpl.
  - exists (c :: l), None. split; [done|]. left. split; [done|].
    by rewrite filter_cons, decide_True.
  - exists (c :: f), (Some (l' ++ NUL :: rest)). split; [done|]. right. exists l'.
    split_and!; [done|lia|done|]. by rewrite filter_cons, decide_True.
Qed.

Lemma strtok_all_last fuel l :
  nul_free l → (length l < fuel)%nat →
  strtok_all fuel delim None (Some (l ++ NUL :: rest)) = Some (tokens delim l).
Proof using Hdelim.
  revert l. induction fuel as [|fuel IH]; intros l Hl Hf; [lia|]. simpl.
  destruct (strtok_skip_tokens l Hl) as [[-> ->]|(t & last & -> & Hlast)]; simpl; [done|].
  destruct Hlast as [[-> Ht]|(l' & -> & Hlt & Hl' & ->)].
  - rewrite Ht. destruct fuel; [|done]. by destruct l; [|simpl in Hf; lia].
  - by rewrite IH by (done || lia).
Qed.
End strtok_facts.

(** Decide that a concrete string has no NUL. *)
Ltac nulfree :=
  match goal with
  | |- cstring_at _ _ => apply cstring_at_intro; nulfree
  | _ => unfold no_nul, nul_free; apply (bool_decide_unpack _); vm_compute; exact I
  end.

(** ** The theorems *)

(** strcmp is a decision procedure for equality and a strict total order
    on strings: zero exactly for equal strings, and antisymmetric. *)
Theorem strcmp_correct m1 m2 s1 s2 :
  cstring_at m1 s1 → cstring_at m2 s2 →
  ∃ z, strcmp m1 m2 = Some z ∧ (z = 0 ↔ s1 = s2) ∧ strcmp m2 m1 = Some (- z).
Proof.
  intros H1 H2. exists (str_compare s1 s2). split_and!.
  - by apply strcmp_string.
  - apply str_compare_eq; [apply H1|apply H2].
  - rewrite <- str_compare_antisym. by apply strcmp_string.
Qed.

(** strlcpy stores the longest prefix that fits with its NUL, writes
    nothing beyond it, and returns a value of at least the size exactly
    when it truncated. *)
Theorem strlcpy_correct dst m s siz :
  cstring_at m s → (0 < siz ≤ length dst)%nat →
  ∃ dst', strlcpy dst m siz = Some (dst', slen s)
    ∧ cstring_at dst' (stake (siz - 1) s)
    ∧ length dst' = length dst ∧ drop siz dst' = drop siz dst
    ∧ (Z.of_nat siz ≤ slen s ↔ stake (siz - 1) s ≠ s).
Proof.
  intros Hm Hsiz. rewrite (strlcpy_string dst m s siz) by done.
  set (t := stake (siz - 1) s). eexists. split; [done|].
  assert (length (bytes t) = Nat.min (siz - 1) (String.length s)) as Hlen.
  { unfold t, stake. by rewrite bytes_of_list, length_take, length_bytes. }
  split_and!.
  - apply cstring_at_intro. apply no_nul_take. apply Hm.
  - rewrite length_app. simpl. rewrite length_drop. lia.
  - rewrite drop_app_ge by lia. destruct (siz - length (bytes t))%nat eqn:E; [lia|].
    simpl. rewrite drop_drop. f_equal. lia.
  - unfold slen, Zlen. rewrite length_bytes. split.
    + intros Hle Heq. rewrite Heq, length_bytes in Hlen. lia.
    + intros Hne. destruct (decide (siz ≤ String.length s)%nat); [lia|]. destruct Hne.
      apply bytes_inj. unfold t, stake. rewrite bytes_of_list, take_ge; [done|].
      rewrite length_bytes. lia.
Qed.

(** The strtok loop returns exactly the nonempty fields between
    delimiters, in order. *)
Theorem strtok_correct delim m s fuel :
  nul_free delim → cstring_at m s → slen s < Z.of_nat fuel →
  strtok_all fuel delim (Some m) None = Some (tokens delim (bytes s)).
Proof.
  intros Hd [Hs [rest ->]] Hf. destruct fuel as [|fuel]; [unfold slen, Zlen in Hf; lia|].
  change (strtok_all (S fuel) delim (Some (bytes s ++ NUL :: rest)) None)
    with (strtok_all (S fuel) delim None (Some (bytes s ++ NUL :: rest))).
  apply strtok_all_last; [done..|]. unfold slen, Zlen in Hf. lia.
Qed.

Lemma strcmp_correct_witness :
  ∃ z, strcmp (bytes "em0" ++ [NUL]) (bytes "em1" ++ [NUL]) = Some z
    ∧ (z = 0 ↔ "em0"%string = "em1"%string)
    ∧ strcmp (bytes "em1" ++ [NUL]) (bytes "em0" ++ [NUL]) = Some (- z).
Proof.
  apply strcmp_correct; nulfree.
Defined.

Lemma strlcpy_correct_witness :
  ∃ dst', strlcpy (repeat NUL 10) (bytes "vlan1000" ++ [NUL]) 8 = Some (dst', slen "vlan1000")
    ∧ cstring_at dst' (stake (8 - 1) "vlan1000")
    ∧ length dst' = length (repeat NUL 10) ∧ drop 8 dst' = drop 8 (repeat NUL 10)
    ∧ (Z.of_nat 8 ≤ slen "vlan1000" ↔ stake (8 - 1) "vlan1000" ≠ "vlan1000"%string).
Proof.
  apply strlcpy_correct; [nulfree|simpl; lia].
Defined.

Lemma strtok_correct_witness :
  strtok_all 11 (bytes ",") (Some (bytes ",psk,,ccmp" ++ [NUL])) None
  = Some (tokens (bytes ",") (bytes ",psk,,ccmp")).
Proof.
  apply strtok_correct; [nulfree..|by vm_compute].
Defined.
