(* ===== verification/CNum.v ===== *)
(** * CNum: number parsing and binary search of libc

    Models src/usr/src/lib/libc/stdlib: strtoll.c (and strtol.c, which is the
    same routine at the same width on the target), strtonum.c and bsearch.c.
    Character classes are those of the C locale. *)
From stdpp Require Import base list strings.
From Stdlib Require Import Ascii.
From S2P Require Import Prelude CString.

#[local] Arguments Z.eqb : simpl never.
#[local] Arguments Z.ltb : simpl never.
#[local] Arguments Z.leb : simpl never.

(** ** ctype.h *)

Definition in_range (lo hi : Z) (a : ascii) : bool := (lo <=? uch a) && (uch a <=? hi).
Definition isspace (a : ascii) : bool := in_range 9 13 a || (uch a =? 32).
Definition isdigit (a : ascii) : bool := in_range 48 57 a.
Definition isupper (a : ascii) : bool := in_range 65 90 a.
Definition islower (a : ascii) : bool := in_range 97 122 a.
Definition isalpha (a : ascii) : bool := isupper a || islower a.
Definition isxdigit (a : ascii) : bool := isdigit a || in_range 65 70 a || in_range 97 102 a.
Definition isascii (a : ascii) : bool := uch a <? 128.

(** ** strtoll *)

Definition digit_val (c : ascii) : option Z :=
  if isdigit c then Some (uch c - 48)
  else if isalpha c then Some (uch c - (if isupper c then 55 else 87))
  else None.

(** [do c = *s++; while (isspace(c))]: the character read, the memory after
    it and its offset. *)
Fixpoint skip_space (s : list ascii) (pos : Z) : option (ascii * list ascii * Z) :=
  match s with
  | [] => None
  | c :: s => if isspace c then skip_space s (pos + 1) else Some (c, s, pos + 1)
  end.

Definition next_char (s : list ascii) (pos : Z) : option (ascii * list ascii * Z) :=
  match s with
  | [] => None
  | c :: s => Some (c, s, pos + 1)
  end.

(** The digit loop.  [pos] is the offset of [s], the memory after [c];
    [any] and [acc] are the variables of the source and [erange] records
    that errno was set to ERANGE. *)
Fixpoint strtoll_loop (neg : bool) (base cutoff cutlim : Z) (c : ascii) (s : list ascii)
    (pos acc any : Z) (erange : bool) : option (Z * Z * bool) :=
  let finish := Some (acc, if any =? 0 then 0 else pos - 1, erange) in
  match digit_val c with
  | None => finish
  | Some d =>
      if base <=? d then finish else
      let '(acc, any, erange) :=
        if any <? 0 then (acc, any, erange)
        else if neg then
          if (acc <? cutoff) || ((acc =? cutoff) && (cutlim <? d)) then (LLONG_MIN, -1, true)
          else (acc * base - d, 1, erange)
        else
          if (cutoff <? acc) || ((acc =? cutoff) && (cutlim <? d)) then (LLONG_MAX, -1, true)
          else (acc * base + d, 1, erange) in
      match s with
      | [] => None
      | c :: s => strtoll_loop neg base cutoff cutlim c s (pos + 1) acc any erange
      end
  end.

(** White space and sign. *)
Definition strtoll_sign (nptr : list ascii) : option (bool * ascii * list ascii * Z) :=
  '(c, s, pos) ← skip_space nptr 0;
  if Ascii.eqb c "-" then '(c, s, pos) ← next_char s pos; Some (true, c, s, pos)
  else if Ascii.eqb c "+" then '(c, s, pos) ← next_char s pos; Some (false, c, s, pos)
  else Some (false, c, s, pos).

(** The prefix 0x, and the base it or a leading 0 chooses. *)
Definition strtoll_base (c : ascii) (s : list ascii) (pos base : Z)
    : option (ascii * list ascii * Z * Z) :=
  '(c, s, pos, base) ←
    (if ((base =? 0) || (base =? 16)) && Ascii.eqb c "0" then
       match s with
       | [] => None
       | x :: s1 =>
           if Ascii.eqb x "x" || Ascii.eqb x "X" then
             match s1 with
             | [] => None
             | c :: s2 => Some (c, s2, pos + 2, 16)
             end
           else Some (c, s, pos, base)
       end
     else Some (c, s, pos, base));
  Some (c, s, pos, if base =? 0 then if Ascii.eqb c "0" then 8 else 10 else base).

(** cutoff and cutlim. *)
Definition strtoll_cut (neg : bool) (base : Z) : Z * Z :=
  let cutoff := if neg then LLONG_MIN else LLONG_MAX in
  let cutlim := Z.rem cutoff base in
  let cutoff := Z.quot cutoff base in
  if neg then
    let '(cutoff, cutlim) :=
      if 0 <? cutlim then (cutoff + 1, cutlim - base) else (cutoff, cutlim) in
    (cutoff, - cutlim)
  else (cutoff, cutlim).

(** The value, the offset of *endptr, and whether errno was set to ERANGE. *)
Definition strtoll (nptr : list ascii) (base : Z) : option (Z * Z * bool) :=
  '(neg, c, s, pos) ← strtoll_sign nptr;
  '(c, s, pos, base) ← strtoll_base c s pos base;
  let '(cutoff, cutlim) := strtoll_cut neg base in
  strtoll_loop neg base cutoff cutlim c s pos 0 0 false.

(** strtol(3): long has the width of long long. *)
Definition strtol (nptr : list ascii) (base : Z) : option (Z * Z * bool) := strtoll nptr base.

(** ** strtonum *)

Inductive numerr := INVALID | TOOSMALL | TOOLARGE.

#[global] Instance numerr_eq_dec : EqDecision numerr.
Proof. solve_decision. Defined.

Definition errstr (e : numerr) : string :=
  match e with
  | INVALID => "invalid"
  | TOOSMALL => "too small"
  | TOOLARGE => "too large"
  end.

Definition numerr_errno (e : numerr) : Z :=
  match e with INVALID => EINVAL | TOOSMALL | TOOLARGE => ERANGE end.

(** The value, the entry of ev[] chosen ([None] is ev[0]) and the errno left,
    given the errno at entry. *)
Definition strtonum (numstr : list ascii) (minval maxval errno : Z)
    : option (Z * option numerr * Z) :=
  '(ll, error) ←
    (if maxval <? minval then Some (0, Some INVALID) else
     '(ll, ep, erange) ← strtoll numstr 10;
     match numstr !! Z.to_nat ep with
     | None => None
     | Some c =>
         Some (ll,
           if (ep =? 0) || negb (is_nul c) then Some INVALID
           else if ((ll =? LLONG_MIN) && erange) || (ll <? minval) then Some TOOSMALL
           else if ((ll =? LLONG_MAX) && erange) || (maxval <? ll) then Some TOOLARGE
           else None)
     end);
  Some (match error with None => ll | Some _ => 0 end, error,
        match error with None => errno | Some e => numerr_errno e end).

(** ** bsearch *)

(** [cmp i] is what the comparison function answers for the key and element
    [i]; the result is the index of the element found. *)
Fixpoint bsearch_loop (fuel : nat) (cmp : nat → Z) (base lim : nat) : option (option nat) :=
  match lim, fuel with
  | O, _ => Some None
  | _, O => None
  | _, S fuel =>
      let p := (base + Nat.div2 lim)%nat in
      if cmp p =? 0 then Some (Some p)
      else if 0 <? cmp p then bsearch_loop fuel cmp (p + 1)%nat (Nat.div2 (lim - 1))
      else bsearch_loop fuel cmp base (Nat.div2 lim)
  end.

(** Each round at least halves [lim], so as many rounds as elements do. *)
Definition bsearch (cmp : nat → Z) (nmemb : nat) : option (option nat) :=
  bsearch_loop nmemb cmp 0 nmemb.

(** ** Numerals *)

(** A character that is a digit of value [d] in [base]. *)
Definition is_digit_of (base : Z) (c : ascii) (d : Z) : Prop := digit_val c = Some d ∧ d < base.

(** A character that ends a numeral. *)
Definition ends_numeral (base : Z) (c : ascii) : Prop :=
  match digit_val c with None => True | Some d => base ≤ d end.

(** The value of a digit sequence continued from [v]. *)
Definition value (base v : Z) (ds : list Z) : Z := fold_left (λ v d, v * base + d) ds v.

Definition signed (neg : bool) (v : Z) : Z := if neg then - v else v.

(** The largest magnitude of a long long of the given sign. *)
Definition absmax (neg : bool) : Z := if neg then - LLONG_MIN else LLONG_MAX.

Lemma digit_val_nonneg c d : digit_val c = Some d → 0 ≤ d.
Proof.
  unfold digit_val, isalpha, isdigit, isupper, islower, in_range.
  destruct (Z.leb_spec 48 (uch c)), (Z.leb_spec (uch c) 57); simpl; try (intros [= <-]; lia);
  destruct (Z.leb_spec 65 (uch c)), (Z.leb_spec (uch c) 90); simpl; try (intros [= <-]; lia);
  destruct (Z.leb_spec 97 (uch c)), (Z.leb_spec (uch c) 122); simpl; try (intros [= <-]; lia);
  done.
Qed.

Lemma value_mono base v ds :
  1 < base → 0 ≤ v → Forall (λ d, 0 ≤ d) ds → v ≤ value base v ds.
Proof.
  intros Hb Hv Hds. revert v Hv. induction Hds as [|d ds Hd _ IH]; intros v Hv; simpl; [done|].
  unfold value in *. simpl. specialize (IH (v * base + d)). nia.
Qed.

Section strtoll_loop_facts.
Context (neg : bool) (base cutoff cutlim : Z).
Hypothesis Hbase : 1 < base.
Hypothesis Hcut : absmax neg = signed neg cutoff * base + cutlim.
Hypothesis Hlim : 0 ≤ cutlim < base.

(** acc, any and errno after digits of value [v]. *)
Definition acc_ok (v acc any : Z) (erange : bool) : Prop :=
  if absmax neg <? v then any = -1 ∧ acc = signed neg (absmax neg) ∧ erange = true
  else 0 ≤ any ∧ acc = signed neg v ∧ erange = false.

(** The overflow test of the source, without overflowing. *)
Lemma cutoff_test v d :
  0 ≤ v → 0 ≤ d < base →
  (if neg then (signed neg v <? cutoff) || ((signed neg v =? cutoff) && (cutlim <? d))
   else (cutoff <? signed neg v) || ((signed neg v =? cutoff) && (cutlim <? d)))
  = (absmax neg <? v * base + d).
Proof using Hbase Hcut Hlim.
  intros Hv Hd. rewrite Hcut. unfold signed in *. destruct neg.
  - destruct (Z.ltb_spec (- v) cutoff), (Z.eqb_spec (- v) cutoff),
      (Z.ltb_spec cutlim d), (Z.ltb_spec (- cutoff * base + cutlim) (v * base + d));
      simpl; try done; nia.
  - destruct (Z.ltb_spec cutoff v), (Z.eqb_spec v cutoff),
      (Z.ltb_spec cutlim d), (Z.ltb_spec (cutoff * base + cutlim) (v * base + d));
      simpl; try done; nia.
Qed.

Lemma strtoll_loop_digits l ds : Forall2 (is_digit_of base) l ds → ∀ x rest v acc any er pos c s,
  ends_numeral base x → c :: s = l ++ x :: rest →
  0 ≤ v → acc_ok v acc any er →
  ∃ acc' any' er', strtoll_loop neg base cutoff cutlim c s pos acc any er =
      Some (acc', if any' =? 0 then 0 else pos - 1 + Zlen l, er')
    ∧ acc_ok (value base v ds) acc' any' er'
    ∧ (if decide (l = []) then any' = any else any' ≠ 0).
Proof using Hbase Hcut Hlim.
  induction 1 as [|y d l ds [Hy Hlt] Hds IH]; intros x rest v acc any er pos c s Hx Hcs Hv Hacc.
  - injection Hcs as -> ->. exists acc, any, er. split_and!; [|done..].
    unfold ends_numeral in Hx. destruct rest; simpl; change (Zlen (@nil ascii)) with 0; rewrite Z.add_0_r;
      destruct (digit_val x); try done; by rewrite (proj2 (Z.leb_le _ _)).
  - injection Hcs as -> ->. pose proof (digit_val_nonneg y d Hy) as Hd.
    set (step := if any <? 0 then (acc, any, er) else
                 if absmax neg <? v * base + d then (signed neg (absmax neg), -1, true)
                 else (signed neg (v * base + d), 1, er)).
    assert (acc_ok (v * base + d) step.1.1 step.1.2 step.2 ∧ step.1.2 ≠ 0) as [Hstep Hne].
    { unfold step, acc_ok in *. destruct (Z.ltb_spec (absmax neg) v).
      - destruct Hacc as (-> & -> & ->). simpl. rewrite (proj2 (Z.ltb_lt _ _)) by nia. done.
      - destruct Hacc as (Ha & -> & ->). rewrite (proj2 (Z.ltb_ge any 0)) by lia.
        destruct (absmax neg <? v * base + d); done. }
    destruct (l ++ x :: rest) as [|c' s'] eqn:E; [by destruct l|].
    destruct (IH x rest (v * base + d) step.1.1 step.1.2 step.2 (pos + 1) c' s')
      as (acc' & any' & er' & Hrun & Hacc' & Hany'); [done|by rewrite E|nia|done|].
    exists acc', any', er'. split_and!; [|done|].
    + simpl. rewrite Hy, (proj2 (Z.leb_gt base d)) by lia.
      assert (strtoll_loop neg base cutoff cutlim c' s' (pos + 1) step.1.1 step.1.2 step.2
        = Some (acc', if any' =? 0 then 0 else pos - 1 + Zlen (y :: l), er')) as <-.
      { rewrite Hrun. do 3 f_equal. rewrite Zlen_cons. destruct (any' =? 0); lia. }
      unfold step, acc_ok in *. destruct (any <? 0) eqn:Eany; [done|].
      destruct (absmax neg <? v); [by destruct Hacc as (-> & _)|].
      destruct Hacc as (_ & -> & ->).
      pose proof (cutoff_test v d Hv (conj Hd Hlt)) as Htest.
      destruct neg; rewrite Htest; unfold signed, absmax in *;
        destruct (_ <? v * base + d); simpl; try done; do 2 f_equal; lia.
    + rewrite decide_False by done. destruct (decide (l = [])); [by subst any'|done].
Qed.
End strtoll_loop_facts.

Lemma skip_space_spec sp c s pos :
  Forall (λ c, isspace c = true) sp → isspace c = false →
  skip_space (sp ++ c :: s) pos = Some (c, s, pos + Zlen sp + 1).
Proof.
  intros Hsp Hc. revert pos. induction Hsp as [|y sp Hy _ IH]; intros pos; simpl.
  - rewrite Hc. do 3 f_equal. change (Zlen (@nil ascii)) with 0. lia.
  - rewrite Hy, IH, Zlen_cons. do 3 f_equal. lia.
Qed.

Inductive sign_of : list ascii → bool → Prop :=
| sign_none : sign_of [] false
| sign_plus : sign_of ["+"%char] false
| sign_minus : sign_of ["-"%char] true.

(** What strtoll returns for a numeral of value [v]: the value clamped to
    the type, and whether it had to be. *)
Definition clamped (neg : bool) (v : Z) : Z := signed neg (Z.min v (absmax neg)).

Lemma digit_not_special c d base :
  is_digit_of base c d →
  isspace c = false ∧ Ascii.eqb c "-" = false ∧ Ascii.eqb c "+" = false.
Proof.
  intros [Hd _]. split.
  - revert Hd. unfold digit_val, isspace, isalpha, isdigit, isupper, islower, in_range.
    destruct (Z.leb_spec 9 (uch c)), (Z.leb_spec (uch c) 13), (Z.eqb_spec (uch c) 32); simpl;
      try done; try lia;
    rewrite (proj2 (Z.leb_gt 48 (uch c))), (proj2 (Z.leb_gt 65 (uch c))),
      (proj2 (Z.leb_gt 97 (uch c))) by lia; done.
  - split; apply Ascii.eqb_neq; by intros ->.
Qed.

Lemma strtoll_cut_spec neg base :
  1 < base →
  let '(cutoff, cutlim) := strtoll_cut neg base in
  absmax neg = signed neg cutoff * base + cutlim ∧ 0 ≤ cutlim < base.
Proof.
  intros Hb. unfold strtoll_cut, absmax, signed. destruct neg.
  - assert (LLONG_MIN < 0) by done.
    pose proof (Z.quot_rem LLONG_MIN base ltac:(lia)) as Hq.
    pose proof (Z.rem_bound_pos_neg LLONG_MIN base ltac:(lia) ltac:(lia)) as Hr.
    rewrite (proj2 (Z.ltb_ge _ _)) by lia. lia.
  - assert (0 < LLONG_MAX) by done.
    pose proof (Z.quot_rem LLONG_MAX base ltac:(lia)) as Hq.
    pose proof (Z.rem_bound_pos LLONG_MAX base ltac:(lia) ltac:(lia)) as Hr. lia.
Qed.

Lemma strtoll_sign_spec sp sg neg c s :
  Forall (λ c, isspace c = true) sp → sign_of sg neg →
  (sg = [] → isspace c = false ∧ Ascii.eqb c "-" = false ∧ Ascii.eqb c "+" = false) →
  strtoll_sign (sp ++ sg ++ c :: s) = Some (neg, c, s, Zlen sp + Zlen sg + 1).
Proof.
  intros Hsp Hsg Hc. unfold strtoll_sign. destruct Hsg; simpl.
  - destruct Hc as (Hs & Hm & Hp); [done|].
    rewrite skip_space_spec by done. simpl. rewrite Hm, Hp.
    do 2 f_equal. change (Zlen (@nil ascii)) with 0. lia.
  - by rewrite skip_space_spec.
  - by rewrite skip_space_spec.
Qed.

(** No prefix is taken off when the base is given and the digits do not
    begin with 0x. *)
Lemma strtoll_base_spec c s pos base :
  base ≠ 0 →
  (base = 16 → c = "0"%char → ∃ x s', s = x :: s' ∧ Ascii.eqb x "x" || Ascii.eqb x "X" = false) →
  strtoll_base c s pos base = Some (c, s, pos, base).
Proof.
  intros Hb Hp. unfold strtoll_base. rewrite (proj2 (Z.eqb_neq base 0)) by done. simpl.
  destruct (Z.eqb_spec base 16) as [->|]; simpl; [|by rewrite (proj2 (Z.eqb_neq base 0))].
  destruct (Ascii.eqb_spec c "0") as [->|]; [|done].
  destruct (Hp eq_refl eq_refl) as (x & s' & -> & ->). done.
Qed.

(** strtoll on white space, a sign, digits [l] and a character [x] that is
    none: the general form of its input. *)
Lemma strtoll_spec base sp sg neg l ds x rest :
  1 < base → Forall (λ c, isspace c = true) sp → sign_of sg neg →
  Forall2 (is_digit_of base) l ds → ends_numeral base x →
  (sg = [] → l = [] → isspace x = false ∧ Ascii.eqb x "-" = false ∧ Ascii.eqb x "+" = false) →
  (base = 16 → l = ["0"%char] → Ascii.eqb x "x" || Ascii.eqb x "X" = false) →
  strtoll (sp ++ sg ++ l ++ x :: rest) base =
    Some (clamped neg (value base 0 ds),
          if decide (l = []) then 0 else Zlen sp + Zlen sg + Zlen l,
          absmax neg <? value base 0 ds).
Proof.
  intros Hb Hsp Hsg Hds Hx Hfirst Hpre. unfold strtoll.
  destruct (l ++ x :: rest) as [|c s] eqn:E; [by destruct l|].
  assert (sg = [] → isspace c = false ∧ Ascii.eqb c "-" = false ∧ Ascii.eqb c "+" = false) as Hc.
  { intros ->. destruct Hds as [|y d l ds Hy _]; injection E as <- _;
      [by apply Hfirst|by eapply digit_not_special]. }
  rewrite (strtoll_sign_spec sp sg neg c s) by done. simpl. rewrite strtoll_base_spec; [|lia|].
  2: { intros -> ->. destruct Hds as [|y d l ds Hy Hds]; injection E as -> <-; [by destruct Hx|].
       destruct Hds as [|y' d' l ds Hy' _]; eexists _, _; (split; [done|]); [by apply Hpre|].
       apply orb_false_iff. split; apply Ascii.eqb_neq; intros ->; by destruct Hy' as [[= <-] ?]. }
  simpl. pose proof (strtoll_cut_spec neg base Hb) as Hcut.
  destruct (strtoll_cut neg base) as [cutoff cutlim]. destruct Hcut as [Hcut Hlim].
  destruct (strtoll_loop_digits neg base cutoff cutlim Hb Hcut Hlim l ds Hds
    x rest 0 0 0 false (Zlen sp + Zlen sg + 1) c s) as (acc & any & er & -> & Hacc & Hany);
    [done..| |]. { unfold acc_ok. by destruct neg. }
  assert (acc = clamped neg (value base 0 ds) ∧ er = (absmax neg <? value base 0 ds)) as [-> ->].
  { unfold acc_ok, clamped in *. destruct (Z.ltb_spec (absmax neg) (value base 0 ds)).
    - destruct Hacc as (_ & -> & ->). by rewrite Z.min_r by lia.
    - destruct Hacc as (_ & -> & ->). by rewrite Z.min_l by lia. }
  do 3 f_equal. destruct (decide (l = [])); [by subst any|].
  rewrite (proj2 (Z.eqb_neq any 0)) by done. lia.
Qed.

(** ** strtonum on strings *)

Fixpoint drop_space (l : list ascii) : list ascii :=
  match l with
  | [] => []
  | c :: l' => if isspace c then drop_space l' else l
  end.

Definition split_sign (l : list ascii) : bool * list ascii :=
  match l with
  | c :: l' => if Ascii.eqb c "-" then (true, l') else if Ascii.eqb c "+" then (false, l')
               else (false, l)
  | [] => (false, l)
  end.

Definition decimal_digit (c : ascii) : option Z := if isdigit c then Some (uch c - 48) else None.

(** The integer a string denotes: white space, an optional sign and one or
    more decimal digits, to the end of the string. *)
Definition numeral (s : string) : option Z :=
  let '(neg, l) := split_sign (drop_space (bytes s)) in
  match l with
  | [] => None
  | _ => signed neg ∘ value 10 0 <$> mapM decimal_digit l
  end.

(** strtonum as its manual page has it. *)
Definition strtonum_s (s : string) (minval maxval : Z) : Z + numerr :=
  if maxval <? minval then inr INVALID else
  match numeral s with
  | None => inr INVALID
  | Some v => if v <? minval then inr TOOSMALL else if maxval <? v then inr TOOLARGE else inl v
  end.

Lemma strtonum_s_range s lo hi n : strtonum_s s lo hi = inl n → lo ≤ n ≤ hi.
Proof.
  unfold strtonum_s. case_match; [done|]. destruct (numeral s) as [v|]; [|done].
  destruct (Z.ltb_spec v lo); [done|]. destruct (Z.ltb_spec hi v); [done|]. by intros [= <-].
Qed.

Lemma drop_space_spec l :
  ∃ sp, l = sp ++ drop_space l ∧ Forall (λ c, isspace c = true) sp ∧
    match drop_space l with [] => True | c :: _ => isspace c = false end.
Proof.
  induction l as [|c l (sp & E & Hsp & Hd)]; simpl; [by exists []|].
  destruct (isspace c) eqn:Ec.
  - exists (c :: sp). simpl. split_and!; [by f_equal|by constructor|done].
  - by exists [].
Qed.

Lemma split_sign_spec l :
  ∃ sg, l = sg ++ (split_sign l).2 ∧ sign_of sg (split_sign l).1 ∧
    (sg = [] → match l with [] => True | c :: _ => Ascii.eqb c "-" = false ∧ Ascii.eqb c "+" = false end).
Proof.
  destruct l as [|c l]; simpl; [exists []; split_and!; [done|constructor|done]|].
  destruct (Ascii.eqb_spec c "-") as [->|]; simpl; [exists ["-"%char]; split_and!; [done|constructor|done]|].
  destruct (Ascii.eqb_spec c "+") as [->|]; simpl; [exists ["+"%char]; split_and!; [done|constructor|done]|].
  exists []. split_and!; [done|constructor|done].
Qed.

Lemma decimal_digit_spec c d : decimal_digit c = Some d ↔ is_digit_of 10 c d.
Proof.
  unfold decimal_digit, is_digit_of, digit_val. destruct (isdigit c) eqn:Ed.
  - split; [|by intros [[= <-] _]]. intros [= <-]. split; [done|].
    unfold isdigit, in_range in Ed. lia.
  - split; [done|]. intros [Hd Hlt]. revert Hd Hlt. unfold isalpha, isdigit, isupper, islower, in_range.
    destruct (Z.leb_spec 65 (uch c)), (Z.leb_spec (uch c) 90); simpl; try (intros [= <-]; lia);
    destruct (Z.leb_spec 97 (uch c)), (Z.leb_spec (uch c) 122); simpl; try (intros [= <-]; lia); done.
Qed.

(** The digits a list begins with. *)
Lemma span_digits l :
  ∃ ds_l ds tail, l = ds_l ++ tail ∧ Forall2 (is_digit_of 10) ds_l ds ∧
    match tail with [] => True | c :: _ => ends_numeral 10 c ∧ decimal_digit c = None end.
Proof.
  induction l as [|c l (dl & ds & tail & -> & Hds & Ht)].
  - exists [], [], []. split_and!; [done|constructor|done].
  - destruct (decimal_digit c) as [d|] eqn:Ed.
    + exists (c :: dl), (d :: ds), tail. split_and!; [done|constructor; [by apply decimal_digit_spec|done]|done].
    + exists [], [], (c :: dl ++ tail). split; [done|]. split; [done|]. split; [|done].
      unfold ends_numeral. destruct (digit_val c) as [d|] eqn:Ev; [|done].
      destruct (Z.le_gt_cases 10 d); [done|]. exfalso.
      assert (decimal_digit c = Some d) by (by apply decimal_digit_spec). congruence.
Qed.

(** What strtonum decides about an integer it has read. *)
Lemma strtonum_range neg v minval maxval :
  0 ≤ v → LLONG_MIN ≤ minval ≤ maxval → maxval ≤ LLONG_MAX →
  let ll := clamped neg v in
  let erange := absmax neg <? v in
  (if ((ll =? LLONG_MIN) && erange) || (ll <? minval) then Some TOOSMALL
   else if ((ll =? LLONG_MAX) && erange) || (maxval <? ll) then Some TOOLARGE else None)
  = (if signed neg v <? minval then Some TOOSMALL
     else if maxval <? signed neg v then Some TOOLARGE else None)
  ∧ (erange = false → ll = signed neg v)
  ∧ (erange = true → signed neg v < minval ∨ maxval < signed neg v).
Proof.
  intros Hv Hmin Hmax. simpl. unfold clamped, signed, absmax.
  assert (LLONG_MIN < 0 < LLONG_MAX) as Hlim by done.
  destruct neg.
  - destruct (Z.ltb_spec (- LLONG_MIN) v) as [Hov|Hov].
    + rewrite Z.min_r, Z.opp_involutive, Z.eqb_refl, (proj2 (Z.ltb_lt (- v) _)) by lia.
      split_and!; [done..|]. left. lia.
    + rewrite Z.min_l, !andb_false_r by lia. by split_and!.
  - destruct (Z.ltb_spec LLONG_MAX v) as [Hov|Hov].
    + rewrite Z.min_r, (proj2 (Z.eqb_neq LLONG_MAX LLONG_MIN)), Z.eqb_refl by lia. simpl.
      rewrite (proj2 (Z.ltb_ge LLONG_MAX _)), (proj2 (Z.ltb_ge v _)), (proj2 (Z.ltb_lt maxval _)) by lia.
      split_and!; [done..|]. right. lia.
    + rewrite Z.min_l, !andb_false_r by lia. by split_and!.
Qed.

Lemma mapM_decimal dl ds : Forall2 (is_digit_of 10) dl ds → mapM decimal_digit dl = Some ds.
Proof.
  intros H. apply mapM_Some_2. eapply Forall2_impl; [exact H|].
  intros c d. apply decimal_digit_spec.
Qed.

Lemma mapM_decimal_fail dl c l : decimal_digit c = None → mapM decimal_digit (dl ++ c :: l) = None.
Proof.
  intros Hc. induction dl as [|y dl IH]; simpl; [by rewrite Hc|].
  destruct (decimal_digit y); simpl; [|done]. by rewrite IH.
Qed.

Lemma value_nonneg ds : Forall (λ d, 0 ≤ d) ds → 0 ≤ value 10 0 ds.
Proof. intros. by apply value_mono. Qed.

Lemma digits_nonneg dl ds : Forall2 (is_digit_of 10) dl ds → Forall (λ d, 0 ≤ d) ds.
Proof. induction 1 as [|c d dl ds [Hd _] _ IH]; constructor; eauto using digit_val_nonneg. Qed.

(** How the bytes of a string decompose and what strtoll makes of them. *)
Lemma strtoll_string m s :
  cstring_at m s →
  ∃ neg dl ds tail x pos,
    split_sign (drop_space (bytes s)) = (neg, dl ++ tail)
    ∧ Forall2 (is_digit_of 10) dl ds
    ∧ match tail with [] => x = NUL | c :: _ => is_nul x = false ∧ decimal_digit c = None end
    ∧ m !! Z.to_nat pos = Some x ∧ (dl ≠ [] → 0 < pos)
    ∧ strtoll m 10 = Some (clamped neg (value 10 0 ds), if decide (dl = []) then 0 else pos,
                           absmax neg <? value 10 0 ds).
Proof.
  intros [Hs [rest ->]].
  destruct (drop_space_spec (bytes s)) as (sp & E1 & Hsp & Hd).
  destruct (split_sign_spec (drop_space (bytes s))) as (sg & E2 & Hsg & Hsg0).
  destruct (split_sign (drop_space (bytes s))) as [neg l] eqn:Esg. simpl in *.
  destruct (span_digits l) as (dl & ds & tail & -> & Hds & Ht).
  set (x := match tail with [] => NUL | c :: _ => c end).
  set (rest' := match tail with [] => rest | _ :: t => t ++ NUL :: rest end).
  assert (bytes s ++ NUL :: rest = sp ++ sg ++ dl ++ x :: rest') as Em.
  { rewrite E1, E2, <- !app_assoc. do 3 f_equal. by destruct tail. }
  unfold no_nul in Hs. rewrite E1, E2, !Forall_app in Hs. destruct Hs as (_ & _ & _ & Hnul).
  exists neg, dl, ds, tail, x, (Zlen sp + Zlen sg + Zlen dl). split_and!; [done..| | | |].
  - destruct tail as [|c t]; [done|]. apply Forall_cons in Hnul as [Hc _]. by destruct Ht.
  - rewrite Em, !app_assoc, lookup_app_r; rewrite !length_app; unfold Zlen; [|lia].
    replace (_ - _)%nat with O by lia. done.
  - intros Hne. destruct dl; [done|]. rewrite Zlen_cons. pose proof (Zlen_nonneg sp).
    pose proof (Zlen_nonneg sg). pose proof (Zlen_nonneg dl). lia.
  - rewrite Em. apply strtoll_spec; try done.
    + unfold x. destruct tail; [done|]. apply Ht.
    + intros -> ->. simpl in *. unfold x. rewrite E2 in Hd, Hsg0. simpl in *.
      destruct tail as [|c t]; [done|]. split; [done|]. by apply Hsg0.
Qed.

Lemma strtonum_string m s minval maxval errno :
  cstring_at m s → LLONG_MIN ≤ minval → maxval ≤ LLONG_MAX →
  strtonum m minval maxval errno =
    Some (match strtonum_s s minval maxval with
          | inl v => (v, None, errno)
          | inr e => (0, Some e, numerr_errno e)
          end).
Proof.
  intros Hm Hmin Hmax. unfold strtonum, strtonum_s, numeral.
  destruct (Z.ltb_spec maxval minval) as [|Hle]; [done|].
  destruct (strtoll_string m s Hm)
    as (neg & dl & ds & tail & x & pos & -> & Hds & Ht & Hx & Hpos & ->). simpl.
  destruct (decide (dl = [])) as [->|Hne].
  { destruct (m !! Z.to_nat 0) eqn:E0.
    2: { destruct Hm as [_ [rest ->]]. by destruct (bytes s). }
    simpl. destruct tail as [|c t]; [done|]. destruct Ht as [_ Hc]. simpl. by rewrite Hc. }
  rewrite Hx. simpl. specialize (Hpos Hne). rewrite (proj2 (Z.eqb_neq pos 0)) by lia. simpl.
  assert (∀ (A : Type) (a b : A), match dl ++ tail with [] => a | _ :: _ => b end = b) as Hm'
    by (intros; by destruct dl).
  rewrite Hm'. destruct tail as [|c t].
  - subst x. simpl. rewrite app_nil_r, (mapM_decimal dl ds Hds). simpl.
    destruct (strtonum_range neg (value 10 0 ds) minval maxval) as (-> & Hok & Hov);
      [eauto using value_nonneg, digits_nonneg|lia..|].
    destruct (Z.ltb_spec (signed neg (value 10 0 ds)) minval); [done|].
    destruct (Z.ltb_spec maxval (signed neg (value 10 0 ds))); [done|]. simpl.
    rewrite Hok; [done|]. destruct (absmax neg <? value 10 0 ds); [|done].
    destruct (Hov eq_refl); lia.
  - destruct Ht as [-> Hc]. simpl. by rewrite mapM_decimal_fail.
Qed.

(** ** Binary search *)

(** The answers of a comparison against a table in increasing order. *)
Definition cmp_sorted (cmp : nat → Z) (n : nat) : Prop :=
  ∀ i j, (i < j < n)%nat → cmp i ≤ 0 → cmp j < 0.

Lemma bsearch_loop_spec cmp n : cmp_sorted cmp n → ∀ fuel base lim,
  (lim ≤ fuel)%nat → (base + lim ≤ n)%nat →
  ∃ r, bsearch_loop fuel cmp base lim = Some r ∧
    match r with
    | Some i => (i < n)%nat ∧ cmp i = 0
    | None => ∀ i, (base ≤ i < base + lim)%nat → cmp i ≠ 0
    end.
Proof.
  intros Hs. induction fuel as [|fuel IH]; intros base lim Hf Hn.
  { assert (lim = O) as -> by lia. exists None. split; [done|]. lia. }
  destruct lim as [|lim]; [exists None; split; [done|]; lia|].
  cbn [bsearch_loop]. rewrite Nat.sub_succ, Nat.sub_0_r.
  assert (Nat.div2 (S lim) + Nat.div2 lim = lim)%nat as Hhalf.
  { clear. induction lim as [lim IH] using lt_wf_ind. destruct lim as [|[|lim]]; [done..|].
    specialize (IH lim). change (Nat.div2 (S (S (S lim)))) with (S (Nat.div2 (S lim))).
    change (Nat.div2 (S (S lim))) with (S (Nat.div2 lim)). lia. }
  pose proof (Nat.div2_decr (S lim) lim) as Hdec.
  set (half := Nat.div2 (S lim)) in *. remember (base + half)%nat as p eqn:Hp.
  destruct (Z.eqb_spec (cmp p) 0) as [H0|H0]; [exists (Some p); split_and!; [done|lia|done]|].
  destruct (Z.ltb_spec 0 (cmp p)) as [Hpos|Hneg].
  - destruct (IH (p + 1)%nat (Nat.div2 lim)) as (r & -> & Hr); [lia..|].
    exists r. split; [done|]. destruct r as [i|]; [done|].
    intros i Hi. destruct (decide (p + 1 ≤ i)%nat); [apply Hr; lia|].
    intros Hc. destruct (decide (i = p)) as [->|]; [lia|].
    specialize (Hs i p). lia.
  - destruct (IH base half) as (r & -> & Hr); [lia..|].
    exists r. split; [done|]. destruct r as [i|]; [done|].
    intros i Hi. destruct (decide (i < p)%nat); [apply Hr; lia|].
    destruct (decide (i = p)) as [->|]; [done|]. specialize (Hs p i). lia.
Qed.

(** ** The theorems *)

Lemma bsearch_spec cmp n :
  cmp_sorted cmp n →
  ∃ r, bsearch cmp n = Some r ∧
    match r with
    | Some i => (i < n)%nat ∧ cmp i = 0
    | None => ∀ i, (i < n)%nat → cmp i ≠ 0
    end.
Proof.
  intros Hs. destruct (bsearch_loop_spec cmp n Hs n 0 n) as (r & E & Hr); [lia..|].
  exists r. split; [done|]. destruct r; [done|]. intros i Hi. apply Hr. lia.
Qed.

(** A table of words in strictly increasing order. *)
Definition words_sorted (ks : list string) : Prop :=
  Forall no_nul ks ∧
  ∀ i j a b, (i < j)%nat → ks !! i = Some a → ks !! j = Some b → str_compare a b < 0.

(** Searching a table of words with strcmp(3) finds the row of the word. *)
Lemma bsearch_words k ks :
  no_nul k → words_sorted ks →
  ∃ r, bsearch (λ i, from_option (str_compare k) 0 (ks !! i)) (length ks) = Some r ∧
    match r with Some i => ks !! i = Some k | None => k ∉ ks end.
Proof.
  intros Hk [Hn Hs].
  destruct (bsearch_spec (λ i, from_option (str_compare k) 0 (ks !! i)) (length ks))
    as (r & E & Hr).
  { intros i j [Hij Hj]. destruct (lookup_lt_is_Some_2 ks i) as [a Ea]; [lia|].
    destruct (lookup_lt_is_Some_2 ks j) as [b Eb]; [lia|]. rewrite Ea, Eb. simpl. intros Hle.
    pose proof (Hs i j a b Hij Ea Eb) as Hab. pose proof (proj1 (list.Forall_lookup _ _) Hn i a Ea) as Ha.
    destruct (Z.eq_dec (str_compare k a) 0) as [Hz|].
    - apply str_compare_eq in Hz as ->; done.
    - apply (str_compare_trans k a b); [done|lia|done]. }
  exists r. split; [exact E|]. destruct r as [i|].
  - destruct Hr as [Hi Hz]. destruct (lookup_lt_is_Some_2 ks i Hi) as [a Ea]. rewrite Ea in Hz |- *.
    simpl in Hz. apply str_compare_eq in Hz as ->; [done|done|].
    by apply (proj1 (list.Forall_lookup _ _) Hn i).
  - intros (i & Ei)%list_elem_of_lookup. specialize (Hr i (lookup_lt_Some _ _ _ Ei)).
    rewrite Ei in Hr. simpl in Hr. apply Hr. by apply str_compare_eq.
Qed.

(** The order can be tested. *)
Fixpoint pairs_sorted (ks : list string) : bool :=
  match ks with
  | [] => true
  | k :: ks => forallb (λ b, str_compare k b <? 0) ks && pairs_sorted ks
  end.

Lemma words_sorted_check ks :
  Forall no_nul ks → pairs_sorted ks = true → words_sorted ks.
Proof.
  intros Hn Hp. split; [done|]. clear Hn. induction ks as [|k ks IH]; [done|].
  apply andb_true_iff in Hp as [Hk Hp]. intros [|i] [|j] a b Hij Ha Hb; try lia; simpl in *.
  - injection Ha as <-. apply list_elem_of_lookup_2, list_elem_of_In in Hb.
    rewrite forallb_forall in Hk. by apply Z.ltb_lt, Hk.
  - apply (IH Hp i j); [lia|done|done].
Qed.

Lemma bsearch_ext cmp cmp' n : (∀ i, cmp i = cmp' i) → bsearch cmp n = bsearch cmp' n.
Proof.
  intros E. unfold bsearch.
  assert (∀ fuel base lim, bsearch_loop fuel cmp base lim = bsearch_loop fuel cmp' base lim) as ->; [|done].
  induction fuel as [|fuel IH]; intros base [|lim]; simpl; try done. by rewrite !E, !IH.
Qed.

(** Searching a table of rows by a word in them. *)
Lemma bsearch_table {R} (key : R → string) (tbl : list R) w :
  no_nul w → words_sorted (key <$> tbl) →
  ∃ r, bsearch (λ i, from_option (λ e, str_compare w (key e)) 0 (tbl !! i)) (length tbl) = Some r ∧
    match r with Some i => ∃ e, tbl !! i = Some e ∧ key e = w | None => w ∉ key <$> tbl end.
Proof.
  intros Hw Hs. destruct (bsearch_words w _ Hw Hs) as (r & E & Hr). exists r. split.
  - rewrite <- E, length_fmap. apply bsearch_ext. intros i. rewrite list_lookup_fmap.
    by destruct (tbl !! i).
  - destruct r as [i|]; [|done]. rewrite list_lookup_fmap in Hr.
    destruct (tbl !! i) as [e|]; [|done]. injection Hr as <-. by exists e.
Qed.

(** The row of a word is the only one. *)
Lemma table_unique {R} (key : R → string) (tbl : list R) e e' :
  words_sorted (key <$> tbl) → e ∈ tbl → e' ∈ tbl → key e = key e' → e = e'.
Proof.
  intros [_ Hs] [i Hi]%list_elem_of_lookup [j Hj]%list_elem_of_lookup Ek.
  assert (∀ i j a b, (i < j)%nat → tbl !! i = Some a → tbl !! j = Some b → key a = key b → False) as Hlt.
  { intros i' j' a b Hij Ha Hb E. pose proof (Hs i' j' (key a) (key b) Hij) as H.
    rewrite !list_lookup_fmap, Ha, Hb in H. specialize (H eq_refl eq_refl). rewrite E in H.
    assert (str_compare (key b) (key b) = 0) as Hz; [|lia]. clear.
    induction (key b) as [|c s IH]; [done|]. simpl. by rewrite Ascii.eqb_refl. }
  destruct (Nat.lt_trichotomy i j) as [H|[->|H]]; [by destruct (Hlt i j e e')| |by destruct (Hlt j i e' e)].
  congruence.
Qed.

(** C38. strtonum accepts exactly the decimal integers within the bounds,
    returns their value, and otherwise says whether the string is no
    number, too small or too large; the bounds may be any long long, also
    the ones at which strtoll saturates. *)
Theorem strtonum_correct m s minval maxval errno :
  cstring_at m s → LLONG_MIN ≤ minval → maxval ≤ LLONG_MAX →
  strtonum m minval maxval errno =
    Some (match strtonum_s s minval maxval with
          | inl v => (v, None, errno)
          | inr e => (0, Some e, numerr_errno e)
          end).
Proof. apply strtonum_string. Qed.

(** bsearch terminates within as many rounds as there are elements, and
    on a table in increasing order finds an element equal to the key if and
    only if there is one. *)
Theorem bsearch_correct cmp n :
  cmp_sorted cmp n →
  ∃ r, bsearch cmp n = Some r ∧
    match r with
    | Some i => (i < n)%nat ∧ cmp i = 0
    | None => ∀ i, (i < n)%nat → cmp i ≠ 0
    end.
Proof. apply bsearch_spec. Qed.

Lemma strtonum_correct_witness :
  strtonum (bytes "-9223372036854775809" ++ [NUL]) LLONG_MIN LLONG_MAX 0 =
    Some (match strtonum_s "-9223372036854775809" LLONG_MIN LLONG_MAX with
          | inl v => (v, None, 0)
          | inr e => (0, Some e, numerr_errno e)
          end).
Proof. apply strtonum_correct; [nulfree|done..]. Defined.

Lemma bsearch_correct_witness :
  ∃ r, bsearch (λ i, 7 - Z.of_nat i * 2) 5 = Some r ∧
    match r with
    | Some i => (i < 5)%nat ∧ 7 - Z.of_nat i * 2 = 0
    | None => ∀ i, (i < 5)%nat → 7 - Z.of_nat i * 2 ≠ 0
    end.
Proof.
  apply (bsearch_correct (λ i, 7 - Z.of_nat i * 2) 5). intros i j Hij. lia.
Defined.
