(* ===== verification/NetAddr.v ===== *)
(** * NetAddr: link-level and Internet addresses as text

    Models src/usr/src/lib/libc/net/ethers.c (ether_ntoa, _ether_aton,
    ether_aton) and inet_aton of src/usr/src/lib/libc/net/inet_addr.c.  A
    link-level address is the list of its octets; an Internet address is
    kept in host byte order, so htonl(3) does not appear. *)
From stdpp Require Import base list strings.
From Stdlib Require Import Ascii.
From S2P Require Import Prelude CString CNum.

#[local] Arguments Z.eqb : simpl never.
#[local] Arguments Z.ltb : simpl never.
#[local] Arguments Z.leb : simpl never.
#[local] Arguments Z.mul : simpl never.
#[local] Arguments Z.add : simpl never.

(** ** ethers.c *)

(** The digit that prints as %x. *)
Definition xdigit (d : Z) : ascii := ascii_of_N (Z.to_N (if d <? 10 then 48 + d else 87 + d)).

(** %02x *)
Definition x02 (o : Z) : list ascii := [xdigit (o `div` 16); xdigit (o `mod` 16)].

Fixpoint ether_ntoa_l (os : list Z) : list ascii :=
  match os with
  | [] => []
  | [o] => x02 o
  | o :: os => x02 o ++ ":"%char :: ether_ntoa_l os
  end.

Definition ether_ntoa (os : list Z) : string := String.string_of_list_ascii (ether_ntoa_l os).

Fixpoint skip_spaces (s : list ascii) : option (list ascii) :=
  match s with
  | [] => None
  | c :: s' => if isspace c then skip_spaces s' else Some s
  end.

(** The octet loop; [k] octets are still expected.  [None] is a read past
    the memory, [Some None] the return of NULL. *)
Fixpoint ether_octets (k : nat) (s : list ascii) : option (option (list Z)) :=
  match k with
  | O => Some (Some [])
  | S k =>
      '(l, ep, _) ← strtol s 16;
      if (ep =? 0) || (255 <? l) || (l <? 0) then Some None else
      c ← s !! Z.to_nat ep;
      if negb (Ascii.eqb c ":" || ((k =? 0)%nat && (isspace c || is_nul c))) then Some None else
      r ← ether_octets k (Zdrop (ep + 1) s);
      Some (cons (u8 l) <$> (r : option (list Z)))
  end.

Definition ether_aton (s : list ascii) : option (option (list Z)) :=
  s ← skip_spaces s; ether_octets 6 s.

(** ** inet_aton *)

(** The digit loop of one part; in_addr_t is 32 bits wide. *)
Fixpoint inet_num (base val : Z) (cp : list ascii) : option (Z * list ascii) :=
  match cp with
  | [] => None
  | c :: cp' =>
      if isascii c && isdigit c then inet_num base (u32 (val * base + (uch c - 48))) cp'
      else if (base =? 16) && isascii c && isxdigit c then
        inet_num base (Z.lor (u32 (Z.shiftl val 4))
                         (uch c + 10 - (if islower c then 97 else 65))) cp'
      else Some (val, cp)
  end.

(** One part: [Some None] when it does not begin with a digit. *)
Definition inet_part (cp : list ascii) : option (option (Z * list ascii)) :=
  match cp with
  | [] => None
  | c :: cp' =>
      if negb (isdigit c) then Some None else
      '(base, cp) ←
        (if Ascii.eqb c "0" then
           match cp' with
           | [] => None
           | c :: cp'' => if Ascii.eqb c "x" || Ascii.eqb c "X" then Some (16, cp'') else Some (8, cp')
           end
         else Some (10, cp));
      r ← inet_num base 0 cp;
      Some (Some r)
  end.

(** The switch on the number of parts. *)
Definition inet_combine (parts : list Z) (val : Z) : option Z :=
  match parts with
  | [] => Some val
  | [a] =>
      if (16777215 <? val) || (255 <? a) then None else Some (Z.lor val (u32 (Z.shiftl a 24)))
  | [a; b] =>
      if (65535 <? val) || (255 <? a) || (255 <? b) then None
      else Some (Z.lor val (Z.lor (u32 (Z.shiftl a 24)) (u32 (Z.shiftl b 16))))
  | [a; b; c] =>
      if (255 <? val) || (255 <? a) || (255 <? b) || (255 <? c) then None
      else Some (Z.lor val (Z.lor (Z.lor (u32 (Z.shiftl a 24)) (u32 (Z.shiftl b 16)))
                              (u32 (Z.shiftl c 8))))
  | _ => Some val
  end.

(** The loop over parts; [k] more dots may follow. *)
Fixpoint inet_parts (k : nat) (parts : list Z) (cp : list ascii) : option (option Z) :=
  r ← inet_part cp;
  match r with
  | None => Some None
  | Some (val, cp) =>
      match cp with
      | [] => None
      | c :: cp' =>
          if Ascii.eqb c "." then
            match k with
            | O => Some None
            | S k => inet_parts k (parts ++ [val]) cp'
            end
          else if negb (is_nul c) && (negb (isascii c) || negb (isspace c)) then Some None
          else Some (inet_combine parts val)
      end
  end.

(** [Some None] is the return of 0. *)
Definition inet_aton (cp : list ascii) : option (option Z) := inet_parts 3 [] cp.

(** ** Link-level addresses *)

(** A property of the integers below [n], decided by trying them all. *)
Lemma decide_below (P : Z → bool) (n : nat) :
  forallb P (map Z.of_nat (seq 0 n)) = true → ∀ z, 0 ≤ z < Z.of_nat n → P z = true.
Proof.
  rewrite forallb_forall. intros H z Hz. apply H. apply in_map_iff.
  exists (Z.to_nat z). split; [lia|]. apply in_seq. lia.
Qed.

Lemma xdigit_digit d : 0 ≤ d < 16 → is_digit_of 16 (xdigit d) d.
Proof.
  intros Hd. split; [|lia].
  pose proof (decide_below (λ d, bool_decide (digit_val (xdigit d) = Some d)) 16 eq_refl d Hd) as E.
  by apply bool_decide_eq_true in E.
Qed.

Lemma strtol_octet o x rest :
  0 ≤ o < 256 → ends_numeral 16 x →
  strtol (x02 o ++ x :: rest) 16 = Some (o, 2, false).
Proof.
  intros Ho Hx. unfold strtol.
  pose proof (Z.div_lt_upper_bound o 16 16) as Hd. pose proof (Z.div_pos o 16) as Hp.
  pose proof (Z.mod_pos_bound o 16) as Hm. pose proof (Z.div_mod o 16) as Hdm.
  assert (value 16 0 [o `div` 16; o `mod` 16] = o) as Hv by (unfold value; simpl; lia).
  change (x02 o ++ x :: rest) with ([] ++ [] ++ x02 o ++ x :: rest).
  rewrite (strtoll_spec 16 [] [] false (x02 o) [o `div` 16; o `mod` 16]); try done.
  - rewrite Hv. unfold clamped, signed, absmax.
    rewrite Z.min_l, (proj2 (Z.ltb_ge _ _)) by (unfold LLONG_MAX; lia). done.
  - constructor.
  - constructor; [|constructor; [|done]]; apply xdigit_digit; lia.
Qed.

Lemma skip_spaces_octet o x : 0 ≤ o < 256 → skip_spaces (x02 o ++ x) = Some (x02 o ++ x).
Proof.
  intros Ho. simpl. destruct (isspace (xdigit (o `div` 16))) eqn:E; [|done].
  pose proof (Z.div_lt_upper_bound o 16 16) as Hd. pose proof (Z.div_pos o 16) as Hp.
  assert (is_digit_of 16 (xdigit (o `div` 16)) (o `div` 16)) as H by (apply xdigit_digit; lia).
  apply digit_not_special in H as [H _]. congruence.
Qed.

Lemma ether_octets_ntoa os rest :
  os ≠ [] → Forall (λ o, 0 ≤ o < 256) os →
  ether_octets (length os) (ether_ntoa_l os ++ NUL :: rest) = Some (Some os).
Proof.
  intros Hne Hos. induction Hos as [|o os Ho Hos IH]; [done|]. clear Hne.
  destruct os as [|o' os].
  - change (ether_ntoa_l [o]) with (x02 o). cbn [length ether_octets].
    rewrite strtol_octet by done. cbn [mbind option_bind].
    rewrite (proj2 (Z.ltb_ge 255 o)), (proj2 (Z.ltb_ge o 0)) by lia. simpl.
    unfold u8. by rewrite Z.mod_small by lia.
  - change (ether_ntoa_l (o :: o' :: os)) with (x02 o ++ ":"%char :: ether_ntoa_l (o' :: os)).
    rewrite <- app_assoc. cbn [length].
    change (ether_octets (S (S (length os)))) with
      (λ s, '(l, ep, _) ← strtol s 16;
      if (ep =? 0) || (255 <? l) || (l <? 0) then Some None else
      c ← s !! Z.to_nat ep;
      if negb (Ascii.eqb c ":" || ((S (length os) =? 0)%nat && (isspace c || is_nul c))) then Some None else
      r ← ether_octets (S (length os)) (Zdrop (ep + 1) s);
      Some (cons (u8 l) <$> (r : option (list Z)))).
    cbv beta. rewrite <- app_comm_cons, strtol_octet by done. cbn [mbind option_bind].
    rewrite (proj2 (Z.ltb_ge 255 o)), (proj2 (Z.ltb_ge o 0)) by lia.
    change (Zdrop (2 + 1) (x02 o ++ ":"%char :: ether_ntoa_l (o' :: os) ++ NUL :: rest))
      with (ether_ntoa_l (o' :: os) ++ NUL :: rest).
    cbn [length] in IH. rewrite IH by done. simpl. unfold u8. by rewrite Z.mod_small by lia.
Qed.

(** ** Internet addresses *)

(** An octet in decimal, as %d prints it. *)
Definition dec_octet (o : Z) : list ascii :=
  let d k := ascii_of_N (Z.to_N (48 + k)) in
  if o <? 10 then [d o]
  else if o <? 100 then [d (o `div` 10); d (o `mod` 10)]
  else [d (o `div` 100); d ((o `div` 10) `mod` 10); d (o `mod` 10)].

Definition dotted_quad (a b c d : Z) : list ascii :=
  dec_octet a ++ "."%char :: dec_octet b ++ "."%char :: dec_octet c ++ "."%char :: dec_octet d.

(** A character after which a decimal part has ended. *)
Definition part_end (x : ascii) : Prop :=
  isdigit x = false ∧ Ascii.eqb x "x" || Ascii.eqb x "X" = false.

Lemma inet_num_stop base val x rest :
  base ≠ 16 → isdigit x = false → inet_num base val (x :: rest) = Some (val, x :: rest).
Proof.
  intros Hb Hx. simpl. by rewrite Hx, andb_false_r, (proj2 (Z.eqb_neq base 16)).
Qed.

Definition part_digit (c : ascii) : bool := isascii c && isdigit c.
Definition part_value (base : Z) (l : list ascii) (v : Z) : Z :=
  fold_left (λ v c, u32 (v * base + (uch c - 48))) l v.

Lemma inet_num_digits base l v cp :
  forallb part_digit l = true →
  inet_num base v (l ++ cp) = inet_num base (part_value base l v) cp.
Proof.
  revert v. induction l as [|c l IH]; intros v; [done|]. simpl.
  intros [Hc Hl]%andb_prop. unfold part_digit in Hc. rewrite Hc. by rewrite IH.
Qed.

(** A decimal octet is digits of that value, and only 0 begins with 0. *)
Definition octet_shape (o : Z) : bool :=
  forallb part_digit (dec_octet o) && (part_value 10 (dec_octet o) 0 =? o) &&
  match dec_octet o with
  | [] => false
  | c :: l => negb (Ascii.eqb c "0") || bool_decide (l = [])
  end.

Lemma inet_part_octet o x rest :
  0 ≤ o < 256 → part_end x →
  inet_part (dec_octet o ++ x :: rest) = Some (Some (o, x :: rest)).
Proof.
  intros Ho [Hx Hxx]. pose proof (decide_below octet_shape 256 eq_refl o Ho) as Hs.
  apply andb_prop in Hs as [[Hd Hv%Z.eqb_eq]%andb_prop Hz].
  pose proof (inet_num_digits 10 (dec_octet o) 0 (x :: rest) Hd) as Hn. rewrite Hv in Hn.
  unfold inet_part. destruct (dec_octet o) as [|c l]; [done|]. simpl app in *.
  apply andb_prop in Hd as [[_ Hc]%andb_prop _]. rewrite Hc. cbn [negb].
  destruct (Ascii.eqb_spec c "0") as [->|].
  - apply bool_decide_eq_true in Hz as ->. cbn [app]. rewrite Hxx. cbn [mbind option_bind].
    rewrite inet_num_stop by done. by rewrite <- Hv.
  - cbn [mbind option_bind]. rewrite Hn. by rewrite inet_num_stop.
Qed.

(** Four octets packed with shifts and ors. *)
Lemma inet_combine_quad a b c d :
  0 ≤ a < 256 → 0 ≤ b < 256 → 0 ≤ c < 256 → 0 ≤ d < 256 →
  inet_combine [a; b; c] d = Some (a * 2 ^ 24 + b * 2 ^ 16 + c * 2 ^ 8 + d).
Proof.
  intros Ha Hb Hc Hd. unfold inet_combine.
  rewrite !(proj2 (Z.ltb_ge 255 _)) by lia. cbn [orb]. f_equal.
  rewrite !Z.shiftl_mul_pow2, !u32_small by lia.
  rewrite (Z.lor_comm d), (lor_add_small a) by lia.
  replace (a * 2 ^ 24 + b * 2 ^ 16) with ((a * 2 ^ 8 + b) * 2 ^ 16) by lia.
  rewrite lor_add_small by lia.
  replace ((a * 2 ^ 8 + b) * 2 ^ 16 + c * 2 ^ 8) with (((a * 2 ^ 8 + b) * 2 ^ 8 + c) * 2 ^ 8) by lia.
  rewrite lor_add_small by lia. lia.
Qed.

Lemma inet_parts_dot k parts o cp :
  0 ≤ o < 256 →
  inet_parts (S k) parts (dec_octet o ++ "."%char :: cp) = inet_parts k (parts ++ [o]) cp.
Proof.
  intros Ho. cbn [inet_parts]. rewrite inet_part_octet by done. done.
Qed.

Lemma inet_parts_nul k parts o cp :
  0 ≤ o < 256 →
  inet_parts k parts (dec_octet o ++ NUL :: cp) = Some (inet_combine parts o).
Proof.
  intros Ho. destruct k; cbn [inet_parts]; rewrite inet_part_octet by done; done.
Qed.

Lemma ether_aton_ntoa os rest :
  length os = 6%nat → Forall (λ o, 0 ≤ o < 256) os →
  ether_aton (bytes (ether_ntoa os) ++ NUL :: rest) = Some (Some os).
Proof.
  intros Hlen Hos. unfold ether_aton, ether_ntoa. rewrite bytes_of_list.
  pose proof (ether_octets_ntoa os rest) as Ho. rewrite Hlen in Ho.
  assert (skip_spaces (ether_ntoa_l os ++ NUL :: rest) = Some (ether_ntoa_l os ++ NUL :: rest)) as ->.
  { destruct Hos as [|o [|o' os] Ho' _]; [done|by apply skip_spaces_octet|].
    change (ether_ntoa_l (o :: o' :: os)) with (x02 o ++ ":"%char :: ether_ntoa_l (o' :: os)).
    rewrite <- app_assoc. by apply skip_spaces_octet. }
  apply Ho; [by intros ->|done].
Qed.

(** ** The theorems *)

(** Printing a link-level address with ether_ntoa and reading it back
    with ether_aton gives the address. *)
Theorem ether_roundtrip os rest :
  length os = 6%nat → Forall (λ o, 0 ≤ o < 256) os →
  ether_aton (bytes (ether_ntoa os) ++ NUL :: rest) = Some (Some os).
Proof. apply ether_aton_ntoa. Qed.

Lemma inet_aton_spec a b c d rest :
  0 ≤ a < 256 → 0 ≤ b < 256 → 0 ≤ c < 256 → 0 ≤ d < 256 →
  inet_aton (dotted_quad a b c d ++ NUL :: rest)
  = Some (Some (a * 2 ^ 24 + b * 2 ^ 16 + c * 2 ^ 8 + d)).
Proof.
  intros Ha Hb Hc Hd. unfold inet_aton, dotted_quad.
  rewrite <- app_assoc. cbn [app]. rewrite inet_parts_dot by done.
  rewrite <- app_assoc. cbn [app]. rewrite inet_parts_dot by done.
  rewrite <- app_assoc. cbn [app]. rewrite inet_parts_dot by done.
  rewrite inet_parts_nul by done. cbn [app]. by rewrite inet_combine_quad.
Qed.

(** inet_aton reads a dotted quad of decimal octets as the address with
    those octets. *)
Theorem inet_aton_quad a b c d rest :
  0 ≤ a < 256 → 0 ≤ b < 256 → 0 ≤ c < 256 → 0 ≤ d < 256 →
  inet_aton (dotted_quad a b c d ++ NUL :: rest)
  = Some (Some (a * 2 ^ 24 + b * 2 ^ 16 + c * 2 ^ 8 + d)).
Proof. apply inet_aton_spec. Qed.

Lemma ether_roundtrip_witness :
  ether_aton (bytes (ether_ntoa [0; 13; 96; 123; 255; 10]) ++ NUL :: [])
  = Some (Some [0; 13; 96; 123; 255; 10]).
Proof. apply ether_roundtrip; [done|]. repeat (constructor; [lia|]). constructor. Defined.

Lemma inet_aton_quad_witness :
  inet_aton (dotted_quad 192 168 1 0 ++ NUL :: [])
  = Some (Some (192 * 2 ^ 24 + 168 * 2 ^ 16 + 1 * 2 ^ 8 + 0)).
Proof. apply inet_aton_quad; lia. Defined.
