(* ===== verification/InetNet.v ===== *)
(** * InetNet: network numbers as text

    Models inet_net_pton_ipv4 of src/usr/src/lib/libc/net/inet_net_pton.c.
    The destination is the list of its bytes and an index into it; a store
    outside it is undefined behaviour, the outer [None].  [Some None] is the
    return of -1. *)
From stdpp Require Import base list strings.
From Stdlib Require Import Ascii.
From S2P Require Import Prelude CString CNum NetAddr.

#[local] Arguments Z.eqb : simpl never.
#[local] Arguments Z.ltb : simpl never.
#[local] Arguments Z.leb : simpl never.
#[local] Arguments Z.mul : simpl never.
#[local] Arguments Z.add : simpl never.

(** *dst = v *)
Definition store (idx : nat) (v : Z) (dst : list Z) : option (list Z) :=
  if (idx <? length dst)%nat then Some (<[idx := v]> dst) else None.

(** A decimal number of at most [max]: the loop on [ch] and *src++.  It
    stops at the first character that is no digit, which is consumed. *)
Fixpoint pton_dec (max tmp : Z) (ch : ascii) (src : list ascii)
  : option (option (Z * ascii * list ascii)) :=
  let tmp := tmp * 10 + (uch ch - 48) in
  if max <? tmp then Some None
  else match src with
  | [] => None
  | c :: src => if negb (is_nul c) && isascii c && isdigit c then pton_dec max tmp c src
                else Some (Some (tmp, c, src))
  end.

(** The dotted octets: the destination, the index, the room left and the
    character that ended them. *)
Fixpoint pton_octets (size : nat) (dst : list Z) (idx : nat) (ch : ascii) (src : list ascii)
  : option (option (list Z * nat * Z * ascii * list ascii)) :=
  r ← pton_dec 255 0 ch src;
  match r with
  | None => Some None
  | Some (tmp, ch, src) =>
      match size with
      | O => Some None
      | S size =>
          dst ← store idx tmp dst;
          if is_nul ch || Ascii.eqb ch "/" then Some (Some (dst, S idx, Z.of_nat size, ch, src))
          else if negb (Ascii.eqb ch ".") then Some None
          else match src with
          | [] => None
          | ch :: src => if negb (isascii ch) || negb (isdigit ch) then Some None
                         else pton_octets size dst (S idx) ch src
          end
      end
  end.

(** The nibble string after 0x; [dirty] is set after the first nibble of a
    byte.  It ends with the character that is no hexadecimal digit. *)
Fixpoint pton_hex (size : Z) (dst : list Z) (idx : nat) (dirty : bool) (src : list ascii)
  : option (option (list Z * nat * Z * ascii * list ascii)) :=
  match src with
  | [] => None
  | ch :: src =>
      if is_nul ch || negb (isascii ch) || negb (isxdigit ch) then
        Some (Some (dst, idx, if dirty then u64 (size - 1) else size, ch, src))
      else
        n ← digit_val ch;
        cur ← dst !! idx;
        if negb dirty then
          dst ← store idx (u8 (Z.shiftl (Z.lor cur n) 4)) dst;
          pton_hex size dst idx true src
        else
          dst ← store idx (Z.lor cur n) dst;
          if 0 <? size then
            dst ← store (S idx) 0 dst;
            pton_hex (size - 1) dst (S idx) false src
          else Some None
  end.

(** The width of the class of an address, widened to the octets given. *)
Definition pton_class (first : Z) (idx : nat) : Z :=
  let bits := if 240 <=? first then 32 else if 224 <=? first then 4
              else if 192 <=? first then 24 else if 128 <=? first then 16 else 8 in
  Z.max bits (Z.of_nat idx * 8).

(** Store [k] more zero bytes. *)
Fixpoint pton_extend (k : nat) (size : Z) (dst : list Z) (idx : nat) : option (option (list Z)) :=
  match k with
  | O => Some (Some dst)
  | S k => if size <=? 0 then Some None
           else dst ← store idx 0 dst; pton_extend k (size - 1) dst (S idx)
  end.

(** Everything after the address: the width, and the end of the string. *)
Definition pton_bits (dst : list Z) (idx : nat) (size : Z) (ch : ascii) (src : list ascii)
  : option (option (Z * list Z)) :=
  r ← (if Ascii.eqb ch "/" then
         match src with
         | [] => None
         | c :: src' =>
             if isascii c && isdigit c && (0 <? idx)%nat then
               r ← pton_dec 32 0 c src';
               Some (match r with
                     | None => None
                     | Some (bits, ch, _) => if is_nul ch then Some bits else None
                     end)
             else Some None
         end
       else if is_nul ch then
         if (idx =? 0)%nat then Some None
         else first ← dst !! 0%nat; Some (Some (pton_class first idx))
       else Some None);
  match r with
  | None => Some None
  | Some bits =>
      r ← pton_extend (Z.to_nat ((bits + 7) `div` 8) - idx) size dst idx;
      Some ((λ d, (bits, d)) <$> (r : option (list Z)))
  end.

Definition inet_net_pton_ipv4 (src : list ascii) (dst : list Z) : option (option (Z * list Z)) :=
  match src with
  | [] => None
  | ch :: src =>
      r ← (if Ascii.eqb ch "0" then
             c0 ← src !! 0%nat;
             if Ascii.eqb c0 "x" || Ascii.eqb c0 "X" then
               c1 ← src !! 1%nat; Some (isascii c1 && isxdigit c1)
             else Some false
           else Some false);
      if (r : bool) then
        match dst with
        | [] => Some None
        | _ :: _ =>
            dst ← store 0 0 dst;
            r ← pton_hex (Zlen dst) dst 0 false (drop 1 src);
            match r with
            | None => Some None
            | Some (dst, idx, size, ch, src) => pton_bits dst idx size ch src
            end
        end
      else if isascii ch && isdigit ch then
        r ← pton_octets (length dst) dst 0 ch src;
        match r with
        | None => Some None
        | Some (dst, idx, size, ch, src) => pton_bits dst idx size ch src
        end
      else Some None
  end.

(** inet_net_pton with an [af] of AF_INET; other families fail. *)
Definition inet_net_pton (src : list ascii) (dst : list Z) : option (option (Z * list Z)) :=
  inet_net_pton_ipv4 src dst.

(** ** Dotted quads with a width *)

Definition dec_char (k : Z) : ascii := ascii_of_N (Z.to_N (48 + k)).

Lemma dec_char_spec k :
  0 ≤ k < 10 →
  uch (dec_char k) - 48 = k ∧ isascii (dec_char k) = true ∧ isdigit (dec_char k) = true
  ∧ is_nul (dec_char k) = false.
Proof.
  intros Hk.
  pose proof (decide_below (λ k, (uch (dec_char k) - 48 =? k) && isascii (dec_char k)
    && isdigit (dec_char k) && negb (is_nul (dec_char k))) 10 eq_refl k Hk) as H.
  rewrite !andb_true_iff, negb_true_iff, Z.eqb_eq in H. tauto.
Qed.

(** One digit of a number that stays within bounds. *)
Lemma pton_dec_step max tmp k c src :
  0 ≤ k < 10 → tmp * 10 + k ≤ max → isdigit c = true → isascii c = true → is_nul c = false →
  pton_dec max tmp (dec_char k) (c :: src) = pton_dec max (tmp * 10 + k) c src.
Proof.
  intros Hk Hm Hd Ha Hn. destruct (dec_char_spec k Hk) as (Hv & _). cbn [pton_dec].
  by rewrite Hv, (proj2 (Z.ltb_ge max _)), Hn, Ha, Hd by lia.
Qed.

Lemma pton_dec_last max tmp k c src :
  0 ≤ k < 10 → tmp * 10 + k ≤ max → isdigit c = false →
  pton_dec max tmp (dec_char k) (c :: src) = Some (Some (tmp * 10 + k, c, src)).
Proof.
  intros Hk Hm Hd. destruct (dec_char_spec k Hk) as (Hv & _). cbn [pton_dec].
  by rewrite Hv, (proj2 (Z.ltb_ge max _)), Hd, andb_false_r by lia.
Qed.

Lemma dec_octet_digits o :
  0 ≤ o < 256 →
  (∃ x, 0 ≤ x < 10 ∧ o = x ∧ dec_octet o = [dec_char x])
  ∨ (∃ x y, 0 ≤ x < 10 ∧ 0 ≤ y < 10 ∧ o = x * 10 + y ∧ dec_octet o = [dec_char x; dec_char y])
  ∨ (∃ x y z, 0 ≤ x < 10 ∧ 0 ≤ y < 10 ∧ 0 ≤ z < 10 ∧ o = (x * 10 + y) * 10 + z
              ∧ dec_octet o = [dec_char x; dec_char y; dec_char z]).
Proof.
  intros Ho. unfold dec_octet. destruct (Z.ltb_spec o 10);
    [left; exists o; split_and!; done || lia|right].
  pose proof (Z.div_mod o 10) as D1. pose proof (Z.mod_pos_bound o 10) as M1.
  destruct (Z.ltb_spec o 100); [left|right].
  - exists (o `div` 10), (o `mod` 10). unfold dec_char. split_and!; try lia; done.
  - exists (o `div` 100), ((o `div` 10) `mod` 10), (o `mod` 10).
    pose proof (Z.div_mod (o `div` 10) 10). pose proof (Z.mod_pos_bound (o `div` 10) 10).
    rewrite Z.div_div in * by lia. change (10 * 10) with 100 in *. unfold dec_char.
    split_and!; try lia; done.
Qed.

(** A printed octet read back, with the character after it. *)
Lemma pton_dec_octet max o x rest :
  0 ≤ o < 256 → o ≤ max → isdigit x = false →
  ∃ c l, dec_octet o = c :: l ∧ isascii c = true ∧ isdigit c = true ∧
         pton_dec max 0 c (l ++ x :: rest) = Some (Some (o, x, rest)).
Proof.
  intros Ho Hm Hx.
  destruct (dec_octet_digits o Ho) as [(a & Ha & -> & ->)|[(a & b & Ha & Hb & -> & ->)
    |(a & b & d & Ha & Hb & Hd & -> & ->)]]; eexists _, _;
    (split; [done|]); destruct (dec_char_spec a Ha) as (_ & ? & ? & ?);
    (split; [done|]); (split; [done|]); cbn [app].
  - by rewrite pton_dec_last by (done || lia).
  - destruct (dec_char_spec b Hb) as (_ & ? & ? & ?).
    rewrite pton_dec_step by (done || lia). by rewrite pton_dec_last by (done || lia).
  - destruct (dec_char_spec b Hb) as (_ & ? & ? & ?). destruct (dec_char_spec d Hd) as (_ & ? & ? & ?).
    rewrite !pton_dec_step by (done || lia). by rewrite pton_dec_last by (done || lia).
Qed.

(** Printed octets, separated by dots. *)
Fixpoint dotted (o : Z) (os : list Z) : list ascii :=
  match os with
  | [] => dec_octet o
  | o' :: os => dec_octet o ++ "."%char :: dotted o' os
  end.

Lemma take_insert_eq {A} (l : list A) i x :
  (i < length l)%nat → take (S i) (<[i := x]> l) = take i l ++ [x].
Proof.
  intros Hi. rewrite insert_take_drop by done.
  rewrite take_app_ge by (rewrite length_take; lia). rewrite length_take, Nat.min_l by lia.
  by replace (S i - i)%nat with 1%nat by lia.
Qed.

Lemma pton_octets_dotted os : ∀ o size dst idx x rest,
  Forall (λ o, 0 ≤ o < 256) (o :: os) → (length os < size)%nat →
  (idx + size = length dst)%nat → Ascii.eqb x "/" || is_nul x = true →
  ∃ c l, dotted o os ++ x :: rest = c :: l ∧ isascii c = true ∧ isdigit c = true ∧
    pton_octets size dst idx c l =
      Some (Some (take idx dst ++ (o :: os) ++ drop (idx + S (length os)) dst,
                  (idx + S (length os))%nat, Z.of_nat (size - S (length os)), x, rest)).
Proof.
  induction os as [|o' os IH]; intros o size dst idx x rest Hos Hsize Hidx Hx;
    apply Forall_cons in Hos as [Ho Hos]; (destruct size as [|size]; [simpl in Hsize; lia|]).
  - assert (isdigit x = false) as Hd.
    { apply orb_true_iff in Hx as [->%Ascii.eqb_eq|Hx]; [done|]. apply is_nul_spec in Hx as ->. done. }
    destruct (pton_dec_octet 255 o x rest Ho ltac:(lia) Hd) as (c & l & E & Ha & Hc & Hr).
    exists c, (l ++ x :: rest). cbn [dotted]. rewrite E. split_and!; try done.
    cbn [pton_octets]. rewrite Hr. cbn [mbind option_bind]. unfold store.
    rewrite (proj2 (Nat.ltb_lt _ _)) by lia. cbn [mbind option_bind].
    rewrite orb_comm in Hx. rewrite Hx. rewrite insert_take_drop by lia. cbn [app length].
    rewrite (Nat.add_1_r idx). do 2 f_equal. f_equal. f_equal. f_equal. lia.
  - destruct (pton_dec_octet 255 o "."%char (dotted o' os ++ x :: rest) Ho ltac:(lia) eq_refl)
      as (c & l & E & Ha & Hc & Hr).
    destruct (IH o' size (<[idx := o]> dst) (S idx) x rest Hos) as (c' & l' & E' & Ha' & Hc' & Hr');
      [simpl in Hsize; lia|rewrite length_insert; lia|done|].
    exists c, (l ++ "."%char :: dotted o' os ++ x :: rest). cbn [dotted].
    rewrite <- app_assoc, E. split_and!; try done.
    cbn [pton_octets]. rewrite Hr. cbn [mbind option_bind]. unfold store.
    rewrite (proj2 (Nat.ltb_lt _ _)) by lia. cbn [mbind option_bind].
    rewrite E'. change (is_nul "." || Ascii.eqb "." "/") with false.
    change (negb (Ascii.eqb "." ".")) with false. cbv iota. rewrite Ha', Hc'. cbn [negb orb].
    rewrite Hr'. cbn [length].
    replace (S idx + S (length os))%nat with (idx + S (S (length os)))%nat by lia.
    rewrite drop_insert_lt, take_insert_eq by lia.
    rewrite <- app_assoc. reflexivity.
Qed.

(** The second character of a printed address is a digit or a dot, so the
    string is not taken for a hexadecimal one. *)
Lemma no_hex_prefix o os rest x l :
  dotted o os ++ "/"%char :: rest = x :: l → 0 ≤ o < 256 →
  (if Ascii.eqb x "0" then
     c0 ← l !! 0%nat;
     if Ascii.eqb c0 "x" || Ascii.eqb c0 "X" then c1 ← l !! 1%nat; Some (isascii c1 && isxdigit c1)
     else Some false
   else Some false) = Some false.
Proof.
  intros E Ho. destruct (Ascii.eqb x "0"); [|done].
  assert (∃ c0 l0, l = c0 :: l0 ∧ (isdigit c0 = true ∨ c0 = "."%char ∨ c0 = "/"%char)) as (c0 & l0 & -> & Hc).
  { destruct (dec_octet_digits o Ho) as [(a & Ha & _ & Eo)|[(a & b & Ha & Hb & _ & Eo)
      |(a & b & d & Ha & Hb & Hd & _ & Eo)]]; destruct os; cbn [dotted] in E; rewrite Eo in E;
      cbn [app] in E; injection E as _ <-; eexists _, _; (split; [done|]); eauto;
      left; by apply dec_char_spec. }
  cbn [lookup list_lookup mbind option_bind].
  destruct (Ascii.eqb_spec c0 "x") as [->|_]; [by destruct Hc as [|[]]|].
  destruct (Ascii.eqb_spec c0 "X") as [->|_]; [by destruct Hc as [|[]]|]. done.
Qed.

Lemma inet_net_pton_spec a b c d n dst rest :
  Forall (λ o, 0 ≤ o < 256) [a; b; c; d] → 0 ≤ n ≤ 32 → length dst = 4%nat →
  inet_net_pton (dotted_quad a b c d ++ "/"%char :: dec_octet n ++ NUL :: rest) dst
  = Some (Some (n, [a; b; c; d])).
Proof.
  intros Ho Hn Hdst. change (dotted_quad a b c d) with (dotted a [b; c; d]).
  destruct (pton_octets_dotted [b; c; d] a 4 dst 0 "/"%char (dec_octet n ++ NUL :: rest) Ho)
    as (x & l & E & Ha & Hd & Hr); [simpl; lia|lia|done|].
  destruct (pton_dec_octet 32 n NUL rest ltac:(lia) ltac:(lia) eq_refl) as (x' & l' & E' & Ha' & Hd' & Hr').
  rewrite E. unfold inet_net_pton, inet_net_pton_ipv4.
  rewrite (no_hex_prefix a [b; c; d] _ x l E), Ha, Hd, Hdst, Hr by (by apply Forall_inv in Ho).
  cbn [andb mbind option_bind app length take Nat.add]. rewrite drop_ge by (rewrite Hdst; done).
  unfold pton_bits. change (Ascii.eqb "/" "/") with true. cbv iota. rewrite E'. cbn [app].
  rewrite Ha', Hd'. cbn [andb Nat.ltb Nat.leb app]. rewrite Hr'. cbn [mbind option_bind].
  change (is_nul NUL) with true. cbv iota.
  assert (Z.to_nat ((n + 7) `div` 8) - 4 = 0)%nat as ->; [|done].
  pose proof (Z.div_le_mono (n + 7) 39 8 ltac:(lia) ltac:(lia)) as Hle.
  change (39 `div` 8) with 4 in Hle. lia.
Qed.

(** ** The theorem *)

(** inet_net_pton reads a dotted quad with a width of at most 32 bits as
    that width and those four octets, whatever the destination held. *)
Theorem inet_net_pton_cidr a b c d n dst rest :
  Forall (λ o, 0 ≤ o < 256) [a; b; c; d] → 0 ≤ n ≤ 32 → length dst = 4%nat →
  inet_net_pton (dotted_quad a b c d ++ "/"%char :: dec_octet n ++ NUL :: rest) dst
  = Some (Some (n, [a; b; c; d])).
Proof. apply inet_net_pton_spec. Qed.

Lemma inet_net_pton_cidr_witness :
  inet_net_pton (dotted_quad 10 0 254 1 ++ "/"%char :: dec_octet 24 ++ NUL :: []) [7; 7; 7; 7]
  = Some (Some (24, [10; 0; 254; 1])).
Proof. apply inet_net_pton_cidr; [repeat (constructor; [lia|]); constructor|lia|done]. Defined.
