(* ===== verification/Printf.v ===== *)
(** * Printf: the text that status output is made of

    The conversions of printf(3) that ifconfig(8) uses, inet_ntoa() of
    src/usr/src/lib/libc/net/inet_ntoa.c, and printb() and printb_status() of
    src/usr/src/sbin/ifconfig/ifcutil.c, which print the names of the bits of
    a word.  The names come as one string: a character for the base, and for
    every bit a character with its number and the name. *)
From stdpp Require Import base list strings.
From Stdlib Require Import Ascii.
From S2P Require Import Prelude CString CNum NetAddr.

(** ** Conversions of printf(3) *)

(** The digits of a number, most significant first; a number of 64 bits has at
    most 22 digits in base 8 or more. *)
Fixpoint digits (fuel : nat) (base n : Z) : list Z :=
  match fuel with
  | O => []
  | S fuel => (if n <? base then [] else digits fuel base (n / base)) ++ [n `mod` base]
  end.

Definition text (l : list ascii) : string := String.string_of_list_ascii l.

(** %u, %x and %o *)
Definition fmt_base (base n : Z) : string := text (map xdigit (digits 22 base n)).
Definition fmt_u : Z → string := fmt_base 10.
Definition fmt_x : Z → string := fmt_base 16.
Definition fmt_o : Z → string := fmt_base 8.

(** %d *)
Definition fmt_d (n : Z) : string := if n <? 0 then "-" +:+ fmt_u (- n) else fmt_u n.

Definition upcase (c : ascii) : ascii :=
  if (97 <=? uch c) && (uch c <=? 122) then ascii_of_N (Z.to_N (uch c - 32)) else c.
Definition fmt_X (n : Z) : string := text (map upcase (bytes (fmt_x n))).

(** A field of at least [w] characters, filled on the left with [c], or with
    blanks on the right. *)
Definition pad_left (c : ascii) (w : Z) (s : string) : string :=
  text (replicate (Z.to_nat (w - slen s)) c) +:+ s.
Definition pad_right (w : Z) (s : string) : string :=
  s +:+ text (replicate (Z.to_nat (w - slen s)) " "%char).

(** "%02ld", "%04x", "%04X" and "%4d" *)
Definition fmt_02 (n : Z) : string := if n <? 0 then fmt_d n else pad_left "0" 2 (fmt_u n).
Definition fmt_04x (n : Z) : string := pad_left "0" 4 (fmt_x n).
Definition fmt_04X (n : Z) : string := pad_left "0" 4 (fmt_X n).
Definition fmt_4d (n : Z) : string := pad_left " " 4 (fmt_d n).

Definition tab : string := String "009" "".
Definition newline : string := String "010" "".
Definition dquote : string := String "034" "".

(** ** inet_ntoa *)

Definition inet_ntoa (a : Z) : string :=
  text (dotted_quad ((a / 2 ^ 24) `mod` 256) ((a / 2 ^ 16) `mod` 256) ((a / 2 ^ 8) `mod` 256) (a `mod` 256)).

(** ** printb *)

(** 1 << i on an int: undefined unless 0 <= i <= 30. *)
Definition shift1 (i : Z) : option Z :=
  if (0 <=? i) && (i <=? 30) then Some (Z.shiftl 1 i) else None.

(** A char, which is signed. *)
Definition sch (c : ascii) : Z := if uch c <? 128 then uch c else uch c - 256.

(** The while loop over the names.  [in_name] is [None] where a bit number is
    read, and in a name says whether the bit is set; [any] whether a name has
    been printed, and [f] is applied to every character of one. *)
Fixpoint printb_loop (f : ascii → ascii) (v : Z) (in_name : option bool) (any : bool)
    (bits : list ascii) : option (list ascii) :=
  match bits with
  | [] => Some []
  | c :: bits =>
      if bool_decide (is_Some in_name) && (32 <? sch c) then
        r ← printb_loop f v in_name any bits;
        Some (if default false in_name then f c :: r else r)
      else
        mask ← shift1 (sch c - 1);
        let set := has_bits v mask in
        r ← printb_loop f v (Some set) (any || set) bits;
        Some (if set && any then ","%char :: r else r)
  end.

(** What follows the first character of the names. *)
Definition bit_names (f : ascii → ascii) (v : Z) (bits : string) : option string :=
  text <$> printb_loop f v None false (tail (bytes bits)).

Definition printb (s : string) (v : Z) (bits : string) : option string :=
  let v := u32 v in
  names ← bit_names id v bits;
  Some (s +:+ "=" +:+ (match bytes bits with
                        | c :: _ => if sch c =? 8 then fmt_o v else fmt_x v
                        | [] => fmt_x v
                        end) +:+ "<" +:+ names +:+ ">").

Definition tolower (c : ascii) : ascii := ascii_of_N (Z.to_N (charmap c)).

Definition printb_status (v : Z) (bits : string) : option string := bit_names tolower (u16 v) bits.

(** The string for a list of bit numbers and names, and with the base. *)
Definition bit_string (tbl : list (Z * string)) : list ascii :=
  concat (map (λ '(i, n), ascii_of_N (Z.to_N i) :: bytes n) tbl).
Definition bits_of (base : Z) (tbl : list (Z * string)) : string :=
  text (ascii_of_N (Z.to_N base) :: bit_string tbl).

(** ** Lemmas *)

(** Numbers of bits that an int has, and names of visible ASCII characters. *)
Definition bit_table (tbl : list (Z * string)) : Prop :=
  Forall (λ '(i, n), 1 ≤ i ≤ 31 ∧ Forall (λ c, 32 < uch c < 128) (bytes n)) tbl.

(** The names of the bits that are set, with commas between them. *)
Fixpoint set_names (f : ascii → ascii) (v : Z) (any : bool) (tbl : list (Z * string)) : list ascii :=
  match tbl with
  | [] => []
  | (i, n) :: tbl =>
      if Z.testbit v (i - 1) then
        (if any then [","%char] else []) ++ map f (bytes n) ++ set_names f v true tbl
      else set_names f v any tbl
  end.

Lemma sch_low c : uch c < 128 → sch c = uch c.
Proof. intros H. unfold sch. by rewrite (proj2 (Z.ltb_lt _ _) H). Qed.

Lemma uch_small i : 0 ≤ i < 256 → uch (ascii_of_N (Z.to_N i)) = i.
Proof. intros H. unfold uch. rewrite N_ascii_embedding by lia. lia. Qed.

Lemma has_bits_shift v i : 0 ≤ i → has_bits v (Z.shiftl 1 i) = Z.testbit v i.
Proof.
  intros Hi. unfold has_bits. rewrite Z.shiftl_1_l.
  destruct (Z.testbit v i) eqn:E.
  - apply negb_true_iff, Z.eqb_neq. intros H. apply (f_equal (λ z, Z.testbit z i)) in H.
    by rewrite Z.land_spec, E, Z.pow2_bits_true, Z.bits_0 in H.
  - apply negb_false_iff, Z.eqb_eq. apply Z.bits_inj'. intros n Hn.
    rewrite Z.land_spec, Z.bits_0. destruct (decide (n = i)) as [->|Hne]; [by rewrite E|].
    by rewrite (Z.pow2_bits_false i n), andb_false_r.
Qed.

Lemma printb_name f v set any n bits :
  Forall (λ c, 32 < uch c < 128) n →
  printb_loop f v (Some set) any (n ++ bits)
  = (λ r, (if (set : bool) then map f n else []) ++ r) <$> printb_loop f v (Some set) any bits.
Proof.
  induction 1 as [|c n Hc _ IH].
  - destruct set; simpl; by destruct (printb_loop f v (Some _) any bits).
  - cbn [app printb_loop]. rewrite sch_low, (proj2 (Z.ltb_lt _ _)) by lia. cbn [bool_decide decide andb].
    rewrite bool_decide_true by (by eexists). cbn [andb]. rewrite IH.
    destruct (printb_loop f v (Some set) any bits); [|done]. by destruct set.
Qed.

Lemma printb_spec f v in_name any tbl :
  bit_table tbl → printb_loop f v in_name any (bit_string tbl) = Some (set_names f v any tbl).
Proof.
  intros H. revert in_name any. induction H as [|[i n] tbl [Hi Hn] _ IH]; intros in_name any; [done|].
  change (bit_string ((i, n) :: tbl)) with (ascii_of_N (Z.to_N i) :: bytes n ++ bit_string tbl).
  cbn [printb_loop set_names].
  rewrite sch_low, uch_small, (proj2 (Z.ltb_ge 32 i)), andb_false_r by (rewrite ?uch_small; lia).
  unfold shift1. rewrite (proj2 (Z.leb_le _ _)), (proj2 (Z.leb_le _ _)) by lia. cbn [andb mbind option_bind].
  rewrite has_bits_shift, printb_name, IH by (done || lia). cbn [fmap option_fmap option_map mbind option_bind].
  destruct (Z.testbit v (i - 1)), any; done.
Qed.
