(* ===== verification/Scan.v ===== *)
(** * Scan: strtoul and the sscanf conversions the handlers use

    Models src/usr/src/lib/libc/stdlib/strtoul.c and what sscanf(3) does for
    a format of two %u conversions with a literal character between them
    (src/usr/src/lib/libc/stdio/vfscanf.c, case CT_INT with base 10). *)
From stdpp Require Import base list strings.
From Stdlib Require Import Ascii.
From S2P Require Import Prelude CString CNum.

Definition ULONG_MAX : Z := 2 ^ 64 - 1.

(** The memory at a char pointer to a string of the program. *)
Definition cmem (s : string) : list ascii := bytes s ++ [NUL].

(** ** strtoul *)

(** The digit loop: as in strtoll, with unsigned bounds. *)
Fixpoint strtoul_loop (base cutoff cutlim : Z) (c : ascii) (s : list ascii)
    (pos acc any : Z) (erange : bool) : option (Z * Z * Z * bool) :=
  let finish := Some (acc, any, pos, erange) in
  match digit_val c with
  | None => finish
  | Some d =>
      if base <=? d then finish else
      let '(acc, any, erange) :=
        if any <? 0 then (acc, any, erange)
        else if (cutoff <? acc) || ((acc =? cutoff) && (cutlim <? d)) then (ULONG_MAX, -1, true)
        else (acc * base + d, 1, erange) in
      match s with
      | [] => None
      | c :: s => strtoul_loop base cutoff cutlim c s (pos + 1) acc any erange
      end
  end.

(** The value, the offset of *endptr, and whether errno was set to ERANGE. *)
Definition strtoul (nptr : list ascii) (base : Z) : option (Z * Z * bool) :=
  '(neg, c, s, pos) ← strtoll_sign nptr;
  '(c, s, pos, base) ← strtoll_base c s pos base;
  '(acc, any, pos, erange) ←
    strtoul_loop base (ULONG_MAX `div` base) (ULONG_MAX `mod` base) c s pos 0 0 false;
  Some (if (neg : bool) && (0 <? any) then u64 (- acc) else acc,
        if any =? 0 then 0 else pos - 1, erange).

(** The test the bridge handlers make of their arguments: the string is not
    empty, it is a numeral as a whole, and its value is at most [max]. *)
Definition strtoul_arg (s : string) (max : Z) : option (option Z) :=
  '(v, ep, erange) ← strtoul (cmem s) 0;
  c ← cmem s !! Z.to_nat ep;
  Some (if bool_decide (s = "") || negb (is_nul c) || (max <? v)
           || (erange && (v =? ULONG_MAX)) then None else Some v).

(** ** sscanf *)

(** The buffer a number is collected in. *)
Definition SCAN_BUF : nat := 512.

Fixpoint span_digits_z (n : nat) (l : list ascii) : list Z * list ascii :=
  match n, l with
  | S n, c :: l' =>
      if isdigit c then let '(ds, r) := span_digits_z n l' in (uch c - 48 :: ds, r)
      else ([], l)
  | _, _ => ([], l)
  end.

Fixpoint scan_skip (l : list ascii) : list ascii :=
  match l with
  | c :: l' => if isspace c then scan_skip l' else l
  | [] => []
  end.

(** %u: the unsigned int stored and the rest of the input, or a failure. *)
Definition scan_u (l : list ascii) : option (Z * list ascii) :=
  let l := scan_skip l in
  let '(neg, signed, l) :=
    match l with
    | c :: l' => if Ascii.eqb c "-" then (true, true, l')
                 else if Ascii.eqb c "+" then (false, true, l') else (false, false, l)
    | [] => (false, false, [])
    end in
  let '(ds, r) := span_digits_z (if signed : bool then pred SCAN_BUF else SCAN_BUF) l in
  match ds with
  | [] => None
  | _ =>
      let v := value 10 0 ds in
      let w := if ULONG_MAX <? v then ULONG_MAX else if neg then u64 (- v) else v in
      Some (u32 w, r)
  end.

(** sscanf(s, "%u<sep>%u", &a, &b) == 2, and the two values. *)
Definition sscanf_u_u (sep : ascii) (s : string) : option (Z * Z) :=
  match scan_u (bytes s) with
  | Some (a, c :: r) =>
      if Ascii.eqb c sep then
        match scan_u r with Some (b, _) => Some (a, b) | None => None end
      else None
  | _ => None
  end.
