(* ===== verification/Sha1.v ===== *)
(** * Sha1: the SHA-1 message digest

    Models src/usr/src/lib/libc/hash/sha1.c: SHA1Transform with its circular
    message schedule, and the streaming interface SHA1Init, SHA1Update,
    SHA1Pad and SHA1Final.  The theorems show that the transform computes
    the compression function of FIPS 180 and that the digest depends only on
    the message, however it is cut into calls of SHA1Update. *)
From coqutil Require Import Byte Word.LittleEndianList.
From stdpp Require Import base list.
From S2P Require Import Prelude.

(** ** The transform *)

Definition rol (value bits : Z) : Z :=
  Z.lor (u32 (Z.shiftl value bits)) (Z.shiftr value (32 - bits)).

(** The working variables in the order a round names them: v, w, x, y, z. *)
Definition vars : Type := Z * Z * Z * Z * Z.

(** block->l, sixteen words. *)
Definition block_word (l : list Z) (i : nat) : Z := nth (i `mod` 16) l 0.

Definition blk0 (l : list Z) (i : nat) : Z * list Z :=
  let x := block_word l i in
  let w := Z.lor (Z.land (rol x 24) 0xFF00FF00) (Z.land (rol x 8) 0x00FF00FF) in
  (w, <[(i `mod` 16)%nat := w]> l).

Definition blk (l : list Z) (i : nat) : Z * list Z :=
  let w := rol (Z.lxor (Z.lxor (Z.lxor (block_word l (i + 13)) (block_word l (i + 8))) (block_word l (i + 2)))
                       (block_word l i)) 1 in
  (w, <[(i `mod` 16)%nat := w]> l).

(** The function and the constant of the rounds R0 and R1, R2, R3, R4. *)
Definition round_f (i : nat) (w x y : Z) : Z :=
  if (i <? 20)%nat then Z.lxor (Z.land w (Z.lxor x y)) y
  else if (i <? 40)%nat then Z.lxor (Z.lxor w x) y
  else if (i <? 60)%nat then Z.lor (Z.land (Z.lor w x) y) (Z.land w x)
  else Z.lxor (Z.lxor w x) y.

Definition round_k (i : nat) : Z :=
  if (i <? 20)%nat then 0x5A827999
  else if (i <? 40)%nat then 0x6ED9EBA1
  else if (i <? 60)%nat then 0x8F1BBCDC
  else 0xCA62C1D6.

(** One round; the next one is called with the variables rotated. *)
Definition sha1_round (s : vars * list Z) (i : nat) : vars * list Z :=
  let '((v, w, x, y, z), l) := s in
  let '(m, l) := if (i <? 16)%nat then blk0 l i else blk l i in
  let z := u32 (z + round_f i w x y + m + round_k i + rol v 5) in
  ((z, v, rol w 30, x, y), l).

(** The words of a buffer, as a little-endian machine reads them. *)
Fixpoint le_words (n : nat) (bs : list byte) : list Z :=
  match n with
  | O => []
  | S n => le_combine (take 4 bs) :: le_words n (drop 4 bs)
  end.

Definition add_vars (s t : vars) : vars :=
  let '(a, b, c, d, e) := s in
  let '(a', b', c', d', e') := t in
  (u32 (a + a'), u32 (b + b'), u32 (c + c'), u32 (d + d'), u32 (e + e')).

Definition SHA1Transform (state : vars) (buffer : list byte) : vars :=
  add_vars state (foldl sha1_round (state, le_words 16 buffer) (seq 0 80)).1.

(** ** The streaming interface *)

Definition SHA1_BLOCK_LENGTH : nat := 64.
Definition SHA1_DIGEST_LENGTH : nat := 20.

Record SHA1_CTX := mk_ctx { state : vars; count : Z; buffer : list byte }.

Definition sha1_iv : vars := (0x67452301, 0xEFCDAB89, 0x98BADCFE, 0x10325476, 0xC3D2E1F0).

(** The buffer keeps what it held. *)
Definition SHA1Init (buf : list byte) : SHA1_CTX := mk_ctx sha1_iv 0 buf.

(** memcpy into a buffer at an offset. *)
Definition copy_at (off : nat) (bs buf : list byte) : list byte :=
  take off buf ++ bs ++ drop (off + length bs) buf.

(** The loop over whole blocks of the data; [fuel] bounds their number. *)
Fixpoint update_blocks (fuel : nat) (st : vars) (data : list byte) : vars * list byte :=
  match fuel with
  | O => (st, data)
  | S fuel => if (63 <? length data)%nat
              then update_blocks fuel (SHA1Transform st (take 64 data)) (drop 64 data)
              else (st, data)
  end.

(** [data] as long as [len]; after the first block [data] is what follows
    index i. *)
Definition SHA1Update (ctx : SHA1_CTX) (data : list byte) : SHA1_CTX :=
  let j := Z.to_nat (Z.land (Z.shiftr (count ctx) 3) 63) in
  let cnt := u64 (count ctx + u64 (Z.shiftl (Zlen data) 3)) in
  if (63 <? j + length data)%nat then
    let buf := copy_at j (take (64 - j) data) (buffer ctx) in
    let '(st, rest) := update_blocks (length data) (SHA1Transform (state ctx) buf)
                         (drop (64 - j) data) in
    mk_ctx st cnt (copy_at 0 rest buf)
  else mk_ctx (state ctx) cnt (copy_at j data (buffer ctx)).

(** The 64-bit length, most significant byte first. *)
Definition finalcount (cnt : Z) : list byte :=
  map (λ i, byte.of_Z (Z.land (Z.shiftr cnt ((7 - Z.land (Z.of_nat i) 7) * 8)) 255)) (seq 0 8).

(** while ((context->count & 504) != 448): each round adds 8 to the count,
    so at most 64 of them run. *)
Fixpoint pad_loop (fuel : nat) (ctx : SHA1_CTX) : option SHA1_CTX :=
  if Z.land (count ctx) 504 =? 448 then Some ctx
  else match fuel with
  | O => None
  | S fuel => pad_loop fuel (SHA1Update ctx [Byte.x00])
  end.

Definition SHA1Pad (ctx : SHA1_CTX) : option SHA1_CTX :=
  let fc := finalcount (count ctx) in
  let ctx := SHA1Update ctx [Byte.x80] in
  match pad_loop 64 ctx with
  | Some ctx => Some (SHA1Update ctx fc)
  | None => None
  end.

Definition state_word (st : vars) (i : nat) : Z :=
  let '(a, b, c, d, e) := st in nth i [a; b; c; d; e] 0.

(** digest[i] for each i; the context is wiped. *)
Definition SHA1Final (ctx : SHA1_CTX) : option (list byte) :=
  match SHA1Pad ctx with
  | Some ctx =>
      Some (map (λ i, byte.of_Z (Z.land (Z.shiftr (state_word (state ctx) (i / 4))
                                   ((3 - Z.land (Z.of_nat i) 3) * 8)) 255))
              (seq 0 SHA1_DIGEST_LENGTH))
  | None => None
  end.

(** The pad loop cannot run out of fuel, which the theorems show; this is
    the digest of a context. *)
Definition sha1_digest (chunks : list (list byte)) (buf : list byte) : option (list byte) :=
  SHA1Final (foldl SHA1Update (SHA1Init buf) chunks).

(** ** FIPS 180 *)

Definition be_word (bs : list byte) : Z := le_combine (rev bs).

Fixpoint be_words (n : nat) (bs : list byte) : list Z :=
  match n with
  | O => []
  | S n => be_word (take 4 bs) :: be_words n (drop 4 bs)
  end.

(** One more word of the message schedule. *)
Definition schedule_step (ws : list Z) : list Z :=
  let w k := nth (length ws - k) ws 0 in
  ws ++ [rol (Z.lxor (Z.lxor (Z.lxor (w 3%nat) (w 8%nat)) (w 14%nat)) (w 16%nat)) 1].

Definition schedule (n : nat) (m : list byte) : list Z := Nat.iter n schedule_step (be_words 16 m).

Definition Ch (x y z : Z) : Z := Z.lxor (Z.land x y) (Z.ldiff z x).
Definition Parity (x y z : Z) : Z := Z.lxor (Z.lxor x y) z.
Definition Maj (x y z : Z) : Z := Z.lxor (Z.lxor (Z.land x y) (Z.land x z)) (Z.land y z).

Definition fips_f (t : nat) : Z → Z → Z → Z :=
  if (t <? 20)%nat then Ch else if (t <? 40)%nat then Parity else if (t <? 60)%nat then Maj else Parity.

Definition fips_round (ws : list Z) (s : vars) (t : nat) : vars :=
  let '(a, b, c, d, e) := s in
  (u32 (rol a 5 + fips_f t b c d + e + round_k t + nth t ws 0), a, rol b 30, c, d).

Definition fips_compress (h : vars) (m : list byte) : vars :=
  add_vars h (foldl (fips_round (schedule 64 m)) h (seq 0 80)).

Ltac nat_arith :=
  repeat match goal with
  | |- context [(?n `mod` 64)%nat] =>
      pose proof (Nat2Z.inj_mod n 64); generalize dependent (n `mod` 64)%nat; intros
  | H : context [(?n `mod` 64)%nat] |- _ =>
      pose proof (Nat2Z.inj_mod n 64); generalize dependent (n `mod` 64)%nat; intros
  end; Z.to_euclidean_division_equations; lia.

Lemma Ch_eq x y z : Z.lxor (Z.land x (Z.lxor y z)) z = Ch x y z.
Proof.
  unfold Ch. apply Z.bits_inj'. intros n Hn.
  rewrite !Z.lxor_spec, !Z.land_spec, Z.lxor_spec, Z.ldiff_spec.
  by destruct (Z.testbit x n), (Z.testbit y n), (Z.testbit z n).
Qed.

Lemma Maj_eq x y z : Z.lor (Z.land (Z.lor x y) z) (Z.land x y) = Maj x y z.
Proof.
  unfold Maj. apply Z.bits_inj'. intros n Hn.
  rewrite !Z.lxor_spec, !Z.lor_spec, !Z.land_spec, Z.lor_spec.
  by destruct (Z.testbit x n), (Z.testbit y n), (Z.testbit z n).
Qed.

Lemma round_f_fips i w x y : round_f i w x y = fips_f i w x y.
Proof.
  unfold round_f, fips_f, Parity.
  destruct (i <? 20)%nat; [apply Ch_eq|]. destruct (i <? 40)%nat; [done|].
  destruct (i <? 60)%nat; [apply Maj_eq|done].
Qed.

Lemma length_schedule n m : length (schedule n m) = (16 + n)%nat.
Proof.
  induction n as [|n IH]; [done|].
  change (schedule (S n) m) with (schedule_step (schedule n m)).
  unfold schedule_step. rewrite length_app, IH. simpl. lia.
Qed.

(** A word of the schedule does not change as it grows. *)
Lemma schedule_stable n k m t :
  (t < 16 + n)%nat → nth t (schedule (n + k) m) 0 = nth t (schedule n m) 0.
Proof.
  intros Ht. induction k as [|k IH]; [by rewrite Nat.add_0_r|]. rewrite <- IH, Nat.add_succ_r.
  change (schedule (S (n + k)) m) with (schedule_step (schedule (n + k) m)).
  unfold schedule_step. rewrite app_nth1; [done|]. rewrite length_schedule. lia.
Qed.

Definition W (m : list byte) (t : nat) : Z := nth t (schedule 64 m) 0.

Lemma W_eq m t : W m t = nth t (schedule 64 m) 0.
Proof. reflexivity. Qed.

Lemma W_step m t :
  (16 ≤ t < 80)%nat →
  W m t = rol (Z.lxor (Z.lxor (Z.lxor (W m (t - 3)) (W m (t - 8))) (W m (t - 14))) (W m (t - 16))) 1.
Proof.
  intros Ht. unfold W. replace 64%nat with (S (t - 16) + (79 - t))%nat at 1 by lia.
  rewrite schedule_stable by lia.
  change (schedule (S (t - 16)) m) with (schedule_step (schedule (t - 16) m)).
  unfold schedule_step. rewrite length_schedule.
  rewrite app_nth2; rewrite length_schedule; [|lia].
  replace (t - (16 + (t - 16)))%nat with 0%nat by lia. cbn [nth].
  replace (16 + (t - 16))%nat with t by lia.
  rewrite <- !(schedule_stable (t - 16) (80 - t)) by lia.
  by replace (t - 16 + (80 - t))%nat with 64%nat by lia.
Qed.

Lemma W_first m t : (t < 16)%nat → W m t = nth t (be_words 16 m) 0.
Proof. intros Ht. unfold W. apply (schedule_stable 0 64 m t). lia. Qed.

(** ** The transform computes the FIPS compression function *)

Lemma byte_testbit_high (b : byte) k : k < 0 ∨ 8 ≤ k → Z.testbit (byte.unsigned b) k = false.
Proof.
  pose proof (byte.unsigned_range b) as Hb. intros [Hk|Hk]; [by apply Z.testbit_neg_r|].
  rewrite <- (Z.mod_small (byte.unsigned b) (2 ^ 8)) by lia. apply Z.mod_pow2_bits_high. lia.
Qed.

Lemma rol_testbit x k n :
  0 ≤ k < 32 → 0 ≤ n < 32 →
  Z.testbit (rol x k) n = Z.testbit x (n - k) || Z.testbit x (n + 32 - k).
Proof.
  intros Hk Hn. unfold rol, u32.
  rewrite Z.lor_spec, Z.mod_pow2_bits_low, Z.shiftl_spec, Z.shiftr_spec by lia.
  f_equal. f_equal. lia.
Qed.

(** A bit of a word made of four bytes. *)
Lemma le_word_testbit (b0 b1 b2 b3 : byte) n :
  Z.testbit (le_combine [b0; b1; b2; b3]) n =
  Z.testbit (byte.unsigned b0) n || Z.testbit (byte.unsigned b1) (n - 8)
  || Z.testbit (byte.unsigned b2) (n - 16) || Z.testbit (byte.unsigned b3) (n - 24).
Proof.
  destruct (decide (0 ≤ n)) as [Hn|Hn]; [|rewrite !Z.testbit_neg_r by lia; done].
  rewrite !le_combine_step. change (le_combine []) with 0.
  rewrite Z.shiftl_0_l, Z.lor_0_r, !Z.shiftl_lor, !Z.shiftl_shiftl by lia.
  rewrite !Z.lor_spec, !Z.shiftl_spec by lia. by rewrite !orb_assoc.
Qed.

Ltac swap_bits :=
  repeat match goal with
  | |- context [Z.testbit (Zpos ?p) ?n] =>
      let b := eval vm_compute in (Z.testbit (Zpos p) n) in
      change (Z.testbit (Zpos p) n) with b
  end;
  repeat match goal with
  | |- context [Z.testbit (byte.unsigned ?b) ?k] =>
      rewrite (byte_testbit_high b k) by lia
  end;
  rewrite ?andb_true_r, ?andb_false_r, ?orb_false_r, ?orb_false_l; reflexivity.

(** The byte swap of a little-endian word is its big-endian reading. *)
Lemma swap_word (b0 b1 b2 b3 : byte) :
  let x := le_combine [b0; b1; b2; b3] in
  Z.lor (Z.land (rol x 24) 0xFF00FF00) (Z.land (rol x 8) 0x00FF00FF) = be_word [b0; b1; b2; b3].
Proof.
  intros x. unfold be_word. cbn [rev app]. apply Z.bits_inj'. intros n Hn.
  rewrite Z.lor_spec, !Z.land_spec. rewrite (le_word_testbit b3 b2 b1 b0).
  destruct (decide (n < 32)) as [Hlt|].
  - rewrite !rol_testbit by lia. unfold x. rewrite !le_word_testbit.
    assert (∃ k, n = Z.of_nat k ∧ (k < 32)%nat) as (k & -> & Hk) by (exists (Z.to_nat n); lia).
    do 32 (destruct k as [|k]; [cbn -[Z.testbit byte.unsigned]; swap_bits|]). lia.
  - rewrite (Z.bits_above_log2 0xFF00FF00), (Z.bits_above_log2 0x00FF00FF) by (simpl; lia).
    by rewrite !andb_false_r, !byte_testbit_high by lia.
Qed.

Lemma nth_le_words n bs t :
  (t < n)%nat → nth t (le_words n bs) 0 = le_combine (take 4 (drop (4 * t) bs)).
Proof.
  revert bs t. induction n as [|n IH]; intros bs t Ht; [lia|].
  destruct t as [|t]; [done|]. cbn [le_words nth]. rewrite IH by lia. rewrite drop_drop.
  do 3 f_equal. lia.
Qed.

Lemma nth_be_words n bs t :
  (t < n)%nat → nth t (be_words n bs) 0 = be_word (take 4 (drop (4 * t) bs)).
Proof.
  revert bs t. induction n as [|n IH]; intros bs t Ht; [lia|].
  destruct t as [|t]; [done|]. cbn [be_words nth]. rewrite IH by lia. rewrite drop_drop.
  do 3 f_equal. lia.
Qed.

(** Before round [i] the words from [i] on are those of the buffer, and the
    last sixteen words of the schedule are at their indices modulo 16. *)
Record sched_inv (m : list byte) (i : nat) (l : list Z) : Prop := mk_sched {
  sched_len : length l = 16%nat;
  sched_raw : ∀ t, (i ≤ t < 16)%nat → nth t l 0 = nth t (le_words 16 m) 0;
  sched_w : ∀ t, (i ≤ t + 16)%nat → (t < i)%nat → block_word l t = W m t;
}.

Lemma nth_insert_eq (l : list Z) i x : (i < length l)%nat → nth i (<[i := x]> l) 0 = x.
Proof.
  intros Hi. apply nth_lookup_Some. by apply list_lookup_insert_eq.
Qed.

Lemma nth_insert_ne (l : list Z) i j x : i ≠ j → nth j (<[i := x]> l) 0 = nth j l 0.
Proof. intros Hij. by rewrite !nth_lookup, list_lookup_insert_ne. Qed.

Lemma sched_inv_insert m i l :
  sched_inv m i l → sched_inv m (S i) (<[(i `mod` 16)%nat := W m i]> l).
Proof.
  intros [Hl Hr Hw]. pose proof (Nat.mod_upper_bound i 16 ltac:(lia)). constructor.
  - by rewrite length_insert.
  - intros t Ht. rewrite nth_insert_ne; [apply Hr; lia|]. rewrite Nat.mod_small; lia.
  - intros t H1 H2. unfold block_word. destruct (decide (t = i)) as [->|].
    + by rewrite nth_insert_eq by lia.
    + rewrite nth_insert_ne; [apply Hw; lia|].
      intros E. assert (i - t < 16)%nat by lia.
      pose proof (Nat.div_mod_eq i 16). pose proof (Nat.div_mod_eq t 16). lia.
Qed.

(** A word sixteen further on has the same place. *)
Lemma block_word_back l i k : (k ≤ 16)%nat → (k ≤ i)%nat → block_word l (i + (16 - k)) = block_word l (i - k).
Proof.
  intros Hk Hi. unfold block_word. f_equal.
  replace (i + (16 - k))%nat with (i - k + 1 * 16)%nat by lia. apply Nat.Div0.mod_add.
Qed.

Lemma blk0_W m l i :
  length m = 64%nat → (i < 16)%nat → sched_inv m i l →
  blk0 l i = (W m i, <[(i `mod` 16)%nat := W m i]> l).
Proof.
  intros Hm Hi [Hl Hr Hw]. unfold blk0.
  enough (∀ x, block_word l i = x →
    Z.lor (Z.land (rol x 24) 0xFF00FF00) (Z.land (rol x 8) 0x00FF00FF) = W m i) as E
    by (by rewrite (E _ eq_refl)).
  intros x <-. unfold block_word. rewrite Nat.mod_small, Hr, nth_le_words by lia.
  rewrite W_first, nth_be_words by done.
  assert (length (take 4 (drop (4 * i) m)) = 4%nat) as Hlen
    by (rewrite length_take, length_drop; lia).
  destruct (take 4 (drop (4 * i) m)) as [|b0 [|b1 [|b2 [|b3 []]]]]; try done.
  apply swap_word.
Qed.

Lemma blk_W m l i :
  (16 ≤ i < 80)%nat → sched_inv m i l → blk l i = (W m i, <[(i `mod` 16)%nat := W m i]> l).
Proof.
  intros Hi [Hl Hr Hw]. unfold blk.
  pose proof (block_word_back l i 3) as E3. pose proof (block_word_back l i 8) as E8.
  pose proof (block_word_back l i 14) as E14. pose proof (block_word_back l i 16) as E16.
  cbn [Nat.sub] in E3, E8, E14, E16. rewrite Nat.add_0_r in E16.
  rewrite E3, E8, E14, E16, !Hw by lia. by rewrite <- W_step.
Qed.

Lemma rounds_fips st m k :
  length m = 64%nat → (k ≤ 80)%nat →
  ∃ l, foldl sha1_round (st, le_words 16 m) (seq 0 k)
       = (foldl (fips_round (schedule 64 m)) st (seq 0 k), l) ∧ sched_inv m k l.
Proof.
  intros Hm. induction k as [|k IH]; intros Hk.
  { exists (le_words 16 m). split; [done|]. constructor; [done|done|lia]. }
  destruct IH as (l & E & Hinv); [lia|].
  rewrite seq_S, !foldl_app, E. cbn [foldl Nat.add].
  destruct (foldl _ st (seq 0 k)) as [[[[v w] x] y] z].
  exists (<[(k `mod` 16)%nat := W m k]> l). split; [|by apply sched_inv_insert].
  unfold sha1_round, fips_round.
  rewrite <- (W_eq m k).
  assert ((if (k <? 16)%nat then blk0 l k else blk l k)
          = (W m k, <[(k `mod` 16)%nat := W m k]> l)) as ->.
  { destruct (Nat.ltb_spec k 16); [by apply blk0_W|apply blk_W; [lia|done]]. }
  rewrite round_f_fips. do 6 f_equal. lia.
Qed.

Lemma SHA1Transform_fips st m :
  length m = 64%nat → SHA1Transform st m = fips_compress st m.
Proof.
  intros Hm. unfold SHA1Transform, fips_compress.
  destruct (rounds_fips st m 80 Hm) as (l & -> & _); done.
Qed.

(** ** Streaming *)

(** The compression function over the whole blocks of a message, and what is
    left of it. *)
Fixpoint absorb_fuel (fuel : nat) (st : vars) (bs : list byte) : vars * list byte :=
  match fuel with
  | O => (st, bs)
  | S fuel => if (63 <? length bs)%nat
              then absorb_fuel fuel (fips_compress st (take 64 bs)) (drop 64 bs)
              else (st, bs)
  end.

Definition absorb (st : vars) (bs : list byte) : vars * list byte := absorb_fuel (length bs) st bs.

(** The message followed by a one bit, zeros and its length in bits. *)
Definition fips_pad (m : list byte) : list byte :=
  m ++ [Byte.x80] ++ replicate (Z.to_nat ((55 - Zlen m) `mod` 64)) Byte.x00 ++ rev (le_split 8 (8 * Zlen m)).

Definition vars_bytes (st : vars) : list byte :=
  let '(a, b, c, d, e) := st in concat (map (λ w, rev (le_split 4 w)) [a; b; c; d; e]).

Definition fips_sha1 (m : list byte) : list byte := vars_bytes (absorb sha1_iv (fips_pad m)).1.

Lemma absorb_fuel_irrel f1 : ∀ f2 st bs,
  (length bs ≤ f1)%nat → (length bs ≤ f2)%nat → absorb_fuel f1 st bs = absorb_fuel f2 st bs.
Proof.
  induction f1 as [|f1 IH]; intros [|f2] st bs H1 H2; cbn [absorb_fuel];
    try (rewrite (proj2 (Nat.ltb_ge 63 (length bs))) by lia); try done.
  destruct (Nat.ltb_spec 63 (length bs)); [|done].
  apply IH; rewrite length_drop; lia.
Qed.

Lemma absorb_short st bs : (length bs < 64)%nat → absorb st bs = (st, bs).
Proof.
  intros H. unfold absorb. destruct (length bs) as [|n] eqn:E; [done|]. cbn [absorb_fuel].
  by rewrite E, (proj2 (Nat.ltb_ge 63 (S n))) by lia.
Qed.

Lemma absorb_block st b bs :
  length b = 64%nat → absorb st (b ++ bs) = absorb (fips_compress st b) bs.
Proof.
  intros Hb. unfold absorb.
  assert (length (b ++ bs) = S (63 + length bs)) as Hl by (rewrite length_app, Hb; lia).
  rewrite Hl. cbn [absorb_fuel]. rewrite Hl, (proj2 (Nat.ltb_lt 63 _)) by lia.
  rewrite <- Hb, take_app_length, drop_app_length. apply absorb_fuel_irrel; lia.
Qed.

Lemma absorb_long st bs :
  (64 ≤ length bs)%nat → absorb st bs = absorb (fips_compress st (take 64 bs)) (drop 64 bs).
Proof.
  intros H. rewrite <- (take_drop 64 bs) at 1. apply absorb_block. rewrite length_take. lia.
Qed.

Lemma absorb_app_aux n : ∀ st m d, (length m ≤ n)%nat →
  absorb st (m ++ d) = absorb (absorb st m).1 ((absorb st m).2 ++ d).
Proof.
  induction n as [|n IH]; intros st m d Hn.
  { destruct m; [done|simpl in Hn; lia]. }
  destruct (decide (length m < 64)%nat) as [Hlt|Hge]; [by rewrite (absorb_short st m)|].
  rewrite <- (take_drop 64 m) at 1. rewrite <- app_assoc, (absorb_long st m) by lia.
  rewrite absorb_block by (rewrite length_take; lia). apply IH. rewrite length_drop. lia.
Qed.

Lemma absorb_app st m d :
  absorb st (m ++ d) = absorb (absorb st m).1 ((absorb st m).2 ++ d).
Proof. by apply (absorb_app_aux (length m)). Qed.

Lemma absorb_rest_aux n : ∀ st m, (length m ≤ n)%nat →
  length (absorb st m).2 = (length m `mod` 64)%nat.
Proof.
  induction n as [|n IH]; intros st m Hn.
  { by destruct m; [|simpl in Hn; lia]. }
  destruct (decide (length m < 64)%nat) as [Hlt|Hge].
  { rewrite absorb_short by done. by rewrite Nat.mod_small. }
  rewrite absorb_long, IH by (rewrite ?length_drop; lia).
  rewrite length_drop. replace (length m) with (length m - 64 + 1 * 64)%nat at 2 by lia.
  by rewrite Nat.Div0.mod_add.
Qed.

Lemma absorb_rest st m : length (absorb st m).2 = (length m `mod` 64)%nat.
Proof. by apply (absorb_rest_aux (length m)). Qed.

Lemma update_blocks_absorb fuel : ∀ st bs,
  (length bs ≤ fuel)%nat → update_blocks fuel st bs = absorb st bs.
Proof.
  intros st bs Hf. unfold absorb. rewrite (absorb_fuel_irrel _ fuel) by lia. clear Hf.
  revert st bs. induction fuel as [|fuel IH]; intros st bs; [done|].
  cbn [update_blocks absorb_fuel]. destruct (Nat.ltb_spec 63 (length bs)); [|done].
  rewrite SHA1Transform_fips by (rewrite length_take; lia). apply IH.
Qed.

(** A context has absorbed a message: its state is that of the whole blocks,
    its buffer begins with the rest, its count is the length in bits. *)
Record absorbed (ctx : SHA1_CTX) (m : list byte) : Prop := mk_absorbed {
  ab_state : state ctx = (absorb sha1_iv m).1;
  ab_buffer : take (length m `mod` 64) (buffer ctx) = (absorb sha1_iv m).2;
  ab_length : length (buffer ctx) = 64%nat;
  ab_count : count ctx = u64 (8 * Zlen m);
}.

Lemma count_index n : Z.to_nat (Z.land (Z.shiftr (u64 (8 * Z.of_nat n)) 3) 63) = (n `mod` 64)%nat.
Proof.
  change 63 with (Z.ones 6). rewrite Z.land_ones, Z.shiftr_div_pow2 by lia. unfold u64.
  replace (2 ^ 64) with (8 * 2 ^ 61) by lia. rewrite Z.mul_mod_distr_l by lia.
  change (2 ^ 3) with 8. rewrite Z.mul_comm, Z.div_mul by lia.
  replace (2 ^ 61) with (2 ^ 6 * 2 ^ 55) by lia.
  rewrite Z.mod_mod_divide by (by exists (2 ^ 55)).
  change (2 ^ 6) with (Z.of_nat 64). rewrite <- Nat2Z.inj_mod. lia.
Qed.

Lemma count_add n (d : list byte) :
  u64 (u64 (8 * Z.of_nat n) + u64 (Z.shiftl (Zlen d) 3)) = u64 (8 * Z.of_nat (n + length d)).
Proof.
  unfold u64, Zlen. rewrite Z.shiftl_mul_pow2 by lia. rewrite <- Z.add_mod by lia. f_equal. lia.
Qed.

Lemma length_copy_at off bs buf :
  (off + length bs ≤ length buf)%nat → length (copy_at off bs buf) = length buf.
Proof.
  intros H. unfold copy_at. rewrite !length_app, length_take, length_drop. lia.
Qed.

Lemma take_copy_at off bs buf :
  (off ≤ length buf)%nat → take (off + length bs) (copy_at off bs buf) = take off buf ++ bs.
Proof.
  intros H. unfold copy_at. rewrite app_assoc, take_app_le.
  - apply take_ge. rewrite length_app, length_take. lia.
  - rewrite length_app, length_take. lia.
Qed.

Lemma SHA1Update_absorbed ctx m d : absorbed ctx m → absorbed (SHA1Update ctx d) (m ++ d).
Proof.
  intros [Hs Hb Hl Hc]. unfold SHA1Update. unfold Zlen in Hc. rewrite Hc.
  rewrite count_index, count_add. set (j := (length m `mod` 64)%nat) in *.
  assert (j < 64)%nat as Hj by (apply Nat.mod_upper_bound; lia).
  pose proof (absorb_app sha1_iv m d) as Happ.
  pose proof (absorb_rest sha1_iv (m ++ d)) as Hrest.
  rewrite <- Hb, <- Hs in Happ. rewrite <- length_app.
  destruct (Nat.ltb_spec 63 (j + length d)) as [Hlt|Hge].
  - set (b := take (64 - j) d).
    assert (length b = 64 - j)%nat as Hlb by (unfold b; rewrite length_take; lia).
    assert (copy_at j b (buffer ctx) = take j (buffer ctx) ++ b) as Hcopy.
    { pose proof (take_copy_at j b (buffer ctx)) as Ht. rewrite <- Ht by lia.
      rewrite take_ge; [done|]. rewrite length_copy_at; lia. }
    rewrite Hcopy, SHA1Transform_fips by (rewrite length_app, length_take; lia).
    rewrite update_blocks_absorb by (rewrite length_drop; lia).
    assert (absorb (fips_compress (state ctx) (take j (buffer ctx) ++ b)) (drop (64 - j) d)
            = absorb sha1_iv (m ++ d)) as ->.
    { rewrite Happ, <- absorb_block by (rewrite length_app, length_take; lia).
      rewrite <- app_assoc. unfold b. by rewrite take_drop. } destruct (absorb sha1_iv (m ++ d)) as [st rest] eqn:E. cbn [snd] in Hrest.
    pose proof (Nat.mod_upper_bound (length (m ++ d)) 64 ltac:(lia)).
    constructor; cbn [state buffer count]; rewrite ?E; cbn [fst snd]; [done| | |done].
    + rewrite <- Hrest. apply (take_copy_at 0). lia.
    + assert (length (take j (buffer ctx) ++ b) = 64%nat) as H64
        by (rewrite length_app, length_take; lia).
      rewrite length_copy_at; rewrite H64; lia.
  - rewrite (absorb_short (state ctx)) in Happ by (rewrite length_app, length_take; lia).
    constructor; cbn [state buffer count]; rewrite ?Happ; cbn [fst snd]; [done| | |done].
    + rewrite <- Hrest, Happ. cbn [snd]. rewrite length_app, length_take, Nat.min_l by lia.
      apply take_copy_at. lia.
    + rewrite length_copy_at; lia.
Qed.

Lemma SHA1Init_absorbed buf : length buf = 64%nat → absorbed (SHA1Init buf) [].
Proof. by constructor. Qed.

Lemma updates_absorbed chunks : ∀ ctx m,
  absorbed ctx m → absorbed (foldl SHA1Update ctx chunks) (m ++ concat chunks).
Proof.
  induction chunks as [|d ds IH]; intros ctx m H; cbn [foldl concat]; [by rewrite app_nil_r|].
  rewrite app_assoc. apply IH. by apply SHA1Update_absorbed.
Qed.

(** The test of the pad loop. *)
Lemma pad_test n : (Z.land (u64 (8 * Z.of_nat n)) 504 =? 448) = (n `mod` 64 =? 56)%nat.
Proof.
  pose proof (count_index n) as Hi.
  assert (Z.land (u64 (8 * Z.of_nat n)) 504 = 8 * Z.of_nat (n `mod` 64)) as ->.
  { rewrite <- Hi, Z2Nat.id by (apply Z.land_nonneg; lia).
    generalize (u64 (8 * Z.of_nat n)). intros x.
    rewrite Z.mul_comm. change 8 with (2 ^ 3). rewrite <- Z.shiftl_mul_pow2 by lia.
    change 504 with (Z.shiftl 63 3). apply Z.bits_inj'. intros k Hk.
    rewrite Z.land_spec, !Z.shiftl_spec, Z.land_spec by lia.
    destruct (decide (k < 3)) as [Hlt|].
    - rewrite !(Z.testbit_neg_r _ (k - 3)) by lia. by rewrite !andb_false_r.
    - rewrite Z.shiftr_spec by lia. by replace (k - 3 + 3) with k by lia. }
  destruct (Nat.eqb_spec (n `mod` 64) 56) as [->|]; [done|]. apply Z.eqb_neq. lia.
Qed.

Lemma pad_loop_absorbed fuel : ∀ ctx m,
  absorbed ctx m → (Z.to_nat ((56 - Zlen m) `mod` 64) ≤ fuel)%nat →
  ∃ ctx', pad_loop fuel ctx = Some ctx'
          ∧ absorbed ctx' (m ++ replicate (Z.to_nat ((56 - Zlen m) `mod` 64)) Byte.x00).
Proof.
  induction fuel as [|fuel IH]; intros ctx m Hm Hf; unfold pad_loop; fold pad_loop;
    rewrite (ab_count _ _ Hm); unfold Zlen at 1; rewrite pad_test.
  - assert ((56 - Zlen m) `mod` 64 = 0) as Hz by (pose proof (Z.mod_pos_bound (56 - Zlen m) 64); lia).
    rewrite Hz. replace (length m `mod` 64 =? 56)%nat with true.
    + exists ctx. by rewrite app_nil_r.
    + symmetry. apply Nat.eqb_eq. unfold Zlen in Hz. nat_arith.
  - destruct (Nat.eqb_spec (length m `mod` 64) 56) as [He|Hne].
    + exists ctx. replace ((56 - Zlen m) `mod` 64) with 0; [by rewrite app_nil_r|].
      unfold Zlen. nat_arith.
    + set (k := (56 - Zlen m) `mod` 64) in *.
      assert ((56 - Zlen (m ++ [Byte.x00])) `mod` 64 = k - 1 ∧ 0 < k) as [Hk Hpos].
      { unfold k. rewrite Zlen_app. change (Zlen [Byte.x00]) with 1. unfold Zlen. nat_arith. }
      destruct (IH (SHA1Update ctx [Byte.x00]) (m ++ [Byte.x00])) as (ctx' & E & Ha).
      * by apply SHA1Update_absorbed.
      * rewrite Hk. lia.
      * exists ctx'. split; [done|]. rewrite Hk, <- app_assoc in Ha.
        replace (Z.to_nat k) with (S (Z.to_nat (k - 1))) by lia. done.
Qed.

Lemma of_Z_land z : byte.of_Z (Z.land z 255) = byte.of_Z z.
Proof.
  apply byte.unsigned_inj. rewrite !byte.unsigned_of_Z. unfold byte.wrap.
  change 255 with (Z.ones 8). by rewrite Z.land_ones, Z.mod_mod by lia.
Qed.

Lemma of_Z_u64 z k : 0 ≤ k ≤ 56 → byte.of_Z (Z.shiftr (u64 z) k) = byte.of_Z (Z.shiftr z k).
Proof.
  intros Hk. rewrite <- (of_Z_land (Z.shiftr z k)), <- (of_Z_land (Z.shiftr (u64 z) k)).
  f_equal. apply Z.bits_inj'. intros n Hn. rewrite !Z.land_spec.
  destruct (decide (n < 8)) as [Hlt|]; [|by rewrite (Z.bits_above_log2 255), !andb_false_r by (simpl; lia)].
  f_equal. rewrite !Z.shiftr_spec by lia. unfold u64. by rewrite Z.mod_pow2_bits_low by lia.
Qed.

Lemma finalcount_spec n : finalcount (u64 n) = rev (le_split 8 n).
Proof.
  unfold finalcount. cbn [seq map]. rewrite !of_Z_land.
  change (le_split 8 n) with
    [byte.of_Z n; byte.of_Z (Z.shiftr n 8); byte.of_Z (Z.shiftr (Z.shiftr n 8) 8);
     byte.of_Z (Z.shiftr (Z.shiftr (Z.shiftr n 8) 8) 8);
     byte.of_Z (Z.shiftr (Z.shiftr (Z.shiftr (Z.shiftr n 8) 8) 8) 8);
     byte.of_Z (Z.shiftr (Z.shiftr (Z.shiftr (Z.shiftr (Z.shiftr n 8) 8) 8) 8) 8);
     byte.of_Z (Z.shiftr (Z.shiftr (Z.shiftr (Z.shiftr (Z.shiftr (Z.shiftr n 8) 8) 8) 8) 8) 8);
     byte.of_Z (Z.shiftr (Z.shiftr (Z.shiftr (Z.shiftr (Z.shiftr (Z.shiftr (Z.shiftr n 8) 8) 8) 8) 8) 8) 8)].
  rewrite !Z.shiftr_shiftr by lia. rewrite !of_Z_u64 by (vm_compute; split; discriminate).
  reflexivity.
Qed.

Lemma digest_bytes st :
  map (λ i, byte.of_Z (Z.land (Z.shiftr (state_word st (i / 4)) ((3 - Z.land (Z.of_nat i) 3) * 8)) 255))
    (seq 0 SHA1_DIGEST_LENGTH) = vars_bytes st.
Proof.
  destruct st as [[[[a b] c] d] e]. unfold SHA1_DIGEST_LENGTH, vars_bytes. cbn [seq map].
  rewrite !of_Z_land.
  assert (∀ w, rev (le_split 4 w) = [byte.of_Z (Z.shiftr w 24); byte.of_Z (Z.shiftr w 16);
    byte.of_Z (Z.shiftr w 8); byte.of_Z w]) as Hw.
  { intros w. change (le_split 4 w) with [byte.of_Z w; byte.of_Z (Z.shiftr w 8);
      byte.of_Z (Z.shiftr (Z.shiftr w 8) 8); byte.of_Z (Z.shiftr (Z.shiftr (Z.shiftr w 8) 8) 8)].
    by rewrite !Z.shiftr_shiftr by lia. }
  rewrite !Hw. cbn [concat app]. reflexivity.
Qed.

Lemma SHA1Final_absorbed ctx m : absorbed ctx m → SHA1Final ctx = Some (fips_sha1 m).
Proof.
  intros Hm. unfold SHA1Final, SHA1Pad. rewrite (ab_count _ _ Hm), finalcount_spec.
  pose proof (SHA1Update_absorbed _ _ [Byte.x80] Hm) as H1.
  assert (Z.to_nat ((56 - Zlen (m ++ [Byte.x80])) `mod` 64) ≤ 64)%nat as Hf
    by (pose proof (Z.mod_pos_bound (56 - Zlen (m ++ [Byte.x80])) 64); lia).
  destruct (pad_loop_absorbed 64 _ _ H1 Hf) as (ctx' & -> & H2).
  pose proof (SHA1Update_absorbed _ _ (rev (le_split 8 (8 * Zlen m))) H2) as H3.
  rewrite digest_bytes, (ab_state _ _ H3). unfold fips_sha1, fips_pad.
  rewrite Zlen_app. change (Zlen [Byte.x80]) with 1. rewrite <- !app_assoc.
  by replace (56 - (Zlen m + 1)) with (55 - Zlen m) by lia.
Qed.

Lemma sha1_digest_spec chunks buf :
  length buf = 64%nat → sha1_digest chunks buf = Some (fips_sha1 (concat chunks)).
Proof.
  intros Hb. unfold sha1_digest. apply SHA1Final_absorbed.
  apply (updates_absorbed chunks _ []). by apply SHA1Init_absorbed.
Qed.

(** ** The theorems *)

(** C26. SHA1Transform, with its byte swaps, its circular schedule of sixteen
    words and its rewritten round functions, computes the compression
    function of FIPS 180 on every block of 64 bytes. *)
Theorem sha1_transform_fips st m :
  length m = 64%nat → SHA1Transform st m = fips_compress st m.
Proof. apply SHA1Transform_fips. Qed.

(** C12. Whatever the sequence of SHA1Update calls that feeds a message to a
    fresh context, the padding loop ends and SHA1Final gives the SHA-1
    digest of the concatenation. *)
Theorem sha1_stream chunks buf :
  length buf = 64%nat → sha1_digest chunks buf = Some (fips_sha1 (concat chunks)).
Proof. apply sha1_digest_spec. Qed.

Lemma sha1_transform_fips_witness :
  SHA1Transform sha1_iv (replicate 64 Byte.x61) = fips_compress sha1_iv (replicate 64 Byte.x61).
Proof. apply sha1_transform_fips. reflexivity. Defined.

(** The test vector of FIPS 180 for "abc", fed in two pieces. *)
Lemma sha1_stream_witness :
  sha1_digest [[Byte.x61]; [Byte.x62; Byte.x63]] (replicate 64 Byte.xff)
  = Some (fips_sha1 [Byte.x61; Byte.x62; Byte.x63])
  ∧ fips_sha1 [Byte.x61; Byte.x62; Byte.x63]
    = [Byte.xa9; Byte.x99; Byte.x3e; Byte.x36; Byte.x47; Byte.x06; Byte.x81; Byte.x6a; Byte.xba;
       Byte.x3e; Byte.x25; Byte.x71; Byte.x78; Byte.x50; Byte.xc2; Byte.x6c; Byte.x9c; Byte.xd0;
       Byte.xd8; Byte.x9d].
Proof.
  split; [apply (sha1_stream [[Byte.x61]; [Byte.x62; Byte.x63]]); reflexivity|].
  vm_compute. reflexivity.
Defined.
