(* ===== verification/Pbkdf2.v ===== *)
(** * Pbkdf2: the derivation of WPA keys from passphrases

    Models src/usr/src/sbin/bioctl/pbkdf2.c (hmac_sha1, pkcs5_pbkdf2), which
    setifwpakey calls, on top of Sha1.  The theorems relate it to HMAC of
    RFC 2104 and PBKDF2 of RFC 2898. *)
From coqutil Require Import Byte Word.LittleEndianList.
From stdpp Require Import base list.
From S2P Require Import Prelude Sha1.

(** ** hmac_sha1 *)

Definition xor_byte (b : byte) (v : Z) : byte := byte.of_Z (Z.lxor (byte.unsigned b) v).

(** k_pad: the key, padded with zeros to a block, with each byte xored. *)
Definition k_pad (key : list byte) (v : Z) : list byte :=
  map (λ b, xor_byte b v) (key ++ replicate (SHA1_BLOCK_LENGTH - length key) Byte.x00).

(** [stk] is what the buffer of ctx holds before its first use; SHA1Final
    leaves zeros in it.  [digest] is a run of SHA1Init, SHA1Update for each
    piece and SHA1Final. *)
Definition hmac_with (digest : list (list byte) → list byte → option (list byte))
    (stk text key : list byte) : option (list byte) :=
  let wiped := replicate SHA1_BLOCK_LENGTH Byte.x00 in
  '(stk, key) ← (if (SHA1_BLOCK_LENGTH <? length key)%nat then
                   tk ← digest [key] stk; Some (wiped, tk)
                 else Some (stk, key));
  inner ← digest [k_pad key 0x36; text] stk;
  digest [k_pad key 0x5c; inner] wiped.

Definition hmac_sha1 : list byte → list byte → list byte → option (list byte) :=
  hmac_with sha1_digest.

(** ** pkcs5_pbkdf2 *)

Definition xor_bytes (a b : list byte) : list byte :=
  zip_with (λ x y, xor_byte x (byte.unsigned y)) a b.

(** The loop for (i = 1; i < rounds; i++), [n] times. *)
Fixpoint pbkdf2_rounds (stk pass : list byte) (n : nat) (d1 obuf : list byte) : option (list byte) :=
  match n with
  | O => Some obuf
  | S n =>
      d2 ← hmac_sha1 stk d1 pass;
      pbkdf2_rounds stk pass n d2 (xor_bytes obuf d2)
  end.

Definition count_bytes (count : Z) : list byte :=
  map byte.of_Z [Z.land (Z.shiftr count 24) 0xff; Z.land (Z.shiftr count 16) 0xff;
                 Z.land (Z.shiftr count 8) 0xff; Z.land count 0xff].

(** The outer loop; every pass stores at least one byte of the key. *)
Fixpoint pbkdf2_blocks (stk pass salt : list byte) (rounds : nat) (fuel : nat) (count : Z)
    (key_len : nat) : option (list byte) :=
  match fuel, key_len with
  | _, O => Some []
  | O, _ => None
  | S fuel, _ =>
      d1 ← hmac_sha1 stk (salt ++ count_bytes count) pass;
      obuf ← pbkdf2_rounds stk pass (rounds - 1) d1 d1;
      let r := Nat.min key_len SHA1_DIGEST_LENGTH in
      rest ← pbkdf2_blocks stk pass salt rounds fuel (u32 (count + 1)) (key_len - r);
      Some (take r obuf ++ rest)
  end.

(** The result is the return value and the bytes stored at key. *)
Definition pkcs5_pbkdf2 (stk pass salt : list byte) (key_len : nat) (rounds : Z)
  : CM cenv (Z * list byte) :=
  if (rounds <? 1) || (key_len =? 0)%nat then mret (-1, [])
  else if (Zlen salt =? 0) || (2 ^ 64 - 1 - 1 <? Zlen salt) then mret (-1, [])
  else
    ok ← alloc_ok;
    if negb ok then mret (-1, [])
    else match pbkdf2_blocks stk pass salt (Z.to_nat rounds) key_len 1 key_len with
    | Some key => mret (0, key)
    | None => stopM SFuel
    end.

(** ** RFC 2104 and RFC 2898 *)

(** HMAC for a hash function with blocks of 64 bytes. *)
Definition HMAC_with (hash : list byte → list byte) (key text : list byte) : list byte :=
  let k := if (SHA1_BLOCK_LENGTH <? length key)%nat then hash key else key in
  let k0 := k ++ replicate (SHA1_BLOCK_LENGTH - length k) Byte.x00 in
  let pad v := map (λ b, xor_byte b v) k0 in
  hash (pad 0x5c ++ hash (pad 0x36 ++ text)).

Definition HMAC : list byte → list byte → list byte := HMAC_with fips_sha1.

Lemma hmac_with_spec digest hash stk text key :
  (∀ pieces buf, length buf = 64%nat → digest pieces buf = Some (hash (concat pieces))) →
  length stk = 64%nat → hmac_with digest stk text key = Some (HMAC_with hash key text).
Proof.
  intros Hd Hs. unfold hmac_with, HMAC_with.
  destruct (SHA1_BLOCK_LENGTH <? length key)%nat; rewrite ?(Hd _ stk Hs); cbn [mbind option_bind];
    rewrite !Hd by done; cbn [mbind option_bind]; rewrite ?Hd by done; cbn [concat];
    by rewrite ?app_nil_r.
Qed.

(** U_1, U_2, ... of a block: [U P s j] is U_(j+1). *)
Definition U (P s : list byte) (j : nat) : list byte := Nat.iter j (HMAC P) (HMAC P s).

Definition INT (i : Z) : list byte := rev (le_split 4 i).

Definition F (P S : list byte) (c : nat) (i : Z) : list byte :=
  foldl xor_bytes (U P (S ++ INT i) 0) (map (U P (S ++ INT i)) (seq 1 (c - 1))).

(** The concatenation of the blocks number [i], [i+1], ... *)
Fixpoint T (P S : list byte) (c : nat) (i : Z) (l : nat) : list byte :=
  match l with
  | O => []
  | Datatypes.S l => F P S c i ++ T P S c (i + 1) l
  end.

(** The derived key of [n] bytes. *)
Definition PBKDF2 (P S : list byte) (c n : nat) : list byte :=
  take n (T P S c 1 ((n + 19) `div` 20)).

Lemma count_bytes_spec i : count_bytes i = INT i.
Proof.
  unfold count_bytes, INT. cbn [map]. rewrite !of_Z_land.
  change (le_split 4 i) with [byte.of_Z i; byte.of_Z (Z.shiftr i 8);
    byte.of_Z (Z.shiftr (Z.shiftr i 8) 8); byte.of_Z (Z.shiftr (Z.shiftr (Z.shiftr i 8) 8) 8)].
  by rewrite !Z.shiftr_shiftr by lia.
Qed.

Lemma length_fips_sha1 m : length (fips_sha1 m) = 20%nat.
Proof. unfold fips_sha1. by destruct (absorb _ _).1 as [[[[a b] c] d] e]. Qed.

Lemma length_F P s c i : length (F P s c i) = 20%nat.
Proof.
  unfold F. assert (∀ j, length (U P (s ++ INT i) j) = 20%nat) as HU.
  { intros [|j]; apply length_fips_sha1. }
  generalize (U P (s ++ INT i) 0) (HU 0%nat). generalize (seq 1 (c - 1)).
  induction l as [|j l IH]; intros o Ho; [done|]. cbn [map foldl]. apply IH.
  unfold xor_bytes. rewrite length_zip_with, Ho, HU. done.
Qed.

Section derivation.
Context (stk : list byte) (Hstk : length stk = 64%nat).

Lemma hmac_sha1_spec text key : hmac_sha1 stk text key = Some (HMAC key text).
Proof using Hstk. apply hmac_with_spec; [apply sha1_digest_spec|done]. Qed.

Lemma pbkdf2_rounds_spec P s n : ∀ k,
  pbkdf2_rounds stk P n (U P s k) (foldl xor_bytes (U P s 0) (map (U P s) (seq 1 k)))
  = Some (foldl xor_bytes (U P s 0) (map (U P s) (seq 1 (k + n)))).
Proof using Hstk.
  induction n as [|n IH]; intros k; cbn [pbkdf2_rounds]; [by rewrite Nat.add_0_r|].
  rewrite hmac_sha1_spec. cbn [mbind option_bind].
  change (HMAC P (U P s k)) with (U P s (S k)).
  replace (k + S n)%nat with (S k + n)%nat by lia. rewrite <- IH.
  by rewrite (seq_S k 1), map_app, foldl_app.
Qed.

Lemma pbkdf2_blocks_spec P s c fuel : ∀ i n,
  (1 ≤ c)%nat → (n ≤ fuel)%nat → 0 < i → i + Z.of_nat n < 2 ^ 32 →
  pbkdf2_blocks stk P s c fuel i n = Some (take n (T P s c i ((n + 19) `div` 20))).
Proof using Hstk.
  induction fuel as [|fuel IH]; intros i n Hc Hn Hi Hb; (destruct n as [|n]; [done|]); [lia|].
  cbn [pbkdf2_blocks]. rewrite hmac_sha1_spec, count_bytes_spec. cbn [mbind option_bind].
  pose proof (pbkdf2_rounds_spec P (s ++ INT i) (c - 1) 0) as E. cbn [seq map foldl Nat.add] in E.
  change (HMAC P (s ++ INT i)) with (U P (s ++ INT i) 0). rewrite E. cbn [mbind option_bind].
  fold (F P s c i). unfold SHA1_DIGEST_LENGTH.
  rewrite u32_small, IH by lia. cbn [mbind option_bind]. f_equal.
  assert ((S n + 19) `div` 20 = S ((S n - Nat.min (S n) 20 + 19) `div` 20))%nat as ->.
  { destruct (decide (S n ≤ 20)%nat) as [Hle|Hgt].
    - rewrite Nat.min_l, Nat.sub_diag by lia. cbn [Nat.add].
      rewrite (Nat.div_small 19 20) by lia. symmetry. apply (Nat.div_unique _ 20 1 (n + 0)); lia.
    - rewrite Nat.min_r by lia. replace (S n + 19)%nat with (1 * 20 + (S n - 20 + 19))%nat by lia.
      rewrite Nat.div_add_l by lia. done. }
  cbn [T]. destruct (decide (S n ≤ 20)%nat) as [Hle|Hgt].
  - rewrite Nat.min_l, Nat.sub_diag by lia. rewrite take_0, app_nil_r.
    by rewrite take_app_le by (rewrite length_F; lia).
  - rewrite Nat.min_r by lia. rewrite take_app_ge by (rewrite length_F; lia).
    rewrite length_F. f_equal. apply take_ge. rewrite length_F. lia.
Qed.
End derivation.

Lemma pbkdf2_spec stk pass salt key_len rounds c :
  length stk = 64%nat → alloc_never_fails c →
  1 ≤ rounds → (0 < key_len)%nat → 1 + Z.of_nat key_len < 2 ^ 32 → 0 < Zlen salt < 2 ^ 64 - 1 →
  ∃ c', pkcs5_pbkdf2 stk pass salt key_len rounds c
        = (Ok (0, PBKDF2 pass salt (Z.to_nat rounds) key_len), c') ∧ alloc_never_fails c'.
Proof.
  intros Hs Ha Hr Hk Hb Hl. unfold pkcs5_pbkdf2.
  rewrite (proj2 (Z.ltb_ge rounds 1)), (proj2 (Nat.eqb_neq key_len 0)) by lia.
  rewrite (proj2 (Z.eqb_neq (Zlen salt) 0)), (proj2 (Z.ltb_ge _ (Zlen salt))) by lia. cbn [orb].
  unfold mbind, CM_bind. alloc_step b c1 Hcl Hal. destruct (Hal Ha) as [-> Hc1]. cbn [negb].
  rewrite pbkdf2_blocks_spec by lia. by exists c1.
Qed.

(** ** The theorems *)

(** hmac_sha1 computes the HMAC of RFC 2104 with SHA-1, for keys of any
    length and whatever its stack held before. *)
Theorem hmac_sha1_rfc2104 stk text key :
  length stk = 64%nat → hmac_sha1 stk text key = Some (HMAC key text).
Proof. intros H. by apply hmac_sha1_spec. Qed.

(** C11. When its allocation succeeds, pkcs5_pbkdf2 with a salt, at least one
    round and a key of fewer than 2^32 - 1 bytes returns 0 and stores the
    key that PBKDF2 of RFC 2898 derives with HMAC-SHA-1. *)
Theorem pbkdf2_rfc2898 stk pass salt key_len rounds c :
  length stk = 64%nat → alloc_never_fails c →
  1 ≤ rounds → (0 < key_len)%nat → 1 + Z.of_nat key_len < 2 ^ 32 → 0 < Zlen salt < 2 ^ 64 - 1 →
  ∃ c', pkcs5_pbkdf2 stk pass salt key_len rounds c
        = (Ok (0, PBKDF2 pass salt (Z.to_nat rounds) key_len), c').
Proof. intros. destruct (pbkdf2_spec stk pass salt key_len rounds c) as (c' & E & _); [done..|]. by exists c'. Qed.

Lemma pbkdf2_terminates stk pass salt key_len rounds c :
  length stk = 64%nat → Z.of_nat key_len < 2 ^ 31 →
  (pkcs5_pbkdf2 stk pass salt key_len rounds c).1 ≠ Stop SFuel.
Proof.
  intros Hstk Hk. unfold pkcs5_pbkdf2. destruct (Z.ltb_spec rounds 1); [done|].
  destruct (Nat.eqb_spec key_len 0); [done|]. cbn [orb].
  destruct ((Zlen salt =? 0) || _); [done|]. unfold mbind, CM_bind. alloc_step b c1 Hcl Hal.
  destruct b; [|done]. cbn [negb]. by rewrite pbkdf2_blocks_spec by lia.
Qed.

Lemma length_T P s c i l : length (T P s c i l) = (l * 20)%nat.
Proof.
  revert i. induction l as [|l IH]; intros i; [done|]. cbn [T]. rewrite length_app, length_F, IH. lia.
Qed.

Lemma pbkdf2_length stk pass salt key_len rounds c key c' :
  length stk = 64%nat → Z.of_nat key_len < 2 ^ 31 →
  pkcs5_pbkdf2 stk pass salt key_len rounds c = (Ok (0, key), c') → length key = key_len.
Proof.
  intros Hstk Hk. unfold pkcs5_pbkdf2. destruct (Z.ltb_spec rounds 1); [done|].
  destruct (Nat.eqb_spec key_len 0); [done|]. cbn [orb].
  destruct ((Zlen salt =? 0) || _); [done|]. unfold mbind, CM_bind. alloc_step b c1 Hcl Hal.
  destruct b; [|done]. cbn [negb]. rewrite pbkdf2_blocks_spec by lia.
  generalize (Nat.div_mod_eq (key_len + 19) 20). generalize ((key_len + 19) `div` 20)%nat. intros q Hq [= <- _].
  rewrite length_take, length_T. 
  pose proof (Nat.mod_upper_bound (key_len + 19) 20 ltac:(done)). lia.
Qed.

Lemma hmac_sha1_rfc2104_witness :
  hmac_sha1 (replicate 64 Byte.x00) [Byte.x68; Byte.x69] [Byte.x6b]
  = Some (HMAC [Byte.x6b] [Byte.x68; Byte.x69]).
Proof. apply hmac_sha1_rfc2104. reflexivity. Defined.

(** The second test vector of RFC 3962: "password" salted with
    "ATHENA.MIT.EDUraeburn", two rounds, sixteen bytes. *)
Lemma pbkdf2_rfc2898_witness :
  ∃ c', pkcs5_pbkdf2 (replicate 64 Byte.x00) (map byte.of_Z [112; 97; 115; 115; 119; 111; 114; 100])
          (map byte.of_Z [65; 84; 72; 69; 78; 65; 46; 77; 73; 84; 46; 69; 68; 85; 114; 97; 101; 98;
                          117; 114; 110]) 16 2 (mk_cenv [] 0 [])
        = (Ok (0, map byte.of_Z [0x01; 0xdb; 0xee; 0x7f; 0x4a; 0x9e; 0x24; 0x3e;
                                 0x98; 0x8b; 0x62; 0xc7; 0x3c; 0xda; 0x93; 0x5d]), c').
Proof.
  destruct (pbkdf2_rfc2898 (replicate 64 Byte.x00)
    (map byte.of_Z [112; 97; 115; 115; 119; 111; 114; 100])
    (map byte.of_Z [65; 84; 72; 69; 78; 65; 46; 77; 73; 84; 46; 69; 68; 85; 114; 97; 101; 98;
                    117; 114; 110]) 16 2 (mk_cenv [] 0 [])) as [c' E];
    [reflexivity|constructor|lia|lia|lia|split; reflexivity|].
  exists c'. rewrite E. vm_compute. reflexivity.
Defined.
