(* ===== verification/ImsgBuffer.v ===== *)
(** * ImsgBuffer: the write queue of imsg sockets

    Models src/usr/src/lib/libutil/imsg-buffer.c: growable buffers
    ([ibuf]) and the queue of buffers waiting to be sent ([msgbuf]).

    [b_buf] holds the bytes written so far, that is the first [b_wpos]
    bytes of the allocation of [b_size] bytes; the rest of the allocation is
    never read.  A pointer to an element of the queue is its position in
    the queue.  The kernel's answer to writev(2) and sendmsg(2) is the
    argument [r]; what the call offers to the kernel is [writev_iov] and
    [sendmsg_iov]. *)
From stdpp Require Import base list strings.
From coqutil Require Import Byte.
From S2P Require Import Prelude.

Record ibuf := mk_ibuf {
  b_buf : list byte;
  b_size : Z;
  b_max : Z;
  b_wpos : Z;
  b_rpos : Z;
  b_fd : Z;
}.

Record msgbuf := mk_msgbuf {
  m_bufs : list ibuf;
  m_queued : Z;
  m_fd : Z;
}.

(** Reduce projections of the records only. *)
Ltac proj_buf := cbn [b_buf b_size b_max b_wpos b_rpos b_fd m_bufs m_queued m_fd].

(** The result of a system call. *)
Inductive sysret :=
| SysErr (e : Z)
| SysOk (n : Z).

Definition IOV_MAX : Z := 1024.

(** ** Buffers *)

Definition ibuf_open (len : Z) : CM cenv (option ibuf) :=
  ok ← alloc_ok;
  if negb ok then mret None else
  ok ← alloc_ok;
  if negb ok then mret None else
  mret (Some (mk_ibuf [] len len 0 0 (-1))).

Definition ibuf_dynamic (len max : Z) : CM cenv (option ibuf) :=
  if max <? len then mret None else
  ob ← ibuf_open len;
  match ob with
  | None => mret None
  | Some b =>
      mret (Some (if 0 <? max
                  then mk_ibuf (b_buf b) (b_size b) max (b_wpos b) (b_rpos b) (b_fd b)
                  else b))
  end.

Definition ibuf_realloc (b : ibuf) (len : Z) : CM cenv (Z * ibuf) :=
  if b_max b <? u64 (b_wpos b + len) then
    _ ← set_errno ENOMEM;
    mret (-1, b)
  else
    ok ← alloc_ok;
    if negb ok then mret (-1, b) else
    let n := u64 (b_wpos b + len) in
    mret (0, mk_ibuf (Ztake n (b_buf b)) n (b_max b) (b_wpos b) (b_rpos b) (b_fd b)).

(** memcpy(buf->buf + buf->wpos, data, len): undefined when [data] has
    fewer than [len] bytes or the destination runs past the allocation. *)
Definition ibuf_memcpy (b : ibuf) (data : list byte) (len : Z) : CM cenv ibuf :=
  if (Zlen data <? len) || (b_size b <? b_wpos b + len) then stopM SUndef else
  mret (mk_ibuf (Ztake (b_wpos b) (b_buf b) ++ Ztake len data)
          (b_size b) (b_max b) (b_wpos b) (b_rpos b) (b_fd b)).

Definition ibuf_add (b : ibuf) (data : list byte) (len : Z) : CM cenv (Z * ibuf) :=
  '(r, b) ← (if b_size b <? u64 (b_wpos b + len) then ibuf_realloc b len else mret (0, b));
  if r =? -1 then mret (-1, b) else
  b ← ibuf_memcpy b data len;
  mret (0, mk_ibuf (b_buf b) (b_size b) (b_max b) (u64 (b_wpos b + len)) (b_rpos b) (b_fd b)).

(** [fill] is what the reserved region holds before the caller writes it. *)
Definition ibuf_reserve (b : ibuf) (len : Z) (fill : list byte) : CM cenv (option Z * ibuf) :=
  '(r, b) ← (if b_size b <? u64 (b_wpos b + len) then ibuf_realloc b len else mret (0, b));
  if r =? -1 then mret (None, b) else
  mret (Some (b_wpos b),
        mk_ibuf (Ztake (b_wpos b) (b_buf b) ++ Ztake len fill)
          (b_size b) (b_max b) (u64 (b_wpos b + len)) (b_rpos b) (b_fd b)).

Definition ibuf_seek (b : ibuf) (pos len : Z) : option Z :=
  if b_wpos b <? u64 (pos + len) then None else Some pos.

Definition ibuf_size (b : ibuf) : Z := b_wpos b.
Definition ibuf_left (b : ibuf) : Z := u64 (b_max b - b_wpos b).

(** ** The queue *)

Definition ibuf_enqueue (mb : msgbuf) (b : ibuf) : msgbuf :=
  mk_msgbuf (m_bufs mb ++ [b]) (u32 (m_queued mb + 1)) (m_fd mb).

Definition ibuf_close (mb : msgbuf) (b : ibuf) : msgbuf := ibuf_enqueue mb b.

Definition ibuf_dequeue (mb : msgbuf) (pos : nat) : CM cenv msgbuf :=
  match m_bufs mb !! pos with
  | None => stopM SUndef
  | Some b =>
      _ ← (if negb (b_fd b =? -1) then close (b_fd b) else mret tt);
      mret (mk_msgbuf (delete pos (m_bufs mb)) (u32 (m_queued mb - 1)) (m_fd mb))
  end.

Definition msgbuf_init : msgbuf := mk_msgbuf [] 0 (-1).

(** The loop of msgbuf_drain: [todo] is what the element pointer still has
    to visit, always the head of the queue. *)
Fixpoint msgbuf_drain_loop (todo : list ibuf) (n : Z) (mb : msgbuf) : CM cenv msgbuf :=
  match todo with
  | [] => mret mb
  | b :: next =>
      if negb (0 <? n) then mret mb else
      if b_wpos b <=? u64 (b_rpos b + n) then
        mb ← ibuf_dequeue mb 0;
        msgbuf_drain_loop next (u64 (n - u64 (b_wpos b - b_rpos b))) mb
      else
        mret (mk_msgbuf
                (<[0%nat := mk_ibuf (b_buf b) (b_size b) (b_max b) (b_wpos b)
                              (u64 (b_rpos b + n)) (b_fd b)]> (m_bufs mb))
                (m_queued mb) (m_fd mb))
  end.

Definition msgbuf_drain (mb : msgbuf) (n : Z) : CM cenv msgbuf :=
  msgbuf_drain_loop (m_bufs mb) n mb.

Fixpoint msgbuf_clear_loop (todo : list ibuf) (mb : msgbuf) : CM cenv msgbuf :=
  match todo with
  | [] => mret mb
  | _ :: next =>
      mb ← ibuf_dequeue mb 0;
      msgbuf_clear_loop next mb
  end.

Definition msgbuf_clear (mb : msgbuf) : CM cenv msgbuf :=
  msgbuf_clear_loop (m_bufs mb) mb.

(** ** Sending *)

(** One iovec entry: the unsent bytes of a buffer. *)
Definition iov (b : ibuf) : list byte := Zdrop (b_rpos b) (Ztake (b_wpos b) (b_buf b)).

(** The gathering loop of ibuf_write. *)
Fixpoint writev_iov (i : Z) (bufs : list ibuf) : list (list byte) :=
  match bufs with
  | [] => []
  | b :: next => if IOV_MAX <=? i then [] else iov b :: writev_iov (i + 1) next
  end.

(** The gathering loop of msgbuf_write, with the position the element
    pointer stops at ([None] for the end of the queue). *)
Fixpoint sendmsg_iov (i : Z) (bufs : list ibuf) : list (list byte) * option Z :=
  match bufs with
  | [] => ([], None)
  | b :: next =>
      if IOV_MAX <=? i then ([], Some i) else
      if b_fd b =? -1 then
        let '(v, cur) := sendmsg_iov (i + 1) next in (iov b :: v, cur)
      else ([iov b], Some i)
  end.

(** The descriptor passed along: that of the buffer the loop stopped at. *)
Definition sendmsg_fd (mb : msgbuf) : option (nat * Z) :=
  match (sendmsg_iov 0 (m_bufs mb)).2 with
  | None => None
  | Some p =>
      match m_bufs mb !! Z.to_nat p with
      | None => None
      | Some b => if b_fd b =? -1 then None else Some (Z.to_nat p, b_fd b)
      end
  end.

Definition try_later (e : Z) : bool := (e =? EAGAIN) || (e =? ENOBUFS) || (e =? EINTR).

Definition ibuf_write (r : sysret) (mb : msgbuf) : CM cenv (Z * msgbuf) :=
  match r with
  | SysErr e =>
      _ ← set_errno e;
      if try_later e then mret (0, mb) else mret (-1, mb)
  | SysOk n =>
      if n =? 0 then _ ← set_errno 0; mret (-2, mb) else
      mb ← msgbuf_drain mb n;
      mret (0, mb)
  end.

Definition clear_fd (b : ibuf) : ibuf :=
  mk_ibuf (b_buf b) (b_size b) (b_max b) (b_wpos b) (b_rpos b) (-1).

Definition msgbuf_write (r : sysret) (mb : msgbuf) : CM cenv (Z * msgbuf) :=
  match r with
  | SysErr e =>
      _ ← set_errno e;
      if try_later e then mret (0, mb) else mret (-1, mb)
  | SysOk n =>
      if n =? 0 then _ ← set_errno 0; mret (-2, mb) else
      mb ← (match sendmsg_fd mb with
            | None => mret mb
            | Some (p, fd) =>
                _ ← close fd;
                mret (mk_msgbuf (alter clear_fd p (m_bufs mb)) (m_queued mb) (m_fd mb))
            end);
      mb ← msgbuf_drain mb n;
      mret (0, mb)
  end.

(** ** Invariants *)

Definition ibuf_wf (b : ibuf) : Prop :=
  Zlen (b_buf b) = b_wpos b ∧ 0 ≤ b_rpos b ≤ b_wpos b ∧
  b_wpos b ≤ b_size b ≤ b_max b ∧ b_max b < 2 ^ 63.

(** A queued buffer still has bytes to send. *)
Definition ibuf_live (b : ibuf) : Prop := ibuf_wf b ∧ b_rpos b < b_wpos b.

Definition msgbuf_wf (mb : msgbuf) : Prop :=
  Forall ibuf_live (m_bufs mb) ∧ m_queued mb = u32 (Zlen (m_bufs mb)).

(** The bytes the queue still has to send, in order. *)
Definition stream (mb : msgbuf) : list byte := concat (map iov (m_bufs mb)).

(** ** Lemmas *)

Lemma iov_wf b : ibuf_wf b → iov b = Zdrop (b_rpos b) (b_buf b).
Proof.
  intros (Hl & _). unfold iov. f_equal. unfold Ztake, Zlen in *.
  apply take_ge. lia.
Qed.

Lemma Zlen_iov b : ibuf_wf b → Zlen (iov b) = b_wpos b - b_rpos b.
Proof.
  intros Hb. rewrite iov_wf by done. destruct Hb as (Hl & Hr & _).
  rewrite Zlen_Zdrop by lia. lia.
Qed.

Lemma stream_cons b bs q fd :
  stream (mk_msgbuf (b :: bs) q fd) = iov b ++ stream (mk_msgbuf bs q fd).
Proof. done. Qed.

Lemma stream_app l1 l2 q fd :
  stream (mk_msgbuf (l1 ++ l2) q fd) =
  stream (mk_msgbuf l1 q fd) ++ stream (mk_msgbuf l2 q fd).
Proof. unfold stream. simpl. by rewrite map_app, concat_app. Qed.

Lemma u32_pred n : u32 (u32 (1 + n) - 1) = u32 n.
Proof. unfold u32. rewrite Zminus_mod_idemp_l. f_equal. lia. Qed.

Lemma u32_succ n : u32 (u32 n + 1) = u32 (n + 1).
Proof. unfold u32. by rewrite Zplus_mod_idemp_l. Qed.

Lemma ibuf_dequeue_head b bs q fd c :
  ∃ c', ibuf_dequeue (mk_msgbuf (b :: bs) q fd) 0 c =
        (Ok (mk_msgbuf bs (u32 (q - 1)) fd), c')
        ∧ ce_closed c' = ce_closed c ++ (if b_fd b =? -1 then [] else [b_fd b])
        ∧ ce_alloc c' = ce_alloc c.
Proof.
  unfold ibuf_dequeue. run. destruct (b_fd b =? -1); run; eexists; split_and!;
    try reflexivity. by rewrite app_nil_r.
Qed.

(** The queue after [n] bytes have gone out. *)
Fixpoint advance (bs : list ibuf) (n : Z) : list ibuf :=
  match bs with
  | [] => []
  | b :: next =>
      if n <=? 0 then bs else
      if b_wpos b - b_rpos b <=? n then advance next (n - (b_wpos b - b_rpos b)) else
      mk_ibuf (b_buf b) (b_size b) (b_max b) (b_wpos b) (b_rpos b + n) (b_fd b) :: next
  end.

Lemma msgbuf_drain_loop_stream bs : ∀ q fd n c,
  Forall ibuf_live bs → q = u32 (Zlen bs) →
  0 ≤ n ≤ Zlen (stream (mk_msgbuf bs q fd)) → n < 2 ^ 63 →
  ∃ mb' c', msgbuf_drain_loop bs n (mk_msgbuf bs q fd) c = (Ok mb', c')
    ∧ msgbuf_wf mb' ∧ m_fd mb' = fd ∧ ce_alloc c' = ce_alloc c
    ∧ m_bufs mb' = advance bs n ∧ stream mb' = Zdrop n (stream (mk_msgbuf bs q fd)).
Proof.
  induction bs as [|b bs IH]; intros q fd n c Hwf Hq Hn Hb.
  { assert (n = 0) as -> by (unfold stream in Hn; simpl in Hn; zlen).
    eexists _, _. split_and!; [done|split; done|done..]. }
  inversion_clear Hwf as [|? ? Hlive Hwf'].
  pose proof (Zlen_iov b (proj1 Hlive)) as Hiov.
  destruct Hlive as [Hibuf Hlive]. pose proof Hibuf as (Hl & Hr & Hs & Hm).
  rewrite stream_cons in Hn |- *. rewrite Zlen_app in Hn.
  assert (u64 (b_rpos b + n) = b_rpos b + n) as Hu by (apply u64_small; lia).
  simpl. rewrite Hu. destruct (Z.ltb_spec 0 n) as [Hpos|Hz]; simpl.
  2: { assert (n = 0) as -> by lia. eexists _, _.
       split_and!; [done|split; [by constructor|done]|done..]. }
  rewrite (proj2 (Z.leb_gt n 0)) by lia.
  destruct (Z.leb_spec (b_wpos b) (b_rpos b + n)) as [Hall|Hpart];
    [rewrite (proj2 (Z.leb_le _ n)) by lia|rewrite (proj2 (Z.leb_gt _ n)) by lia].
  - destruct (ibuf_dequeue_head b bs q fd c) as (c1 & E & _ & Ha).
    rewrite (bind_ok _ _ _ _ _ E).
    rewrite (u64_small (b_wpos b - b_rpos b)), u64_small by lia.
    destruct (IH (u32 (q - 1)) fd (n - (b_wpos b - b_rpos b)) c1)
      as (mb' & c' & E' & Hwf1 & Hfd & Ha' & Hadv & Hst); [done| |zlen; unfold stream in *; simpl in *; lia|lia|].
    { subst q. rewrite Zlen_cons. apply u32_pred. }
    eexists _, _. split_and!; [exact E'|done..|by rewrite Ha'|done|].
    rewrite Hst, Zdrop_app_ge by lia. f_equal. lia.
  - eexists _, _. split_and!; [done| |done..|].
    + split; [|by subst q]. simpl. constructor; [|done].
      unfold ibuf_live, ibuf_wf. simpl. lia.
    + rewrite stream_cons, Zdrop_app_le by lia. f_equal.
      rewrite (iov_wf b) by done. rewrite Zdrop_Zdrop by lia.
      rewrite iov_wf; [done|]. unfold ibuf_wf. simpl. lia.
Qed.

Lemma ibuf_open_spec len c :
  0 ≤ len < 2 ^ 63 →
  ∃ ob c', ibuf_open len c = (Ok ob, c') ∧ ce_closed c' = ce_closed c
    ∧ (ob = None ∨ ob = Some (mk_ibuf [] len len 0 0 (-1)))
    ∧ (alloc_never_fails c → is_Some ob ∧ alloc_never_fails c').
Proof.
  intros Hlen. unfold ibuf_open. run.
  alloc_step b1 c1 Hc1 Ha1. destruct b1; simpl.
  2: { eexists _, _. split_and!; [done..|by left|]. by intros [? _]%Ha1. }
  alloc_step b2 c2 Hc2 Ha2. destruct b2; simpl; eexists _, _;
    (split; [reflexivity|split; [congruence|]]).
  - split; [by right|]. intros [_ H1]%Ha1. split; [done|by apply Ha2].
  - split; [by left|]. by intros [_ [? _]%Ha2]%Ha1.
Qed.

Lemma ibuf_dynamic_spec len max c :
  0 ≤ len < 2 ^ 63 → 0 < max < 2 ^ 63 →
  ∃ ob c', ibuf_dynamic len max c = (Ok ob, c') ∧ ce_closed c' = ce_closed c
    ∧ (ob = None ∨ (len ≤ max ∧ ob = Some (mk_ibuf [] len max 0 0 (-1))))
    ∧ (alloc_never_fails c → len ≤ max → is_Some ob ∧ alloc_never_fails c').
Proof.
  intros Hlen Hmax. unfold ibuf_dynamic. destruct (Z.ltb_spec max len).
  { eexists _, _. split_and!; [done..|by left|lia]. }
  destruct (ibuf_open_spec len c Hlen) as (ob & c1 & E & Hc & [->| ->] & Ha);
    rewrite (bind_ok _ _ _ _ _ E).
  - eexists _, _. split_and!; [done|done|by left|]. intros [[] _]%Ha; done.
  - assert ((0 <? max) = true) as -> by lia. eexists _, _.
    split_and!; [done|done|by right|]. intros [_ ?]%Ha _. done.
Qed.

Lemma ibuf_realloc_spec b len c :
  ibuf_wf b → 0 ≤ len → b_wpos b + len < 2 ^ 64 →
  ∃ r c', ibuf_realloc b len c = (Ok r, c') ∧ ce_closed c' = ce_closed c
    ∧ (r = (-1, b) ∧ (b_max b < b_wpos b + len ∨ ¬ alloc_never_fails c)
       ∨ b_wpos b + len ≤ b_max b ∧
         r = (0, mk_ibuf (b_buf b) (b_wpos b + len) (b_max b) (b_wpos b) (b_rpos b) (b_fd b))
         ∧ (alloc_never_fails c → alloc_never_fails c')).
Proof.
  intros (Hl & Hr & Hs & Hm) Hlen Hov. unfold ibuf_realloc.
  rewrite u64_small by lia. destruct (Z.ltb_spec (b_max b) (b_wpos b + len)); run.
  { eexists _, _. split_and!; [done..|]. left. by auto. }
  alloc_step ok c1 Hc Ha. destruct ok; simpl; eexists _, _;
    (split; [reflexivity|split; [done|]]).
  - right. split_and!; [done| |by intros [_ ?]%Ha]. do 2 f_equal.
    unfold Ztake, Zlen in *. apply take_ge. lia.
  - left. split; [done|]. right. by intros [? _]%Ha.
Qed.

Lemma ibuf_memcpy_spec b data c :
  ibuf_wf b → b_wpos b + Zlen data ≤ b_size b →
  ibuf_memcpy b data (Zlen data) c =
  (Ok (mk_ibuf (b_buf b ++ data) (b_size b) (b_max b) (b_wpos b) (b_rpos b) (b_fd b)), c).
Proof.
  intros (Hl & _) Hroom. unfold ibuf_memcpy.
  rewrite (proj2 (Z.ltb_ge _ _)), (proj2 (Z.ltb_ge _ _)) by lia. run.
  unfold Ztake, Zlen in *. by rewrite !take_ge by lia.
Qed.

(** ibuf_add never runs past the allocation: it appends the whole datum, or
    returns -1 and leaves the buffer as it was. *)
Lemma ibuf_add_spec b data c :
  ibuf_wf b → b_wpos b + Zlen data < 2 ^ 64 →
  ∃ r b' c', ibuf_add b data (Zlen data) c = (Ok (r, b'), c')
    ∧ ibuf_wf b' ∧ ce_closed c' = ce_closed c
    ∧ (r = -1 ∧ b' = b ∧ (b_max b < b_wpos b + Zlen data ∨ ¬ alloc_never_fails c)
       ∨ r = 0 ∧ b_buf b' = b_buf b ++ data ∧ b_max b' = b_max b
         ∧ b_rpos b' = b_rpos b ∧ b_fd b' = b_fd b
         ∧ (alloc_never_fails c → alloc_never_fails c')).
Proof.
  intros Hwf Hov. pose proof Hwf as (Hl & Hr & Hs & Hm).
  pose proof (Zlen_nonneg data) as Hd.
  assert (∀ b1 c1, ibuf_wf b1 → b_wpos b1 = b_wpos b → b_wpos b1 + Zlen data ≤ b_size b1 →
    ∃ b', (b1 ← ibuf_memcpy b1 data (Zlen data);
           mret (0, mk_ibuf (b_buf b1) (b_size b1) (b_max b1) (u64 (b_wpos b1 + Zlen data))
                      (b_rpos b1) (b_fd b1))) c1 = (Ok (0, b'), c1)
      ∧ ibuf_wf b' ∧ b_buf b' = b_buf b1 ++ data ∧ b_max b' = b_max b1
      ∧ b_rpos b' = b_rpos b1 ∧ b_fd b' = b_fd b1) as Hcopy.
  { intros b1 c1 Hw Hw1 Hw2. pose proof Hw as (? & ? & ? & ?).
    rewrite (bind_ok _ _ _ _ _ (ibuf_memcpy_spec b1 data c1 Hw Hw2)). simpl.
    rewrite u64_small by lia. eexists. split; [reflexivity|].
    unfold ibuf_wf. simpl. zlen. split_and!; try done; lia. }
  unfold ibuf_add. rewrite u64_small by lia.
  destruct (Z.ltb_spec (b_size b) (b_wpos b + Zlen data)) as [Hgrow|Hroom].
  - destruct (ibuf_realloc_spec b (Zlen data) c Hwf Hd Hov)
      as (r & c1 & E & Hc & [[-> Hfail]|(Hmax & -> & Ha)]);
      rewrite (bind_ok _ _ _ _ _ E); simpl.
    { eexists _, _, _. split_and!; [reflexivity|done..|by left]. }
    destruct (Hcopy (mk_ibuf (b_buf b) (b_wpos b + Zlen data) (b_max b) (b_wpos b)
      (b_rpos b) (b_fd b)) c1) as (b' & E' & Hw' & Hbuf & Hm' & Hrp & Hfd);
      [unfold ibuf_wf; simpl; lia|reflexivity|simpl; lia|].
    eexists _, _, _. split_and!; [exact E'|done..|].
    right. split_and!; simpl in *; congruence || done.
  - rewrite bind_ret_l. simpl.
    destruct (Hcopy b c) as (b' & E' & Hw' & Hbuf & Hm' & Hrp & Hfd); [done..|].
    eexists _, _, _. split_and!; [exact E'|done..|].
    right. split_and!; simpl in *; congruence || done.
Qed.

Lemma ibuf_enqueue_spec mb b :
  msgbuf_wf mb → ibuf_live b →
  msgbuf_wf (ibuf_enqueue mb b) ∧ stream (ibuf_enqueue mb b) = stream mb ++ iov b.
Proof.
  intros [Hf Hq] Hb. unfold ibuf_enqueue, msgbuf_wf. simpl. split_and!.
  - apply Forall_app_2; [done|]. by constructor.
  - rewrite Hq, u32_succ, Zlen_app. done.
  - destruct mb as [bs q fd]. rewrite stream_app. f_equal.
    unfold stream. simpl. by rewrite app_nil_r.
Qed.

Lemma sendmsg_iov_prefix bs : ∀ i,
  ∃ rest, concat (map iov bs) = concat (sendmsg_iov i bs).1 ++ rest.
Proof.
  induction bs as [|b bs IH]; intros i; simpl; [by exists []|].
  destruct (IOV_MAX <=? i); simpl; [by eexists|].
  destruct (b_fd b =? -1); simpl.
  - destruct (IH (i + 1)) as [rest Hrest]. destruct (sendmsg_iov (i + 1) bs) as [v cur].
    simpl in *. exists rest. by rewrite Hrest, app_assoc.
  - exists (concat (map iov bs)). by rewrite app_nil_r.
Qed.

Lemma writev_iov_prefix bs : ∀ i,
  ∃ rest, concat (map iov bs) = concat (writev_iov i bs) ++ rest.
Proof.
  induction bs as [|b bs IH]; intros i; simpl; [by exists []|].
  destruct (IOV_MAX <=? i); simpl; [by eexists|].
  destruct (IH (i + 1)) as [rest ->]. exists rest. by rewrite app_assoc.
Qed.

Lemma clear_fd_live b : ibuf_live b → ibuf_live (clear_fd b).
Proof. done. Qed.

Lemma alter_clear_fd_wf p mb :
  msgbuf_wf mb →
  let mb' := mk_msgbuf (alter clear_fd p (m_bufs mb)) (m_queued mb) (m_fd mb) in
  msgbuf_wf mb' ∧ stream mb' = stream mb.
Proof.
  intros [Hf Hq]. simpl. split; [split|]; simpl.
  - apply Forall_alter; [done|]. intros b _. apply clear_fd_live.
  - rewrite Hq. unfold Zlen. by rewrite length_alter.
  - unfold stream. simpl. f_equal. clear. revert p.
    induction (m_bufs mb) as [|b bs IH]; intros [|p]; simpl; f_equal; [done..|apply IH].
Qed.

Lemma msgbuf_drain_spec mb n c :
  msgbuf_wf mb → 0 ≤ n ≤ Zlen (stream mb) → n < 2 ^ 63 →
  ∃ mb' c', msgbuf_drain mb n c = (Ok mb', c') ∧ msgbuf_wf mb' ∧ m_fd mb' = m_fd mb
    ∧ ce_alloc c' = ce_alloc c ∧ m_bufs mb' = advance (m_bufs mb) n
    ∧ stream mb' = Zdrop n (stream mb).
Proof.
  intros [Hf Hq] Hn Hn'. destruct mb as [bs q fd].
  by apply (msgbuf_drain_loop_stream bs).
Qed.

(** What the kernel may answer to the call msgbuf_write makes: an error, or
    a count of the bytes it took out of those offered. *)
Definition sendmsg_answer (mb : msgbuf) (r : sysret) : Prop :=
  match r with
  | SysErr _ => True
  | SysOk n => 0 ≤ n ≤ Zlen (concat (sendmsg_iov 0 (m_bufs mb)).1) ∧ n < 2 ^ 63
  end.

(** The bytes the kernel has taken. *)
Definition taken (r : sysret) : Z := match r with SysErr _ => 0 | SysOk n => n end.

(** The return value of msgbuf_write. *)
Definition write_result (r : sysret) : Z :=
  match r with
  | SysErr e => if try_later e then 0 else -1
  | SysOk n => if n =? 0 then -2 else 0
  end.

Lemma sendmsg_answer_bound mb r :
  sendmsg_answer mb r → 0 ≤ taken r ≤ Zlen (stream mb).
Proof.
  unfold stream. destruct r as [e|n]; simpl; [zlen; pose proof (Zlen_nonneg (stream mb)); unfold stream in *; lia|].
  destruct (sendmsg_iov_prefix (m_bufs mb) 0) as [rest ->].
  rewrite Zlen_app. pose proof (Zlen_nonneg rest). lia.
Qed.

(** The queue once the descriptor of the last buffer offered has been passed
    to the kernel and forgotten. *)
Definition handed (bs : list ibuf) : list ibuf :=
  match (sendmsg_iov 0 bs).2 with
  | Some p => alter clear_fd (Z.to_nat p) bs
  | None => bs
  end.

Lemma clear_fd_none b : b_fd b = -1 → clear_fd b = b.
Proof. destruct b. simpl. by intros ->. Qed.

Lemma handed_sendmsg_fd mb :
  handed (m_bufs mb) =
    match sendmsg_fd mb with
    | Some (p, _) => alter clear_fd p (m_bufs mb)
    | None => m_bufs mb
    end.
Proof.
  unfold handed, sendmsg_fd. destruct (sendmsg_iov 0 (m_bufs mb)).2 as [p|]; [|done].
  destruct (m_bufs mb !! Z.to_nat p) as [b|] eqn:Eb.
  - destruct (Z.eqb_spec (b_fd b) (-1)) as [Hfd|]; [|done].
    apply list_eq. intros i. destruct (decide (i = Z.to_nat p)) as [->|].
    + rewrite list_lookup_alter_eq, Eb. simpl. by rewrite clear_fd_none.
    + by rewrite list_lookup_alter_ne.
  - apply list_eq. intros i. destruct (decide (i = Z.to_nat p)) as [->|].
    + by rewrite list_lookup_alter_eq, Eb.
    + by rewrite list_lookup_alter_ne.
Qed.

Lemma msgbuf_write_spec mb r c :
  msgbuf_wf mb → sendmsg_answer mb r →
  ∃ mb' c', msgbuf_write r mb c = (Ok (write_result r, mb'), c')
    ∧ msgbuf_wf mb' ∧ m_fd mb' = m_fd mb ∧ ce_alloc c' = ce_alloc c
    ∧ m_bufs mb' = (if taken r =? 0 then m_bufs mb
                    else advance (handed (m_bufs mb)) (taken r))
    ∧ stream mb' = Zdrop (taken r) (stream mb).
Proof.
  intros Hwf Hr. pose proof (sendmsg_answer_bound mb r Hr) as Hb.
  unfold msgbuf_write. destruct r as [e|n]; simpl in *.
  { run. destruct (try_later e); by eexists _, _. }
  destruct (Z.eqb_spec n 0) as [->|Hn]; [by eexists _, _|].
  assert (∃ mb1 c1, (match sendmsg_fd mb with
            | None => mret mb
            | Some (p, fd) =>
                _ ← close fd;
                mret (mk_msgbuf (alter clear_fd p (m_bufs mb)) (m_queued mb) (m_fd mb))
            end : CM cenv msgbuf) c = (Ok mb1, c1)
          ∧ msgbuf_wf mb1 ∧ m_fd mb1 = m_fd mb ∧ ce_alloc c1 = ce_alloc c
          ∧ m_bufs mb1 = handed (m_bufs mb)
          ∧ stream mb1 = stream mb) as (mb1 & c1 & E & Hwf1 & Hfd1 & Ha1 & Hb1 & Hst1).
  { rewrite handed_sendmsg_fd. destruct (sendmsg_fd mb) as [[p fd]|]; [|by eexists _, _].
    destruct (alter_clear_fd_wf p mb Hwf). by eexists _, _. }
  rewrite (bind_ok _ _ _ _ _ E).
  destruct (msgbuf_drain_spec mb1 n c1) as (mb2 & c2 & E2 & Hwf2 & Hfd2 & Ha2 & Hb2 & Hst2);
    [done|by rewrite Hst1|lia|].
  rewrite (bind_ok _ _ _ _ _ E2). eexists _, _. split_and!; [done|done|congruence..].
Qed.

(** A nonempty queue always offers at least one byte, so a zero answer to
    sendmsg(2) can be taken for a closed connection. *)
Lemma sendmsg_iov_offers mb :
  msgbuf_wf mb → m_bufs mb ≠ [] → 0 < Zlen (concat (sendmsg_iov 0 (m_bufs mb)).1).
Proof.
  intros [Hf _] Hne. destruct (m_bufs mb) as [|b bs]; [done|].
  inversion_clear Hf as [|? ? [Hb Hlive] _]. pose proof (Zlen_iov b Hb). simpl.
  destruct (b_fd b =? -1); simpl; [destruct (sendmsg_iov _ bs)|];
    simpl; rewrite Zlen_app;
    match goal with |- _ < _ + Zlen ?l => pose proof (Zlen_nonneg l) end; lia.
Qed.

(** *** Descriptors waiting in the queue *)

Definition fds_of (bs : list ibuf) : list Z := filter (λ fd, fd ≠ -1) (map b_fd bs).
Definition fds (mb : msgbuf) : list Z := fds_of (m_bufs mb).

Lemma fds_of_cons b bs :
  fds_of (b :: bs) = (if b_fd b =? -1 then [] else [b_fd b]) ++ fds_of bs.
Proof.
  unfold fds_of. simpl. rewrite filter_cons. destruct (Z.eqb_spec (b_fd b) (-1)).
  - by rewrite decide_False by naive_solver.
  - by rewrite decide_True.
Qed.

(** A descriptor is either still queued or has been closed, in order. *)
Definition fd_history (mb : msgbuf) (c : cenv) : list Z := ce_closed c ++ fds mb.

Lemma msgbuf_drain_loop_fds bs : ∀ q fd n c mb' c',
  msgbuf_drain_loop bs n (mk_msgbuf bs q fd) c = (Ok mb', c') →
  fd_history mb' c' = fd_history (mk_msgbuf bs q fd) c.
Proof.
  induction bs as [|b bs IH]; intros q fd n c mb' c'; simpl.
  { by intros [= <- <-]. }
  destruct (negb (0 <? n)); [by intros [= <- <-]|].
  destruct (b_wpos b <=? u64 (b_rpos b + n)).
  - destruct (ibuf_dequeue_head b bs q fd c) as (c1 & E & Hc & _).
    rewrite (bind_ok _ _ _ _ _ E). intros ->%IH.
    unfold fd_history, fds. simpl. by rewrite fds_of_cons, Hc, app_assoc.
  - intros [= <- <-]. unfold fd_history, fds. simpl. by rewrite !fds_of_cons.
Qed.

Lemma msgbuf_clear_loop_spec bs : ∀ q fd c,
  ∃ q' c', msgbuf_clear_loop bs (mk_msgbuf bs q fd) c = (Ok (mk_msgbuf [] q' fd), c')
    ∧ (q = u32 (Zlen bs) → q' = 0)
    ∧ ce_closed c' = ce_closed c ++ fds_of bs ∧ ce_alloc c' = ce_alloc c.
Proof.
  induction bs as [|b bs IH]; intros q fd c; simpl.
  { eexists _, _. split_and!; [done|by intros ->|by rewrite app_nil_r|done]. }
  destruct (ibuf_dequeue_head b bs q fd c) as (c1 & E & Hc & Ha).
  rewrite (bind_ok _ _ _ _ _ E).
  destruct (IH (u32 (q - 1)) fd c1) as (q' & c' & E' & Hq & Hc' & Ha').
  eexists _, _. split_and!; [exact E'| |by rewrite fds_of_cons, Hc', Hc, app_assoc|congruence].
  intros ->. apply Hq. rewrite Zlen_cons. apply u32_pred.
Qed.

Lemma sendmsg_iov_cur bs : ∀ i p,
  (sendmsg_iov i bs).2 = Some p →
  ∃ pre post, bs = pre ++ post ∧ p = i + Zlen pre ∧ fds_of pre = [].
Proof.
  induction bs as [|b bs IH]; intros i p; simpl; [done|].
  destruct (IOV_MAX <=? i); simpl.
  { intros [= <-]. exists [], (b :: bs). split_and!; [done|zlen|done]. }
  destruct (b_fd b =? -1) eqn:Eb; simpl.
  - destruct (sendmsg_iov (i + 1) bs) as [v cur] eqn:E. simpl. intros ->.
    destruct (IH (i + 1) p) as (pre & post & -> & -> & Hf); [by rewrite E|].
    exists (b :: pre), post. split_and!; [done|zlen|]. by rewrite fds_of_cons, Eb.
  - intros [= <-]. exists [], (b :: bs). split_and!; [done|zlen|done].
Qed.

Lemma alter_app_length {A} (f : A → A) pre x post :
  alter f (length pre) (pre ++ x :: post) = pre ++ f x :: post.
Proof. rewrite alter_app_r_alt by done. by rewrite Nat.sub_diag. Qed.

(** The descriptor handed over is the first one waiting. *)
Lemma handed_fds mb :
  fds mb = from_option (λ x, [x.2]) [] (sendmsg_fd mb) ++ fds_of (handed (m_bufs mb)).
Proof.
  rewrite handed_sendmsg_fd. unfold fds, sendmsg_fd.
  destruct (sendmsg_iov 0 (m_bufs mb)).2 as [p|] eqn:Ep; [|done].
  destruct (sendmsg_iov_cur _ _ _ Ep) as (pre & post & Hbs & Hp & Hf).
  destruct (m_bufs mb !! Z.to_nat p) as [b|] eqn:Eb; [|done].
  destruct (Z.eqb_spec (b_fd b) (-1)) as [|Hne]; [done|]. simpl.
  assert (Z.to_nat p = length pre) as Hlen by (unfold Zlen in *; lia).
  rewrite Hlen in *. rewrite Hbs in *.
  rewrite lookup_app_r, Nat.sub_diag in Eb by done.
  destruct post as [|b' post]; [done|]. injection Eb as ->.
  rewrite alter_app_length. unfold fds_of in *. rewrite !map_app, !filter_app, Hf. simpl.
  rewrite !filter_cons, (decide_True (P := b_fd b ≠ -1)) by done.
  by rewrite decide_False by naive_solver.
Qed.

Lemma msgbuf_write_fds mb r c z mb' c' :
  msgbuf_write r mb c = (Ok (z, mb'), c') → fd_history mb' c' = fd_history mb c.
Proof.
  unfold msgbuf_write. destruct r as [e|n].
  { run. by destruct (try_later e); intros [= _ <- <-]. }
  destruct (n =? 0); [by intros [= _ <- <-]|].
  intros (mb1 & c1 & E1 & (mb2 & c2 & E2 & [= _ <- <-])%bind_inv)%bind_inv.
  destruct mb1 as [bs1 q1 fd1]. apply msgbuf_drain_loop_fds in E2. rewrite E2. clear E2.
  unfold fd_history. rewrite (handed_fds mb), handed_sendmsg_fd.
  destruct (sendmsg_fd mb) as [[p fd]|]; [|by injection E1 as <- <-].
  injection E1 as <- <- <- <-. simpl. by rewrite <- app_assoc.
Qed.
