(* ===== verification/Imsg.v ===== *)
(** * Imsg: message framing over a stream socket

    Models src/usr/src/lib/libutil/imsg.c and the structures of
    src/usr/src/lib/libutil/imsg.h.  [i_r] is the received data not yet
    consumed, the first r.wpos bytes of the array r.buf of
    [IBUF_READ_SIZE] bytes; the rest of the array is never read.  The
    kernel's answer to recvmsg(2) is the argument [rcv] of [imsg_read]. *)
From stdpp Require Import base list strings.
From coqutil Require Import Byte Word.LittleEndianList.
From S2P Require Import Prelude ImsgBuffer.

Definition IBUF_READ_SIZE : Z := 65535.
Definition IMSG_HEADER_SIZE : Z := 16.
Definition MAX_IMSGSIZE : Z := 16384.
Definition IMSGF_HASFD : Z := 1.

Record imsg_hdr := mk_hdr {
  h_type : Z;
  h_len : Z;
  h_flags : Z;
  h_peerid : Z;
  h_pid : Z;
}.

Record imsg := mk_imsg {
  im_hdr : imsg_hdr;
  im_fd : Z;
  im_data : list byte;
}.

Record imsgbuf := mk_imsgbuf {
  i_fds : list Z;
  i_r : list byte;
  i_w : msgbuf;
  i_fd : Z;
  i_pid : Z;
}.

Definition set_w (ib : imsgbuf) (w : msgbuf) : imsgbuf :=
  mk_imsgbuf (i_fds ib) (i_r ib) w (i_fd ib) (i_pid ib).

(** The memory image of a struct imsg_hdr. *)
Definition hdr_encode (h : imsg_hdr) : list byte :=
  le_split 4 (h_type h) ++ le_split 2 (h_len h) ++ le_split 2 (h_flags h) ++
  le_split 4 (h_peerid h) ++ le_split 4 (h_pid h).

Definition field (off n : nat) (bs : list byte) : Z := le_combine (take n (drop off bs)).

Definition hdr_decode (bs : list byte) : imsg_hdr :=
  mk_hdr (field 0 4 bs) (field 4 2 bs) (field 6 2 bs) (field 8 4 bs) (field 12 4 bs).

#[global] Arguments hdr_encode : simpl never.
#[global] Arguments hdr_decode : simpl never.

(** ** Initialisation and receiving *)

(** [pid] is what getpid(2) returns. *)
Definition imsg_init (fd pid : Z) : imsgbuf :=
  let w := msgbuf_init in
  mk_imsgbuf [] [] (mk_msgbuf (m_bufs w) (m_queued w) fd) fd pid.

Definition SOL_SOCKET : Z := 65535.
Definition SCM_RIGHTS : Z := 1.

(** A control message, with the first descriptor of its data. *)
Record cmsghdr := mk_cmsg { cmsg_level : Z; cmsg_type : Z; cmsg_fd : Z }.

Inductive recvret :=
| RecvErr (e : Z)
| RecvOk (data : list byte) (cmsgs : list cmsghdr).

(** The control-message loop of imsg_read; [false] when calloc failed. *)
Fixpoint imsg_read_cmsgs (cmsgs : list cmsghdr) (fds : list Z) : CM cenv (bool * list Z) :=
  match cmsgs with
  | [] => mret (true, fds)
  | cm :: next =>
      if (cmsg_level cm =? SOL_SOCKET) && (cmsg_type cm =? SCM_RIGHTS) then
        ok ← alloc_ok;
        if negb ok then _ ← close (cmsg_fd cm); mret (false, fds) else
        imsg_read_cmsgs next (fds ++ [cmsg_fd cm])
      else imsg_read_cmsgs next fds
  end.

Definition imsg_read (rcv : recvret) (ib : imsgbuf) : CM cenv (Z * imsgbuf) :=
  match rcv with
  | RecvErr e =>
      _ ← set_errno e;
      if negb (e =? EINTR) && negb (e =? EAGAIN) then mret (-1, ib) else mret (-2, ib)
  | RecvOk data cmsgs =>
      let r := i_r ib ++ data in
      '(ok, fds) ← imsg_read_cmsgs cmsgs (i_fds ib);
      let ib := mk_imsgbuf fds r (i_w ib) (i_fd ib) (i_pid ib) in
      mret (if ok : bool then Zlen data else -1, ib)
  end.

Definition imsg_get_fd (ib : imsgbuf) : Z * imsgbuf :=
  match i_fds ib with
  | [] => (-1, ib)
  | fd :: fds => (fd, mk_imsgbuf fds (i_r ib) (i_w ib) (i_fd ib) (i_pid ib))
  end.

(** The third component is what *imsg holds when the result is positive. *)
Definition imsg_get (ib : imsgbuf) : CM cenv (Z * imsgbuf * option imsg) :=
  let av := Zlen (i_r ib) in
  if av <? IMSG_HEADER_SIZE then mret (0, ib, None) else
  let hdr := hdr_decode (i_r ib) in
  if (h_len hdr <? IMSG_HEADER_SIZE) || (MAX_IMSGSIZE <? h_len hdr) then
    _ ← set_errno ERANGE;
    mret (-1, ib, None)
  else if av <? h_len hdr then mret (0, ib, None) else
  let datalen := h_len hdr - IMSG_HEADER_SIZE in
  ok ← alloc_ok;
  if negb ok then mret (-1, ib, None) else
  let '(fd, ib) := if has_bits (h_flags hdr) IMSGF_HASFD then imsg_get_fd ib else (-1, ib) in
  let data := Ztake datalen (Zdrop IMSG_HEADER_SIZE (i_r ib)) in
  let left := if h_len hdr <? av then Zdrop (h_len hdr) (i_r ib) else [] in
  mret (datalen + IMSG_HEADER_SIZE,
        mk_imsgbuf (i_fds ib) left (i_w ib) (i_fd ib) (i_pid ib),
        Some (mk_imsg hdr fd data)).

(** ** Composing and sending *)

(** datalen is a u_int16_t parameter. *)
Definition imsg_add (msg : ibuf) (data : list byte) (datalen : Z) : CM cenv (Z * ibuf) :=
  let datalen := u16 datalen in
  if datalen =? 0 then mret (datalen, msg) else
  '(r, msg) ← ibuf_add msg data datalen;
  if r =? -1 then mret (-1, msg) else mret (datalen, msg).

(** The len field of the header is not set before imsg_close; nothing reads
    it until then. *)
Definition imsg_create (ib : imsgbuf) (type peerid pid datalen : Z) : CM cenv (option ibuf) :=
  let datalen := u16 (u16 datalen + IMSG_HEADER_SIZE) in
  if MAX_IMSGSIZE <? datalen then
    _ ← set_errno ERANGE;
    mret None
  else
  let hpid := u32 pid in
  let hpid := if hpid =? 0 then u32 (i_pid ib) else hpid in
  let hdr := mk_hdr (u32 type) 0 0 (u32 peerid) hpid in
  owbuf ← ibuf_dynamic datalen MAX_IMSGSIZE;
  match owbuf with
  | None => mret None
  | Some wbuf =>
      '(r, wbuf) ← imsg_add wbuf (hdr_encode hdr) IMSG_HEADER_SIZE;
      if r =? -1 then mret None else mret (Some wbuf)
  end.

Definition imsg_close (ib : imsgbuf) (msg : ibuf) : imsgbuf :=
  let hdr := hdr_decode (b_buf msg) in
  let flags := clear_bits (h_flags hdr) IMSGF_HASFD in
  let flags := if negb (b_fd msg =? -1) then Z.lor flags IMSGF_HASFD else flags in
  let hdr := mk_hdr (h_type hdr) (u16 (b_wpos msg)) flags (h_peerid hdr) (h_pid hdr) in
  let msg := mk_ibuf (hdr_encode hdr ++ Zdrop IMSG_HEADER_SIZE (b_buf msg))
               (b_size msg) (b_max msg) (b_wpos msg) (b_rpos msg) (b_fd msg) in
  set_w ib (ibuf_close (i_w ib) msg).

Definition set_bfd (b : ibuf) (fd : Z) : ibuf :=
  mk_ibuf (b_buf b) (b_size b) (b_max b) (b_wpos b) (b_rpos b) fd.

Definition imsg_compose (ib : imsgbuf) (type peerid pid fd : Z) (data : list byte)
    (datalen : Z) : CM cenv (Z * imsgbuf) :=
  owbuf ← imsg_create ib type peerid pid datalen;
  match owbuf with
  | None => mret (-1, ib)
  | Some wbuf =>
      '(r, wbuf) ← imsg_add wbuf data datalen;
      if r =? -1 then mret (-1, ib) else
      mret (1, imsg_close ib (set_bfd wbuf fd))
  end.

(** The adding loop of imsg_composev. *)
Fixpoint imsg_addv (wbuf : ibuf) (iov : list (list byte)) : CM cenv (Z * ibuf) :=
  match iov with
  | [] => mret (0, wbuf)
  | d :: next =>
      '(r, wbuf) ← imsg_add wbuf d (Zlen d);
      if r =? -1 then mret (-1, wbuf) else imsg_addv wbuf next
  end.

Definition imsg_composev (ib : imsgbuf) (type peerid pid fd : Z) (iov : list (list byte))
    : CM cenv (Z * imsgbuf) :=
  let datalen := fold_left (λ n d, i32 (n + Zlen d)) iov 0 in
  owbuf ← imsg_create ib type peerid pid datalen;
  match owbuf with
  | None => mret (-1, ib)
  | Some wbuf =>
      '(r, wbuf) ← imsg_addv wbuf iov;
      if r =? -1 then mret (-1, ib) else
      mret (1, imsg_close ib (set_bfd wbuf fd))
  end.

(** [answers] are the kernel's answers to the successive sendmsg calls. *)
Fixpoint imsg_flush (answers : list sysret) (ib : imsgbuf) : CM cenv (Z * imsgbuf) :=
  if m_queued (i_w ib) =? 0 then mret (0, ib) else
  match answers with
  | [] => stopM SFuel
  | r :: answers =>
      '(z, w) ← msgbuf_write r (i_w ib);
      let ib := set_w ib w in
      if z <? 0 then mret (-1, ib) else imsg_flush answers ib
  end.

(** The loop of imsg_clear; it stops at the first descriptor that is -1. *)
Fixpoint imsg_clear_fds (fds : list Z) (ib : imsgbuf) : CM cenv imsgbuf :=
  let '(fd, ib') := imsg_get_fd ib in
  match fds with
  | [] => mret ib'
  | _ :: next =>
      if fd =? -1 then mret ib' else
      _ ← close fd;
      imsg_clear_fds next ib'
  end.

Definition imsg_clear (ib : imsgbuf) : CM cenv imsgbuf :=
  w ← msgbuf_clear (i_w ib);
  imsg_clear_fds (i_fds ib) (set_w ib w).

(** ** The wire format *)

Definition hdr_ok (h : imsg_hdr) : Prop :=
  0 ≤ h_type h < 2 ^ 32 ∧ IMSG_HEADER_SIZE ≤ h_len h ≤ MAX_IMSGSIZE ∧
  0 ≤ h_flags h < 2 ^ 16 ∧ 0 ≤ h_peerid h < 2 ^ 32 ∧ 0 ≤ h_pid h < 2 ^ 32.

(** A message as it travels: a valid header whose len field counts it. *)
Definition frame_ok (h : imsg_hdr) (data : list byte) : Prop :=
  hdr_ok h ∧ h_len h = IMSG_HEADER_SIZE + Zlen data.

Definition frame (h : imsg_hdr) (data : list byte) : list byte := hdr_encode h ++ data.

Lemma Zlen_hdr_encode h : Zlen (hdr_encode h) = IMSG_HEADER_SIZE.
Proof. unfold hdr_encode. by zlen. Qed.

Lemma field_app pre n z rest :
  field (length pre) n (pre ++ le_split n z ++ rest) = z `mod` 2 ^ (Z.of_nat n * 8).
Proof.
  unfold field. rewrite drop_app_length, take_app_le by (by rewrite length_le_split).
  rewrite take_ge by (by rewrite length_le_split). apply le_combine_split.
Qed.

Lemma field_at pre off n z rest bs :
  bs = pre ++ le_split n z ++ rest → length pre = off →
  field off n bs = z `mod` 2 ^ (Z.of_nat n * 8).
Proof. intros -> <-. apply field_app. Qed.

Lemma hdr_decode_encode h rest :
  hdr_decode (hdr_encode h ++ rest) =
  mk_hdr (u32 (h_type h)) (u16 (h_len h)) (u16 (h_flags h)) (u32 (h_peerid h)) (u32 (h_pid h)).
Proof.
  unfold hdr_decode. f_equal.
  - apply (field_at [] 0 4 _ _ _ eq_refl). done.
  - apply (field_at (le_split 4 (h_type h))  4 2 _ _ _ eq_refl). done.
  - eapply (field_at (le_split 4 (h_type h) ++ le_split 2 (h_len h)) 6 2).
    + unfold hdr_encode. by rewrite <- !app_assoc.
    + done.
  - eapply (field_at (le_split 4 (h_type h) ++ le_split 2 (h_len h) ++ le_split 2 (h_flags h)) 8 4).
    + unfold hdr_encode. by rewrite <- !app_assoc.
    + done.
  - eapply (field_at (le_split 4 (h_type h) ++ le_split 2 (h_len h) ++ le_split 2 (h_flags h)
                        ++ le_split 4 (h_peerid h)) 12 4).
    + unfold hdr_encode. by rewrite <- !app_assoc.
    + done.
Qed.

Lemma hdr_decode_frame h data rest :
  hdr_ok h → hdr_decode (frame h data ++ rest) = h.
Proof.
  intros (Ht & Hl & Hf & Hp & Hi). unfold frame, IMSG_HEADER_SIZE, MAX_IMSGSIZE in *.
  rewrite <- app_assoc, hdr_decode_encode, !u32_small, !u16_small by lia.
  by destruct h.
Qed.

(** ** Receiving: one frame *)

Lemma Zlen_frame h data : frame_ok h data → Zlen (frame h data) = h_len h.
Proof. intros [_ Hl]. unfold frame. rewrite Zlen_app, Zlen_hdr_encode. lia. Qed.

(** The descriptor a message takes and the descriptors left. *)
Definition take_fd (h : imsg_hdr) (fds : list Z) : Z * list Z :=
  if has_bits (h_flags h) IMSGF_HASFD then
    match fds with [] => (-1, []) | fd :: fds => (fd, fds) end
  else (-1, fds).

Lemma imsg_get_frame ib h data rest c :
  frame_ok h data → i_r ib = frame h data ++ rest →
  ∃ c', ce_closed c' = ce_closed c ∧ (alloc_never_fails c → alloc_never_fails c') ∧
    (imsg_get ib c =
      (Ok (h_len h,
           mk_imsgbuf (take_fd h (i_fds ib)).2 rest (i_w ib) (i_fd ib) (i_pid ib),
           Some (mk_imsg h (take_fd h (i_fds ib)).1 data)), c')
     ∨ imsg_get ib c = (Ok (-1, ib, None), c') ∧ ¬ alloc_never_fails c).
Proof.
  intros Hok Hr. pose proof Hok as [Hh Hlen]. pose proof (Zlen_frame _ _ Hok) as Hfl.
  pose proof (Zlen_nonneg rest). pose proof (Zlen_nonneg data).
  assert (IMSG_HEADER_SIZE ≤ h_len h ≤ MAX_IMSGSIZE) as Hrange by apply Hh.
  unfold imsg_get. rewrite Hr, hdr_decode_frame, Zlen_app, Hfl by done.
  rewrite (proj2 (Z.ltb_ge _ IMSG_HEADER_SIZE)) by lia.
  rewrite (proj2 (Z.ltb_ge (h_len h) IMSG_HEADER_SIZE)), (proj2 (Z.ltb_ge MAX_IMSGSIZE _)) by lia.
  rewrite (proj2 (Z.ltb_ge _ (h_len h))) by lia. simpl. run.
  alloc_step ok c1 Hcl Ha. exists c1. split; [done|]. split; [by intros [_ ?]%Ha|].
  destruct ok; simpl; [left|right; split; [done|by intros [? _]%Ha]].
  assert (Ztake (h_len h - IMSG_HEADER_SIZE) (Zdrop IMSG_HEADER_SIZE (frame h data ++ rest))
          = data) as Hdata.
  { unfold frame. rewrite <- app_assoc, Zdrop_app_exact by (by rewrite Zlen_hdr_encode).
    apply Ztake_app_exact. lia. }
  assert ((if h_len h <? h_len h + Zlen rest then Zdrop (h_len h) (frame h data ++ rest)
           else []) = rest) as Hleft.
  { destruct (Z.ltb_spec (h_len h) (h_len h + Zlen rest)) as [Hlt|Hge].
    - by apply Zdrop_app_exact.
    - destruct rest; [done|]. rewrite Zlen_cons in Hge. pose proof (Zlen_nonneg rest). lia. }
  replace (h_len h - IMSG_HEADER_SIZE + IMSG_HEADER_SIZE) with (h_len h) by lia.
  unfold take_fd, imsg_get_fd.
  destruct (has_bits _ _); [destruct (i_fds ib) eqn:Ef|]; simpl; rewrite Hr, Hdata, Hleft;
    rewrite ?Ef; done.
Qed.

(** An incomplete frame is left alone. *)
Lemma imsg_get_partial ib h data rest c :
  frame_ok h data → i_r ib ++ rest = frame h data → rest ≠ [] →
  imsg_get ib c = (Ok (0, ib, None), c).
Proof.
  intros Hok Hr Hne. pose proof Hok as [Hh Hlen]. pose proof (Zlen_frame _ _ Hok) as Hfl.
  assert (IMSG_HEADER_SIZE ≤ h_len h ≤ MAX_IMSGSIZE) as Hrange by apply Hh.
  assert (Zlen (i_r ib) < h_len h) as Hshort.
  { rewrite <- Hfl, <- Hr, Zlen_app. destruct rest; [done|].
    rewrite Zlen_cons. pose proof (Zlen_nonneg rest). lia. }
  unfold imsg_get. destruct (Z.ltb_spec (Zlen (i_r ib)) IMSG_HEADER_SIZE) as [|Hge]; [done|].
  assert (hdr_decode (i_r ib) = h) as ->.
  { rewrite <- (hdr_decode_frame h data []) by done. rewrite app_nil_r, <- Hr.
    unfold hdr_decode, field. unfold Zlen, IMSG_HEADER_SIZE in Hge.
    repeat (rewrite drop_app_le by lia). repeat (rewrite take_app_le by (rewrite length_drop; lia)).
    done. }
  rewrite (proj2 (Z.ltb_ge (h_len h) IMSG_HEADER_SIZE)), (proj2 (Z.ltb_ge MAX_IMSGSIZE _)) by lia.
  simpl. by rewrite (proj2 (Z.ltb_lt _ _)).
Qed.

Lemma imsg_get_nil ib c : i_r ib = [] → imsg_get ib c = (Ok (0, ib, None), c).
Proof. intros Hr. unfold imsg_get. by rewrite Hr. Qed.

(** ** Composing *)

Lemma ibuf_add_take b data len c :
  0 ≤ len ≤ Zlen data → ibuf_add b data len c = ibuf_add b (Ztake len data) len c.
Proof.
  intros Hlen. assert (∀ b c, ibuf_memcpy b data len c = ibuf_memcpy b (Ztake len data) len c) as E.
  { intros b' c'. unfold ibuf_memcpy. rewrite Zlen_Ztake by lia.
    rewrite (proj2 (Z.ltb_ge _ _)), (proj2 (Z.ltb_ge (_ `min` _) _)) by lia.
    unfold Ztake. by rewrite take_take, Nat.min_id. }
  unfold ibuf_add, mbind, CM_bind. destruct (b_size b <? u64 (b_wpos b + len)).
  - destruct (ibuf_realloc b len c) as [[[r b']|] c']; [|done].
    destruct (r =? -1); [done|]. by rewrite E.
  - simpl. by rewrite E.
Qed.

(** imsg_add either appends the datum or fails without touching the buffer. *)
Lemma imsg_add_spec b data len c :
  ibuf_wf b → 0 ≤ len ≤ Zlen data → len < 2 ^ 16 →
  ∃ r b' c', imsg_add b data len c = (Ok (r, b'), c')
    ∧ ibuf_wf b' ∧ ce_closed c' = ce_closed c
    ∧ (r = -1 ∧ b' = b ∧ (b_max b < b_wpos b + len ∨ ¬ alloc_never_fails c)
       ∨ r = len ∧ b_buf b' = b_buf b ++ Ztake len data ∧ b_max b' = b_max b
         ∧ b_rpos b' = b_rpos b ∧ b_fd b' = b_fd b
         ∧ (alloc_never_fails c → alloc_never_fails c')).
Proof.
  intros Hwf Hlen Hsm. unfold imsg_add. rewrite u16_small by lia.
  destruct (Z.eqb_spec len 0) as [->|Hne].
  { eexists _, _, _. split_and!; [done..|]. right.
    split_and!; [done| |done..]. unfold Ztake. simpl. by rewrite app_nil_r. }
  assert (Zlen (Ztake len data) = len) as Hl by (rewrite Zlen_Ztake; lia).
  destruct (ibuf_add_spec b (Ztake len data) c Hwf)
    as (r & b' & c' & E & Hwf' & Hcl & Hr).
  { destruct Hwf as (_ & _ & Hs & Hm). lia. }
  rewrite Hl in E. unfold mbind, CM_bind. rewrite ibuf_add_take, E by lia. simpl.
  destruct Hr as [(-> & -> & Hf)|(-> & Hr)]; simpl; eexists _, _, _;
    (split_and!; [done..|]).
  - left. rewrite Hl in Hf. done.
  - right. done.
Qed.

(** The header imsg_compose gives a message. *)
Definition compose_hdr (ib : imsgbuf) (type peerid pid fd datalen : Z) : imsg_hdr :=
  mk_hdr (u32 type) (IMSG_HEADER_SIZE + datalen) (if fd =? -1 then 0 else IMSGF_HASFD)
    (u32 peerid) (if u32 pid =? 0 then u32 (i_pid ib) else u32 pid).

Lemma compose_hdr_ok ib type peerid pid fd data :
  IMSG_HEADER_SIZE + Zlen data ≤ MAX_IMSGSIZE →
  frame_ok (compose_hdr ib type peerid pid fd (Zlen data)) data.
Proof.
  intros Hlen. pose proof (Zlen_nonneg data). unfold frame_ok, hdr_ok. simpl.
  pose proof (u32_range type). pose proof (u32_range peerid).
  pose proof (u32_range pid). pose proof (u32_range (i_pid ib)).
  destruct (fd =? -1), (u32 pid =? 0); unfold IMSGF_HASFD; lia.
Qed.

(** The buffer imsg_create hands out holds the header alone. *)
Lemma imsg_create_spec ib type peerid pid datalen c :
  0 ≤ datalen < 2 ^ 16 →
  ∃ ob c', imsg_create ib type peerid pid datalen c = (Ok ob, c')
    ∧ ce_closed c' = ce_closed c
    ∧ (ob = None ∧ (MAX_IMSGSIZE < IMSG_HEADER_SIZE + datalen ∨ ¬ alloc_never_fails c)
       ∨ ∃ b, ob = Some b ∧ ibuf_wf b ∧ b_max b = MAX_IMSGSIZE ∧ b_rpos b = 0 ∧ b_fd b = -1
           ∧ b_buf b = hdr_encode (mk_hdr (u32 type) 0 0 (u32 peerid)
                                     (if u32 pid =? 0 then u32 (i_pid ib) else u32 pid))
           ∧ (alloc_never_fails c → alloc_never_fails c')).
Proof.
  intros Hlen. unfold imsg_create. rewrite (u16_small datalen) by lia.
  pose proof (u16_range (datalen + IMSG_HEADER_SIZE)) as Hu.
  destruct (Z.ltb_spec MAX_IMSGSIZE (u16 (datalen + IMSG_HEADER_SIZE))) as [Hbig|Hsmall].
  { run. eexists _, _. split_and!; [done..|]. left. split; [done|]. left.
    unfold u16, MAX_IMSGSIZE, IMSG_HEADER_SIZE in *.
    assert (datalen + 16 < 2 ^ 16 ∨ 2 ^ 16 ≤ datalen + 16) as [Hlt|Hge] by lia.
    - rewrite Z.mod_small in Hbig by lia. lia.
    - lia. }
  destruct (ibuf_dynamic_spec (u16 (datalen + IMSG_HEADER_SIZE)) MAX_IMSGSIZE c)
    as (ob & c1 & E & Hc & [->|[_ ->]] & Ha); [lia|done| |]; rewrite (bind_ok _ _ _ _ _ E).
  { run. eexists _, _. split_and!; [done..|]. left. split; [done|]. right.
    intros Hn. by destruct (Ha Hn Hsmall) as [[] _]. }
  match goal with |- context [imsg_add ?b (hdr_encode ?h) _] =>
    destruct (imsg_add_spec b (hdr_encode h) IMSG_HEADER_SIZE c1)
      as (r & b' & c2 & E2 & Hwf & Hc2 & Hr) end;
    [unfold ibuf_wf; simpl; zlen; unfold MAX_IMSGSIZE in *; lia
    |rewrite Zlen_hdr_encode; done|done|].
  rewrite (bind_ok _ _ _ _ _ E2). simpl in Hr |- *.
  destruct Hr as [(-> & -> & Hf)|(-> & Hbuf & Hm & Hrp & Hfd & Ha2)]; simpl;
    eexists _, _; (split; [reflexivity|]; split; [congruence|]).
  - left. split; [done|]. right. destruct Hf as [Hf|Hf]; [by compute in Hf|].
    intros Hn. apply Hf. by apply Ha.
  - right. exists b'. split_and!; try done.
    intros Hn. apply Ha2. by apply Ha.
Qed.

(** imsg_close turns the buffer of imsg_create plus a datum into a frame and
    queues it. *)
Lemma imsg_close_spec ib type peerid hpid fd data b :
  ibuf_wf b → b_rpos b = 0 → b_fd b = fd → b_max b = MAX_IMSGSIZE →
  b_buf b = hdr_encode (mk_hdr (u32 type) 0 0 (u32 peerid) (u32 hpid)) ++ data →
  let h := mk_hdr (u32 type) (IMSG_HEADER_SIZE + Zlen data)
             (if fd =? -1 then 0 else IMSGF_HASFD) (u32 peerid) (u32 hpid) in
  ∃ b', imsg_close ib b = set_w ib (ibuf_enqueue (i_w ib) b')
    ∧ ibuf_live b' ∧ b_rpos b' = 0 ∧ b_fd b' = fd ∧ iov b' = frame h data.
Proof.
  intros Hwf Hr Hfd Hmax Hbuf h. pose proof (Zlen_nonneg data).
  pose proof Hwf as (Hl & Hrp & Hs & Hm).
  rewrite Hbuf, Zlen_app, Zlen_hdr_encode in Hl. rewrite Hmax in *.
  unfold MAX_IMSGSIZE, IMSG_HEADER_SIZE in *.
  assert (hdr_decode (b_buf b) =
          mk_hdr (u32 type) 0 0 (u32 peerid) (u32 hpid)) as Hdec.
  { rewrite Hbuf, hdr_decode_encode. simpl. unfold u32. by rewrite !Zmod_mod. }
  eexists. unfold imsg_close, ibuf_close. rewrite Hdec.
  cbn [h_type h_len h_flags h_peerid h_pid].
  rewrite Hfd, (u16_small (b_wpos b)) by lia. rewrite Hbuf.
  rewrite Zdrop_app_exact by (by rewrite Zlen_hdr_encode).
  split; [reflexivity|]. proj_buf.
  assert (∀ h' : imsg_hdr, ibuf_wf (mk_ibuf (hdr_encode h' ++ data) (b_size b) (b_max b)
            (b_wpos b) (b_rpos b) fd)) as Hwf'.
  { intros h'. unfold ibuf_wf. proj_buf.
    rewrite Zlen_app, Zlen_hdr_encode. unfold IMSG_HEADER_SIZE. lia. }
  split; [split; [apply Hwf'|proj_buf; lia]|]. split; [done|]. split; [done|].
  rewrite iov_wf by apply Hwf'. proj_buf. rewrite Hr. unfold frame, h, IMSG_HEADER_SIZE. rewrite Hl.
  by destruct (fd =? -1).
Qed.

(** imsg_compose queues exactly one well-formed frame, or fails and leaves
    the queue as it was. *)
Lemma imsg_compose_spec ib type peerid pid fd data datalen c :
  0 ≤ datalen ≤ Zlen data → datalen < 2 ^ 16 →
  ∃ z ib' c', imsg_compose ib type peerid pid fd data datalen c = (Ok (z, ib'), c')
    ∧ ce_closed c' = ce_closed c
    ∧ (z = -1 ∧ ib' = ib ∧ (MAX_IMSGSIZE < IMSG_HEADER_SIZE + datalen ∨ ¬ alloc_never_fails c)
       ∨ z = 1 ∧ IMSG_HEADER_SIZE + datalen ≤ MAX_IMSGSIZE
         ∧ (alloc_never_fails c → alloc_never_fails c')
         ∧ ∃ b, ib' = set_w ib (ibuf_enqueue (i_w ib) b)
             ∧ ibuf_live b ∧ b_rpos b = 0 ∧ b_fd b = fd
             ∧ iov b = frame (compose_hdr ib type peerid pid fd datalen) (Ztake datalen data)).
Proof.
  intros Hlen Hsm. unfold imsg_compose.
  destruct (imsg_create_spec ib type peerid pid datalen c)
    as (ob & c1 & E & Hc & [[-> Hf]|(b & -> & Hwf & Hm & Hr & Hfd & Hbuf & Ha)]); [lia| |];
    rewrite (bind_ok _ _ _ _ _ E).
  { eexists _, _, _. split_and!; [done..|]. by left. }
  destruct (imsg_add_spec b data datalen c1) as (r & b1 & c2 & E2 & Hwf1 & Hc1 & Hr1);
    [done..|]. rewrite (bind_ok _ _ _ _ _ E2).
  assert (b_wpos b = IMSG_HEADER_SIZE) as Hw.
  { destruct Hwf as (Hl & _). rewrite Hbuf, Zlen_hdr_encode in Hl. done. }
  destruct Hr1 as [(-> & -> & Hf)|(-> & Hbuf1 & Hm1 & Hrp1 & Hfd1 & Ha1)]; simpl.
  { eexists _, _, _. split; [done|]. split; [congruence|]. left. split_and!; [done..|].
    rewrite Hm, Hw in Hf. destruct Hf as [Hf|Hf]; [by left|]. right. tauto. }
  rewrite (proj2 (Z.eqb_neq datalen (-1))) by lia.
  assert (Zlen (Ztake datalen data) = datalen) as Hdl by (rewrite Zlen_Ztake; lia).
  assert (IMSG_HEADER_SIZE + datalen ≤ MAX_IMSGSIZE) as Hfit.
  { destruct Hwf1 as (Hl & _ & Hs & _).
    rewrite Hbuf1, Hbuf, Zlen_app, Zlen_hdr_encode, Hdl in Hl. lia. }
  set (hpid := if u32 pid =? 0 then i_pid ib else pid).
  assert ((if u32 pid =? 0 then u32 (i_pid ib) else u32 pid) = u32 hpid) as Hpid
    by (unfold hpid; by destruct (u32 pid =? 0)).
  destruct (imsg_close_spec ib type peerid hpid fd (Ztake datalen data) (set_bfd b1 fd))
    as (b2 & -> & Hlive & Hr2 & Hfd2 & Hiov); [done|simpl; congruence|done|simpl; congruence| |].
  { simpl. by rewrite Hbuf1, Hbuf, Hpid. }
  eexists _, _, _. split; [done|]. split; [congruence|]. right. split_and!; [done..|tauto|].
  exists b2. split_and!; try done. rewrite Hiov. unfold compose_hdr. by rewrite Hdl, Hpid.
Qed.

(** ** Receiving: any bytes *)

Lemma field_split off n bs :
  (off + n ≤ length bs)%nat → le_split n (field off n bs) = take n (drop off bs).
Proof. intros H. apply split_le_combine'. rewrite length_take, length_drop. lia. Qed.

Lemma field_range off n bs :
  (off + n ≤ length bs)%nat → 0 ≤ field off n bs < 2 ^ (Z.of_nat n * 8).
Proof.
  intros H. pose proof (le_combine_split n (field off n bs)) as E.
  rewrite field_split in E by done. fold (field off n bs) in E. rewrite E.
  apply Z.mod_pos_bound. apply Z.pow_pos_nonneg; lia.
Qed.

Lemma take_drop_join {A} (l : list A) a b c :
  c = (a + b)%nat → take b (drop a l) ++ drop c l = drop a l.
Proof. intros ->. rewrite <- drop_drop. apply take_drop. Qed.

Lemma hdr_encode_decode bs :
  IMSG_HEADER_SIZE ≤ Zlen bs → hdr_encode (hdr_decode bs) ++ Zdrop IMSG_HEADER_SIZE bs = bs.
Proof.
  unfold Zlen, IMSG_HEADER_SIZE. intros H. unfold hdr_encode, hdr_decode.
  cbn [h_type h_len h_flags h_peerid h_pid]. rewrite !field_split by lia. rewrite <- !app_assoc. unfold Zdrop.
  change (Z.to_nat 16) with 16%nat.
  rewrite (take_drop_join bs 12 4 16), (take_drop_join bs 8 4 12), (take_drop_join bs 6 2 8),
    (take_drop_join bs 4 2 6), (take_drop_join bs 0 4 4) by done. done.
Qed.

(** The header says that no message can begin here. *)
Definition bad_header (r : list byte) : bool :=
  let len := h_len (hdr_decode r) in
  (IMSG_HEADER_SIZE <=? Zlen r) && ((len <? IMSG_HEADER_SIZE) || (MAX_IMSGSIZE <? len)).

(** The message that begins here has not been received in full. *)
Definition incomplete (r : list byte) : bool :=
  (Zlen r <? IMSG_HEADER_SIZE) || (Zlen r <? h_len (hdr_decode r)).

Lemma first_frame_split r :
  bad_header r = false → incomplete r = false →
  ∃ h data rest, frame_ok h data ∧ r = frame h data ++ rest.
Proof.
  unfold bad_header, incomplete. intros Hb [H1%Z.ltb_ge H2%Z.ltb_ge]%orb_false_elim.
  rewrite (proj2 (Z.leb_le _ _) H1), andb_true_l in Hb.
  apply orb_false_elim in Hb as [Hl%Z.ltb_ge Hm%Z.ltb_ge].
  set (h := hdr_decode r) in *. set (d := Zdrop IMSG_HEADER_SIZE r).
  exists h, (Ztake (h_len h - IMSG_HEADER_SIZE) d), (Zdrop (h_len h - IMSG_HEADER_SIZE) d).
  split.
  - assert (16 ≤ length r)%nat by (unfold Zlen, IMSG_HEADER_SIZE in H1; lia).
    split; [|rewrite Zlen_Ztake by lia; unfold d; rewrite Zlen_Zdrop by done; lia].
    unfold hdr_ok, h, hdr_decode in *. cbn [h_type h_len h_flags h_peerid h_pid] in *.
    pose proof (field_range 0 4 r). pose proof (field_range 6 2 r).
    pose proof (field_range 8 4 r). pose proof (field_range 12 4 r). lia.
  - unfold frame. rewrite <- app_assoc, Ztake_Zdrop. symmetry. by apply hdr_encode_decode.
Qed.

(** imsg_get on any bytes: an error, nothing, or the first message. *)
Lemma imsg_get_cases ib c :
  (bad_header (i_r ib) = true
    ∧ imsg_get ib c = (Ok (-1, ib, None), mk_cenv (ce_alloc c) ERANGE (ce_closed c)))
  ∨ (bad_header (i_r ib) = false ∧ incomplete (i_r ib) = true
    ∧ imsg_get ib c = (Ok (0, ib, None), c))
  ∨ (∃ h data rest c', frame_ok h data ∧ i_r ib = frame h data ++ rest
      ∧ ce_closed c' = ce_closed c ∧ (alloc_never_fails c → alloc_never_fails c')
      ∧ (imsg_get ib c =
          (Ok (h_len h,
               mk_imsgbuf (take_fd h (i_fds ib)).2 rest (i_w ib) (i_fd ib) (i_pid ib),
               Some (mk_imsg h (take_fd h (i_fds ib)).1 data)), c')
         ∨ imsg_get ib c = (Ok (-1, ib, None), c') ∧ ¬ alloc_never_fails c)).
Proof.
  destruct (bad_header (i_r ib)) eqn:Hb; [left|right; destruct (incomplete (i_r ib)) eqn:Hi].
  - split; [done|]. unfold bad_header in Hb. apply andb_prop in Hb as [H%Z.leb_le Hl].
    unfold imsg_get. rewrite (proj2 (Z.ltb_ge _ _) H), Hl. done.
  - left. split_and!; [done..|]. unfold imsg_get, bad_header, incomplete in *.
    destruct (Z.ltb_spec (Zlen (i_r ib)) IMSG_HEADER_SIZE) as [|H]; [done|].
    rewrite (proj2 (Z.leb_le _ _) H), andb_true_l in Hb. rewrite orb_false_l in Hi.
    by rewrite Hb, Hi.
  - right. destruct (first_frame_split (i_r ib) Hb Hi) as (h & data & rest & Hok & Hr).
    destruct (imsg_get_frame ib h data rest c Hok Hr) as (c' & Hc & Ha & Hget).
    by exists h, data, rest, c'.
Qed.
