(* ===== verification/Channel.v ===== *)
(** * Channel: two imsg endpoints and the socket between them

    A sending and a receiving [imsgbuf] (src/usr/src/lib/libutil/imsg.c)
    joined by a stream socket that carries bytes and descriptors, as a step
    relation.  The socket may accept any part of what sendmsg(2) offers,
    hand over any part of what it holds, and join adjacent records that
    carry no descriptor.  The theorems relate the messages composed on one
    side with the messages [imsg_get] returns on the other. *)
From stdpp Require Import base list strings relations.
From coqutil Require Import Byte.
From S2P Require Import Prelude ImsgBuffer Imsg.

(** A message as a client of the library sees it. *)
Record msg := mk_msg { g_hdr : imsg_hdr; g_data : list byte; g_fd : Z }.

Definition msg_of (m : imsg) : msg := mk_msg (im_hdr m) (im_data m) (im_fd m).

(** A record in flight: bytes, and the descriptor that arrives with the
    first of them. *)
Record segment := mk_seg { sg_fd : option Z; sg_bytes : list byte }.

Definition seg_fds (sg : segment) : list Z := from_option (λ fd, [fd]) [] (sg_fd sg).
Definition seg_cmsgs (sg : segment) : list cmsghdr :=
  map (mk_cmsg SOL_SOCKET SCM_RIGHTS) (seg_fds sg).

(** What the socket takes from a sender whose call is answered [r]. *)
Definition sendmsg_segments (mb : msgbuf) (r : sysret) : list segment :=
  if taken r =? 0 then []
  else [mk_seg (snd <$> sendmsg_fd mb) (Ztake (taken r) (stream mb))].

(** What is left of a record after [k] of its bytes have been received. *)
Definition seg_rest (k : Z) (sg : segment) : list segment :=
  if Zlen (sg_bytes sg) <=? k then [] else [mk_seg None (Zdrop k (sg_bytes sg))].

Record chan := mk_chan {
  ch_tx : imsgbuf;
  ch_txenv : cenv;
  ch_net : list segment;
  ch_rx : imsgbuf;
  ch_rxenv : cenv;
  ch_sent : list msg;
  ch_got : list msg;
}.

Inductive chan_step : chan → chan → Prop :=
| step_compose tx c tx' c' net rx crx sent got type peerid pid fd data datalen :
    0 ≤ datalen ≤ Zlen data → datalen < 2 ^ 16 →
    imsg_compose tx type peerid pid fd data datalen c = (Ok (1, tx'), c') →
    chan_step (mk_chan tx c net rx crx sent got)
      (mk_chan tx' c' net rx crx
         (sent ++ [mk_msg (compose_hdr tx type peerid pid fd datalen)
                     (Ztake datalen data) fd]) got)
| step_compose_fail tx c tx' c' net rx crx sent got type peerid pid fd data datalen :
    0 ≤ datalen ≤ Zlen data → datalen < 2 ^ 16 →
    imsg_compose tx type peerid pid fd data datalen c = (Ok (-1, tx'), c') →
    chan_step (mk_chan tx c net rx crx sent got) (mk_chan tx' c' net rx crx sent got)
| step_send tx c w' c' net rx crx sent got r z :
    sendmsg_answer (i_w tx) r →
    msgbuf_write r (i_w tx) c = (Ok (z, w'), c') →
    chan_step (mk_chan tx c net rx crx sent got)
      (mk_chan (set_w tx w') c' (net ++ sendmsg_segments (i_w tx) r) rx crx sent got)
| step_merge tx c n1 fd b1 b2 n2 rx crx sent got :
    chan_step (mk_chan tx c (n1 ++ mk_seg fd b1 :: mk_seg None b2 :: n2) rx crx sent got)
      (mk_chan tx c (n1 ++ mk_seg fd (b1 ++ b2) :: n2) rx crx sent got)
| step_recv tx c sg net rx crx rx' crx' sent got k z :
    0 < k ≤ Zlen (sg_bytes sg) → Zlen (i_r rx) + k ≤ IBUF_READ_SIZE →
    imsg_read (RecvOk (Ztake k (sg_bytes sg)) (seg_cmsgs sg)) rx crx = (Ok (z, rx'), crx') →
    0 < z →
    chan_step (mk_chan tx c (sg :: net) rx crx sent got)
      (mk_chan tx c (seg_rest k sg ++ net) rx' crx' sent got)
| step_get tx c net rx crx rx' crx' sent got n m :
    imsg_get rx crx = (Ok (n, rx', Some m), crx') →
    chan_step (mk_chan tx c net rx crx sent got)
      (mk_chan tx c net rx' crx' sent (got ++ [msg_of m])).

(** Both ends fresh from imsg_init, the socket empty. *)
Definition chan_init (fd1 pid1 fd2 pid2 : Z) (c1 c2 : cenv) : chan :=
  mk_chan (imsg_init fd1 pid1) c1 [] (imsg_init fd2 pid2) c2 [] [].

Definition reachable (s : chan) : Prop :=
  ∃ fd1 pid1 fd2 pid2 c1 c2, rtc chan_step (chan_init fd1 pid1 fd2 pid2 c1 c2) s.

(** ** The invariant *)

(** A message is a frame whose HASFD flag says whether it has a descriptor. *)
Definition msg_ok (m : msg) : Prop :=
  frame_ok (g_hdr m) (g_data m) ∧
  has_bits (h_flags (g_hdr m)) IMSGF_HASFD = negb (g_fd m =? -1).

Definition wire1 (m : msg) : list byte := frame (g_hdr m) (g_data m).
#[global] Arguments wire1 : simpl never.
Definition wire (ms : list msg) : list byte := concat (map wire1 ms).
Definition fd1 (m : msg) : list Z := if g_fd m =? -1 then [] else [g_fd m].
Definition msg_fds (ms : list msg) : list Z := concat (map fd1 ms).

(** How many descriptors the messages that begin within the first [n] bytes
    of the wire have. *)
Fixpoint need (ms : list msg) (n : Z) : Z :=
  match ms with
  | [] => 0
  | m :: ms =>
      if n <=? 0 then 0 else Zlen (fd1 m) + need ms (n - Zlen (wire1 m))
  end.

Definition net_bytes (net : list segment) : list byte := concat (map sg_bytes net).
Definition net_fds (net : list segment) : list Z := concat (map seg_fds net).

(** A queued buffer and the message in it: a buffer still owning its
    descriptor has not been touched. *)
Record carries (m : msg) (b : ibuf) : Prop := mk_carries {
  ca_buf : b_buf b = wire1 m;
  ca_live : ibuf_live b;
  ca_fd : b_fd b = g_fd m ∨ b_fd b = -1;
  ca_fresh : b_fd b ≠ -1 → b_rpos b = 0;
}.

Definition head_rpos (bs : list ibuf) : Z := from_option b_rpos 0 (head bs).
Definition tail_fresh (bs : list ibuf) : Prop := Forall (λ b, b_rpos b = 0) (tail bs).

(** Every byte received before the end of [n1] comes after its descriptors. *)
Definition timely (ms : list msg) (rx : imsgbuf) (net : list segment) : Prop :=
  ∀ n1 n2, net = n1 ++ n2 →
    need ms (Zlen (i_r rx) + Zlen (net_bytes n1)) ≤ Zlen (i_fds rx) + Zlen (net_fds n1).

Record chan_inv_at (s : chan) (u1 u2 : list msg) : Prop := mk_inv {
  inv_sent : ch_sent s = ch_got s ++ u1 ++ u2;
  inv_ok : Forall msg_ok (u1 ++ u2);
  inv_wf : msgbuf_wf (i_w (ch_tx s));
  inv_queue : Forall2 carries u2 (m_bufs (i_w (ch_tx s)));
  inv_fresh : tail_fresh (m_bufs (i_w (ch_tx s)));
  inv_split : Zlen (i_r (ch_rx s)) + Zlen (net_bytes (ch_net s)) =
              Zlen (wire u1) + head_rpos (m_bufs (i_w (ch_tx s)));
  inv_bytes : wire (u1 ++ u2) =
              i_r (ch_rx s) ++ net_bytes (ch_net s) ++ stream (i_w (ch_tx s));
  inv_fds : msg_fds (u1 ++ u2) =
            i_fds (ch_rx s) ++ net_fds (ch_net s) ++ fds (i_w (ch_tx s));
  inv_timely : timely (u1 ++ u2) (ch_rx s) (ch_net s);
  inv_net : Forall (λ sg, sg_bytes sg ≠ []) (ch_net s);
}.

Definition chan_inv (s : chan) : Prop := ∃ u1 u2, chan_inv_at s u1 u2.

(** ** Lemmas on the wire *)

Lemma wire_cons m ms : wire (m :: ms) = wire1 m ++ wire ms.
Proof. done. Qed.
Lemma wire_app ms ms' : wire (ms ++ ms') = wire ms ++ wire ms'.
Proof. unfold wire. by rewrite map_app, concat_app. Qed.
Lemma msg_fds_cons m ms : msg_fds (m :: ms) = fd1 m ++ msg_fds ms.
Proof. done. Qed.
Lemma msg_fds_app ms ms' : msg_fds (ms ++ ms') = msg_fds ms ++ msg_fds ms'.
Proof. unfold msg_fds. by rewrite map_app, concat_app. Qed.
Lemma net_bytes_cons sg net : net_bytes (sg :: net) = sg_bytes sg ++ net_bytes net.
Proof. done. Qed.
Lemma net_bytes_app n n' : net_bytes (n ++ n') = net_bytes n ++ net_bytes n'.
Proof. unfold net_bytes. by rewrite map_app, concat_app. Qed.
Lemma net_fds_cons sg net : net_fds (sg :: net) = seg_fds sg ++ net_fds net.
Proof. done. Qed.
Lemma net_fds_app n n' : net_fds (n ++ n') = net_fds n ++ net_fds n'.
Proof. unfold net_fds. by rewrite map_app, concat_app. Qed.
#[export] Hint Rewrite wire_cons wire_app msg_fds_cons msg_fds_app net_bytes_cons
  net_bytes_app net_fds_cons net_fds_app : clib.

Lemma msg_ok_len m : msg_ok m → IMSG_HEADER_SIZE ≤ Zlen (wire1 m) ≤ MAX_IMSGSIZE.
Proof.
  intros [Hok _]. unfold wire1. rewrite Zlen_frame by done. apply Hok.
Qed.

Lemma need_nonpos ms n : n ≤ 0 → need ms n = 0.
Proof. intros Hn. destruct ms; [done|]. simpl. by rewrite (proj2 (Z.leb_le n 0)). Qed.

Lemma need_app_wire u1 u2 k :
  Forall msg_ok u1 → 0 ≤ k →
  need (u1 ++ u2) (Zlen (wire u1) + k) = Zlen (msg_fds u1) + need u2 k.
Proof.
  intros Hok Hk. induction Hok as [|m u1 Hm Hok IH]; [done|].
  apply msg_ok_len in Hm. unfold IMSG_HEADER_SIZE in Hm. rewrite wire_cons, msg_fds_cons, !Zlen_app.
  pose proof (Zlen_nonneg (wire u1)). simpl.
  rewrite (proj2 (Z.leb_gt _ 0)) by lia.
  replace (_ - _) with (Zlen (wire u1) + k) by lia. rewrite IH. lia.
Qed.

Lemma need_app_l u1 u2 n : n ≤ Zlen (wire u1) → need (u1 ++ u2) n = need u1 n.
Proof.
  revert n. induction u1 as [|m u1 IH]; intros n Hn.
  - apply need_nonpos. exact Hn.
  - rewrite wire_cons, Zlen_app in Hn. simpl. destruct (n <=? 0); [done|].
    by rewrite IH by lia.
Qed.

(** ** What sending does to the queue *)

(** The buffers that [n] bytes reach have no descriptor. *)
Fixpoint clean (bs : list ibuf) (n : Z) : Prop :=
  match bs with
  | [] => True
  | b :: next => n ≤ 0 ∨ (b_fd b = -1 ∧ clean next (n - Zlen (iov b)))
  end.

Lemma clean_nonpos bs n : n ≤ 0 → clean bs n.
Proof. destruct bs; simpl; auto. Qed.

Lemma handed_clean_at bs : ∀ i n,
  0 ≤ i → n ≤ Zlen (concat (sendmsg_iov i bs).1) →
  clean match (sendmsg_iov i bs).2 with
        | Some p => alter clear_fd (Z.to_nat (p - i)) bs
        | None => bs
        end n ∧ from_option (λ p, i ≤ p) True (sendmsg_iov i bs).2.
Proof.
  induction bs as [|b bs IH]; intros i n Hi; simpl; [done|].
  destruct (IOV_MAX <=? i); simpl.
  { intros Hn. split; [|lia]. rewrite Z.sub_diag. simpl. auto. }
  destruct (Z.eqb_spec (b_fd b) (-1)) as [Hfd|Hfd]; simpl.
  - destruct (sendmsg_iov (i + 1) bs) as [v cur] eqn:E. simpl. rewrite Zlen_app. intros Hn.
    destruct (IH (i + 1) (n - Zlen (iov b))) as [Hc Hp]; [lia|rewrite E; simpl; lia|].
    rewrite E in Hc, Hp. simpl in Hc, Hp. destruct cur as [p|]; simpl in *; [|auto].
    split; [|lia]. replace (Z.to_nat (p - i)) with (S (Z.to_nat (p - (i + 1)))) by lia.
    simpl. auto.
  - rewrite Zlen_app, Zlen_nil, Z.add_0_r, Z.sub_diag. intros Hn. split; [|lia].
    simpl. right. split; [done|]. apply clean_nonpos. unfold iov in *. simpl. lia.
Qed.

Lemma handed_clean mb r : sendmsg_answer mb r → clean (handed (m_bufs mb)) (taken r).
Proof.
  intros Hr. unfold handed.
  destruct (handed_clean_at (m_bufs mb) 0 (taken r)) as [Hc _]; [lia| |].
  - destruct r; simpl in *; [apply Zlen_nonneg|lia].
  - destruct (sendmsg_iov 0 (m_bufs mb)).2; [|done]. by rewrite Z.sub_0_r in Hc.
Qed.

Lemma carries_clear m b : carries m b → carries m (clear_fd b).
Proof. intros [Hb Hl Hf Hr]. split; simpl; [done..|by right|done]. Qed.

Lemma handed_carries u bs :
  Forall2 carries u bs → tail_fresh bs →
  Forall2 carries u (handed bs) ∧ tail_fresh (handed bs) ∧ head_rpos (handed bs) = head_rpos bs.
Proof.
  intros Hc Ht. unfold handed. destruct (sendmsg_iov 0 bs).2 as [p|]; [|done].
  generalize (Z.to_nat p). intros j. split_and!.
  - clear Ht. revert j. induction Hc as [|m b u bs Hm Hc IH]; intros [|j]; simpl;
      constructor; auto using carries_clear. apply IH.
  - unfold tail_fresh in *. destruct bs as [|b bs], j as [|j]; simpl in *; [done..|].
    apply Forall_alter; [done|]. by intros b' _.
  - by destruct bs, j.
Qed.

Lemma advance_nonpos bs n : n ≤ 0 → advance bs n = bs.
Proof. intros Hn. destruct bs; [done|]. simpl. by rewrite (proj2 (Z.leb_le n 0)). Qed.

(** [n] more bytes complete the messages [d] and reach into the next one. *)
Lemma advance_carries u bs : ∀ n,
  Forall2 carries u bs → tail_fresh bs → clean bs n →
  0 ≤ n ≤ Zlen (concat (map iov bs)) →
  ∃ d u', u = d ++ u' ∧ Forall2 carries u' (advance bs n) ∧ tail_fresh (advance bs n)
    ∧ Zlen (wire d) + head_rpos (advance bs n) = head_rpos bs + n
    ∧ fds_of (advance bs n) = fds_of bs.
Proof.
  revert u. induction bs as [|b bs IH]; intros u n Hc Ht Hcl Hn.
  { exists [], u. split_and!; try done. unfold head_rpos, wire in *. simpl in *. zlen. }
  apply Forall2_cons_inv_r in Hc as (m & u1 & Hm & Hc & ->).
  destruct (Z.leb_spec n 0) as [Hz|Hpos].
  { exists [], (m :: u1). rewrite advance_nonpos by done. split_and!; try done; [by constructor|].
    simpl. zlen. }
  destruct Hcl as [?|[Hfd Hcl]]; [lia|]. destruct Hm as [Hbuf [Hwf Hlive] Hf Hfr].
  pose proof (Zlen_iov b Hwf) as Hiov. pose proof Hwf as (Hl & Hr & _). rewrite Hbuf in Hl.
  simpl in Hn. rewrite Zlen_app in Hn. simpl. rewrite (proj2 (Z.leb_gt n 0)) by lia.
  destruct (Z.leb_spec (b_wpos b - b_rpos b) n) as [Hall|Hpart].
  - destruct (IH u1 (n - (b_wpos b - b_rpos b)))
      as (d & u' & -> & Hc' & Ht' & Hsum & Hfds); [done| |by rewrite <- Hiov|lia|].
    { unfold tail_fresh in *. simpl in Ht. destruct Ht; [constructor|done]. }
    exists (m :: d), u'. split_and!; [done..| |].
    + assert (head_rpos bs = 0) as H0 by (unfold head_rpos; unfold tail_fresh in Ht; simpl in Ht; by destruct Ht).
      rewrite wire_cons, Zlen_app. change (head_rpos (b :: bs)) with (b_rpos b). lia.
    + rewrite fds_of_cons, Hfd. done.
  - exists [], (m :: u1). unfold head_rpos. simpl. split_and!; [done| |done|zlen|].
    + constructor; [|done]. split; simpl; [done| |by right|done].
      split; [unfold ibuf_wf in *; simpl; lia|simpl; lia].
    + by rewrite !fds_of_cons.
Qed.

(** The descriptors still queued are those of messages not begun. *)
Lemma carries_fds u bs : Forall2 carries u bs → Zlen (fds_of bs) ≤ Zlen (msg_fds u).
Proof.
  induction 1 as [|m b u bs [_ _ Hf _] _ IH]; [done|].
  rewrite fds_of_cons, msg_fds_cons, !Zlen_app. unfold fd1.
  destruct Hf as [->| ->]; [lia|]. simpl. pose proof (Zlen_nonneg (if g_fd m =? -1 then [] else [g_fd m])).
  change (Zlen []) with 0. lia.
Qed.

Lemma carries_need u bs :
  Forall2 carries u bs → need u (head_rpos bs) + Zlen (fds_of bs) ≤ Zlen (msg_fds u).
Proof.
  intros Hc. pose proof (carries_fds u bs Hc) as Hle.
  destruct Hc as [|m b u bs Hm Hc]; [done|]. unfold head_rpos. simpl.
  destruct (Z.leb_spec (b_rpos b) 0) as [|Hpos]; [done|].
  destruct Hm as [Hbuf [[Hl Hr] Hlive] Hf Hfr].
  assert (b_fd b = -1) as Hfd by (destruct (decide (b_fd b = -1)) as [|Hn]; [done|]; apply Hfr in Hn; lia).
  rewrite Hbuf in Hl. rewrite need_nonpos by lia.
  rewrite fds_of_cons, msg_fds_cons, Hfd, !Zlen_app. simpl. change (Zlen (@nil Z)) with 0.
  pose proof (carries_fds u bs Hc). lia.
Qed.

(** ** Every step preserves the invariant *)

Lemma chan_inv_init fd1 pid1 fd2 pid2 c1 c2 :
  chan_inv (chan_init fd1 pid1 fd2 pid2 c1 c2).
Proof.
  exists [], []. split; simpl; try done; try constructor; try done.
  intros n1 n2 _. apply Z.add_nonneg_nonneg; apply Zlen_nonneg.
Qed.

Lemma compose_msg_ok ib type peerid pid fd data datalen :
  0 ≤ datalen ≤ Zlen data → IMSG_HEADER_SIZE + datalen ≤ MAX_IMSGSIZE →
  msg_ok (mk_msg (compose_hdr ib type peerid pid fd datalen) (Ztake datalen data) fd).
Proof.
  intros Hd Hfit. assert (Zlen (Ztake datalen data) = datalen) as Hl
    by (rewrite Zlen_Ztake; lia).
  split; simpl.
  - rewrite <- Hl at 1. apply compose_hdr_ok. by rewrite Hl.
  - by destruct (fd =? -1).
Qed.

Lemma tail_fresh_snoc bs b : tail_fresh bs → b_rpos b = 0 → tail_fresh (bs ++ [b]).
Proof.
  unfold tail_fresh. destruct bs as [|b' bs]; simpl; [by constructor|].
  intros. apply Forall_app; by repeat constructor.
Qed.

Lemma head_rpos_snoc bs b : b_rpos b = 0 → head_rpos (bs ++ [b]) = head_rpos bs.
Proof. by destruct bs. Qed.

Lemma fds_of_app bs bs' : fds_of (bs ++ bs') = fds_of bs ++ fds_of bs'.
Proof. unfold fds_of. by rewrite map_app, filter_app. Qed.

Lemma inv_compose tx c net rx crx sent got u1 u2 m b w' c' :
  chan_inv_at (mk_chan tx c net rx crx sent got) u1 u2 → msg_ok m →
  ibuf_live b → b_rpos b = 0 → b_fd b = g_fd m → iov b = wire1 m →
  w' = ibuf_enqueue (i_w tx) b →
  chan_inv_at (mk_chan (set_w tx w') c' net rx crx (sent ++ [m]) got) u1 (u2 ++ [m]).
Proof.
  intros [Hs Hok [Hwl Hwq] Hq Hf Hsp Hby Hfd Ht Hnet] Hm Hlive Hr Hbf Hiov ->. simpl in *.
  assert (b_buf b = wire1 m) as Hbuf by (rewrite <- Hiov, iov_wf, Hr by apply Hlive; done).
  split; simpl; rewrite ?app_assoc.
  - rewrite Hs. by rewrite !app_assoc.
  - apply Forall_app. split; [done|]. by apply Forall_singleton.
  - by apply ibuf_enqueue_spec.
  - apply Forall2_app; [done|]. apply Forall2_cons_2; [|done]. by split; auto.
  - by apply tail_fresh_snoc.
  - by rewrite head_rpos_snoc.
  - rewrite wire_app, Hby. unfold wire. simpl. rewrite app_nil_r.
    destruct (ibuf_enqueue_spec (i_w tx) b) as [_ ->]; [done..|].
    by rewrite Hiov, !app_assoc.
  - rewrite msg_fds_app, Hfd. unfold fds. simpl. rewrite fds_of_app, !app_assoc. f_equal.
    rewrite fds_of_cons. unfold msg_fds, fd1. simpl. by rewrite Hbf.
  - intros n1 n2 Hn. rewrite need_app_l; [by apply (Ht n1 n2)|].
    rewrite Hby, !Zlen_app, Hn, net_bytes_app, Zlen_app.
    pose proof (Zlen_nonneg (net_bytes n2)). pose proof (Zlen_nonneg (stream (i_w tx))). lia.
  - done.
Qed.

(** A prefix of [net ++ [sg]] is a prefix of [net] or the whole. *)
Lemma app_snoc_split {A} (net n1 n2 : list A) sg :
  net ++ [sg] = n1 ++ n2 → (∃ n2', net = n1 ++ n2') ∨ n1 = net ++ [sg].
Proof.
  destruct n2 as [|x n2 _] using rev_ind.
  - rewrite app_nil_r. by right.
  - rewrite app_assoc. intros [-> _]%app_inj_tail. left. eauto.
Qed.

Lemma inv_send tx c net rx crx sent got u1 u2 r z w' c' :
  chan_inv_at (mk_chan tx c net rx crx sent got) u1 u2 →
  sendmsg_answer (i_w tx) r → msgbuf_write r (i_w tx) c = (Ok (z, w'), c') →
  chan_inv (mk_chan (set_w tx w') c' (net ++ sendmsg_segments (i_w tx) r) rx crx sent got).
Proof.
  intros [Hs Hok Hwf Hq Hf Hsp Hby Hfd Ht Hnet] Hr E. simpl in *.
  destruct (msgbuf_write_spec (i_w tx) r c Hwf Hr) as (w1 & c1 & E1 & Hwf1 & _ & _ & Hbs & Hst).
  rewrite E in E1. injection E1 as _ <- <-. clear E.
  pose proof (sendmsg_answer_bound _ _ Hr) as Hb. unfold sendmsg_segments.
  destruct (Z.eqb_spec (taken r) 0) as [Hz|Hnz].
  { rewrite Hz, Zdrop_0 in Hst. rewrite app_nil_r. exists u1, u2.
    split; simpl; try rewrite Hbs; try done; [by rewrite Hst|]. unfold fds. by rewrite Hbs. }
  destruct (handed_carries u2 (m_bufs (i_w tx))) as (Hq1 & Hf1 & Hh1); [done..|].
  pose proof (handed_fds (i_w tx)) as Hhf.
  assert (concat (map iov (handed (m_bufs (i_w tx)))) = stream (i_w tx)) as Hst1.
  { rewrite handed_sendmsg_fd. destruct (sendmsg_fd (i_w tx)) as [[p fd]|]; [|done].
    by apply (alter_clear_fd_wf p). }
  destruct (advance_carries u2 (handed (m_bufs (i_w tx))) (taken r))
    as (d & u' & -> & Hq2 & Hf2 & Hsum & Hfds); [done..|by apply handed_clean|by rewrite Hst1|].
  rewrite <- Hbs in *.
  exists (u1 ++ d), u'. split; simpl; rewrite ?net_bytes_app, ?net_fds_app, <- ?app_assoc; try done.
  - rewrite wire_app, !Zlen_app. unfold net_bytes at 2. simpl.
    rewrite app_nil_r, Zlen_Ztake by lia. lia.
  - rewrite Hby, Hst. unfold net_bytes at 3. simpl. by rewrite app_nil_r, Ztake_Zdrop.
  - rewrite Hfd. do 2 f_equal. rewrite Hhf. unfold fds, net_fds, seg_fds. simpl.
    rewrite Hfds, app_nil_r. by destruct (sendmsg_fd (i_w tx)) as [[]|].
  - intros n1 n2 [[n2' Hn]| ->]%app_snoc_split; [by apply (Ht n1 n2')|].
    rewrite !net_bytes_app, !net_fds_app, !Zlen_app. unfold net_bytes at 2. simpl.
    rewrite app_nil_r, Zlen_Ztake by lia.
    pose proof (carries_need u' (m_bufs w') Hq2) as Hneed.
    assert (0 ≤ head_rpos (m_bufs w')).
    { unfold head_rpos. destruct Hq2 as [|? ? ? ? [_ [[_ ?] _] _ _]]; simpl; lia. }
    replace (Zlen (i_r rx) + _) with (Zlen (wire (u1 ++ d)) + head_rpos (m_bufs w'))
      by (rewrite wire_app, Zlen_app; lia).
    rewrite app_assoc in Hok |- *. apply Forall_app in Hok as [Hok _].
    rewrite need_app_wire by done.
    apply (f_equal Zlen) in Hfd. rewrite app_assoc, msg_fds_app, !Zlen_app in Hfd.
    rewrite Hhf, Zlen_app, <- Hfds in Hfd. unfold net_fds at 2, seg_fds. simpl. rewrite app_nil_r.
    destruct (sendmsg_fd (i_w tx)) as [[]|]; simpl in *; lia.
  - apply Forall_app. split; [done|]. apply Forall_singleton. simpl.
    intros Hnil%(f_equal Zlen). rewrite Zlen_Ztake in Hnil by lia. zlen.
Qed.

Lemma inv_merge tx c n1 fd b1 b2 n2 rx crx sent got u1 u2 :
  chan_inv_at (mk_chan tx c (n1 ++ mk_seg fd b1 :: mk_seg None b2 :: n2) rx crx sent got) u1 u2 →
  chan_inv_at (mk_chan tx c (n1 ++ mk_seg fd (b1 ++ b2) :: n2) rx crx sent got) u1 u2.
Proof.
  intros [Hs Hok Hwf Hq Hf Hsp Hby Hfd Ht Hnet]. simpl in *.
  assert (net_bytes (n1 ++ mk_seg fd (b1 ++ b2) :: n2) =
          net_bytes (n1 ++ mk_seg fd b1 :: mk_seg None b2 :: n2)) as Hb
    by (autorewrite with clib; simpl; by rewrite <- app_assoc).
  assert (net_fds (n1 ++ mk_seg fd (b1 ++ b2) :: n2) =
          net_fds (n1 ++ mk_seg fd b1 :: mk_seg None b2 :: n2)) as Hd
    by (autorewrite with clib; done).
  split; simpl; rewrite ?Hb, ?Hd; try done.
  2: { apply Forall_app in Hnet as [? Hnet]. apply Forall_cons in Hnet as [Hb1 [_ ?]%Forall_cons].
       apply Forall_app. split; [done|]. constructor; [|done]. simpl in *. by destruct b1. }
  intros a1 a2 Ha. apply app_eq_inv in Ha as [(k & -> & ->)|(k & -> & Hk)].
  - apply (Ht a1 (k ++ mk_seg fd b1 :: mk_seg None b2 :: n2)). by rewrite <- app_assoc.
  - destruct k as [|sg k]; simpl in Hk.
    + rewrite app_nil_r. exact (Ht n1 _ eq_refl).
    + injection Hk as <- ->.
      specialize (Ht (n1 ++ mk_seg fd b1 :: mk_seg None b2 :: k) a2).
      rewrite <- app_assoc in Ht. specialize (Ht eq_refl).
      autorewrite with clib in Ht |- *. unfold seg_fds in *. simpl in Ht |- *. zlen.
      rewrite <- (Z.add_assoc (Zlen b1)). lia.
Qed.

Lemma need_mono ms : ∀ n n', n ≤ n' → need ms n ≤ need ms n'.
Proof.
  induction ms as [|m ms IH]; intros n n' Hn; simpl; [done|].
  pose proof (Zlen_nonneg (fd1 m)).
  destruct (Z.leb_spec n 0), (Z.leb_spec n' 0); [lia| |lia|].
  - specialize (IH (Z.min 0 (n' - Zlen (wire1 m))) (n' - Zlen (wire1 m))).
    rewrite (need_nonpos ms (Z.min 0 _)) in IH by lia. lia.
  - specialize (IH (n - Zlen (wire1 m)) (n' - Zlen (wire1 m))). lia.
Qed.

Lemma imsg_read_segment data sg rx c z rx' c' :
  imsg_read (RecvOk data (seg_cmsgs sg)) rx c = (Ok (z, rx'), c') → 0 < z →
  z = Zlen data ∧
  rx' = mk_imsgbuf (i_fds rx ++ seg_fds sg) (i_r rx ++ data) (i_w rx) (i_fd rx) (i_pid rx).
Proof.
  unfold imsg_read, seg_cmsgs, seg_fds. destruct (sg_fd sg) as [fd|]; run.
  - run. destruct (alloc_ok c) as [[[|]|w] c1]; simpl; intros ? ?; simplify_eq; [done|lia].
  - rewrite app_nil_r. by intros [= <- <- <-] _.
Qed.

Lemma inv_recv tx c sg net rx crx sent got u1 u2 k rx' crx' :
  chan_inv_at (mk_chan tx c (sg :: net) rx crx sent got) u1 u2 →
  0 < k ≤ Zlen (sg_bytes sg) →
  rx' = mk_imsgbuf (i_fds rx ++ seg_fds sg) (i_r rx ++ Ztake k (sg_bytes sg))
          (i_w rx) (i_fd rx) (i_pid rx) →
  chan_inv_at (mk_chan tx c (seg_rest k sg ++ net) rx' crx' sent got) u1 u2.
Proof.
  intros [Hs Hok Hwf Hq Hf Hsp Hby Hfd Ht Hnet] Hk ->. simpl in *.
  assert (net_bytes (seg_rest k sg) = Zdrop k (sg_bytes sg) ∧ net_fds (seg_rest k sg) = [])
    as [Hb Hd].
  { unfold seg_rest, net_bytes, net_fds. destruct (Z.leb_spec (Zlen (sg_bytes sg)) k); simpl.
    - by rewrite Zdrop_all.
    - by rewrite app_nil_r. }
  assert (Zlen (Ztake k (sg_bytes sg)) = k) as Hkl by (rewrite Zlen_Ztake; lia).
  assert (Zlen (Zdrop k (sg_bytes sg)) = Zlen (sg_bytes sg) - k) as Hdl by (rewrite Zlen_Zdrop; lia).
  split; simpl; rewrite ?net_bytes_app, ?net_fds_app, ?Hb, ?Hd; try done.
  - rewrite net_bytes_cons, Zlen_app in Hsp. rewrite !Zlen_app, Hkl, Hdl. lia.
  - rewrite Hby, net_bytes_cons, <- !app_assoc. f_equal. by rewrite (app_assoc (Ztake _ _)), Ztake_Zdrop.
  - rewrite Hfd, net_fds_cons. by rewrite <- !app_assoc.
  - intros n1 n2 Hn. simpl. rewrite !Zlen_app, Hkl.
    destruct n1 as [|sg1 n1].
    { specialize (Ht [sg] net eq_refl). unfold net_bytes, net_fds in *. simpl in *.
      rewrite !app_nil_r in Ht.
      etransitivity; [apply (need_mono _ _ (Zlen (i_r rx) + Zlen (sg_bytes sg)))|]; zlen. }
    unfold seg_rest in Hn. destruct (Z.leb_spec (Zlen (sg_bytes sg)) k) as [Hle|Hlt]; simpl in Hn.
    + specialize (Ht (sg :: sg1 :: n1) n2). rewrite Hn in Ht. specialize (Ht eq_refl).
      replace (_ + k + _) with (Zlen (i_r rx) + Zlen (net_bytes (sg :: sg1 :: n1)))
        by (rewrite (net_bytes_cons sg), Zlen_app; lia).
      rewrite (net_fds_cons sg), Zlen_app in Ht. lia.
    + injection Hn as <- ->. specialize (Ht (sg :: n1) n2 eq_refl).
      rewrite net_bytes_cons, net_fds_cons, !Zlen_app in *. simpl. rewrite Hdl. zlen.
      replace (_ + k + _) with (Zlen (i_r rx) + (Zlen (sg_bytes sg) + Zlen (net_bytes n1))) by lia.
      change (Zlen (seg_fds (mk_seg None (Zdrop k (sg_bytes sg))))) with 0. lia.
  - apply Forall_cons in Hnet as [_ Hnet]. apply Forall_app. split; [|done].
    unfold seg_rest. destruct (Z.leb_spec (Zlen (sg_bytes sg)) k); constructor; [|constructor].
    simpl. intros Hnil. rewrite Hnil in Hdl. zlen.
Qed.

(** The received bytes begin with a whole frame or lie inside one. *)
Lemma first_frame m ms r k :
  wire (m :: ms) = r ++ k →
  (∃ r', r = wire1 m ++ r') ∨ (∃ rest, rest ≠ [] ∧ r ++ rest = wire1 m).
Proof.
  rewrite wire_cons. intros [(x & -> & Hx)|(x & -> & Hx)]%app_eq_inv.
  - destruct x as [|b x]; [left; exists []; by rewrite !app_nil_r|right; by exists (b :: x)].
  - left. eauto.
Qed.

Lemma need_nonneg ms n : 0 ≤ need ms n.
Proof.
  rewrite <- (need_nonpos ms (Z.min 0 n)) by lia. apply need_mono. lia.
Qed.

(** A message takes the first waiting descriptor exactly when it has one. *)
Lemma take_fd_first m ms fds rest :
  msg_ok m → msg_fds (m :: ms) = fds ++ rest → Zlen (fd1 m) ≤ Zlen fds →
  ∃ fds', fds = fd1 m ++ fds' ∧ take_fd (g_hdr m) fds = (g_fd m, fds').
Proof.
  intros [_ Hflag]. rewrite msg_fds_cons. unfold take_fd, fd1. rewrite Hflag.
  destruct (Z.eqb_spec (g_fd m) (-1)) as [->|]; simpl; [by eauto|].
  destruct fds as [|fd fds]; intros Hfd Hlen; [by compute in Hlen|].
  injection Hfd as -> _. by eauto.
Qed.

(** What imsg_get does in a state of the invariant: nothing while the next
    frame is incomplete, otherwise it returns the oldest message not yet
    returned, descriptor included. *)
Lemma inv_get tx c net rx crx sent got u1 u2 :
  chan_inv_at (mk_chan tx c net rx crx sent got) u1 u2 →
  (imsg_get rx crx = (Ok (0, rx, None), crx) ∧ Zlen (i_r rx) < MAX_IMSGSIZE)
  ∨ ∃ m u crx', u1 = m :: u
      ∧ (alloc_never_fails crx → alloc_never_fails crx')
      ∧ ((imsg_get rx crx = (Ok (-1, rx, None), crx') ∧ ¬ alloc_never_fails crx)
         ∨ ∃ rx', imsg_get rx crx =
               (Ok (h_len (g_hdr m), rx', Some (mk_imsg (g_hdr m) (g_fd m) (g_data m))), crx')
             ∧ chan_inv_at (mk_chan tx c net rx' crx' sent (got ++ [m])) u u2).
Proof.
  intros [Hs Hok Hwf Hq Hf Hsp Hby Hfd Ht Hnet]. simpl in *.
  destruct (u1 ++ u2) as [|m u] eqn:Eu.
  { left. symmetry in Hby. apply app_eq_nil in Hby as [Hr _].
    rewrite imsg_get_nil, Hr by done. done. }
  apply Forall_cons in Hok as [Hm Hok]. pose proof (msg_ok_len m Hm) as Hml.
  destruct (first_frame m u (i_r rx) _ Hby) as [[r' Hr]|(rest & Hne & Hr)].
  2: { left. split; [eapply imsg_get_partial; [apply Hm|exact Hr|done]|].
       rewrite <- Hr, Zlen_app in Hml. destruct rest; [done|].
       rewrite Zlen_cons in Hml. pose proof (Zlen_nonneg rest). lia. }
  right. destruct u1 as [|m1 u1]; simpl in Eu.
  { exfalso. subst u2. apply Forall2_cons_inv_l in Hq as (b & bs & Hb & _ & Hbs).
    rewrite Hbs, Hr, Zlen_app in Hsp. unfold head_rpos, wire in Hsp. simpl in Hsp.
    destruct Hb as [Hbuf [[Hl _] Hlive] _ _]. rewrite Hbuf in Hl.
    pose proof (Zlen_nonneg r'). pose proof (Zlen_nonneg (net_bytes net)). zlen. }
  injection Eu as -> <-.
  destruct (imsg_get_frame rx (g_hdr m) (g_data m) r' crx) as (c' & _ & Ha & Hget);
    [apply Hm|exact Hr|].
  exists m, u1, c'. split_and!; [done..|].
  destruct Hget as [Hget|[Hget Hn]]; [right|by left].
  assert (∃ fds', i_fds rx = fd1 m ++ fds' ∧ take_fd (g_hdr m) (i_fds rx) = (g_fd m, fds'))
    as (fds' & Hfds & Htake).
  { apply (take_fd_first m (u1 ++ u2) _ _ Hm Hfd). specialize (Ht [] net eq_refl).
    simpl in Ht. unfold net_bytes, net_fds, IMSG_HEADER_SIZE in *. simpl in Ht.
    rewrite Hr, !Zlen_app, !Zlen_nil in Ht. pose proof (Zlen_nonneg r').
    rewrite (proj2 (Z.leb_gt _ 0)) in Ht by lia. 
    match type of Ht with context [need ?u ?n] => pose proof (need_nonneg u n) end.
    change (Zlen (@nil Z)) with 0 in Ht. lia. }
  rewrite Htake in Hget. eexists. split; [exact Hget|].
  split; simpl; try done.
  - by rewrite Hs, <- app_assoc.
  - rewrite wire_cons, Hr, !Zlen_app in Hsp. lia.
  - rewrite Hr, wire_cons, <- app_assoc in Hby. by apply app_inv_head in Hby.
  - rewrite Hfds, msg_fds_cons, <- app_assoc in Hfd. by apply app_inv_head in Hfd.
  - intros n1 n2 Hn. specialize (Ht n1 n2 Hn). simpl in Ht |- *.
    rewrite Hr, Hfds, !Zlen_app in Ht. unfold IMSG_HEADER_SIZE in Hml.
    pose proof (Zlen_nonneg r'). pose proof (Zlen_nonneg (net_bytes n1)).
    rewrite (proj2 (Z.leb_gt _ 0)) in Ht by lia.
    replace (Zlen (wire1 m) + Zlen r' + Zlen (net_bytes n1) - Zlen (wire1 m))
      with (Zlen r' + Zlen (net_bytes n1)) in Ht by lia. lia.
Qed.

Lemma chan_step_inv s s' : chan_step s s' → chan_inv s → chan_inv s'.
Proof.
  intros Hstep (u1 & u2 & Hinv). destruct Hstep.
  - destruct (imsg_compose_spec tx type peerid pid fd data datalen c)
      as (z & ib' & c1 & E & _ & [(-> & _)|(_ & Hfit & _ & b & -> & Hl & Hr & Hb & Hi)]);
      [done..|congruence|].
    rewrite E in H1. simplify_eq. exists u1, (u2 ++ [mk_msg (compose_hdr tx type peerid pid (b_fd b) datalen) (Ztake datalen data) (b_fd b)]).
    eapply inv_compose; try done. by apply compose_msg_ok.
  - destruct (imsg_compose_spec tx type peerid pid fd data datalen c)
      as (z & ib' & c1 & E & _ & [(-> & -> & _)|(-> & _)]); [done..| |congruence].
    rewrite E in H1. simplify_eq. exists u1, u2. by destruct Hinv.
  - by eapply inv_send.
  - exists u1, u2. by eapply inv_merge.
  - apply imsg_read_segment in H1 as [_ ->]; [|done].
    exists u1, u2. by eapply inv_recv.
  - destruct (inv_get _ _ _ _ _ _ _ _ _ Hinv)
      as [[E _]|(m1 & u & c1 & -> & _ & [[E _]|(rx1 & E & Hinv')])]; [congruence..|].
    rewrite E in H. simplify_eq. exists u, u2. by destruct m1.
Qed.

Lemma reachable_inv s : reachable s → chan_inv s.
Proof.
  intros (fd1 & pid1 & fd2 & pid2 & c1 & c2 & Hs).
  pose proof (chan_inv_init fd1 pid1 fd2 pid2 c1 c2) as Hinv.
  induction Hs; eauto using chan_step_inv.
Qed.

(** ** Progress *)

(** Bytes weighted by how far they still have to go. *)
Definition backlog (s : chan) : Z :=
  3 * Zlen (stream (i_w (ch_tx s))) + 2 * Zlen (net_bytes (ch_net s)) + Zlen (i_r (ch_rx s)).

Lemma backlog_nonneg s : 0 ≤ backlog s.
Proof.
  unfold backlog. pose proof (Zlen_nonneg (stream (i_w (ch_tx s)))).
  pose proof (Zlen_nonneg (net_bytes (ch_net s))). pose proof (Zlen_nonneg (i_r (ch_rx s))). lia.
Qed.

Lemma imsg_read_alloc data cmsgs rx c :
  alloc_never_fails c →
  ∃ rx' c', imsg_read (RecvOk data cmsgs) rx c = (Ok (Zlen data, rx'), c')
    ∧ i_r rx' = i_r rx ++ data ∧ alloc_never_fails c'.
Proof.
  intros Hc. assert (∀ fds c, alloc_never_fails c → ∃ fds' c',
    imsg_read_cmsgs cmsgs fds c = (Ok (true, fds'), c') ∧ alloc_never_fails c') as Hloop.
  { clear. induction cmsgs as [|cm cmsgs IH]; intros fds c Hc; simpl; [by eexists _, _|].
    destruct ((_ =? _) && (_ =? _)); [|by apply IH].
    destruct (alloc_ok_spec c) as (b & c1 & E & _ & [-> Hc1]); [done|].
    rewrite (bind_ok _ _ _ _ _ E). simpl. by apply IH. }
  destruct (Hloop (i_fds rx) c Hc) as (fds' & c' & E & Hc').
  simpl. rewrite (bind_ok _ _ _ _ _ E). by eexists _, _.
Qed.

(** With everything sent and received and no frame to return, nothing is
    missing. *)
Lemma inv_idle tx c rx crx sent got u1 u2 rx' crx' :
  chan_inv_at (mk_chan tx c [] rx crx sent got) u1 u2 → m_bufs (i_w tx) = [] →
  imsg_get rx crx = (Ok (0, rx', None), crx') → u1 ++ u2 = [].
Proof.
  intros Hinv Hbs Hget. pose proof Hinv as [Hs Hok _ _ _ _ Hby _ _ _]. simpl in *.
  destruct (inv_get _ _ _ _ _ _ _ _ _ Hinv)
    as [[E Hlt]|(m1 & u & c1 & -> & _ & [[E _]|(rx1 & E & _)])]; [|congruence..].
  destruct (u1 ++ u2) as [|m u] eqn:Eu; [done|]. exfalso.
  apply Forall_cons in Hok as [Hm Hok].
  assert (i_r rx = wire1 m ++ wire u) as Hr.
  { rewrite <- wire_cons, Hby. unfold stream. rewrite Hbs. simpl. by rewrite app_nil_r. }
  destruct (imsg_get_frame rx (g_hdr m) (g_data m) (wire u) crx (proj1 Hm) Hr)
    as (c1 & _ & _ & [E'|[E' _]]); [|congruence].
  rewrite E in E'. destruct Hm as [[Hm _] _]. injection E' as E' _ _.
  destruct Hm as (_ & Hm & _). rewrite <- E' in Hm. by destruct Hm.
Qed.

(** A byte can be sent while the queue is not empty. *)
Lemma progress_send tx c rx crx sent got u1 u2 :
  chan_inv_at (mk_chan tx c [] rx crx sent got) u1 u2 → m_bufs (i_w tx) ≠ [] →
  ∃ tx' c' net, chan_step (mk_chan tx c [] rx crx sent got) (mk_chan tx' c' net rx crx sent got)
    ∧ backlog (mk_chan tx' c' net rx crx sent got) < backlog (mk_chan tx c [] rx crx sent got).
Proof.
  intros [_ _ Hwf _ _ _ _ _ _ _] Hne. simpl in *.
  pose proof (sendmsg_iov_offers _ Hwf Hne) as Hoff.
  assert (sendmsg_answer (i_w tx) (SysOk 1)) as Hr by (simpl; lia).
  destruct (msgbuf_write_spec (i_w tx) (SysOk 1) c Hwf Hr)
    as (w' & c' & E & _ & _ & _ & _ & Hst).
  pose proof (sendmsg_answer_bound _ _ Hr) as Hb. simpl in Hb, Hst.
  eexists _, _, _. split; [by eapply step_send|].
  unfold backlog, net_bytes. simpl. rewrite Hst, app_nil_r, Zlen_Zdrop, Zlen_Ztake by lia. zlen.
Qed.

(** A record in flight can be received: the buffer has room for more than a
    frame once no complete frame is left in it. *)
Lemma progress_recv tx c sg net rx crx sent got :
  sg_bytes sg ≠ [] → Zlen (i_r rx) < MAX_IMSGSIZE → alloc_never_fails crx →
  ∃ net' rx' crx', alloc_never_fails crx' ∧
    chan_step (mk_chan tx c (sg :: net) rx crx sent got) (mk_chan tx c net' rx' crx' sent got)
    ∧ backlog (mk_chan tx c net' rx' crx' sent got)
      < backlog (mk_chan tx c (sg :: net) rx crx sent got).
Proof.
  intros Hne Hlt Hc. unfold MAX_IMSGSIZE in Hlt.
  assert (0 < Zlen (sg_bytes sg)) as Hpos.
  { destruct (sg_bytes sg) as [|x l]; [done|]. rewrite Zlen_cons. pose proof (Zlen_nonneg l). lia. }
  destruct (imsg_read_alloc (Ztake 1 (sg_bytes sg)) (seg_cmsgs sg) rx crx Hc)
    as (rx' & crx' & E & Hr & Hc').
  assert (Zlen (Ztake 1 (sg_bytes sg)) = 1) as Hk by (rewrite Zlen_Ztake; lia).
  rewrite Hk in E. eexists _, _, _. split; [exact Hc'|]. split.
  { eapply (step_recv _ _ _ _ _ _ _ _ _ _ 1); [lia|unfold IBUF_READ_SIZE; lia|exact E|lia]. }
  unfold backlog. simpl. rewrite Hr, net_bytes_app, net_bytes_cons, !Zlen_app, Hk.
  assert (Zlen (net_bytes (seg_rest 1 sg)) = Zlen (sg_bytes sg) - 1); [|lia].
  unfold seg_rest, net_bytes. destruct (Z.leb_spec (Zlen (sg_bytes sg)) 1); simpl; [zlen|].
  rewrite app_nil_r, Zlen_Zdrop; lia.
Qed.

(** While a message is outstanding some step brings it nearer. *)
Lemma chan_progress s :
  chan_inv s → alloc_never_fails (ch_rxenv s) → ch_got s ≠ ch_sent s →
  ∃ s', chan_step s s' ∧ backlog s' < backlog s ∧ ch_sent s' = ch_sent s
    ∧ alloc_never_fails (ch_rxenv s').
Proof.
  destruct s as [tx c net rx crx sent got]. simpl. intros (u1 & u2 & Hinv) Hc Hne.
  destruct (inv_get _ _ _ _ _ _ _ _ _ Hinv)
    as [[E Hlt]|(m & u & c1 & -> & Ha & [[_ Hn]|(rx1 & E & Hinv')])]; [|done|].
  2: { eexists. split_and!; [by eapply step_get| |done|by apply Ha].
       destruct Hinv as [_ Hok _ _ _ Hsp _ _ _ _], Hinv' as [_ _ _ _ _ Hsp' _ _ _ _].
       apply Forall_cons in Hok as [Hm _]. apply msg_ok_len in Hm.
       unfold backlog, IMSG_HEADER_SIZE in *. simpl in *. rewrite wire_cons, Zlen_app in Hsp. lia. }
  destruct net as [|sg net].
  - destruct (decide (m_bufs (i_w tx) = [])) as [Ebs|Ebs].
    + exfalso. apply Hne. pose proof (inv_idle _ _ _ _ _ _ _ _ _ _ Hinv Ebs E) as Hnil.
      pose proof (inv_sent _ _ _ Hinv) as Hs. simpl in Hs. by rewrite Hs, Hnil, app_nil_r.
    + destruct (progress_send _ _ _ _ _ _ _ _ Hinv Ebs) as (tx' & c' & net & Hst & Hb). eauto.
  - pose proof (inv_net _ _ _ Hinv) as [Hsg _]%Forall_cons.
    destruct (progress_recv tx c sg net rx crx sent got)
      as (net' & rx' & crx' & Hc' & Hst & Hb); [done..|]. eauto.
Qed.

Lemma chan_delivers s :
  chan_inv s → alloc_never_fails (ch_rxenv s) →
  ∃ s', rtc chan_step s s' ∧ ch_sent s' = ch_sent s ∧ ch_got s' = ch_sent s.
Proof.
  remember (Z.to_nat (backlog s)) as n eqn:Hn. revert s Hn.
  induction n as [n IH] using lt_wf_ind. intros s -> Hinv Hc.
  destruct (decide (Zlen (ch_got s) = Zlen (ch_sent s))) as [Hl|Hl].
  - exists s. split_and!; [done..|]. destruct Hinv as (u1 & u2 & [Hs _ _ _ _ _ _ _ _ _]).
    rewrite Hs in Hl |- *. rewrite Zlen_app in Hl. destruct (u1 ++ u2) as [|x l]; [by rewrite app_nil_r|].
    rewrite Zlen_cons in Hl. pose proof (Zlen_nonneg l). lia.
  - destruct (chan_progress s Hinv Hc) as (s1 & Hst & Hb & Hs1 & Hc1); [congruence|].
    pose proof (backlog_nonneg s). pose proof (backlog_nonneg s1).
    destruct (IH (Z.to_nat (backlog s1))) with (s := s1) as (s' & Hst' & Hs' & Hg');
      [lia|done|by eapply chan_step_inv|done|].
    exists s'. split_and!; [by eapply rtc_l|congruence..].
Qed.

(** ** The theorems *)

(** C1. In every reachable state of the channel the messages [imsg_get] has
    returned are a prefix of the messages composed: none is lost,
    duplicated, reordered or altered, and each carries the descriptor it
    was composed with, whatever the socket's splitting of the stream. *)
Theorem imsg_fifo s : reachable s → ch_got s `prefix_of` ch_sent s.
Proof.
  intros (u1 & u2 & [Hs _ _ _ _ _ _ _ _ _])%reachable_inv. rewrite Hs. by eexists.
Qed.

(** The receiver never loses the framing: when the allocator does not
    fail, [imsg_get] never reports an error, and a message it returns is the
    next one composed. *)
Theorem imsg_get_in_sync s :
  reachable s → alloc_never_fails (ch_rxenv s) →
  ∃ n rx' om c', imsg_get (ch_rx s) (ch_rxenv s) = (Ok (n, rx', om), c') ∧ 0 ≤ n
    ∧ (∀ m, om = Some m → ch_sent s !! length (ch_got s) = Some (msg_of m)).
Proof.
  intros (u1 & u2 & Hinv)%reachable_inv Hc. destruct s as [tx c net rx crx sent got]. simpl in *.
  destruct (inv_get _ _ _ _ _ _ _ _ _ Hinv)
    as [[E Hlt]|(m & u & c1 & -> & Ha & [[_ Hn]|(rx1 & E & Hinv')])]; [|done|].
  - by eexists _, _, _, _.
  - eexists _, _, _, _. split; [exact E|].
    pose proof (inv_ok _ _ _ Hinv) as [[[(_ & Hl & _) _] _] _]%Forall_cons.
    split; [by etransitivity; [|apply Hl]|]. intros ? [= <-].
    pose proof (inv_sent _ _ _ Hinv) as Hs. simpl in Hs.
    rewrite Hs, lookup_app_r, Nat.sub_diag by done. by destruct m.
Qed.

(** Nothing is stranded: once the send queue and the socket are empty and
    [imsg_get] has nothing to return, every message has been returned. *)
Theorem imsg_complete s rx' c' :
  reachable s → m_bufs (i_w (ch_tx s)) = [] → ch_net s = [] →
  imsg_get (ch_rx s) (ch_rxenv s) = (Ok (0, rx', None), c') → ch_got s = ch_sent s.
Proof.
  intros (u1 & u2 & Hinv)%reachable_inv Hbs Hnet Hget.
  destruct s as [tx c net rx crx sent got]. simpl in *. subst net.
  pose proof (inv_idle _ _ _ _ _ _ _ _ _ _ Hinv Hbs Hget) as Hnil.
  pose proof (inv_sent _ _ _ Hinv) as Hs. simpl in Hs. by rewrite Hs, Hnil, app_nil_r.
Qed.

(** C15. Delivery is always possible: from every reachable state some sequence
    of sends, receives and gets returns every message composed so far. *)
Theorem imsg_delivery s :
  reachable s → alloc_never_fails (ch_rxenv s) →
  ∃ s', rtc chan_step s s' ∧ ch_sent s' = ch_sent s ∧ ch_got s' = ch_sent s.
Proof. intros Hs Hc. apply chan_delivers; [by apply reachable_inv|done]. Qed.

(** ** A concrete run

    Two messages, the first with descriptor 7; the first is sent in two
    parts, the second together with the end of the first. *)

Definition demo_m1 : msg := mk_msg (mk_hdr 3 18 1 0 9) [byte.of_Z 42; byte.of_Z 43] 7.
Definition demo_m2 : msg := mk_msg (mk_hdr 4 16 0 1 100) [] (-1).

Definition demo : chan :=
  mk_chan (mk_imsgbuf [] [] (mk_msgbuf [] 0 5) 5 100) (mk_cenv [] 0 [7])
    [mk_seg None (wire1 demo_m2)] (mk_imsgbuf [] [] (mk_msgbuf [] 0 6) 6 200) (mk_cenv [] 0 [])
    [demo_m1; demo_m2] [demo_m1].

Definition demo_end : chan :=
  mk_chan (ch_tx demo) (ch_txenv demo) [] (ch_rx demo) (ch_rxenv demo)
    [demo_m1; demo_m2] [demo_m1; demo_m2].

Lemma demo_reachable : reachable demo.
Proof.
  exists 5, 100, 6, 200, (mk_cenv [] 0 []), (mk_cenv [] 0 []).
  eapply rtc_l; [eapply (step_compose _ _ _ _ _ _ _ _ _ 3 0 9 7 [byte.of_Z 42; byte.of_Z 43] 2); [done..|];
    vm_compute; reflexivity|].
  eapply rtc_l; [eapply (step_compose _ _ _ _ _ _ _ _ _ 4 1 0 (-1) [] 0); [done..|];
    vm_compute; reflexivity|].
  eapply rtc_l; [eapply (step_send _ _ _ _ _ _ _ _ _ (SysOk 10)); [by vm_compute|];
    vm_compute; reflexivity|].
  eapply rtc_l; [eapply (step_send _ _ _ _ _ _ _ _ _ (SysOk 24)); [by vm_compute|];
    vm_compute; reflexivity|].
  eapply rtc_l; [eapply (step_recv _ _ _ _ _ _ _ _ _ _ 10);
    [by vm_compute|by vm_compute|vm_compute; reflexivity|done]|].
  eapply rtc_l; [eapply (step_recv _ _ _ _ _ _ _ _ _ _ 8);
    [by vm_compute|by vm_compute|vm_compute; reflexivity|done]|].
  eapply rtc_l; [eapply step_get; vm_compute; reflexivity|].
  apply reflexive_eq. vm_compute. reflexivity.
Qed.

Lemma demo_end_reachable : reachable demo_end.
Proof.
  destruct demo_reachable as (fd1 & pid1 & fd2 & pid2 & c1 & c2 & Hs).
  exists fd1, pid1, fd2, pid2, c1, c2. etransitivity; [exact Hs|].
  eapply rtc_l; [eapply (step_recv _ _ _ _ _ _ _ _ _ _ 16);
    [by vm_compute|by vm_compute|vm_compute; reflexivity|done]|].
  eapply rtc_l; [eapply step_get; vm_compute; reflexivity|].
  apply reflexive_eq. vm_compute. reflexivity.
Qed.

Lemma imsg_fifo_witness : ch_got demo `prefix_of` ch_sent demo.
Proof. apply (imsg_fifo demo). exact demo_reachable. Defined.

Lemma imsg_get_in_sync_witness :
  ∃ n rx' om c', imsg_get (ch_rx demo) (ch_rxenv demo) = (Ok (n, rx', om), c') ∧ 0 ≤ n
    ∧ (∀ m, om = Some m → ch_sent demo !! length (ch_got demo) = Some (msg_of m)).
Proof. apply (imsg_get_in_sync demo); [exact demo_reachable|constructor]. Defined.

Lemma imsg_complete_witness : ch_got demo_end = ch_sent demo_end.
Proof.
  apply (imsg_complete demo_end (ch_rx demo_end) (ch_rxenv demo_end));
    [exact demo_end_reachable|vm_compute; reflexivity..].
Defined.

Lemma imsg_delivery_witness :
  ∃ s', rtc chan_step demo s' ∧ ch_sent s' = ch_sent demo ∧ ch_got s' = ch_sent demo.
Proof. apply (imsg_delivery demo); [exact demo_reachable|constructor]. Defined.
