(* ===== verification/Engine.v ===== *)
(** * Engine: the unprivileged process that serves the control socket

    Models src/ifconfigd/control.c and src/ifconfigd/ifconfigde.c, and
    imsg_event_add() and imsg_compose_event() of src/ifconfigd/ifconfigd.c,
    which all processes share.

    The process reacts to events: a connection to accept, a control
    connection or the pipe to the parent becoming readable or writable.
    What the kernel answers to the calls a handler makes are arguments of the
    handler.  libevent is modelled by the fields [ie_events] and [ie_added] of
    an [imsgev]: the events asked for, and whether they are registered; an
    event without EV_PERSIST is removed before its handler is called
    (src/usr/src/lib/libevent/event.c, event_process_active). *)
From coqutil Require Import Byte.
From stdpp Require Import base list strings relations.
From S2P Require Import Prelude ImsgBuffer Imsg.

Definition EV_READ : Z := 2.
Definition EV_WRITE : Z := 4.
Definition O_NONBLOCK : Z := 4.
Definition MAX_NETWORK_NAME_SIZE : Z := 64.

(** enum imsg_type *)
Definition IMSG_NONE : Z := 0.
Definition IMSG_USE_ETHERNET : Z := 1.
Definition IMSG_USE_NETWORKS : Z := 2.
Definition IMSG_USE_WIRELESS : Z := 3.
Definition IMSG_SHOW_ETHERNET : Z := 4.
Definition IMSG_SHOW_NETWORKS : Z := 5.
Definition IMSG_SHOW_WIRELESS : Z := 6.
Definition IMSG_IFCONFIGD_MONITOR : Z := 7.

(** ** Buffers with an event *)

Record imsgev := mk_iev {
  ie_ibuf : imsgbuf;
  ie_events : Z;
  ie_added : bool;
}.

Definition set_ibuf (iev : imsgev) (ib : imsgbuf) : imsgev :=
  mk_iev ib (ie_events iev) (ie_added iev).

Definition event_del (iev : imsgev) : imsgev := mk_iev (ie_ibuf iev) (ie_events iev) false.

Definition imsg_event_add (iev : imsgev) : imsgev :=
  let events := if negb (m_queued (i_w (ie_ibuf iev)) =? 0) then Z.lor EV_READ EV_WRITE else EV_READ in
  mk_iev (ie_ibuf iev) events true.

(** type and datalen are parameters of type u_int16_t, peerid of type
    u_int32_t. *)
Definition imsg_compose_event (iev : imsgev) (type peerid pid fd : Z) (data : list byte)
    (datalen : Z) : CM cenv (Z * imsgev) :=
  '(ret, ib) ← imsg_compose (ie_ibuf iev) (u16 type) (u32 peerid) pid fd data (u16 datalen);
  let iev := set_ibuf iev ib in
  mret (ret, if negb (ret =? -1) then imsg_event_add iev else iev).

(** ** The state of the process *)

Record engine := mk_engine {
  e_fd : Z;
  e_pid : Z;
  e_conns : list imsgev;
  e_parent : imsgev;
  e_exit : bool;
  e_env : cenv;
}.

Definition set_conns l (e : engine) := mk_engine (e_fd e) (e_pid e) l (e_parent e) (e_exit e) (e_env e).
Definition set_parent p (e : engine) := mk_engine (e_fd e) (e_pid e) (e_conns e) p (e_exit e) (e_env e).
Definition set_exit b (e : engine) := mk_engine (e_fd e) (e_pid e) (e_conns e) (e_parent e) b (e_env e).
Definition set_eenv c (e : engine) := mk_engine (e_fd e) (e_pid e) (e_conns e) (e_parent e) (e_exit e) c.

Definition EM := CM engine.

Definition env {A} (m : CM cenv A) : EM A := zoom e_env set_eenv m.
Definition fatal {A} : EM A := stopM (SExit 1).

(** ** control.c *)

(** [getfl] and [setfl] are the answers to the two fcntl(2) calls, [None] for
    -1; the result is the flags that were set. *)
Inductive blockmodes := BM_NORMAL | BM_NONBLOCK.

Definition session_socket_blockmode (getfl : option Z) (setfl : bool) (bm : blockmodes) : EM Z :=
  match getfl with
  | None => fatal
  | Some flags =>
      let flags := match bm with
                   | BM_NONBLOCK => Z.lor flags O_NONBLOCK
                   | BM_NORMAL => Z.ldiff flags O_NONBLOCK
                   end in
      if setfl then mret flags else fatal
  end.

(** The answers to the calls of control_init(): the descriptor of socket(2),
    the errno of unlink(2) (0 for success), the success of bind(2) and of
    chmod(2), and those of fcntl(2). *)
Record init_answers := mk_init {
  in_socket : option Z;
  in_unlink : Z;
  in_bind : bool;
  in_chmod : bool;
  in_getfl : option Z;
  in_setfl : bool;
}.

(** The result is the return value and, for 0, the new control_state.fd. *)
Definition control_init (a : init_answers) : EM (Z * Z) :=
  match in_socket a with
  | None => mret (-1, -1)
  | Some fd =>
      if negb (in_unlink a =? 0) && negb (in_unlink a =? ENOENT) then
        env (close fd);; mret (-1, -1)
      else if negb (in_bind a) then env (close fd);; mret (-1, -1)
      else if negb (in_chmod a) then env (close fd);; mret (-1, -1)
      else
        session_socket_blockmode (in_getfl a) (in_setfl a) BM_NONBLOCK;;
        mret (0, fd)
  end.

(** The answers to accept(2), [None] for -1, and to fcntl(2). *)
Record accept_answers := mk_accept {
  ac_fd : option Z;
  ac_getfl : option Z;
  ac_setfl : bool;
}.

Definition control_accept (a : accept_answers) : EM unit :=
  match ac_fd a with
  | None => mret tt
  | Some connfd =>
      session_socket_blockmode (ac_getfl a) (ac_setfl a) BM_NONBLOCK;;
      ok ← env alloc_ok;
      if negb ok then env (close connfd)
      else
        pid ← gets e_pid;
        modify (λ e, set_conns (e_conns e ++ [mk_iev (imsg_init connfd pid) EV_READ true]) e)
  end.

(** The position of a connection in the list ctl_conns. *)
Fixpoint conn_index (P : imsgev → bool) (l : list imsgev) : option nat :=
  match l with
  | [] => None
  | c :: l => if P c then Some O else S <$> conn_index P l
  end.

Definition control_connbyfd (l : list imsgev) (fd : Z) : option nat :=
  conn_index (λ c, i_fd (ie_ibuf c) =? fd) l.
Definition control_connbypid (l : list imsgev) (pid : Z) : option nat :=
  conn_index (λ c, i_pid (ie_ibuf c) =? pid) l.

Definition control_close (fd : Z) : EM unit :=
  l ← gets e_conns;
  match control_connbyfd l fd with
  | None => mret tt
  | Some i =>
      match l !! i with
      | None => stopM SUndef
      | Some c =>
          _ ← env (msgbuf_clear (i_w (ie_ibuf c)));
          modify (set_conns (delete i l));;
          env (close (i_fd (ie_ibuf c)))
      end
  end.

(** A pointer c to the connection at position [i]. *)
Definition conn (i : nat) : EM imsgev :=
  l ← gets e_conns; match l !! i with Some c => mret c | None => stopM SUndef end.
Definition put_conn (i : nat) (c : imsgev) : EM unit :=
  modify (λ e, set_conns (<[i := c]> (e_conns e)) e).

Definition ifconfigde_imsg_compose_parent (type pid : Z) (data : list byte) (datalen : Z) : EM Z :=
  p ← gets e_parent;
  '(r, p) ← env (imsg_compose_event p type 0 pid (-1) data (u16 datalen));
  modify (set_parent p);; mret r.

(** The switch of control_dispatch_imsg(); sizeof(imsg.data) is the size of a
    pointer. *)
Definition control_switch (m : imsg) : EM unit :=
  let type := h_type (im_hdr m) in
  if type =? IMSG_USE_ETHERNET then
    if negb (h_len (im_hdr m) =? IMSG_HEADER_SIZE + MAX_NETWORK_NAME_SIZE) then mret tt
    else _ ← ifconfigde_imsg_compose_parent type 0 (im_data m) PTR_SIZE; mret tt
  else if (type =? IMSG_USE_NETWORKS) || (type =? IMSG_USE_WIRELESS)
          || (type =? IMSG_IFCONFIGD_MONITOR) || (type =? IMSG_SHOW_WIRELESS) then
    _ ← ifconfigde_imsg_compose_parent type 0 [] 0; mret tt
  else mret tt.

(** The loop; [false] when it has closed the connection.  Every message it
    takes has at least IMSG_HEADER_SIZE bytes, so that the number of bytes
    received is fuel enough. *)
Fixpoint control_loop (fuel : nat) (i : nat) (fd : Z) : EM bool :=
  match fuel with
  | O => stopM SFuel
  | S fuel =>
      c ← conn i;
      '(n, ib, m) ← env (imsg_get (ie_ibuf c));
      put_conn i (set_ibuf c ib);;
      if n =? -1 then control_close fd;; mret false
      else if n =? 0 then mret true
      else match m with
      | None => stopM SUndef
      | Some m => control_switch m;; control_loop fuel i fd
      end
  end.

(** The reading and the writing of control_dispatch_imsg(); [false] when the
    connection was closed. *)
Definition control_read (fd : Z) (rcv : recvret) (i : nat) : EM bool :=
  c ← conn i;
  '(n, ib) ← env (imsg_read rcv (ie_ibuf c));
  put_conn i (set_ibuf c ib);;
  if (n =? -1) || (n =? 0) then control_close fd;; mret false else mret true.

Definition control_write (fd : Z) (snd : sysret) (i : nat) : EM bool :=
  c ← conn i;
  '(z, w) ← env (msgbuf_write snd (i_w (ie_ibuf c)));
  put_conn i (set_ibuf c (set_w (ie_ibuf c) w));;
  if z =? -1 then control_close fd;; mret false else mret true.

Definition control_io (fd event : Z) (rcv : recvret) (snd : sysret) (i : nat) : EM bool :=
  open ← (if has_bits event EV_READ then control_read fd rcv i else mret true);
  if negb open then mret false
  else if has_bits event EV_WRITE then control_write fd snd i
  else mret true.

Definition control_dispatch_imsg (fd event : Z) (rcv : recvret) (snd : sysret) : EM unit :=
  l ← gets e_conns;
  match control_connbyfd l fd with
  | None => mret tt
  | Some i =>
      open ← control_io fd event rcv snd i;
      if negb open then mret tt
      else
        c ← conn i;
        open ← control_loop (S (length (i_r (ie_ibuf c)))) i fd;
        if negb open then mret tt
        else c ← conn i; put_conn i (imsg_event_add c)
  end.

Definition control_imsg_relay (m : imsg) : EM Z :=
  l ← gets e_conns;
  match control_connbypid l (h_pid (im_hdr m)) with
  | None => mret 0
  | Some i =>
      c ← conn i;
      '(r, c) ← env (imsg_compose_event c (h_type (im_hdr m)) 0 (h_pid (im_hdr m)) (-1) (im_data m)
                       (u16 (h_len (im_hdr m) - IMSG_HEADER_SIZE)));
      put_conn i c;; mret r
  end.

(** ** ifconfigde.c *)

(** The loop of ifconfigd_dispatch_parent(): every message is dropped. *)
Fixpoint parent_loop (fuel : nat) : EM unit :=
  match fuel with
  | O => stopM SFuel
  | S fuel =>
      p ← gets e_parent;
      '(n, ib, _) ← env (imsg_get (ie_ibuf p));
      modify (set_parent (set_ibuf p ib));;
      if n =? -1 then fatal else if n =? 0 then mret tt else parent_loop fuel
  end.

Definition ifconfigd_dispatch_parent (event : Z) (rcv : recvret) (snd : sysret) : EM unit :=
  p ← gets e_parent;
  if event =? EV_READ then
    '(n, ib) ← env (imsg_read rcv (ie_ibuf p));
    modify (set_parent (set_ibuf p ib));;
    if n =? -1 then fatal
    else if n =? 0 then
      modify (λ e, set_parent (event_del (e_parent e)) e);; modify (set_exit true)
    else
      parent_loop (S (length (i_r ib)));;
      modify (λ e, set_parent (imsg_event_add (e_parent e)) e)
  else if event =? EV_WRITE then
    '(z, w) ← env (msgbuf_write snd (i_w (ie_ibuf p)));
    modify (set_parent (set_ibuf p (set_w (ie_ibuf p) w)));;
    if z =? -1 then fatal
    else modify (λ e, set_parent (imsg_event_add (e_parent e)) e)
  else fatal.

(** The state in which ifconfigde() enters event_dispatch(): [fd] is the
    control socket, [pfd] the end of the pipe it keeps and [cfd] the one it
    closes. *)
Definition engine_init (fd pfd cfd pid : Z) (c : cenv) : engine :=
  mk_engine fd pid [] (mk_iev (imsg_init pfd pid) EV_READ true) false
    (mk_cenv (ce_alloc c) (ce_errno c) (ce_closed c ++ [cfd])).

(** ** Steps of the process *)

(** The kernel fills at most the rest of the buffer of imsg_read(). *)
Definition recv_answer (ib : imsgbuf) (r : recvret) : Prop :=
  match r with
  | RecvErr e => e ≠ 0
  | RecvOk data _ => Zlen (i_r ib) + Zlen data ≤ IBUF_READ_SIZE
  end.

(** The descriptors of the process. *)
Definition open_fds (e : engine) : list Z :=
  e_fd e :: i_fd (ie_ibuf (e_parent e)) :: map (i_fd ∘ ie_ibuf) (e_conns e).

(** What a client can bring about: a connection to accept, and events of one. *)
Inductive client_step (e : engine) : outcome unit * engine → Prop :=
| CS_accept a :
    (∀ fd, ac_fd a = Some fd → fd ∉ open_fds e) →
    client_step e (control_accept a e)
| CS_conn i c event rcv snd :
    e_conns e !! i = Some c → ie_added c = true →
    event ≠ 0 → Z.land event (ie_events c) = event →
    recv_answer (ie_ibuf c) rcv → sendmsg_answer (i_w (ie_ibuf c)) snd →
    client_step e (control_dispatch_imsg (i_fd (ie_ibuf c)) event rcv snd
                     (set_conns (<[i := event_del c]> (e_conns e)) e)).

Inductive engine_step (e : engine) : outcome unit * engine → Prop :=
| ES_client r : e_exit e = false → client_step e r → engine_step e r
| ES_parent event rcv snd :
    e_exit e = false → ie_added (e_parent e) = true →
    event ≠ 0 → Z.land event (ie_events (e_parent e)) = event →
    recv_answer (ie_ibuf (e_parent e)) rcv → sendmsg_answer (i_w (ie_ibuf (e_parent e))) snd →
    engine_step e (ifconfigd_dispatch_parent event rcv snd
                     (set_parent (event_del (e_parent e)) e)).
