(* ===== verification/EngineProps.v ===== *)
(** * EngineProps: what the engine does with the bytes of its clients

    The invariant of the process of Engine.v, and the behaviour of its
    handlers on every input.  A client may send any bytes at all; the
    messages they hold are described by [frames]. *)
From coqutil Require Import Byte.
From stdpp Require Import base list strings relations.
From S2P Require Import Prelude ImsgBuffer Imsg Channel Engine.

(** ** Vocabulary *)

Definition frames (ms : list imsg) : list byte :=
  concat (map (λ m, frame (im_hdr m) (im_data m)) ms).

(** What the engine makes of a message of a client: the type and the data of
    the message for the parent. *)
Definition forward (m : imsg) : option (Z * list byte) :=
  let type := h_type (im_hdr m) in
  if type =? IMSG_USE_ETHERNET then
    if h_len (im_hdr m) =? IMSG_HEADER_SIZE + MAX_NETWORK_NAME_SIZE
    then Some (type, Ztake PTR_SIZE (im_data m)) else None
  else if decide (type ∈ [IMSG_USE_NETWORKS; IMSG_USE_WIRELESS; IMSG_IFCONFIGD_MONITOR;
                          IMSG_SHOW_WIRELESS])
  then Some (type, []) else None.

(** The message for the parent, from the process [pid]. *)
Definition to_parent (pid : Z) (td : Z * list byte) : msg :=
  mk_msg (mk_hdr td.1 (IMSG_HEADER_SIZE + Zlen td.2) 0 0 (u32 pid)) td.2 (-1).

Definition forwards (pid : Z) (ms : list imsg) : list msg :=
  map (to_parent pid) (omap forward ms).

(** [queues ib ms ib']: composing the messages [ms] on [ib] gives [ib']. *)
Inductive queues (ib : imsgbuf) : list msg → imsgbuf → Prop :=
| queues_nil : queues ib [] ib
| queues_snoc ms ib' m b :
    queues ib ms ib' → msg_ok m → ibuf_live b → b_rpos b = 0 → b_fd b = g_fd m →
    iov b = wire1 m →
    queues ib (ms ++ [m]) (set_w ib' (ibuf_enqueue (i_w ib') b)).

(** ** The invariant *)

(** The events a buffer should be waiting for. *)
Definition wanted (iev : imsgev) : Z :=
  if m_queued (i_w (ie_ibuf iev)) =? 0 then EV_READ else Z.lor EV_READ EV_WRITE.

Definition armed (iev : imsgev) : Prop := ie_added iev = true ∧ ie_events iev = wanted iev.

Definition ib_wf (ib : imsgbuf) : Prop :=
  msgbuf_wf (i_w ib) ∧ Zlen (i_r ib) ≤ IBUF_READ_SIZE.

Definition conn_ok (iev : imsgev) : Prop := ib_wf (ie_ibuf iev) ∧ armed iev.

Definition conn_fd (iev : imsgev) : Z := i_fd (ie_ibuf iev).

Record engine_inv (e : engine) : Prop := mk_einv {
  ei_fds : NoDup (open_fds e);
  ei_conns : Forall conn_ok (e_conns e);
  ei_parent : ib_wf (ie_ibuf (e_parent e));
  ei_pid : i_pid (ie_ibuf (e_parent e)) = e_pid e;
  ei_armed : e_exit e = false → armed (e_parent e);
}.

(** ** Lemmas *)

Lemma wp_env {A} (m : CM cenv A) (Q : A → engine → Prop) e :
  wp m (λ a c, Q a (set_eenv c e)) (e_env e) → wp (env m) Q e.
Proof. unfold wp, env, zoom. by destruct (m (e_env e)) as [[a|w] c]. Qed.

Lemma armed_event_add iev : armed (imsg_event_add iev).
Proof.
  unfold armed, wanted, imsg_event_add. simpl. by destruct (m_queued _ =? 0).
Qed.

Lemma queues_app ib ms1 ib1 ms2 ib2 :
  queues ib ms1 ib1 → queues ib1 ms2 ib2 → queues ib (ms1 ++ ms2) ib2.
Proof.
  intros H1. induction 1; [by rewrite app_nil_r|]. rewrite app_assoc. by constructor.
Qed.

(** Composing changes nothing but the queue, which grows by the frames. *)
Lemma queues_spec ib ms ib' :
  queues ib ms ib' → ib_wf ib →
  ib_wf ib' ∧ i_r ib' = i_r ib ∧ i_fds ib' = i_fds ib ∧ i_fd ib' = i_fd ib ∧ i_pid ib' = i_pid ib
  ∧ stream (i_w ib') = stream (i_w ib) ++ wire ms.
Proof.
  induction 1 as [|ms ib' m b Hq IH Hm Hl Hr Hf Hi]; intros Hwf.
  { split_and!; try done. by rewrite app_nil_r. }
  destruct (IH Hwf) as ([Hw Hlen] & Hr' & Hfs & Hfd & Hp & Hs).
  destruct (ibuf_enqueue_spec (i_w ib') b Hw Hl) as [Hw' Hs'].
  split_and!; try done. simpl. rewrite Hs', Hs, Hi, wire_app, <- app_assoc. unfold wire at 3.
  simpl. by rewrite app_nil_r.
Qed.

Lemma conn_index_fd l i c :
  NoDup (map conn_fd l) → l !! i = Some c → control_connbyfd l (conn_fd c) = Some i.
Proof.
  unfold control_connbyfd. revert i. induction l as [|c' l IH]; intros [|i]; simpl; try done.
  { intros _ [= ->]. unfold conn_fd. by rewrite Z.eqb_refl. }
  intros [Hn Hd]%NoDup_cons Hi. rewrite (IH i) by done.
  destruct (Z.eqb_spec (i_fd (ie_ibuf c')) (conn_fd c)) as [E|]; [|done].
  destruct Hn. fold (conn_fd c') in E. rewrite E. apply list_elem_of_fmap. exists c. split; [done|].
  by apply list_elem_of_lookup_2 with i.
Qed.

(** ** What one step may change *)

(** [grew ms e e']: the messages [ms] were queued for the parent; the
    connections and the descriptors closed are not mentioned. *)
Record grew (ms : list msg) (e e' : engine) : Prop := mk_grew {
  gr_fd : e_fd e' = e_fd e;
  gr_pid : e_pid e' = e_pid e;
  gr_exit : e_exit e' = e_exit e;
  gr_queue : queues (ie_ibuf (e_parent e)) ms (ie_ibuf (e_parent e'));
  gr_armed : armed (e_parent e) → armed (e_parent e');
  gr_alloc : alloc_never_fails (e_env e) → alloc_never_fails (e_env e');
}.

Lemma grew_refl e : grew [] e e.
Proof. split; try done. constructor. Qed.

Lemma grew_trans ms1 ms2 e1 e2 e3 :
  grew ms1 e1 e2 → grew ms2 e2 e3 → grew (ms1 ++ ms2) e1 e3.
Proof.
  intros [] []. split; try congruence; eauto using queues_app.
Qed.

Lemma wp_conn i c (Q : imsgev → engine → Prop) e :
  e_conns e !! i = Some c → Q c e → wp (conn i) Q e.
Proof. intros H HQ. unfold conn, wp. run. by rewrite H. Qed.

Lemma wp_put_conn i c (Q : unit → engine → Prop) e :
  Q tt (set_conns (<[i := c]> (e_conns e)) e) → wp (put_conn i c) Q e.
Proof. done. Qed.

(** Closing a connection removes it and nothing else. *)
Lemma control_close_spec i c e :
  NoDup (map conn_fd (e_conns e)) → e_conns e !! i = Some c →
  wp (control_close (conn_fd c))
     (λ _ e', grew [] e e' ∧ e_conns e' = delete i (e_conns e)
              ∧ e_parent e' = e_parent e
              ∧ ce_closed (e_env e') =
                  ce_closed (e_env e) ++ fds (i_w (ie_ibuf c)) ++ [conn_fd c]) e.
Proof.
  intros Hd Hi. unfold control_close. apply wp_bind, wp_gets.
  rewrite (conn_index_fd _ i c), Hi by done.
  destruct (ie_ibuf c) as [ifds r [bs q wfd] fd pid] eqn:Ec.
  destruct (msgbuf_clear_loop_spec bs q wfd (e_env e)) as (q' & c1 & E & _ & Hcl & Ha).
  apply wp_bind, wp_env. eapply wp_intro; [exact E|].
  apply wp_bind, wp_modify. apply wp_env. apply wp_modify. simpl.
  split; [split; simpl; try done|].
  - constructor.
  - unfold alloc_never_fails. simpl. by rewrite Ha.
  - split_and!; try done. unfold conn_fd. rewrite Ec, Hcl. simpl. by rewrite <- app_assoc.
Qed.

(** ** Forwarding *)

(** A message from the process itself is queued, or the allocator failed. *)
Lemma compose_queues ib type data n c :
  0 ≤ type < 2 ^ 16 → 0 ≤ n ≤ Zlen data → IMSG_HEADER_SIZE + n ≤ MAX_IMSGSIZE →
  ∃ z ib' c', imsg_compose ib type 0 0 (-1) data n c = (Ok (z, ib'), c')
    ∧ ce_closed c' = ce_closed c
    ∧ (z = 1 ∧ queues ib [to_parent (i_pid ib) (type, Ztake n data)] ib'
         ∧ (alloc_never_fails c → alloc_never_fails c')
       ∨ z = -1 ∧ ib' = ib ∧ ¬ alloc_never_fails c).
Proof.
  unfold IMSG_HEADER_SIZE, MAX_IMSGSIZE. intros Ht Hn Hfit.
  destruct (imsg_compose_spec ib type 0 0 (-1) data n c) as (z & ib' & c' & E & Hcl & Hz); [lia..|].
  exists z, ib', c'. split_and!; [done..|].
  destruct Hz as [(-> & -> & [Hbig|Hna])|(-> & _ & Ha & b & -> & Hl & Hr & Hf & Hi)].
  { unfold IMSG_HEADER_SIZE, MAX_IMSGSIZE in Hbig. lia. }
  { by right. }
  left. split_and!; [done| |done].
  assert (Zlen (Ztake n data) = n) as Hlen by (rewrite Zlen_Ztake; lia).
  assert (to_parent (i_pid ib) (type, Ztake n data)
          = mk_msg (compose_hdr ib type 0 0 (-1) n) (Ztake n data) (-1)) as ->
    by (unfold to_parent, compose_hdr; cbn [fst snd]; by rewrite Hlen, (u32_small type) by lia).
  apply (queues_snoc _ [] _ _ b); try done; [constructor|by apply compose_msg_ok].
Qed.

(** A message for the parent is queued, or the allocator failed. *)
Lemma compose_parent_spec type data n e :
  0 ≤ type < 2 ^ 16 → 0 ≤ n ≤ Zlen data → IMSG_HEADER_SIZE + n ≤ MAX_IMSGSIZE →
  i_pid (ie_ibuf (e_parent e)) = e_pid e →
  wp (ifconfigde_imsg_compose_parent type 0 data n)
     (λ _ e', e_conns e' = e_conns e ∧ ce_closed (e_env e') = ce_closed (e_env e)
              ∧ (grew [to_parent (e_pid e) (type, Ztake n data)] e e'
                 ∨ grew [] e e' ∧ ¬ alloc_never_fails (e_env e))) e.
Proof.
  intros Ht Hn Hfit Hpid. unfold ifconfigde_imsg_compose_parent.
  apply wp_bind, wp_gets. apply wp_bind, wp_env.
  destruct (compose_queues (ie_ibuf (e_parent e)) type data n (e_env e) Ht Hn Hfit)
    as (z & ib' & c' & E & Hcl & Hz).
  unfold IMSG_HEADER_SIZE, MAX_IMSGSIZE in Hfit.
  unfold imsg_compose_event. rewrite !(u16_small n), (u16_small type) by lia.
  apply wp_bind. eapply wp_intro; [exact E|]. cbv beta iota.
  apply wp_ret. cbv beta iota. apply wp_bind, wp_modify, wp_ret. split_and!; [done..|].
  destruct Hz as [(-> & Hq & Ha)|(-> & -> & Hna)]; [left|right].
  - rewrite Hpid in Hq. split; simpl; try done. intros _. apply armed_event_add.
  - split; [|done]. split; simpl; try done. constructor.
Qed.

(** What the engine has done after it took the messages [ms] of a client. *)
Definition forwarded (ms : list imsg) (e e' : engine) : Prop :=
  ∃ qs, qs `sublist_of` forwards (e_pid e) ms ∧ grew qs e e'
    ∧ (alloc_never_fails (e_env e) → qs = forwards (e_pid e) ms).

Lemma forwarded_none ms e e' : forwards (e_pid e) ms = [] → grew [] e e' → forwarded ms e e'.
Proof. intros H Hg. exists []. by rewrite H. Qed.

Lemma forwarded_app ms1 ms2 e1 e2 e3 :
  forwarded ms1 e1 e2 → forwarded ms2 e2 e3 → forwarded (ms1 ++ ms2) e1 e3.
Proof.
  intros (q1 & Hs1 & Hg1 & Ha1) (q2 & Hs2 & Hg2 & Ha2).
  pose proof Hg1 as [_ Hp _ _ _ Ha]. rewrite Hp in *.
  exists (q1 ++ q2). unfold forwards in *. rewrite omap_app, map_app. split_and!.
  - by apply sublist_app.
  - by eapply grew_trans.
  - intros Hn. f_equal; auto.
Qed.

Lemma forwarded_set_conns ms e e' l : forwarded ms e e' → forwarded ms e (set_conns l e').
Proof. intros (qs & Hs & [] & Ha). exists qs. split_and!; [done|by split|done]. Qed.

Lemma forward_type m td : forward m = Some td → 0 ≤ td.1 < 2 ^ 16.
Proof.
  unfold forward. destruct (Z.eqb_spec (h_type (im_hdr m)) IMSG_USE_ETHERNET) as [E|_].
  { rewrite E. destruct (_ =? _); [|done]. by intros [= <-]. }
  destruct (decide _) as [Hin|]; [|done]. intros [= <-]. simpl.
  repeat (apply elem_of_cons in Hin as [->|Hin]; [done|]). by apply not_elem_of_nil in Hin.
Qed.

Lemma compose_forward m data n e :
  frame_ok (im_hdr m) (im_data m) → i_pid (ie_ibuf (e_parent e)) = e_pid e →
  0 ≤ n ≤ Zlen data → n ≤ 8 → forward m = Some (h_type (im_hdr m), Ztake n data) →
  wp (_ ← ifconfigde_imsg_compose_parent (h_type (im_hdr m)) 0 data n; mret tt)
     (λ _ e', e_conns e' = e_conns e ∧ ce_closed (e_env e') = ce_closed (e_env e)
              ∧ forwarded [m] e e') e.
Proof.
  intros [Hh _] Hpid Hn Hsm Hf. pose proof (forward_type m _ Hf) as Ht. simpl in Ht.
  apply wp_bind.
  eapply wp_mono; [apply compose_parent_spec; unfold IMSG_HEADER_SIZE, MAX_IMSGSIZE; done || lia|].
  intros _ e' (Hc & Hcl & Hg). apply wp_ret. split_and!; [done..|].
  unfold forwarded, forwards. simpl. rewrite Hf. simpl. destruct Hg as [Hg|[Hg Hna]].
  - eexists; split_and!; [|exact Hg|]; done.
  - exists []. split_and!; [|done..]. apply sublist_nil_l.
Qed.

Lemma control_switch_spec m e :
  frame_ok (im_hdr m) (im_data m) → i_pid (ie_ibuf (e_parent e)) = e_pid e →
  wp (control_switch m)
     (λ _ e', e_conns e' = e_conns e ∧ ce_closed (e_env e') = ce_closed (e_env e)
              ∧ forwarded [m] e e') e.
Proof.
  intros Hok Hpid. unfold control_switch.
  destruct (Z.eqb_spec (h_type (im_hdr m)) IMSG_USE_ETHERNET) as [He|He].
  - destruct (Z.eqb_spec (h_len (im_hdr m)) (IMSG_HEADER_SIZE + MAX_NETWORK_NAME_SIZE)) as [Hl|Hl];
      simpl.
    + apply compose_forward; try done; [|unfold forward; by rewrite He, Hl].
      destruct Hok as [_ Hlen]. unfold PTR_SIZE, MAX_NETWORK_NAME_SIZE in *. lia.
    + apply wp_ret. split_and!; [done..|]. apply forwarded_none; [|apply grew_refl].
      unfold forwards. simpl. unfold forward. by rewrite He, (proj2 (Z.eqb_neq _ _) Hl).
  - match goal with |- context [if ?b then _ else _] => destruct b eqn:Eb end.
    + apply compose_forward; try done. unfold forward. rewrite (proj2 (Z.eqb_neq _ _) He).
      rewrite decide_True; [done|]. rewrite !orb_true_iff, !Z.eqb_eq in Eb.
      rewrite !elem_of_cons. tauto.
    + apply wp_ret. split_and!; [done..|]. apply forwarded_none; [|apply grew_refl].
      unfold forwards. simpl. unfold forward. rewrite (proj2 (Z.eqb_neq _ _) He), decide_False; [done|].
      rewrite !orb_false_iff, !Z.eqb_neq in Eb.
      intros Hin. repeat (apply elem_of_cons in Hin as [Hin|Hin]; [tauto|]). by apply not_elem_of_nil in Hin.
Qed.

(** ** The loop over the messages received *)

Definition all_framed (ms : list imsg) : Prop :=
  Forall (λ m, frame_ok (im_hdr m) (im_data m)) ms.

(** The state after the loop has taken the messages [ms] of the connection
    [c] at position [i] and left the bytes [rest]. *)
Definition loop_post (i : nat) (c : imsgev) (e : engine) (open : bool) (e' : engine)
    (ms : list imsg) (rest : list byte) : Prop :=
  i_r (ie_ibuf c) = frames ms ++ rest ∧ all_framed ms ∧ forwarded ms e e'
  ∧ (alloc_never_fails (e_env e) → open = negb (bad_header rest))
  ∧ if open
    then bad_header rest = false ∧ incomplete rest = true
         ∧ ce_closed (e_env e') = ce_closed (e_env e)
         ∧ ∃ ifds, let ib := ie_ibuf c in
             e_conns e' = <[i := set_ibuf c (mk_imsgbuf ifds rest (i_w ib) (i_fd ib) (i_pid ib))]>
                            (e_conns e)
    else e_conns e' = delete i (e_conns e)
         ∧ ce_closed (e_env e') =
             ce_closed (e_env e) ++ fds (i_w (ie_ibuf c)) ++ [conn_fd c].

Lemma set_ibuf_id c : set_ibuf c (ie_ibuf c) = c.
Proof. by destruct c. Qed.

Lemma map_conn_fd_insert l i c c' :
  l !! i = Some c → conn_fd c' = conn_fd c → map conn_fd (<[i := c']> l) = map conn_fd l.
Proof.
  intros Hi Hc. rewrite <- (list_insert_id l i c Hi) at 2.
  change (conn_fd <$> <[i := c']> l = conn_fd <$> <[i := c]> l).
  by rewrite !list_fmap_insert, Hc.
Qed.

Lemma control_loop_close i c c1 e :
  NoDup (map conn_fd (e_conns e)) → e_conns e !! i = Some c →
  bad_header (i_r (ie_ibuf c)) = true ∨ ¬ alloc_never_fails (e_env e) →
  (alloc_never_fails (e_env e) → alloc_never_fails c1) → ce_closed c1 = ce_closed (e_env e) →
  wp (control_close (conn_fd c);; mret false)
     (λ open e', loop_post i c e open e' [] (i_r (ie_ibuf c))) (set_eenv c1 e).
Proof.
  intros Hd Hi Hb Ha Hcl. apply wp_bind.
  eapply wp_mono; [by apply (control_close_spec i c)|].
  intros _ e' (Hg & Hc & Hp & Hcl'). apply wp_ret. destruct Hg. simpl in *.
  split_and!; try done; [constructor| | |congruence].
  - apply forwarded_none; [done|]. split; simpl; try done; auto.
  - intros Hn. destruct Hb as [->|]; done.
Qed.

Lemma grew_back qs e e1 e' :
  grew qs e1 e' → e_fd e1 = e_fd e → e_pid e1 = e_pid e → e_exit e1 = e_exit e →
  e_parent e1 = e_parent e → (alloc_never_fails (e_env e) → alloc_never_fails (e_env e1)) →
  grew qs e e'.
Proof. intros [] ? ? ? Hp Ha. rewrite Hp in *. split; try congruence; auto. Qed.

Lemma delete_insert_list {A} (l : list A) i x : delete i (<[i := x]> l) = delete i l.
Proof.
  revert i. induction l as [|y l IH]; intros [|i]; simpl; try done.
  change (y :: delete i (<[i := x]> l) = y :: delete i l). by rewrite IH.
Qed.

(** One message more. *)
Lemma loop_post_step i c e m rest c1 ifds open e1 e' ms rest' :
  let ib := ie_ibuf c in
  let c' := set_ibuf c (mk_imsgbuf ifds rest (i_w ib) (i_fd ib) (i_pid ib)) in
  frame_ok (im_hdr m) (im_data m) → i_r ib = frame (im_hdr m) (im_data m) ++ rest →
  (alloc_never_fails (e_env e) → alloc_never_fails c1) → ce_closed c1 = ce_closed (e_env e) →
  e_conns e1 = <[i := c']> (e_conns e) → ce_closed (e_env e1) = ce_closed c1 →
  forwarded [m] (set_conns (<[i := c']> (e_conns e)) (set_eenv c1 e)) e1 →
  loop_post i c' e1 open e' ms rest' → loop_post i c e open e' (m :: ms) rest'.
Proof.
  intros ib c' Hok Hr Ha Hcl Hc1 Hcl1 Hf1 (Hr' & Hall & Hf & Hopen & Hpost).
  assert (forwarded [m] e e1) as Hf0.
  { destruct Hf1 as (qs & Hs & Hg & Hq). exists qs. split_and!; [done| |auto].
    by eapply grew_back. }
  pose proof Hf0 as (qs & _ & [_ _ _ _ _ Hae] & _).
  split_and!; [|by constructor|by apply (forwarded_app [m] ms _ e1)|auto|].
  - fold ib. unfold frames in *. simpl in *. by rewrite Hr, Hr', app_assoc.
  - rewrite Hc1, Hcl1, Hcl in Hpost. destruct open.
    + destruct Hpost as (? & ? & ? & ifds' & Hc'). split_and!; try done.
      exists ifds'. by rewrite Hc', list_insert_insert_eq.
    + destruct Hpost as [Hc' Hcl']. split; [|done]. by rewrite Hc', delete_insert_list.
Qed.

Lemma control_loop_spec fuel : ∀ i c e,
  NoDup (map conn_fd (e_conns e)) → e_conns e !! i = Some c → ib_wf (ie_ibuf (e_parent e)) →
  i_pid (ie_ibuf (e_parent e)) = e_pid e → (length (i_r (ie_ibuf c)) < fuel)%nat →
  wp (control_loop fuel i (conn_fd c))
     (λ open e', ∃ ms rest, loop_post i c e open e' ms rest) e.
Proof.
  induction fuel as [|fuel IH]; intros i c e Hd Hi Hwf Hpid Hfuel; [lia|].
  cbn [control_loop]. apply wp_bind. eapply wp_conn; [done|]. apply wp_bind, wp_env.
  destruct (imsg_get_cases (ie_ibuf c) (e_env e))
    as [[Hb E]|[(Hb & Hinc & E)|(h & data & rest & c1 & Hok & Hr & Hcl & Ha & [E|[E Hna]])]];
    (eapply wp_intro; [exact E|]); cbv beta iota; apply wp_bind, wp_put_conn;
    cbn [e_conns set_eenv]; rewrite ?set_ibuf_id, ?list_insert_id by done.
  - eapply wp_mono; [apply (control_loop_close i c _ e); auto|by eexists _, _].
  - apply wp_ret. exists [], (i_r (ie_ibuf c)). split_and!; try done; [constructor| | |].
    + apply forwarded_none; [done|]. split; try done. constructor.
    + by rewrite Hb.
    + exists (i_fds (ie_ibuf c)). destruct c as [[] ? ?]; simpl in *. by rewrite list_insert_id.
  - assert (0 < h_len h) as Hpos by (destruct Hok as [(_ & H & _) _]; unfold IMSG_HEADER_SIZE in H; lia).
    rewrite (proj2 (Z.eqb_neq _ _)), (proj2 (Z.eqb_neq _ _)) by lia. cbv iota.
    apply wp_bind. eapply wp_mono; [by apply control_switch_spec|].
    intros _ e1 (Hc1 & Hcl1 & Hf1). cbn [e_conns set_conns] in Hc1.
    set (c' := set_ibuf c _) in Hc1.
    eapply wp_mono; [apply (IH i c' e1)|].
    + rewrite Hc1. rewrite (map_conn_fd_insert _ _ c); done.
    + rewrite Hc1. apply list_lookup_insert_eq. by apply lookup_lt_Some in Hi.
    + destruct Hf1 as (qs & _ & Hg & _). apply (queues_spec _ _ _ (gr_queue _ _ _ Hg)). done.
    + destruct Hf1 as (qs & _ & Hg & _).
      destruct (queues_spec _ _ _ (gr_queue _ _ _ Hg) Hwf) as (_ & _ & _ & _ & -> & _).
      by rewrite (gr_pid _ _ _ Hg).
    + simpl. apply (f_equal length) in Hr. rewrite length_app in Hr.
      pose proof (Zlen_frame h data Hok). unfold Zlen in *. lia.
    + intros open e' (ms & rest' & Hpost). eexists _, rest'.
      by eapply (loop_post_step i c e _ _ c1); try done.
  - eapply wp_mono; [apply (control_loop_close i c _ e); auto|by eexists _, _].
Qed.

(** ** Reading and writing *)

Definition received (r : recvret) : list byte :=
  match r with RecvErr _ => [] | RecvOk data _ => data end.

Definition read_result (r : recvret) : Z :=
  match r with
  | RecvErr e => if negb (e =? EINTR) && negb (e =? EAGAIN) then -1 else -2
  | RecvOk data _ => Zlen data
  end.

Lemma imsg_read_cmsgs_spec cmsgs : ∀ l c,
  ∃ ok l' c', imsg_read_cmsgs cmsgs l c = (Ok (ok, l'), c')
    ∧ (alloc_never_fails c → ok = true ∧ alloc_never_fails c').
Proof.
  induction cmsgs as [|cm cmsgs IH]; intros l c; simpl; [by eexists _, _, _|].
  destruct (_ && _); [|apply IH]. run. alloc_step ok c1 Hcl Ha.
  destruct ok; simpl.
  - destruct (IH (l ++ [cmsg_fd cm]) c1) as (ok & l' & c' & E' & Hn). eexists _, _, _.
    split; [exact E'|]. intros [_ ?]%Ha. auto.
  - eexists _, _, _. split; [done|]. by intros [? _]%Ha.
Qed.

Lemma imsg_read_spec r ib c :
  ∃ n ifds c', imsg_read r ib c =
      (Ok (n, mk_imsgbuf ifds (i_r ib ++ received r) (i_w ib) (i_fd ib) (i_pid ib)), c')
    ∧ (n = read_result r ∨ n = -1) ∧ (alloc_never_fails c → n = read_result r ∧ alloc_never_fails c').
Proof.
  destruct r as [e|data cmsgs]; simpl.
  { exists (read_result (RecvErr e)), (i_fds ib), (mk_cenv (ce_alloc c) e (ce_closed c)).
    rewrite app_nil_r. run. destruct ib; simpl. destruct (_ && _); auto. }
  destruct (imsg_read_cmsgs_spec cmsgs (i_fds ib) c) as (ok & l & c' & E & Ha).
  rewrite (bind_ok _ _ _ _ _ E). eexists _, l, c'. split; [done|].
  split; [destruct ok; auto|]. by intros [-> ?]%Ha.
Qed.

(** What reading or writing leaves of the connection [c] at position [i]:
    [good] says whether the call succeeded, [W] what the queue is. *)
Definition io_post (W : msgbuf → Prop) (i : nat) (c : imsgev) (input : list byte)
    (good : bool) (e : engine) (open : bool) (e' : engine) : Prop :=
  grew [] e e' ∧ e_parent e' = e_parent e ∧ (open = true → good = true)
  ∧ (alloc_never_fails (e_env e) → open = good)
  ∧ if open
    then ∃ ib, e_conns e' = <[i := set_ibuf c ib]> (e_conns e)
           ∧ i_fd ib = conn_fd c ∧ i_r ib = i_r (ie_ibuf c) ++ input ∧ W (i_w ib)
    else e_conns e' = delete i (e_conns e) ∧ list.last (ce_closed (e_env e')) = Some (conn_fd c).

Lemma io_close W i c ib c1 input good e :
  NoDup (map conn_fd (e_conns e)) → e_conns e !! i = Some c → i_fd ib = conn_fd c →
  (alloc_never_fails (e_env e) → alloc_never_fails c1 ∧ good = false) →
  wp (control_close (conn_fd c);; mret false) (io_post W i c input good e)
     (set_conns (<[i := set_ibuf c ib]> (e_conns e)) (set_eenv c1 e)).
Proof.
  intros Hd Hi Hfd Ha. set (e1 := set_conns _ _). apply wp_bind.
  assert (conn_fd c = conn_fd (set_ibuf c ib)) as -> by done.
  eapply wp_mono; [apply (control_close_spec i (set_ibuf c ib) e1)|].
  - unfold e1. simpl. by rewrite (map_conn_fd_insert _ _ c).
  - apply list_lookup_insert_eq. by apply lookup_lt_Some in Hi.
  - intros _ e' (Hg & Hc & Hp & Hcl). apply wp_ret. unfold io_post.
    split; [eapply grew_back; try done; by intros [? _]%Ha|].
    split_and!; [done|done|by intros [_ ->]%Ha| |].
    + unfold e1 in Hc. simpl in Hc. by rewrite Hc, delete_insert_list.
    + rewrite Hcl, app_assoc, last_snoc, <- Hfd. done.
Qed.

Lemma control_read_spec i c r e :
  NoDup (map conn_fd (e_conns e)) → e_conns e !! i = Some c →
  wp (control_read (conn_fd c) r i)
     (io_post (eq (i_w (ie_ibuf c))) i c (received r) (negb ((read_result r =? -1) || (read_result r =? 0))) e) e.
Proof.
  intros Hd Hi. unfold control_read. apply wp_bind. eapply wp_conn; [done|].
  apply wp_bind, wp_env. destruct (imsg_read_spec r (ie_ibuf c) (e_env e))
    as (n & ifds & c1 & E & Hn & Ha).
  eapply wp_intro; [exact E|]. cbv beta iota. apply wp_bind, wp_put_conn.
  destruct ((n =? -1) || (n =? 0)) eqn:En.
  - apply (io_close _ i c _ c1 _ _ e); try done. intros [-> ?]%Ha. by rewrite En.
  - assert (n = read_result r) as <- by (destruct Hn as [->| ->]; done). rewrite En.
    apply wp_ret. unfold io_post. split_and!; try done.
    + split; try done; [constructor|]. by intros [_ ?]%Ha.
    + eexists. split_and!; [done|done|done|done].
Qed.

Lemma control_write_spec i c r e :
  NoDup (map conn_fd (e_conns e)) → e_conns e !! i = Some c → msgbuf_wf (i_w (ie_ibuf c)) →
  sendmsg_answer (i_w (ie_ibuf c)) r →
  wp (control_write (conn_fd c) r i) (io_post msgbuf_wf i c [] (negb (write_result r =? -1)) e) e.
Proof.
  intros Hd Hi Hw Hr. unfold control_write. apply wp_bind. eapply wp_conn; [done|].
  apply wp_bind, wp_env. destruct (msgbuf_write_spec (i_w (ie_ibuf c)) r (e_env e) Hw Hr)
    as (w & c1 & E & Hw' & _ & Ha & _).
  assert (alloc_never_fails (e_env e) → alloc_never_fails c1) as Ha'
    by (unfold alloc_never_fails; by rewrite Ha).
  eapply wp_intro; [exact E|]. cbv beta iota. apply wp_bind, wp_put_conn.
  destruct (write_result r =? -1) eqn:En.
  - apply (io_close _ i c _ c1 _ _ e); auto.
  - apply wp_ret. unfold io_post. split_and!; try done.
    + split; try done; [constructor].
    + eexists. split_and!; [done|done| |done]. by rewrite app_nil_r.
Qed.

(** The bytes an event brings, and whether the connection survives it. *)
Definition event_input (event : Z) (rcv : recvret) : list byte :=
  if has_bits event EV_READ then received rcv else [].

Definition survives (event : Z) (rcv : recvret) (snd : sysret) : bool :=
  negb (has_bits event EV_READ && ((read_result rcv =? -1) || (read_result rcv =? 0)))
  && negb (has_bits event EV_WRITE && (write_result snd =? -1)).

Lemma io_post_none (W : msgbuf → Prop) i c e :
  e_conns e !! i = Some c → W (i_w (ie_ibuf c)) → io_post W i c [] true e true e.
Proof.
  intros Hi Hw. split_and!; [apply grew_refl|done..|]. exists (ie_ibuf c).
  by rewrite set_ibuf_id, list_insert_id, app_nil_r.
Qed.

Lemma io_post_closed W W' i c inp inp' g g' e e' :
  io_post W i c inp g e false e' → (g = false → g' = false) → io_post W' i c inp' g' e false e'.
Proof.
  intros (Hg & Hp & _ & Ha & Hpost) H. split_and!; try done; [|by destruct Hpost..]. intros Hn.
  symmetry. apply H. symmetry. auto.
Qed.

Lemma io_post_trans W i c ib inp g2 e e1 open e2 :
  grew [] e e1 → e_parent e1 = e_parent e → e_conns e1 = <[i := set_ibuf c ib]> (e_conns e) →
  i_fd ib = conn_fd c → i_r ib = i_r (ie_ibuf c) ++ inp →
  io_post W i (set_ibuf c ib) [] g2 e1 open e2 → io_post W i c inp g2 e open e2.
Proof.
  intros Hg1 Hp1 Hc Hfd Hr (Hg2 & Hp2 & Hgood & Ha & Hpost).
  split_and!; [apply (grew_trans [] [] _ e1); done|congruence|done|intros Hn; by apply Ha, Hg1|].
  rewrite Hc in Hpost. destruct open.
  - destruct Hpost as (ib' & Hc' & Hfd' & Hr' & Hw'). exists ib'. rewrite app_nil_r in Hr'.
    rewrite Hc', list_insert_insert_eq. split_and!; [done| |by rewrite Hr', <- Hr|done].
    by rewrite Hfd'.
  - rewrite delete_insert_list, <- Hfd in *. done.
Qed.

Lemma control_io_spec i c event rcv snd e :
  NoDup (map conn_fd (e_conns e)) → e_conns e !! i = Some c → msgbuf_wf (i_w (ie_ibuf c)) →
  sendmsg_answer (i_w (ie_ibuf c)) snd →
  wp (control_io (conn_fd c) event rcv snd i)
     (io_post msgbuf_wf i c (event_input event rcv) (survives event rcv snd) e) e.
Proof.
  intros Hd Hi Hw Hs. unfold control_io, survives.
  set (g1 := negb (has_bits event EV_READ && _)).
  apply wp_bind. apply (wp_mono _ (io_post (eq (i_w (ie_ibuf c))) i c (event_input event rcv) g1 e)).
  { unfold g1, event_input. destruct (has_bits event EV_READ); simpl.
    - by apply control_read_spec.
    - apply wp_ret. by apply io_post_none. }
  intros [] e1 Hp; simpl.
  2: { apply wp_ret. apply (io_post_closed _ _ _ _ _ _ _ _ _ _ Hp). by intros ->. }
  destruct Hp as (Hg & Hpar & Hgood & _ & ib & Hc & Hfd & Hr & Hw1). rewrite Hgood by done. simpl.
  assert (e_conns e1 !! i = Some (set_ibuf c ib)) as Hi1
    by (rewrite Hc; apply list_lookup_insert_eq; by apply lookup_lt_Some in Hi).
  destruct (has_bits event EV_WRITE); simpl.
  - eapply wp_mono; [|intros b e2; by eapply (io_post_trans _ _ _ ib)].
    assert (conn_fd c = conn_fd (set_ibuf c ib)) as -> by done.
    apply control_write_spec; simpl; rewrite <- ?Hw1; try done.
    by rewrite Hc, (map_conn_fd_insert _ _ c).
  - apply wp_ret. eapply (io_post_trans _ _ _ ib); try done.
    apply io_post_none; [done|]. simpl. by rewrite <- Hw1.
Qed.

(** ** The whole handler *)

(** The state after control_dispatch_imsg() has taken the messages [ms]. *)
Definition dispatch_post (i : nat) (c : imsgev) (event : Z) (rcv : recvret) (snd : sysret)
    (e e' : engine) (open : bool) (ms : list imsg) (rest : list byte) : Prop :=
  i_r (ie_ibuf c) ++ event_input event rcv = frames ms ++ rest ∧ all_framed ms
  ∧ forwarded ms e e'
  ∧ (alloc_never_fails (e_env e) → open = survives event rcv snd && negb (bad_header rest))
  ∧ if open
    then incomplete rest = true
         ∧ ∃ c', e_conns e' = <[i := c']> (e_conns e) ∧ conn_fd c' = conn_fd c
             ∧ i_r (ie_ibuf c') = rest ∧ msgbuf_wf (i_w (ie_ibuf c')) ∧ armed c'
    else e_conns e' = delete i (e_conns e) ∧ list.last (ce_closed (e_env e')) = Some (conn_fd c).

Lemma dispatch_closed i c event rcv snd e e' :
  io_post msgbuf_wf i c (event_input event rcv) (survives event rcv snd) e false e' →
  dispatch_post i c event rcv snd e e' false [] (i_r (ie_ibuf c) ++ event_input event rcv).
Proof.
  intros (Hg & _ & _ & Ha & Hpost). split; [done|]. split; [apply list.Forall_nil_2|].
  split; [by apply forwarded_none|]. split; [by intros <-%Ha|done].
Qed.

Lemma control_dispatch_spec i c event rcv snd e :
  NoDup (map conn_fd (e_conns e)) → e_conns e !! i = Some c → msgbuf_wf (i_w (ie_ibuf c)) →
  ib_wf (ie_ibuf (e_parent e)) → i_pid (ie_ibuf (e_parent e)) = e_pid e →
  sendmsg_answer (i_w (ie_ibuf c)) snd →
  wp (control_dispatch_imsg (conn_fd c) event rcv snd)
     (λ _ e', ∃ open ms rest, dispatch_post i c event rcv snd e e' open ms rest) e.
Proof.
  intros Hd Hi Hw Hpw Hpid Hs. unfold control_dispatch_imsg. apply wp_bind, wp_gets.
  rewrite (conn_index_fd _ i c) by done. apply wp_bind.
  eapply wp_mono; [by apply control_io_spec|]. intros [] e1 Hio; cbn [negb].
  2: { apply wp_ret. eexists _, _, _. by apply dispatch_closed. }
  destruct Hio as (Hg & Hpar & Hgood & _ & ib & Hc & Hfd & Hr & Hw1).
  set (c1 := set_ibuf c ib) in *.
  assert (e_conns e1 !! i = Some c1) as Hi1
    by (rewrite Hc; apply list_lookup_insert_eq; by apply lookup_lt_Some in Hi).
  apply wp_bind. eapply wp_conn; [done|]. apply wp_bind.
  assert (conn_fd c = conn_fd c1) as -> by done.
  eapply wp_mono; [apply control_loop_spec; rewrite ?Hpar; try done|].
  { by rewrite Hc, (map_conn_fd_insert _ _ c). }
  { by rewrite (gr_pid _ _ _ Hg). }
  { unfold c1. simpl. lia. }
  intros open e2 (ms & rest & Hr2 & Hall & Hf & Hopen & Hpost).
  assert (forwarded ms e e2) as Hf'.
  { apply (forwarded_app [] ms e e1); [|done]. by apply forwarded_none. }
  assert (alloc_never_fails (e_env e) → open = survives event rcv snd && negb (bad_header rest)) as Ho.
  { intros Hn. rewrite Hgood by done. by apply Hopen, (gr_alloc _ _ _ Hg). }
  unfold c1 in Hr2. simpl in Hr2. rewrite Hr in Hr2.
  destruct open; cbn [negb]; cycle 1.
  { apply wp_ret. exists false, ms, rest. destruct Hpost as [Hc2 Hcl]. split_and!; try done.
    - by rewrite Hc2, Hc, delete_insert_list.
    - rewrite Hcl, app_assoc, last_snoc. by rewrite <- Hfd. }
  destruct Hpost as (Hbad & Hinc & _ & ifds & Hc2). cbv zeta in Hc2. set (c2 := set_ibuf c1 _) in Hc2.
  apply wp_bind. eapply (wp_conn _ c2).
  { rewrite Hc2. apply list_lookup_insert_eq. by apply lookup_lt_Some in Hi1. }
  apply wp_put_conn. exists true, ms, rest. split_and!; try done; [by apply forwarded_set_conns|].
  eexists. cbn [e_conns set_conns].
  rewrite Hc2, Hc, !list_insert_insert_eq. split_and!; [done|done|done|done|apply armed_event_add].
Qed.

(** ** The invariant is kept *)

(** [m] returns with [Q], or exits with status 1. *)
Definition wpx {A} (m : EM A) (Q : A → engine → Prop) (e : engine) : Prop :=
  match m e with (Ok a, e') => Q a e' | (Stop w, _) => w = SExit 1 end.

Lemma wpx_bind {A B} (m : EM A) (f : A → EM B) Q e :
  wpx m (λ a e', wpx (f a) Q e') e → wpx (m ≫= f) Q e.
Proof. unfold wpx, mbind, CM_bind. by destruct (m e) as [[a|w] e']. Qed.

Lemma wpx_mono {A} (m : EM A) (P Q : A → engine → Prop) e :
  wpx m P e → (∀ a e', P a e' → Q a e') → wpx m Q e.
Proof. unfold wpx. destruct (m e) as [[a|w] e']; auto. Qed.

Lemma wpx_wp {A} (m : EM A) (Q : A → engine → Prop) e : wp m Q e → wpx m Q e.
Proof. unfold wp, wpx. by destruct (m e) as [[a|w] e']. Qed.

Lemma wpx_env {A} (m : CM cenv A) (Q : A → engine → Prop) e a c :
  m (e_env e) = (Ok a, c) → Q a (set_eenv c e) → wpx (env m) Q e.
Proof. unfold wpx, env, zoom. by intros ->. Qed.

Lemma NoDup_conns e : NoDup (open_fds e) → NoDup (map conn_fd (e_conns e)).
Proof. unfold open_fds. by intros [_ [_ ?]%NoDup_cons]%NoDup_cons. Qed.

Lemma map_delete {A B} (f : A → B) l i : map f (delete i l) `sublist_of` map f l.
Proof.
  revert i. induction l as [|x l IH]; intros [|i]; simpl; [done|done|by constructor|].
  constructor. apply IH.
Qed.

(** The fields of a state that the invariant reads, after a step. *)
Lemma engine_inv_conns e e' l ms :
  engine_inv e → grew ms e e' → e_conns e' = l → Forall conn_ok l →
  map conn_fd l `sublist_of` map conn_fd (e_conns e) → engine_inv e'.
Proof.
  intros [Hfds _ Hp Hpid Ha] [Hfd Hpd Hex Hq Harm _] <- Hok Hsub.
  destruct (queues_spec _ _ _ Hq Hp) as (Hwf & _ & _ & Hpfd & Hpp & _).
  split; [|done|done|congruence|].
  - unfold open_fds in *. rewrite Hfd, Hpfd. eapply sublist_NoDup; [exact Hfds|].
    by do 2 constructor.
  - rewrite Hex. auto.
Qed.

Lemma rest_bound c event rcv ms rest :
  ib_wf (ie_ibuf c) → recv_answer (ie_ibuf c) rcv →
  i_r (ie_ibuf c) ++ event_input event rcv = frames ms ++ rest → Zlen rest ≤ IBUF_READ_SIZE.
Proof.
  intros [_ Hl] Hr Hb%(f_equal Zlen). rewrite !Zlen_app in Hb.
  pose proof (Zlen_nonneg (frames ms)). unfold event_input in Hb.
  destruct rcv as [err|data cm]; simpl in *; destruct (has_bits _ _);
    change (Zlen (@nil byte)) with 0 in Hb; lia.
Qed.

Lemma conn_step_inv i c event rcv snd e :
  engine_inv e → e_conns e !! i = Some c → recv_answer (ie_ibuf c) rcv →
  sendmsg_answer (i_w (ie_ibuf c)) snd →
  let e0 := set_conns (<[i := event_del c]> (e_conns e)) e in
  wp (control_dispatch_imsg (conn_fd c) event rcv snd)
     (λ _ e', engine_inv e' ∧ ∃ open ms rest, dispatch_post i c event rcv snd e e' open ms rest) e0.
Proof.
  intros Hinv Hi Hrcv Hsnd e0. pose proof (NoDup_conns _ (ei_fds _ Hinv)) as Hd.
  pose proof (ei_conns _ Hinv) as Hok. destruct (proj1 (list.Forall_lookup _ _) Hok i c Hi) as [Hwf _].
  assert (conn_fd c = conn_fd (event_del c)) as -> by done.
  eapply wp_mono; [apply (control_dispatch_spec i (event_del c)); unfold e0; simpl; try done|].
  { by rewrite (map_conn_fd_insert _ _ c). }
  { apply list_lookup_insert_eq. by apply lookup_lt_Some in Hi. }
  { apply Hwf. } { apply Hinv. } { apply Hinv. }
  intros _ e' (open & ms & rest & Hb & Hall & (qs & Hqs & Hg & Hqa) & Hopen & Hpost).
  assert (grew qs e e') as Hg' by (by eapply grew_back).
  assert (Zlen rest ≤ IBUF_READ_SIZE) as Hlen by (by eapply rest_bound).
  cbn [e_conns set_conns e0] in Hpost. rewrite delete_insert_list in Hpost.
  destruct open.
  - destruct Hpost as (Hinc & c' & Hc & Hfd & Hrr & Hw & Harm). rewrite list_insert_insert_eq in Hc.
    split; [|exists true, ms, rest; split_and!; try done; [by exists qs|by exists c']].
    eapply engine_inv_conns; [done..| |].
    + apply Forall_insert; [done|]. split; [|done]. split; [done|by rewrite Hrr].
    + by rewrite (map_conn_fd_insert _ _ c).
  - destruct Hpost as [Hc Hcl].
    split; [|exists false, ms, rest; split_and!; try done; by exists qs].
    eapply engine_inv_conns; [done..|by apply Forall_delete|apply map_delete].
Qed.

Lemma accept_step_inv a e :
  engine_inv e → (∀ fd, ac_fd a = Some fd → fd ∉ open_fds e) →
  wpx (control_accept a) (λ _ e', engine_inv e') e.
Proof.
  intros Hinv Hnew. unfold control_accept. destruct (ac_fd a) as [fd|]; [|done].
  specialize (Hnew fd eq_refl). apply wpx_bind.
  destruct (ac_getfl a) as [fl|]; [|done]. unfold session_socket_blockmode.
  destruct (ac_setfl a); [|done]. unfold wpx. run. unfold env. run.
  alloc_step ok c1 Hcl Ha. destruct ok; simpl; cycle 1.
  { eapply (engine_inv_conns e _ _ []); try done; [|apply Hinv].
    split; try done; [constructor|]. by intros [_ ?]%Ha. }
  destruct Hinv as [Hfds Hok Hp Hpid Harm]. split; try done.
  - unfold open_fds in *. simpl. rewrite map_app. simpl.
    apply (NoDup_app (_ :: _ :: _) [fd]). split_and!; [done| |apply NoDup_singleton].
    intros x Hx ->%list_elem_of_singleton. done.
  - apply Forall_app_2; [done|]. apply Forall_singleton. split; [|done]. split; [|done].
    split; [constructor|done].
Qed.

(** Reading from the parent leaves the queue and the descriptors alone. *)
Definition same_parent (e e' : engine) : Prop :=
  e_fd e' = e_fd e ∧ e_pid e' = e_pid e ∧ e_conns e' = e_conns e
  ∧ i_fd (ie_ibuf (e_parent e')) = i_fd (ie_ibuf (e_parent e))
  ∧ i_pid (ie_ibuf (e_parent e')) = i_pid (ie_ibuf (e_parent e))
  ∧ (ib_wf (ie_ibuf (e_parent e)) → ib_wf (ie_ibuf (e_parent e'))).

Lemma same_parent_inv e e' :
  engine_inv e → same_parent e e' → (e_exit e' = false → armed (e_parent e')) → engine_inv e'.
Proof.
  intros [Hfds Hok Hp Hpid _] (Hfd & Hpd & Hc & Hpfd & Hpp & Hwf) Ha.
  split; [|by rewrite Hc|auto|congruence|done].
  unfold open_fds in *. by rewrite Hfd, Hpfd, Hc.
Qed.

Lemma parent_loop_spec fuel : ∀ e,
  (length (i_r (ie_ibuf (e_parent e))) < fuel)%nat →
  wpx (parent_loop fuel) (λ _ e', same_parent e e' ∧ e_exit e' = e_exit e) e.
Proof.
  induction fuel as [|fuel IH]; intros e Hf; [lia|]. cbn [parent_loop].
  apply wpx_bind. unfold gets, wpx at 1. apply wpx_bind.
  destruct (imsg_get_cases (ie_ibuf (e_parent e)) (e_env e))
    as [[Hb E]|[(Hb & Hinc & E)|(h & data & rest & c1 & Hok & Hr & Hcl & Ha & [E|[E Hna]])]];
    (eapply wpx_env; [exact E|]); cbv beta iota; apply wpx_bind; unfold modify, wpx at 1;
    try done.
  pose proof (Zlen_frame h data Hok) as Hlen. pose proof Hok as [(_ & Hl & _) _].
  unfold IMSG_HEADER_SIZE in Hl.
  rewrite (proj2 (Z.eqb_neq _ _)), (proj2 (Z.eqb_neq _ _)) by lia.
  apply (f_equal Zlen) in Hr. rewrite Zlen_app, Hlen in Hr. unfold Zlen in Hr.
  eapply (wpx_mono _ _ _ _ (IH _ _)). Unshelve.
  2: { simpl. lia. }
  intros _ e' ((? & ? & ? & ? & ? & Hwf) & ?). simpl in *. split; [|done].
  split_and!; try done. intros [Hw Hl']. apply Hwf. split; [done|]. simpl.
  unfold Zlen in *. lia.
Qed.

Lemma parent_step_inv event rcv snd e :
  engine_inv e → recv_answer (ie_ibuf (e_parent e)) rcv →
  sendmsg_answer (i_w (ie_ibuf (e_parent e))) snd →
  wpx (ifconfigd_dispatch_parent event rcv snd) (λ _ e', engine_inv e')
      (set_parent (event_del (e_parent e)) e).
Proof.
  intros Hinv Hrcv Hsnd. pose proof (ei_parent _ Hinv) as [Hw Hl].
  unfold ifconfigd_dispatch_parent. apply wpx_bind. unfold wpx at 1, gets.
  destruct (event =? EV_READ); [|destruct (event =? EV_WRITE); [|done]].
  - apply wpx_bind. destruct (imsg_read_spec rcv (ie_ibuf (e_parent e)) (e_env e))
      as (n & ifds & c1 & E & _ & _).
    eapply wpx_env; [exact E|]. cbv beta iota. apply wpx_bind. unfold modify at 1, wpx at 1.
    assert (Zlen (i_r (ie_ibuf (e_parent e)) ++ received rcv) ≤ IBUF_READ_SIZE) as Hlen
      by (rewrite Zlen_app; destruct rcv; simpl in *; change (Zlen (@nil byte)) with 0; lia).
    destruct (n =? -1); [done|]. destruct (n =? 0).
    { run. by eapply same_parent_inv. }
    eapply wpx_bind, wpx_mono; [apply parent_loop_spec; simpl; lia|].
    intros _ e' [Hs _]. unfold wpx. simpl. eapply same_parent_inv; [done| |intros _; apply armed_event_add].
    destruct Hs as (? & ? & ? & ? & ? & Hwf). split_and!; try done. intros _. by apply Hwf.
  - apply wpx_bind. destruct (msgbuf_write_spec _ snd (e_env e) Hw Hsnd) as (w & c1 & E & Hw' & _).
    eapply wpx_env; [exact E|]. cbv beta iota. apply wpx_bind. unfold modify at 1, wpx at 1.
    destruct (_ =? -1); [done|]. simpl. eapply same_parent_inv; [done| |intros _; apply armed_event_add].
    by split_and!; try done.
Qed.

Lemma engine_step_inv e r :
  engine_inv e → engine_step e r →
  match r with (Ok _, e') => engine_inv e' | (Stop w, _) => w = SExit 1 end.
Proof.
  intros Hinv Hs. destruct Hs as [r _ [a Hn|i c event rcv snd Hi _ _ _ Hr Hs]|event rcv snd _ _ _ _ Hr Hs].
  - by apply (accept_step_inv a e).
  - apply (wpx_wp (control_dispatch_imsg _ event rcv snd) (λ _ e', engine_inv e')).
    eapply wp_mono; [by apply (conn_step_inv i c)|]. by intros _ e' [? _].
  - by apply (parent_step_inv event rcv snd e).
Qed.

(** ** The process as it runs *)

Definition engine_reach (e : engine) : Prop :=
  ∃ fd pfd cfd pid c, fd ≠ pfd ∧
    rtc (λ e e', engine_step e (Ok tt, e')) (engine_init fd pfd cfd pid c) e.

Lemma engine_init_inv fd pfd cfd pid c : fd ≠ pfd → engine_inv (engine_init fd pfd cfd pid c).
Proof.
  intros Hn. split; try done.
  unfold open_fds. simpl. apply NoDup_cons. split; [|apply NoDup_singleton].
  by rewrite list_elem_of_singleton.
Qed.

Lemma engine_reach_inv e : engine_reach e → engine_inv e.
Proof.
  intros (fd & pfd & cfd & pid & c & Hn & Hs). pose proof (engine_init_inv fd pfd cfd pid c Hn) as Hinv.
  induction Hs as [|e1 e2 e3 H12 _ IH]; [done|]. apply IH. exact (engine_step_inv _ _ Hinv H12).
Qed.

(** ** Claims *)

(** C3. In every state the engine can reach, the control socket, the pipe and
    the connections have different descriptors, every queue is well formed and
    no receive buffer is overrun, and no connection is forgotten: each is
    registered for reading, and for writing exactly when it has something to
    send; so is the pipe until the engine leaves its loop. *)
Theorem engine_invariant e : engine_reach e → engine_inv e.
Proof. apply engine_reach_inv. Qed.

(** C4. Whatever bytes a client sends, control_dispatch_imsg() returns.  The
    other connections are untouched.  The bytes are taken as messages as far
    as they are complete, and the messages queued for the parent are the
    translations of some of them in their order: of all of them when the
    allocator does not fail, and then the connection is closed exactly when
    reading or writing failed, the client left, or a header cannot be that of
    a message. *)
Theorem engine_serves_client e i c event rcv snd :
  engine_reach e → e_conns e !! i = Some c → recv_answer (ie_ibuf c) rcv →
  sendmsg_answer (i_w (ie_ibuf c)) snd →
  ∃ e' open ms rest,
    control_dispatch_imsg (i_fd (ie_ibuf c)) event rcv snd
      (set_conns (<[i := event_del c]> (e_conns e)) e) = (Ok tt, e')
    ∧ dispatch_post i c event rcv snd e e' open ms rest.
Proof.
  intros Hr%engine_reach_inv Hi Hrcv Hsnd.
  destruct (wp_elim _ _ _ (conn_step_inv i c event rcv snd e Hr Hi Hrcv Hsnd))
    as ([] & e' & E & _ & open & ms & rest & Hp).
  by exists e', open, ms, rest.
Qed.

(** C32. While something is queued for the parent the engine waits for both
    events of the pipe, and libevent reports them together when both have
    come; ifconfigd_dispatch_parent() then ends the engine with an error
    instead of reading or writing. *)
Theorem engine_dies_on_read_write e rcv snd :
  engine_reach e → e_exit e = false → m_queued (i_w (ie_ibuf (e_parent e))) ≠ 0 →
  recv_answer (ie_ibuf (e_parent e)) rcv → sendmsg_answer (i_w (ie_ibuf (e_parent e))) snd →
  engine_step e (Stop (SExit 1), set_parent (event_del (e_parent e)) e).
Proof.
  intros Hr%engine_reach_inv Hx Hq Hrcv Hsnd. destruct (ei_armed _ Hr Hx) as [Ha He].
  unfold wanted in He. rewrite (proj2 (Z.eqb_neq _ _) Hq) in He.
  apply (ES_parent e (Z.lor EV_READ EV_WRITE) rcv snd); try done. by rewrite He.
Qed.

(** ** A run *)

Definition run0 : engine := engine_init 5 6 7 100 (mk_cenv [] 0 []).
Definition run1 : engine := (control_accept (mk_accept (Some 9) (Some 2) true) run0).2.
Definition run_conn : imsgev := mk_iev (imsg_init 9 100) EV_READ true.
(** A client asks to monitor and begins another message. *)
Definition run_bytes : list byte :=
  frame (mk_hdr IMSG_IFCONFIGD_MONITOR 16 0 0 200) [] ++ [byte.of_Z 1; byte.of_Z 2].
Definition run2 : engine :=
  (control_dispatch_imsg 9 EV_READ (RecvOk run_bytes []) (SysOk 0)
     (set_conns [event_del run_conn] run1)).2.

Lemma run1_reach : engine_reach run1.
Proof.
  exists 5, 6, 7, 100, (mk_cenv [] 0 []). split; [done|]. apply rtc_once.
  apply ES_client; [done|]. apply (CS_accept run0 (mk_accept (Some 9) (Some 2) true)).
  intros fd [= <-]. compute_done.
Qed.

Lemma run2_reach : engine_reach run2.
Proof.
  destruct run1_reach as (fd & pfd & cfd & pid & c & Hn & Hs). exists fd, pfd, cfd, pid, c.
  split; [done|]. eapply rtc_r; [exact Hs|].
  assert (control_dispatch_imsg 9 EV_READ (RecvOk run_bytes []) (SysOk 0)
     (set_conns [event_del run_conn] run1) = (Ok tt, run2)) as <- by (by vm_compute).
  apply ES_client; [done|].
  by apply (CS_conn run1 0 run_conn EV_READ (RecvOk run_bytes []) (SysOk 0)).
Qed.

Lemma engine_invariant_witness : engine_inv run2.
Proof. apply engine_invariant, run2_reach. Defined.

Lemma engine_serves_client_witness :
  ∃ e' open ms rest,
    control_dispatch_imsg 9 EV_READ (RecvOk run_bytes []) (SysOk 0)
      (set_conns [event_del run_conn] run1) = (Ok tt, e')
    ∧ dispatch_post 0 run_conn EV_READ (RecvOk run_bytes []) (SysOk 0) run1 e' open ms rest.
Proof. by apply (engine_serves_client run1 0 run_conn); [apply run1_reach|..]. Defined.

Lemma engine_dies_on_read_write_witness :
  engine_step run2 (Stop (SExit 1), set_parent (event_del (e_parent run2)) run2).
Proof. by apply (engine_dies_on_read_write run2 (RecvOk [] []) (SysOk 4)); [apply run2_reach|..]. Defined.
