(* ===== verification/IfData.v ===== *)
(** * IfData: the state of the interface configuration code

    The global variables of src/usr/src/sbin/ifconfig/ifcutil.h, the
    structures it passes to ioctl(2) (src/usr/src/sys/net/if.h,
    net80211/ieee80211_ioctl.h, netinet/ip_carp.h and others), and the
    interfaces through which the code meets its surroundings: [Kernel] is
    what it asks of the kernel, [Libs] what it asks of the name resolver.
    Handlers run in the monad [GM] over the record [glob] of the globals.

    The code is built twice: for ifconfig(8) with INET6
    (src/usr/src/sbin/ifconfig/Makefile), for the daemon without it
    (src/ifconfigd/Makefile), and neither time with SMALL.  What INET6 adds is
    modelled; the tables [afs] here and the command tables of Gate and
    Ifconfig say which build has it. *)
From coqutil Require Import Byte Word.LittleEndianList.
From stdpp Require Import base list strings functions.
From Stdlib Require Import Ascii.
From S2P Require Import Prelude CString CNum NetAddr.

#[global] Instance byte_eq_decision : EqDecision byte.
Proof. solve_decision. Defined.

(** ** Constants *)

Definition IFNAMSIZ : Z := 16.
Definition IFF_UP : Z := 0x1.
Definition IFF_BROADCAST : Z := 0x2.
Definition IFF_DEBUG : Z := 0x4.
Definition IFF_POINTOPOINT : Z := 0x10.
Definition IFF_RUNNING : Z := 0x40.
Definition IFF_NOARP : Z := 0x80.
Definition IFF_ALLMULTI : Z := 0x200.
Definition IFF_OACTIVE : Z := 0x400.
Definition IFF_SIMPLEX : Z := 0x800.
Definition IFF_LINK0 : Z := 0x1000.
Definition IFF_LINK1 : Z := 0x2000.
Definition IFF_LINK2 : Z := 0x4000.
Definition IFF_MULTICAST : Z := 0x8000.
Definition IFXF_TXREADY : Z := 0x1.
Definition IFXF_NOINET6 : Z := 0x2.
Definition IFXF_INET6_PRIVACY : Z := 0x4.
Definition IFXF_MPLS : Z := 0x8.
Definition IFXF_WOL : Z := 0x10.
Definition AF_INET : Z := 2.
Definition AF_APPLETALK : Z := 16.
Definition AF_LINK : Z := 18.
Definition AF_INET6 : Z := 24.
Definition RT_TABLEID_MAX : Z := 255.
Definition ETHER_ADDR_LEN : Z := 6.
Definition SHRT_MIN : Z := -32768.
Definition SHRT_MAX : Z := 32767.

(** net80211/ieee80211_ioctl.h *)
Definition IEEE80211_NWID_LEN : Z := 32.
Definition IEEE80211_NWKEY_OPEN : Z := 0.
Definition IEEE80211_NWKEY_WEP : Z := 1.
Definition IEEE80211_NWKEY_PERSIST : Z := 0x100.
Definition IEEE80211_WEP_NKID : nat := 4.
Definition IEEE80211_WPA_PROTO_WPA1 : Z := 1.
Definition IEEE80211_WPA_PROTO_WPA2 : Z := 2.
Definition IEEE80211_WPA_AKM_PSK : Z := 1.
Definition IEEE80211_WPA_AKM_8021X : Z := 2.
Definition IEEE80211_WPA_AKM_SHA256_PSK : Z := 4.
Definition IEEE80211_WPA_AKM_SHA256_8021X : Z := 8.
Definition IEEE80211_WPA_CIPHER_NONE : Z := 0.
Definition IEEE80211_WPA_CIPHER_USEGROUP : Z := 1.
Definition IEEE80211_WPA_CIPHER_WEP40 : Z := 2.
Definition IEEE80211_WPA_CIPHER_TKIP : Z := 4.
Definition IEEE80211_WPA_CIPHER_CCMP : Z := 8.
Definition IEEE80211_WPA_CIPHER_WEP104 : Z := 16.
Definition IEEE80211_CHAN_ANY : Z := 0xffff.
Definition IEEE80211_TXPOWER_MODE_FIXED : Z := 0.
Definition IEEE80211_TXPOWER_MODE_AUTO : Z := 1.
Definition IEEE80211_NODEREQ_AP : Z := 1.
Definition IEEE80211_NODEREQ_AP_BSS : Z := 2.

(** ** struct ifreq

    The union of struct ifreq is sixteen bytes, or a pointer stored in
    ifr_data.  The object such a pointer refers to is a component of the
    argument of the request that uses it. *)

Inductive ifru :=
| U_bytes (bs : list byte)
| U_ptr.

Record ifreq := mk_ifreq { ifr_name : string; ifr_u : ifru }.

Definition zeros (n : nat) : list byte := replicate n Byte.x00.
Definition ifreq_zero : ifreq := mk_ifreq "" (U_bytes (zeros 16)).

(** The bytes of the union; those of a pointer are indeterminate. *)
Definition ifr_bytes (r : ifreq) : option (list byte) :=
  match ifr_u r with U_bytes bs => Some bs | U_ptr => None end.

(** Replace the first bytes of the union.  What a pointer leaves in the rest
    is not observed by any request that follows such a store. *)
Definition ifr_store (r : ifreq) (bs : list byte) : ifreq :=
  mk_ifreq (ifr_name r) (U_bytes (bs ++ drop (length bs) (default (zeros 16) (ifr_bytes r)))).

(** ifr_flags is a short, ifr_metric, ifr_mtu, ifr_media and ifr_rdomainid
    are ints, at the start of the union. *)
Definition ifr_flags (r : ifreq) : option Z :=
  bs ← ifr_bytes r; Some (i16 (le_combine (take 2 bs))).
Definition ifr_metric (r : ifreq) : option Z :=
  bs ← ifr_bytes r; Some (i32 (le_combine (take 4 bs))).
Definition set_ifr_flags (r : ifreq) (f : Z) : ifreq := ifr_store r (le_split 2 f).
Definition set_ifr_metric (r : ifreq) (n : Z) : ifreq := ifr_store r (le_split 4 n).
Definition set_ifr_data (r : ifreq) : ifreq := mk_ifreq (ifr_name r) U_ptr.
Definition set_ifr_name (r : ifreq) (n : string) : ifreq := mk_ifreq n (ifr_u r).

(** sa_family, the second byte of the union. *)
Definition set_ifr_family (r : ifreq) (f : Z) : ifreq :=
  ifr_store r (take 1 (default (zeros 16) (ifr_bytes r)) ++ [byte.of_Z f]).

(** What strlcpy(3) leaves in an array of [siz] bytes and what it returns;
    the theorem on strlcpy in CString relates this to the routine. *)
Definition strlcpy_s (src : string) (siz : Z) : string * Z :=
  (stake (Z.to_nat (siz - 1)) src, slen src).

(** A name stored in an array of IFNAMSIZ bytes. *)
Definition ifname (s : string) : string := (strlcpy_s s IFNAMSIZ).1.

(** ** Socket addresses, as the bytes of the structures *)

Definition sockaddr := list byte.

Definition sa_len (sa : sockaddr) : Z := byte.unsigned (nth 0 sa Byte.x00).
Definition sa_family (sa : sockaddr) : Z := byte.unsigned (nth 1 sa Byte.x00).

(** Overwrite the bytes of an object from an offset on. *)
Definition poke (off : nat) (bs sa : list byte) : list byte :=
  take off sa ++ bs ++ drop (off + length bs) sa.

Lemma length_poke off bs sa :
  (off + length bs ≤ length sa)%nat → length (poke off bs sa) = length sa.
Proof. intros. unfold poke. rewrite !length_app, length_take, length_drop. lia. Qed.

Definition be32 (v : Z) : list byte := rev (le_split 4 v).
Definition be16 (v : Z) : list byte := rev (le_split 2 v).
Definition sin_addr (sa : sockaddr) : Z := le_combine (rev (take 4 (drop 4 sa))).

(** struct in_aliasreq and struct ifaliasreq; ifra_broadaddr is another name
    of ifra_dstaddr. *)
Record aliasreq := mk_alias {
  ifra_name : string;
  ifra_addr : sockaddr;
  ifra_dstaddr : sockaddr;
  ifra_mask : sockaddr;
}.

Definition aliasreq_zero : aliasreq := mk_alias "" (zeros 16) (zeros 16) (zeros 16).

(** ** IPv6: netinet6/in6_var.h

    struct sockaddr_in6 has 28 bytes: sin6_len, sin6_family, the port, the
    flow, sin6_addr at offset 8 and sin6_scope_id at offset 24. *)

Definition SIZEOF_SIN6 : Z := 28.
Definition IN6_IFF_ANYCAST : Z := 0x01.
Definition IN6_IFF_TENTATIVE : Z := 0x02.
Definition IN6_IFF_DUPLICATED : Z := 0x04.
Definition IN6_IFF_DETACHED : Z := 0x08.
Definition IN6_IFF_DEPRECATED : Z := 0x10.
Definition IN6_IFF_AUTOCONF : Z := 0x40.
Definition IN6_IFF_PRIVACY : Z := 0x80.
Definition ND6_INFINITE_LIFETIME : Z := 0xffffffff.

(** The bytes of the union of struct in6_ifreq, whose largest member is struct
    icmp6_ifstat: an address, ifru_flags6 or ifru_lifetime are its first
    bytes. *)
Definition SIZEOF_IFRU6 : nat := 272.
Record in6_ifreq := mk_ifreq6 { ifr6_name : string; ifr6_ifru : list byte }.
Definition ifreq6_zero : in6_ifreq := mk_ifreq6 "" (zeros SIZEOF_IFRU6).

Definition ifr6_addr (r : in6_ifreq) : sockaddr := take 28 (ifr6_ifru r).
Definition set_ifr6_addr (r : in6_ifreq) (sa : sockaddr) : in6_ifreq :=
  mk_ifreq6 (ifr6_name r) (poke 0 sa (ifr6_ifru r)).
Definition ifru_int (off : nat) (r : in6_ifreq) : Z := i32 (le_combine (take 4 (drop off (ifr6_ifru r)))).
Definition ifru_flags6 : in6_ifreq → Z := ifru_int 0.

(** struct in6_addrlifetime; time_t is an int. *)
Record in6_addrlifetime := mk_lt6 {
  ia6t_expire : Z;
  ia6t_preferred : Z;
  ia6t_vltime : Z;
  ia6t_pltime : Z;
}.

Record in6_aliasreq := mk_alias6 {
  ifra6_name : string;
  ifra6_addr : sockaddr;
  ifra6_dstaddr : sockaddr;
  ifra6_prefixmask : sockaddr;
  ifra6_flags : Z;
  ifra6_lifetime : in6_addrlifetime;
}.
Definition aliasreq6_zero : in6_aliasreq :=
  mk_alias6 "" (zeros 28) (zeros 28) (zeros 28) 0 (mk_lt6 0 0 0 0).

(** s6_addr of a sockaddr_in6, and IN6_IS_ADDR_LINKLOCAL. *)
Definition sin6_addr (sa : sockaddr) : list byte := take 16 (drop 8 sa).
Definition sin6_scope_id (sa : sockaddr) : Z := le_combine (take 4 (drop 24 sa)).
Definition is_linklocal (a : list byte) : bool :=
  match a with
  | b0 :: b1 :: _ => (byte.unsigned b0 =? 0xfe) && (Z.land (byte.unsigned b1) 0xc0 =? 0x80)
  | _ => false
  end.

Record netrange := mk_nr { nr_phase : Z; nr_firstnet : Z; nr_lastnet : Z }.

(** ** The other structures of the requests

    An [option] field is one the code may leave unset in a structure on its
    stack; [None] stands for its indeterminate contents. *)

(** The union of struct ifgroupreq is a group name, attributes, or a pointer to
    members; the request for members has a record of its own. *)
Record ifgroupreq := mk_ifgr { ifgr_name : string; ifgr_group : string; ifgr_carp_demoted : Z }.
Record ifgmembreq := mk_gmemb { ifgm_name : string; ifgr_len : Z; ifgr_groups : list string }.
Record if_clonereq := mk_clonereq { ifcr_total : Z; ifcr_count : Z; ifcr_buffer : list string }.
Record ifkalivereq := mk_ikar { ikar_name : string; ikar_timeo : Z; ikar_cnt : Z }.

Record ieee80211_nwid := mk_nwid { i_len : Z; i_nwid : list byte }.
Record ieee80211_bssid := mk_bssid { bss_name : string; i_bssid : list byte }.
(** A key is its length and, unless the length is -1, its bytes. *)
Record ieee80211_nwkey := mk_nwkey {
  nk_name : string;
  i_wepon : Z;
  i_defkid : Z;
  i_key : list (Z * list byte);
}.
Record ieee80211_wpaparams := mk_wpa {
  wpa_name : string;
  wpa_enabled : Z;
  i_protos : Z;
  i_akms : Z;
  i_ciphers : Z;
  i_groupcipher : Z;
}.
Record ieee80211_wpapsk := mk_psk { psk_name : string; psk_enabled : Z; i_psk : list byte }.
Record ieee80211chanreq := mk_chanreq { ch_name : string; i_channel : Z }.
Record ieee80211_txpower := mk_txpower { tx_name : string; i_mode : Z; i_val : option Z }.
Record ieee80211_wmmparams := mk_wmm { wmm_name : string; wmm_enabled : Z }.
(** A channel: its frequency and its attributes. *)
Record ieee80211_channel := mk_chan80211 { ic_freq : Z; ch_flags : Z }.
Record ieee80211_chanreq_all := mk_chans { ca_name : string; i_chans : list ieee80211_channel }.
Record ieee80211_power := mk_power {
  pw_name : string;
  pw_enabled : option Z;
  i_maxsleep : option Z;
}.
(** nr_ifname, nr_fhdwell and nr_fhindex are [None] where nobody has stored
    them. *)
Record ieee80211_nodereq := mk_node {
  nr_ifname : option string;
  nr_macaddr : list byte;
  nr_bssid : list byte;
  nr_nwid_len : Z;
  nr_nwid : list byte;
  nr_channel : Z;
  nr_chan_flags : Z;
  nr_nrates : Z;
  nr_rates : list byte;
  nr_rssi : Z;
  nr_max_rssi : Z;
  nr_tstamp : list byte;
  nr_intval : Z;
  nr_capinfo : Z;
  nr_fhdwell : option Z;
  nr_fhindex : option Z;
  nr_erp : Z;
  nr_pwrsave : Z;
  nr_associd : Z;
  nr_txseq : Z;
  nr_rxseq : Z;
  nr_fails : Z;
  nr_inact : Z;
  nr_txrate : Z;
  nr_state : Z;
  nr_flags : Z;
}.
(** na_node holds the nodes the kernel has stored, na_size the room. *)
Record ieee80211_nodereq_all := mk_nodes {
  na_ifname : string;
  na_size : Z;
  na_nodes : Z;
  na_node : list ieee80211_nodereq;
}.

(** [ifm_ulist] holds the media words the kernel has stored. *)
Record ifmediareq := mk_ifmr {
  ifm_name : string;
  ifm_current : Z;
  ifm_status : Z;
  ifm_active : Z;
  ifm_count : Z;
  ifm_ulist : list Z;
}.
Record vlanreq := mk_vlan { vlr_parent : string; vlr_tag : Z }.
Record carpreq := mk_carp {
  carpr_carpdev : string;
  carpr_vhids : list Z;
  carpr_advskews : list Z;
  carpr_states : list Z;
  carpr_state : Z;
  carpr_balancing : Z;
  carpr_advbase : Z;
  carpr_key : string;
  carpr_peer : Z;
}.
Record pfsyncreq := mk_pfsync {
  pfsyncr_syncdev : string;
  pfsyncr_syncpeer : Z;
  pfsyncr_maxupdates : Z;
  pfsyncr_defer : Z;
}.
Record pflowreq := mk_pflow {
  sender_ip : Z;
  receiver_ip : Z;
  receiver_port : Z;
  addrmask : Z;
}.
Record pppoediscparms := mk_pppoe {
  pp_ifname : string;
  eth_ifname : option string;
  ac_name : option string;
  service_name : option string;
}.
Record pppoeconnectionstate := mk_session {
  ses_ifname : string;
  ses_state : Z;
  session_id : Z;
  padi_retry_no : Z;
  padr_retry_no : Z;
  session_time : Z;
}.
(** Of struct spppreq the field of struct sppp that is read; its cmd is that of
    the request. *)
Record spppreq := mk_sppp { pp_phase : Z }.
Record sauthreq := mk_sauth {
  spa_cmd : Z;
  spa_proto : Z;
  spa_flags : Z;
  spa_name : string;
  spa_secret : string;
}.
Record lacp_side := mk_lacp {
  l_prio : Z;
  l_mac : list byte;
  l_key : Z;
  l_portprio : Z;
  l_portno : Z;
}.
(** The fields of the actor and of the partner. *)
Record lacp_opreq := mk_lacpreq { actor : lacp_side; partner : lacp_side }.
Record trunk_reqport := mk_rp { rp_ifname : string; rp_portname : string; rp_flags : Z }.
(** ra_port holds the ports the kernel has stored, ra_size the room. *)
Record trunk_reqall := mk_ra {
  ra_ifname : string;
  ra_proto : Z;
  ra_size : Z;
  ra_ports : Z;
  ra_port : list trunk_reqport;
  ra_lacpreq : lacp_opreq;
}.
Record if_laddrreq := mk_laddr { iflr_name : string; iflr_addr : sockaddr; iflr_dstaddr : sockaddr }.

Record ifbreq := mk_ifbr {
  ifbr_name : string;
  ifbr_ifsname : option string;
  ifbr_ifsflags : option Z;
  ifbr_portno : option Z;
  ifbr_state : option Z;
  ifbr_priority : option Z;
  ifbr_path_cost : option Z;
  ifbr_role : option Z;
}.
(** The buffer of a list request holds what the kernel has stored in it. *)
Record ifbifconf := mk_ifbic { ifbic_name : string; ifbic_len : Z; ifbic_req : list ifbreq }.
(** struct ifbrparam is a name and a union; each request reads or stores one
    member. *)
Record ifbrparam := mk_ifbrp { ifbrp_name : string; ifbrp_val : option Z }.
Record ifbropreq := mk_ifbop {
  ifbop_name : string;
  ifbop_holdcount : option Z;
  ifbop_maxage : option Z;
  ifbop_hellotime : option Z;
  ifbop_fwddelay : option Z;
  ifbop_protocol : option Z;
  ifbop_priority : option Z;
  ifbop_root_bridge : option Z;
  ifbop_root_port : option Z;
  ifbop_root_path_cost : option Z;
  ifbop_desg_bridge : option Z;
}.
Record ifbareq := mk_ifba {
  ifba_name : string;
  ifba_ifsname : option string;
  ifba_age : option Z;
  ifba_dst : list byte;
  ifba_flags : option Z;
}.
Record ifbaconf := mk_ifbac { ifbac_name : string; ifbac_len : Z; ifbac_req : list ifbareq }.
Record ifbrlreq := mk_ifbrl {
  rl_name : string;
  rl_ifsname : string;
  rl_action : Z;
  rl_flags : Z;
  rl_src : option (list byte);
  rl_dst : option (list byte);
  rl_tagname : string;
}.
Record ifbrlconf := mk_ifbrlc {
  ifbrl_name : string;
  ifbrl_ifsname : string;
  ifbrl_len : Z;
  ifbrl_req : list ifbrlreq;
}.
(** The two names SIOCBRDGFRL reads of a struct ifbrlreq. *)
Record ifbrl_names := mk_rln { rln_name : string; rln_ifsname : string }.

(** ** ioctl(2) requests, by the type of their argument

    SIOCGIFGENERIC_DEFS is SIOCGIFGENERIC whose argument starts with the
    command SPPPIOGDEFS. *)

Inductive iocmd : Type → Type :=
| SIOCGIFFLAGS : iocmd ifreq
| SIOCSIFFLAGS : iocmd ifreq
| SIOCGIFXFLAGS : iocmd ifreq
| SIOCSIFXFLAGS : iocmd ifreq
| SIOCGIFMETRIC : iocmd ifreq
| SIOCSIFMETRIC : iocmd ifreq
| SIOCGIFMTU : iocmd ifreq
| SIOCSIFMTU : iocmd ifreq
| SIOCGIFRDOMAIN : iocmd ifreq
| SIOCSIFRDOMAIN : iocmd ifreq
| SIOCGIFPRIORITY : iocmd ifreq
| SIOCSIFPRIORITY : iocmd ifreq
| SIOCGIFADDR : iocmd ifreq
| SIOCGIFNETMASK : iocmd ifreq
| SIOCGIFDSTADDR : iocmd ifreq
| SIOCGIFBRDADDR : iocmd ifreq
| SIOCGETKALIVE : iocmd ifkalivereq
| SIOCSETKALIVE : iocmd ifkalivereq
| SIOCIFGCLONERS : iocmd if_clonereq
| SIOCSIFLLADDR : iocmd ifreq
| SIOCIFCREATE : iocmd ifreq
| SIOCIFDESTROY : iocmd ifreq
| SIOCGIFDESCR : iocmd (ifreq * string)
| SIOCSIFDESCR : iocmd (ifreq * string)
| SIOCSIFRTLABEL : iocmd (ifreq * string)
| SIOCDIFADDR : iocmd ifreq
| SIOCAIFADDR : iocmd aliasreq
| SIOCDIFADDR_IN6 : iocmd in6_ifreq
| SIOCAIFADDR_IN6 : iocmd in6_aliasreq
| SIOCGIFDSTADDR_IN6 : iocmd in6_ifreq
| SIOCGIFNETMASK_IN6 : iocmd in6_ifreq
| SIOCGIFAFLAG_IN6 : iocmd in6_ifreq
| SIOCGIFALIFETIME_IN6 : iocmd in6_ifreq
| SIOCAIFGROUP : iocmd ifgroupreq
| SIOCDIFGROUP : iocmd ifgroupreq
| SIOCGIFGATTR : iocmd ifgroupreq
| SIOCSIFGATTR : iocmd ifgroupreq
| SIOCGIFGMEMB : iocmd ifgmembreq
| SIOCG80211NWID : iocmd (ifreq * ieee80211_nwid)
| SIOCS80211NWID : iocmd (ifreq * ieee80211_nwid)
| SIOCG80211BSSID : iocmd ieee80211_bssid
| SIOCS80211BSSID : iocmd ieee80211_bssid
| SIOCG80211NWKEY : iocmd ieee80211_nwkey
| SIOCS80211NWKEY : iocmd ieee80211_nwkey
| SIOCG80211WPAPARMS : iocmd ieee80211_wpaparams
| SIOCS80211WPAPARMS : iocmd ieee80211_wpaparams
| SIOCG80211WPAPSK : iocmd ieee80211_wpapsk
| SIOCS80211WPAPSK : iocmd ieee80211_wpapsk
| SIOCG80211WMMPARMS : iocmd ieee80211_wmmparams
| SIOCS80211WMMPARMS : iocmd ieee80211_wmmparams
| SIOCG80211CHANNEL : iocmd ieee80211chanreq
| SIOCS80211CHANNEL : iocmd ieee80211chanreq
| SIOCG80211ALLCHANS : iocmd ieee80211_chanreq_all
| SIOCG80211TXPOWER : iocmd ieee80211_txpower
| SIOCS80211TXPOWER : iocmd ieee80211_txpower
| SIOCG80211FLAGS : iocmd ifreq
| SIOCS80211FLAGS : iocmd ifreq
| SIOCG80211POWER : iocmd ieee80211_power
| SIOCS80211POWER : iocmd ieee80211_power
| SIOCS80211SCAN : iocmd ifreq
| SIOCG80211NODE : iocmd ieee80211_nodereq
| SIOCG80211ALLNODES : iocmd ieee80211_nodereq_all
| SIOCGIFMEDIA : iocmd ifmediareq
| SIOCSIFMEDIA : iocmd ifreq
| SIOCGIFTIMESLOT : iocmd (ifreq * Z)
| SIOCSIFTIMESLOT : iocmd (ifreq * Z)
| SIOCGETLABEL : iocmd (ifreq * Z)
| SIOCSETLABEL : iocmd (ifreq * Z)
| SIOCGETVLAN : iocmd (ifreq * vlanreq)
| SIOCSETVLAN : iocmd (ifreq * vlanreq)
| SIOCGETVLANPRIO : iocmd (ifreq * vlanreq)
| SIOCSETVLANPRIO : iocmd (ifreq * vlanreq)
| SIOCGVH : iocmd (ifreq * carpreq)
| SIOCSVH : iocmd (ifreq * carpreq)
| SIOCGETPFSYNC : iocmd (ifreq * pfsyncreq)
| SIOCSETPFSYNC : iocmd (ifreq * pfsyncreq)
| SIOCGETPFLOW : iocmd (ifreq * pflowreq)
| SIOCSETPFLOW : iocmd (ifreq * pflowreq)
| PPPOEGETPARMS : iocmd pppoediscparms
| PPPOESETPARMS : iocmd pppoediscparms
| PPPOEGETSESSION : iocmd pppoeconnectionstate
| SIOCGIFGENERIC_DEFS : iocmd (ifreq * spppreq)
| SIOCGIFGENERIC : iocmd (ifreq * sauthreq)
| SIOCSIFGENERIC : iocmd (ifreq * sauthreq)
| SIOCGTRUNKPORT : iocmd trunk_reqport
| SIOCSTRUNKPORT : iocmd trunk_reqport
| SIOCSTRUNKDELPORT : iocmd trunk_reqport
| SIOCGTRUNK : iocmd trunk_reqall
| SIOCSTRUNK : iocmd trunk_reqall
| SIOCGLIFPHYADDR : iocmd if_laddrreq
| SIOCSLIFPHYADDR : iocmd if_laddrreq
| SIOCDIFPHYADDR : iocmd ifreq
| SIOCGLIFPHYRTABLE : iocmd ifreq
| SIOCSLIFPHYRTABLE : iocmd ifreq
| SIOCBRDGGPARAM : iocmd ifbropreq
| SIOCBRDGIFS : iocmd ifbifconf
| SIOCBRDGGCACHE : iocmd ifbrparam
| SIOCBRDGGTO : iocmd ifbrparam
| SIOCBRDGGIFFLGS : iocmd ifbreq
| SIOCBRDGSIFFLGS : iocmd ifbreq
| SIOCBRDGADD : iocmd ifbreq
| SIOCBRDGDEL : iocmd ifbreq
| SIOCBRDGADDS : iocmd ifbreq
| SIOCBRDGDELS : iocmd ifbreq
| SIOCBRDGFLUSH : iocmd ifbreq
| SIOCBRDGSIFPRIO : iocmd ifbreq
| SIOCBRDGSIFCOST : iocmd ifbreq
| SIOCBRDGSTO : iocmd ifbrparam
| SIOCBRDGSMA : iocmd ifbrparam
| SIOCBRDGSPRI : iocmd ifbrparam
| SIOCBRDGSPROTO : iocmd ifbrparam
| SIOCBRDGSFD : iocmd ifbrparam
| SIOCBRDGSHT : iocmd ifbrparam
| SIOCBRDGSCACHE : iocmd ifbrparam
| SIOCBRDGSTXHC : iocmd ifbrparam
| SIOCBRDGDADDR : iocmd ifbareq
| SIOCBRDGSADDR : iocmd ifbareq
| SIOCBRDGRTS : iocmd ifbaconf
| SIOCBRDGFRL : iocmd ifbrl_names
| SIOCBRDGGRL : iocmd ifbrlconf
| SIOCBRDGARL : iocmd ifbrlreq.

(** One entry of getifaddrs(3).  [ifa_addr] is the socket address; for a
    link-level one [ifa_type] and [ifa_link_state] are sdl_type and the
    link state of the interface data. *)
Record ifaddrs := mk_ifa {
  ifa_name : string;
  ifa_addr : sockaddr;
  ifa_type : Z;
  ifa_link_state : Z;
}.

(** ** What the code asks of its surroundings *)

(** The kernel: [k_ioctl fd c x] answers with errno (0 for success), the
    argument as the kernel leaves it and the new state; [k_socket] with a
    descriptor or an errno.  [k_file] reads a file as the chunks fgets(3)
    delivers with a buffer of 1024 bytes; [k_gettimeofday] is tv_sec, which
    time(3) returns too. *)
Class Kernel := {
  kstate : Type;
  k_ioctl : ∀ {A}, Z → iocmd A → A → kstate → Z * A * kstate;
  k_socket : Z → kstate → (Z + Z) * kstate;
  k_getifaddrs : kstate → option (list ifaddrs);
  k_arc4random_buf : nat → kstate → list byte * kstate;
  k_file : string → kstate → option (list string);
  k_gettimeofday : kstate → Z;
}.

(** The name resolver: gethostbyname(3) gives the address bytes of a host,
    getnetbyname(3) a network number, getaddrinfo(3) the first socket
    address for a host, an optional service and an address family, and
    getnameinfo(3) the numeric text of a socket address. *)
Class Libs := {
  gethostbyname : string → option (list byte);
  getnetbyname : string → option Z;
  getaddrinfo : Z → string → option string → option sockaddr;
  getnameinfo : sockaddr → option string;
}.

(** ** The global variables *)

Inductive gvar :=
| G_flags | G_xflags | G_setaddr | G_setipdst | G_doalias | G_metric | G_mtu
| G_rdomainid | G_clearaddr | G_s | G_newaddr | G_explicit_prefix | G_af
| G_oaf | G_showmediaflag | G_shownet80211chans | G_shownet80211nodes
| G_media_current | G_mediaopt_set | G_mediaopt_clear | G_actions
| G_tag | G_have_tag | G_netmask | G_aflag | G_ifaliases.

#[global] Instance gvar_eq_dec : EqDecision gvar.
Proof. solve_decision. Defined.

(** The rows of the table afs. *)
Inductive afswtch := AFS_inet | AFS_inet6 | AFS_atalk.

#[global] Instance afswtch_eq_dec : EqDecision afswtch.
Proof. solve_decision. Defined.

Definition af_name (p : afswtch) : string :=
  match p with AFS_inet => "inet" | AFS_inet6 => "inet6" | AFS_atalk => "atalk" end.
Definition af_af (p : afswtch) : Z :=
  match p with AFS_inet => AF_INET | AFS_inet6 => AF_INET6 | AFS_atalk => AF_APPLETALK end.

(** [INET6] is the macro the code is built with. *)
Definition afs (INET6 : bool) : list afswtch :=
  AFS_inet :: (if INET6 then [AFS_inet6] else []) ++ [AFS_atalk].

(** The globals that INET6 adds. *)
Record glob6 := mk_glob6 {
  g_ifr6 : in6_ifreq;
  g_in6_ridreq : in6_ifreq;
  g_in6_addreq : in6_aliasreq;
}.
Definition glob6_zero : glob6 := mk_glob6 ifreq6_zero ifreq6_zero aliasreq6_zero.

Section glob.
Context `{!Kernel}.

(** [g_v] holds the variables of type int and u_long, [g_env] errno, the
    allocator and the closed descriptors, [g_warn] what warn(3) and
    warnx(3) have reported, [g_out] what has been written to standard output.
    [G_netmask] is the address in the global netmask, in host byte order. *)
Record glob := mk_glob {
  g_v : gvar → Z;
  g_name : string;
  g_ifr : ifreq;
  g_ridreq : ifreq;
  g_in_addreq : aliasreq;
  g_addreq : aliasreq;
  g_at_nr : netrange;
  g_in6 : glob6;
  g_afp : option afswtch;
  g_env : cenv;
  g_warn : list string;
  g_out : string;
  g_k : kstate;
}.

Definition set_v f (g : glob) := mk_glob f (g_name g) (g_ifr g) (g_ridreq g) (g_in_addreq g) (g_addreq g) (g_at_nr g) (g_in6 g) (g_afp g) (g_env g) (g_warn g) (g_out g) (g_k g).
Definition set_name n (g : glob) := mk_glob (g_v g) n (g_ifr g) (g_ridreq g) (g_in_addreq g) (g_addreq g) (g_at_nr g) (g_in6 g) (g_afp g) (g_env g) (g_warn g) (g_out g) (g_k g).
Definition set_ifr r (g : glob) := mk_glob (g_v g) (g_name g) r (g_ridreq g) (g_in_addreq g) (g_addreq g) (g_at_nr g) (g_in6 g) (g_afp g) (g_env g) (g_warn g) (g_out g) (g_k g).
Definition set_ridreq r (g : glob) := mk_glob (g_v g) (g_name g) (g_ifr g) r (g_in_addreq g) (g_addreq g) (g_at_nr g) (g_in6 g) (g_afp g) (g_env g) (g_warn g) (g_out g) (g_k g).
Definition set_in_addreq r (g : glob) := mk_glob (g_v g) (g_name g) (g_ifr g) (g_ridreq g) r (g_addreq g) (g_at_nr g) (g_in6 g) (g_afp g) (g_env g) (g_warn g) (g_out g) (g_k g).
Definition set_addreq r (g : glob) := mk_glob (g_v g) (g_name g) (g_ifr g) (g_ridreq g) (g_in_addreq g) r (g_at_nr g) (g_in6 g) (g_afp g) (g_env g) (g_warn g) (g_out g) (g_k g).
Definition set_at_nr r (g : glob) := mk_glob (g_v g) (g_name g) (g_ifr g) (g_ridreq g) (g_in_addreq g) (g_addreq g) r (g_in6 g) (g_afp g) (g_env g) (g_warn g) (g_out g) (g_k g).
Definition set_in6 x (g : glob) := mk_glob (g_v g) (g_name g) (g_ifr g) (g_ridreq g) (g_in_addreq g) (g_addreq g) (g_at_nr g) x (g_afp g) (g_env g) (g_warn g) (g_out g) (g_k g).
Definition set_afp p (g : glob) := mk_glob (g_v g) (g_name g) (g_ifr g) (g_ridreq g) (g_in_addreq g) (g_addreq g) (g_at_nr g) (g_in6 g) p (g_env g) (g_warn g) (g_out g) (g_k g).
Definition set_env e (g : glob) := mk_glob (g_v g) (g_name g) (g_ifr g) (g_ridreq g) (g_in_addreq g) (g_addreq g) (g_at_nr g) (g_in6 g) (g_afp g) e (g_warn g) (g_out g) (g_k g).
Definition set_warn w (g : glob) := mk_glob (g_v g) (g_name g) (g_ifr g) (g_ridreq g) (g_in_addreq g) (g_addreq g) (g_at_nr g) (g_in6 g) (g_afp g) (g_env g) w (g_out g) (g_k g).
Definition set_out o (g : glob) := mk_glob (g_v g) (g_name g) (g_ifr g) (g_ridreq g) (g_in_addreq g) (g_addreq g) (g_at_nr g) (g_in6 g) (g_afp g) (g_env g) (g_warn g) o (g_k g).
Definition set_k k (g : glob) := mk_glob (g_v g) (g_name g) (g_ifr g) (g_ridreq g) (g_in_addreq g) (g_addreq g) (g_at_nr g) (g_in6 g) (g_afp g) (g_env g) (g_warn g) (g_out g) k.

(** The initial values: zero, except for af, and for oaf of getsock(). *)
Definition g_v_init : gvar → Z :=
  <[G_af := AF_INET]> (<[G_oaf := -1]> (λ _, 0)).

Definition glob_init (c : cenv) (k : kstate) : glob :=
  mk_glob g_v_init "" ifreq_zero ifreq_zero aliasreq_zero aliasreq_zero
    (mk_nr 0 0 0) glob6_zero None c [] "" k.

Definition GM := CM glob.

Definition rd (v : gvar) : GM Z := gets (λ g, g_v g v).
Definition wr (v : gvar) (x : Z) : GM unit := modify (λ g, set_v (<[v := x]> (g_v g)) g).

(** err(3), errx(3) and usage() end the process. *)
Definition err {A} : GM A := stopM (SExit 1).
Definition undef {A} : GM A := stopM SUndef.
Definition warn (msg : string) : GM unit := modify (λ g, set_warn (g_warn g ++ [msg]) g).

(** printf(3), fputs(3) and putchar(3) to standard output. *)
Definition out (s : string) : GM unit := modify (λ g, set_out (g_out g +:+ s) g).

Fixpoint each {A} (f : A → GM unit) (l : list A) : GM unit :=
  match l with
  | [] => mret tt
  | x :: l => f x;; each f l
  end.

Definition in_env {A} (m : CM cenv A) : GM A := zoom g_env set_env m.

(** A computed value that the code may not be entitled to. *)
Definition need {A} (o : option A) : GM A :=
  match o with Some a => mret a | None => undef end.

(** A char pointer argument; [None] is NULL. *)
Definition cptr := option string.
Definition deref (p : cptr) : GM string := need p.

Definition errno_set (e : Z) : GM unit := in_env (set_errno e).
Definition errno : GM Z := gets (λ g, ce_errno (g_env g)).

(** ioctl(2) on the descriptor s: the argument is copied back only on
    success. *)
Definition ioctl {A} (c : iocmd A) (x : A) : GM (Z * A) :=
  λ g,
    let '(e, x', k') := k_ioctl (g_v g G_s) c x (g_k g) in
    if e =? 0 then (Ok (0, x'), set_k k' g)
    else (Ok (-1, x), set_k k' (set_env (mk_cenv (ce_alloc (g_env g)) e (ce_closed (g_env g))) g)).

(** ioctl with the global ifr as argument. *)
Definition ioctl_ifr (c : iocmd ifreq) : GM Z :=
  r ← gets g_ifr;
  '(z, r') ← ioctl c r;
  modify (set_ifr r');; mret z.

(** ioctl with the global ifr, whose ifr_data points to an object. *)
Definition ioctl_data {D} (c : iocmd (ifreq * D)) (d : D) : GM (Z * D) :=
  r ← gets g_ifr;
  '(z, (r', d')) ← ioctl c (set_ifr_data r, d);
  modify (set_ifr r');; mret (z, d').

(** strlcpy(ifr.ifr_name, name, sizeof(ifr.ifr_name)) *)
Definition ifr_take_name : GM unit :=
  modify (λ g, set_ifr (set_ifr_name (g_ifr g) (ifname (g_name g))) g).

(** strtonum(3) whose error is fatal. *)
Definition strtonum_or_err (s : string) (lo hi : Z) : GM Z :=
  match strtonum_s s lo hi with inl n => mret n | inr _ => err end.

Lemma bind_need {A B} (o : option A) a (f : A → GM B) g : o = Some a → (need o ≫= f) g = f a g.
Proof. by intros ->. Qed.

Lemma bind_rd {B} v (f : Z → GM B) g : (rd v ≫= f) g = f (g_v g v) g.
Proof. reflexivity. Qed.

Lemma bind_run {A B} (m : GM A) (f : A → GM B) g a g' : m g = (Ok a, g') → (m ≫= f) g = f a g'.
Proof. apply bind_ok. Qed.

Lemma bind_get {A B} (h : glob → A) (f : A → GM B) g : ((gets h : GM A) ≫= f) g = f (h g) g.
Proof. reflexivity. Qed.

Lemma bind_mod {B} (h : glob → glob) (f : unit → GM B) g : ((modify h : GM unit) ≫= f) g = f tt (h g).
Proof. reflexivity. Qed.

Lemma bind_wr {B} v x (f : unit → GM B) g : (wr v x ≫= f) g = f tt (set_v (<[v := x]> (g_v g)) g).
Proof. reflexivity. Qed.

(** ** Rules of [wp] for the operations on the globals *)

Lemma wp_wr v x g (Q : unit → glob → Prop) :
  Q tt (set_v (<[v := x]> (g_v g)) g) → wp (wr v x) Q g.
Proof. done. Qed.

Lemma wp_rd v g (Q : Z → glob → Prop) : Q (g_v g v) g → wp (rd v) Q g.
Proof. done. Qed.

Lemma wp_need {A} (o : option A) a g (Q : A → glob → Prop) : o = Some a → Q a g → wp (need o) Q g.
Proof. by intros ->. Qed.

Lemma wp_ioctl {A} (c : iocmd A) x g (Q : Z * A → glob → Prop) e x' k' :
  k_ioctl (g_v g G_s) c x (g_k g) = (e, x', k') →
  (e = 0 → Q (0, x') (set_k k' g)) →
  (e ≠ 0 → Q (-1, x) (set_k k' (set_env (mk_cenv (ce_alloc (g_env g)) e (ce_closed (g_env g))) g))) →
  wp (ioctl c x) Q g.
Proof.
  intros E H0 H1. unfold wp, ioctl. rewrite E. destruct (Z.eqb_spec e 0); auto.
Qed.
End glob.

#[global] Arguments GM {_} _.
