(* ===== verification/Fits.v ===== *)
(** * Fits: requests that fit their structures

    [fits c x] says that the argument [x] of the request [c] is a value of the
    C structure the kernel takes it for: names are terminated within their
    arrays, arrays have their lengths, integers are in the range of their
    types, and a request that reads the union of struct ifreq finds bytes
    there and no pointer.  That structure is the one the request is declared
    with, except for SIOCG80211ALLNODES: net80211/ieee80211_ioctl.h declares it
    with struct ieee80211_nodereq, while its callers pass, and ieee80211_ioctl()
    reads, the smaller struct ieee80211_nodereq_all.  [TypedKernel] is a kernel
    with an invariant that requests with such arguments keep, and that answers
    them with values of the same structures. *)
From coqutil Require Import Byte Word.LittleEndianList.
From stdpp Require Import base list strings functions.
From S2P Require Import Prelude CString IfData.

(** ** Values of C types *)

Definition in_u8 (z : Z) : Prop := 0 ≤ z < 2 ^ 8.
Definition in_u16 (z : Z) : Prop := 0 ≤ z < 2 ^ 16.
Definition in_u32 (z : Z) : Prop := 0 ≤ z < 2 ^ 32.
Definition in_u64 (z : Z) : Prop := 0 ≤ z < 2 ^ 64.
Definition in_i16 (z : Z) : Prop := - 2 ^ 15 ≤ z < 2 ^ 15.
Definition in_int (z : Z) : Prop := - 2 ^ 31 ≤ z < 2 ^ 31.

(** A string in an array of [n] bytes, with its terminator. *)
Definition in_chars (n : Z) (s : string) : Prop := slen s < n.
Definition is_name : string → Prop := in_chars IFNAMSIZ.

(** A field that may be indeterminate. *)
Definition if_set {A} (P : A → Prop) (o : option A) : Prop := from_option P True o.

(** ** Structures *)

Definition ifreq_ok (r : ifreq) : Prop := is_name (ifr_name r) ∧ if_set (λ bs, Zlen bs = 16) (ifr_bytes r).
Definition ifreq_set (r : ifreq) : Prop := is_name (ifr_name r) ∧ ∃ bs, ifr_bytes r = Some bs ∧ Zlen bs = 16.
Definition with_data {D} (P : D → Prop) (x : ifreq * D) : Prop := ifreq_ok x.1 ∧ P x.2.

Definition aliasreq_ok (q : aliasreq) : Prop :=
  is_name (ifra_name q) ∧ Zlen (ifra_addr q) = 16 ∧ Zlen (ifra_dstaddr q) = 16 ∧ Zlen (ifra_mask q) = 16.
Definition ifreq6_ok (r : in6_ifreq) : Prop := is_name (ifr6_name r) ∧ length (ifr6_ifru r) = SIZEOF_IFRU6.
Definition lifetime_ok (l : in6_addrlifetime) : Prop :=
  in_int (ia6t_expire l) ∧ in_int (ia6t_preferred l) ∧ in_u32 (ia6t_vltime l) ∧ in_u32 (ia6t_pltime l).
Definition aliasreq6_ok (q : in6_aliasreq) : Prop :=
  is_name (ifra6_name q) ∧ length (ifra6_addr q) = 28%nat ∧ length (ifra6_dstaddr q) = 28%nat
  ∧ length (ifra6_prefixmask q) = 28%nat ∧ in_int (ifra6_flags q) ∧ lifetime_ok (ifra6_lifetime q).
Definition ifgroupreq_ok (g : ifgroupreq) : Prop :=
  is_name (ifgr_name g) ∧ is_name (ifgr_group g) ∧ in_int (ifgr_carp_demoted g).
Definition ifgmembreq_ok (g : ifgmembreq) : Prop :=
  is_name (ifgm_name g) ∧ in_u32 (ifgr_len g) ∧ Forall is_name (ifgr_groups g).
Definition if_clonereq_ok (r : if_clonereq) : Prop :=
  in_int (ifcr_total r) ∧ in_int (ifcr_count r) ∧ Forall is_name (ifcr_buffer r).
Definition ifkalivereq_ok (r : ifkalivereq) : Prop :=
  is_name (ikar_name r) ∧ in_int (ikar_timeo r) ∧ in_int (ikar_cnt r).

Definition nwid_ok (n : ieee80211_nwid) : Prop := in_u8 (i_len n) ∧ Zlen (i_nwid n) = 32.
Definition bssid_ok (b : ieee80211_bssid) : Prop := is_name (bss_name b) ∧ Zlen (i_bssid b) = 6.
(** i_keydat points to a key of 16 bytes, or to nothing. *)
Definition nwkey_ok (k : ieee80211_nwkey) : Prop :=
  is_name (nk_name k) ∧ in_int (i_wepon k) ∧ in_int (i_defkid k) ∧ length (i_key k) = 4%nat
  ∧ Forall (λ k, in_int k.1 ∧ (k.2 = [] ∨ Zlen k.2 = 16)) (i_key k).
Definition wpaparams_ok (w : ieee80211_wpaparams) : Prop :=
  is_name (wpa_name w) ∧ in_int (wpa_enabled w) ∧ in_u32 (i_protos w) ∧ in_u32 (i_akms w)
  ∧ in_u32 (i_ciphers w) ∧ in_u32 (i_groupcipher w).
Definition wpapsk_ok (p : ieee80211_wpapsk) : Prop :=
  is_name (psk_name p) ∧ in_int (psk_enabled p) ∧ Zlen (i_psk p) = 32.
Definition wmmparams_ok (w : ieee80211_wmmparams) : Prop := is_name (wmm_name w) ∧ in_int (wmm_enabled w).
Definition chanreq_ok (c : ieee80211chanreq) : Prop := is_name (ch_name c) ∧ in_u16 (i_channel c).
(** i_chans points to 257 channels. *)
Definition chans_ok (c : ieee80211_chanreq_all) : Prop :=
  is_name (ca_name c) ∧ length (i_chans c) = 257%nat
  ∧ Forall (λ ch, in_u16 (ic_freq ch) ∧ in_u16 (ch_flags ch)) (i_chans c).
Definition txpower_ok (t : ieee80211_txpower) : Prop :=
  is_name (tx_name t) ∧ in_int (i_mode t) ∧ if_set in_i16 (i_val t).
Definition power_ok (p : ieee80211_power) : Prop :=
  is_name (pw_name p) ∧ if_set in_int (pw_enabled p) ∧ if_set in_int (i_maxsleep p).
Definition nodereq_ok (n : ieee80211_nodereq) : Prop :=
  if_set is_name (nr_ifname n) ∧ Zlen (nr_macaddr n) = 6 ∧ Zlen (nr_bssid n) = 6 ∧ in_u8 (nr_nwid_len n)
  ∧ Zlen (nr_nwid n) = 32 ∧ in_u16 (nr_channel n) ∧ in_u8 (nr_nrates n) ∧ Zlen (nr_rates n) = 15
  ∧ in_u8 (nr_rssi n) ∧ in_u8 (nr_max_rssi n).
Definition nodereq_all_ok (n : ieee80211_nodereq_all) : Prop :=
  is_name (na_ifname n) ∧ in_u64 (na_size n) ∧ in_int (na_nodes n) ∧ Forall nodereq_ok (na_node n).

Definition ifmediareq_ok (m : ifmediareq) : Prop :=
  is_name (ifm_name m) ∧ in_int (ifm_current m) ∧ in_int (ifm_status m) ∧ in_int (ifm_active m)
  ∧ in_int (ifm_count m) ∧ Forall in_int (ifm_ulist m).
Definition vlanreq_ok (v : vlanreq) : Prop := is_name (vlr_parent v) ∧ in_u16 (vlr_tag v).
Definition carpreq_ok (c : carpreq) : Prop :=
  is_name (carpr_carpdev c) ∧ length (carpr_vhids c) = 32%nat ∧ Forall in_u8 (carpr_vhids c)
  ∧ length (carpr_advskews c) = 32%nat ∧ Forall in_u8 (carpr_advskews c)
  ∧ length (carpr_states c) = 32%nat ∧ Forall in_u8 (carpr_states c) ∧ in_int (carpr_state c)
  ∧ in_u8 (carpr_balancing c) ∧ in_int (carpr_advbase c) ∧ slen (carpr_key c) ≤ 20 ∧ in_u32 (carpr_peer c).
Definition pfsyncreq_ok (p : pfsyncreq) : Prop :=
  is_name (pfsyncr_syncdev p) ∧ in_u32 (pfsyncr_syncpeer p) ∧ in_int (pfsyncr_maxupdates p)
  ∧ in_int (pfsyncr_defer p).
Definition pflowreq_ok (p : pflowreq) : Prop :=
  in_u32 (sender_ip p) ∧ in_u32 (receiver_ip p) ∧ in_u16 (receiver_port p) ∧ in_u16 (addrmask p).
Definition pppoediscparms_ok (p : pppoediscparms) : Prop :=
  is_name (pp_ifname p) ∧ if_set is_name (eth_ifname p) ∧ if_set (in_chars 512) (ac_name p)
  ∧ if_set (in_chars 512) (service_name p).
Definition session_ok (s : pppoeconnectionstate) : Prop :=
  is_name (ses_ifname s) ∧ in_u32 (ses_state s) ∧ in_u32 (session_id s) ∧ in_u32 (padi_retry_no s)
  ∧ in_u32 (padr_retry_no s).
Definition sauthreq_ok (s : sauthreq) : Prop :=
  in_int (spa_cmd s) ∧ in_u16 (spa_proto s) ∧ in_u16 (spa_flags s) ∧ in_chars 256 (spa_name s)
  ∧ in_chars 256 (spa_secret s).
Definition reqport_ok (r : trunk_reqport) : Prop :=
  is_name (rp_ifname r) ∧ is_name (rp_portname r) ∧ in_u32 (rp_flags r).
Definition reqall_ok (r : trunk_reqall) : Prop :=
  is_name (ra_ifname r) ∧ in_u32 (ra_proto r) ∧ in_u64 (ra_size r) ∧ in_int (ra_ports r)
  ∧ Forall reqport_ok (ra_port r).
(** The addresses are struct sockaddr_storage. *)
Definition laddrreq_ok (r : if_laddrreq) : Prop :=
  is_name (iflr_name r) ∧ Zlen (iflr_addr r) ≤ 256 ∧ Zlen (iflr_dstaddr r) ≤ 256.

Definition ifbreq_ok (r : ifbreq) : Prop :=
  is_name (ifbr_name r) ∧ if_set is_name (ifbr_ifsname r) ∧ if_set in_u32 (ifbr_ifsflags r)
  ∧ if_set in_u8 (ifbr_portno r) ∧ if_set in_u8 (ifbr_state r) ∧ if_set in_u8 (ifbr_priority r)
  ∧ if_set in_u32 (ifbr_path_cost r) ∧ if_set in_u8 (ifbr_role r).
Definition ifbifconf_ok (r : ifbifconf) : Prop :=
  is_name (ifbic_name r) ∧ in_u32 (ifbic_len r) ∧ Forall ifbreq_ok (ifbic_req r).
(** The member of the union that the request reads. *)
Definition param_ok (P : Z → Prop) (r : ifbrparam) : Prop := is_name (ifbrp_name r) ∧ if_set P (ifbrp_val r).
Definition param_set (P : Z → Prop) (r : ifbrparam) : Prop :=
  is_name (ifbrp_name r) ∧ ∃ v, ifbrp_val r = Some v ∧ P v.
Definition ifbropreq_ok (r : ifbropreq) : Prop :=
  is_name (ifbop_name r) ∧ if_set in_u8 (ifbop_holdcount r) ∧ if_set in_u8 (ifbop_maxage r)
  ∧ if_set in_u8 (ifbop_hellotime r) ∧ if_set in_u8 (ifbop_fwddelay r) ∧ if_set in_u8 (ifbop_protocol r)
  ∧ if_set in_u16 (ifbop_priority r) ∧ if_set in_u64 (ifbop_root_bridge r)
  ∧ if_set in_u16 (ifbop_root_port r) ∧ if_set in_u32 (ifbop_root_path_cost r)
  ∧ if_set in_u64 (ifbop_desg_bridge r).
Definition ifbareq_ok (r : ifbareq) : Prop :=
  is_name (ifba_name r) ∧ if_set is_name (ifba_ifsname r) ∧ if_set in_u8 (ifba_age r)
  ∧ Zlen (ifba_dst r) = 6 ∧ if_set in_u8 (ifba_flags r).
Definition ifbaconf_ok (r : ifbaconf) : Prop :=
  is_name (ifbac_name r) ∧ in_u32 (ifbac_len r) ∧ Forall ifbareq_ok (ifbac_req r).
Definition ifbrlreq_ok (r : ifbrlreq) : Prop :=
  is_name (rl_name r) ∧ is_name (rl_ifsname r) ∧ in_u8 (rl_action r) ∧ in_u8 (rl_flags r)
  ∧ if_set (λ a, Zlen a = 6) (rl_src r) ∧ if_set (λ a, Zlen a = 6) (rl_dst r) ∧ in_chars 64 (rl_tagname r).
Definition ifbrlconf_ok (r : ifbrlconf) : Prop :=
  is_name (ifbrl_name r) ∧ is_name (ifbrl_ifsname r) ∧ in_u32 (ifbrl_len r) ∧ Forall ifbrlreq_ok (ifbrl_req r).
Definition rln_ok (r : ifbrl_names) : Prop := is_name (rln_name r) ∧ is_name (rln_ifsname r).

(** ** Requests *)

Definition fits {A} (c : iocmd A) : A → Prop :=
  match c with
  | SIOCGIFFLAGS | SIOCGIFXFLAGS | SIOCGIFMETRIC | SIOCGIFMTU | SIOCGIFRDOMAIN | SIOCGIFPRIORITY
  | SIOCGIFADDR | SIOCGIFNETMASK | SIOCGIFDSTADDR | SIOCGIFBRDADDR | SIOCGLIFPHYRTABLE
  | SIOCIFCREATE | SIOCIFDESTROY | SIOCG80211FLAGS | SIOCS80211SCAN | SIOCDIFPHYADDR => ifreq_ok
  | SIOCSIFFLAGS | SIOCSIFXFLAGS | SIOCSIFMETRIC | SIOCSIFMTU | SIOCSIFRDOMAIN | SIOCSIFPRIORITY
  | SIOCSIFLLADDR | SIOCDIFADDR | SIOCS80211FLAGS | SIOCSIFMEDIA | SIOCSLIFPHYRTABLE => ifreq_set
  | SIOCGIFDESCR | SIOCSIFDESCR | SIOCSIFRTLABEL => with_data (λ _, True)
  | SIOCGETKALIVE | SIOCSETKALIVE => ifkalivereq_ok
  | SIOCIFGCLONERS => if_clonereq_ok
  | SIOCAIFADDR => aliasreq_ok
  | SIOCDIFADDR_IN6 | SIOCGIFDSTADDR_IN6 | SIOCGIFNETMASK_IN6 | SIOCGIFAFLAG_IN6
  | SIOCGIFALIFETIME_IN6 => ifreq6_ok
  | SIOCAIFADDR_IN6 => aliasreq6_ok
  | SIOCAIFGROUP | SIOCDIFGROUP | SIOCGIFGATTR | SIOCSIFGATTR => ifgroupreq_ok
  | SIOCGIFGMEMB => ifgmembreq_ok
  | SIOCG80211NWID | SIOCS80211NWID => with_data nwid_ok
  | SIOCG80211BSSID | SIOCS80211BSSID => bssid_ok
  | SIOCG80211NWKEY | SIOCS80211NWKEY => nwkey_ok
  | SIOCG80211WPAPARMS | SIOCS80211WPAPARMS => wpaparams_ok
  | SIOCG80211WPAPSK | SIOCS80211WPAPSK => wpapsk_ok
  | SIOCG80211WMMPARMS | SIOCS80211WMMPARMS => wmmparams_ok
  | SIOCG80211CHANNEL | SIOCS80211CHANNEL => chanreq_ok
  | SIOCG80211ALLCHANS => chans_ok
  | SIOCG80211TXPOWER | SIOCS80211TXPOWER => txpower_ok
  | SIOCG80211POWER | SIOCS80211POWER => power_ok
  | SIOCG80211NODE => nodereq_ok
  | SIOCG80211ALLNODES => nodereq_all_ok
  | SIOCGIFMEDIA => ifmediareq_ok
  | SIOCGIFTIMESLOT | SIOCSIFTIMESLOT => with_data in_u64
  | SIOCGETLABEL | SIOCSETLABEL => with_data in_u32
  | SIOCGETVLAN | SIOCSETVLAN | SIOCGETVLANPRIO | SIOCSETVLANPRIO => with_data vlanreq_ok
  | SIOCGVH | SIOCSVH => with_data carpreq_ok
  | SIOCGETPFSYNC | SIOCSETPFSYNC => with_data pfsyncreq_ok
  | SIOCGETPFLOW | SIOCSETPFLOW => with_data pflowreq_ok
  | PPPOEGETPARMS | PPPOESETPARMS => pppoediscparms_ok
  | PPPOEGETSESSION => session_ok
  | SIOCGIFGENERIC_DEFS => with_data (λ _, True)
  | SIOCGIFGENERIC | SIOCSIFGENERIC => with_data sauthreq_ok
  | SIOCGTRUNKPORT | SIOCSTRUNKPORT | SIOCSTRUNKDELPORT => reqport_ok
  | SIOCGTRUNK | SIOCSTRUNK => reqall_ok
  | SIOCGLIFPHYADDR | SIOCSLIFPHYADDR => laddrreq_ok
  | SIOCBRDGGPARAM => ifbropreq_ok
  | SIOCBRDGIFS => ifbifconf_ok
  | SIOCBRDGGCACHE => param_ok in_u32
  | SIOCBRDGGTO => param_ok in_int
  | SIOCBRDGGIFFLGS | SIOCBRDGSIFFLGS | SIOCBRDGADD | SIOCBRDGDEL | SIOCBRDGADDS | SIOCBRDGDELS
  | SIOCBRDGFLUSH | SIOCBRDGSIFPRIO | SIOCBRDGSIFCOST => ifbreq_ok
  | SIOCBRDGSTO => param_set in_int
  | SIOCBRDGSPRI => param_set in_u16
  | SIOCBRDGSCACHE => param_set in_u32
  | SIOCBRDGSMA | SIOCBRDGSPROTO | SIOCBRDGSFD | SIOCBRDGSHT | SIOCBRDGSTXHC => param_set in_u8
  | SIOCBRDGDADDR | SIOCBRDGSADDR => ifbareq_ok
  | SIOCBRDGRTS => ifbaconf_ok
  | SIOCBRDGFRL => rln_ok
  | SIOCBRDGGRL => ifbrlconf_ok
  | SIOCBRDGARL => ifbrlreq_ok
  end.

(** ** Kernels that answer such requests *)

Class TypedKernel (K : Kernel) := {
  k_ok : kstate → Prop;
  k_ok_ioctl {A} fd (c : iocmd A) x k :
    k_ok k → fits c x →
    ∀ e x' k', k_ioctl fd c x k = (e, x', k') → k_ok k' ∧ (e = 0 → fits c x');
  k_ok_socket naf k : k_ok k → k_ok (k_socket naf k).2;
  k_ok_random n k : k_ok k → k_ok (k_arc4random_buf n k).2 ∧ length (k_arc4random_buf n k).1 = n;
}.

(** The name resolver: addresses of hosts are Internet addresses. *)
Class TypedLibs (LB : Libs) := {
  host_four s h : gethostbyname s = Some h → length h = 4%nat;
}.
