(* ===== verification/IfNet.v ===== *)
(** * IfNet: interfaces in the kernel

    The objects of the kernel that the interface requests work on: struct
    ifnet of src/usr/src/sys/net/if.h and, for a wireless interface, the
    struct ieee80211com of src/usr/src/sys/net80211/ieee80211_var.h that it
    is the start of, with its keys and nodes.  Scalars of ieee80211com are
    one function of [icvar], as the globals of IfData are of [gvar]. *)
From coqutil Require Import Byte.
From stdpp Require Import base list strings functions.
From S2P Require Import Prelude IfData.

(** ** Constants of net80211 *)

Definition ENETRESET : Z := 52.
Definition ENODEV : Z := 19.
Definition EFAULT : Z := 14.

Definition IEEE80211_S_INIT : Z := 0.
Definition IEEE80211_S_SCAN : Z := 1.
Definition IEEE80211_S_RUN : Z := 4.
Definition IEEE80211_M_STA : Z := 1.
Definition IEEE80211_M_HOSTAP : Z := 6.
Definition IEEE80211_M_MONITOR : Z := 8.

Definition IEEE80211_F_ASCAN : Z := 0x1.
Definition IEEE80211_F_WEPON : Z := 0x100.
Definition IEEE80211_F_PMGTON : Z := 0x400.
Definition IEEE80211_F_DESBSSID : Z := 0x800.
Definition IEEE80211_F_QOS : Z := 0x80000.
Definition IEEE80211_F_RSNON : Z := 0x200000.
Definition IEEE80211_F_PSK : Z := 0x400000.
Definition IEEE80211_F_USERMASK : Z := 0xf0000000.
Definition IEEE80211_F_HOSTAPMASK : Z := 0x30000000.
Definition IEEE80211_F_USERSHIFT : Z := 28.

Definition IEEE80211_C_WEP : Z := 0x1.
Definition IEEE80211_C_PMGT : Z := 0x4.
Definition IEEE80211_C_TXPMGT : Z := 0x40.
Definition IEEE80211_C_QOS : Z := 0x800.
Definition IEEE80211_C_RSN : Z := 0x1000.

Definition IEEE80211_PROTO_RSN : Z := 1.
Definition IEEE80211_PROTO_WPA : Z := 2.
Definition IEEE80211_AKM_8021X : Z := 1.
Definition IEEE80211_AKM_PSK : Z := 2.
Definition IEEE80211_AKM_SHA256_8021X : Z := 4.
Definition IEEE80211_AKM_SHA256_PSK : Z := 8.
Definition IEEE80211_CIPHER_NONE : Z := 0.
Definition IEEE80211_CIPHER_USEGROUP : Z := 1.
Definition IEEE80211_CIPHER_WEP40 : Z := 2.
Definition IEEE80211_CIPHER_TKIP : Z := 4.
Definition IEEE80211_CIPHER_CCMP : Z := 8.
Definition IEEE80211_CIPHER_WEP104 : Z := 16.
Definition IEEE80211_CIPHER_BIP : Z := 32.

Definition IEEE80211_KEY_GROUP : Z := 1.
Definition IEEE80211_KEY_TX : Z := 2.
Definition IEEE80211_KEYBUF_SIZE : Z := 16.
Definition IEEE80211_CHAN_MAX : Z := 255.
Definition IEEE80211_TXPOWER_MIN : Z := -50.
Definition IEEE80211_TXPOWER_MAX : Z := 100.
Definition IEEE80211_MTU_MIN : Z := 32.
Definition IEEE80211_MTU_MAX : Z := 2290.
Definition IEEE80211_SCAN_UNLOCKED : Z := 0.
Definition IEEE80211_SCAN_LOCKED : Z := 1.
Definition IEEE80211_SCAN_REQUEST : Z := 2.
Definition IEEE80211_SCAN_RESUME : Z := 4.
Definition SIZEOF_NODEREQ : Z := 124.

(** ** struct ieee80211com *)

(** A pointer to a channel: NULL, the token IEEE80211_CHAN_ANYC, or the address
    of an element of ic_channels[]. *)
Inductive chanptr := CH_null | CH_anyc | CH_idx (n : Z).

#[global] Instance chanptr_eq_dec : EqDecision chanptr.
Proof. solve_decision. Defined.

(** The driver's part of a key, k_priv, and its counters are left out. *)
Record ieee80211_key := mk_key {
  k_id : Z;
  k_cipher : Z;
  k_flags : Z;
  k_len : Z;
  k_key : list byte;
}.

Definition key_zero : ieee80211_key := mk_key 0 0 0 0 (zeros 32).

(** [ni_ptr] is the address of the node, which ic_bss is compared with. *)
Record ieee80211_node := mk_ni {
  ni_ptr : Z;
  ni_macaddr : list byte;
  ni_bssid : list byte;
  ni_esslen : Z;
  ni_essid : list byte;
  ni_chan : chanptr;
  ni_nrates : Z;
  ni_rates : list byte;
  ni_rssi : Z;
  ni_tstamp : list byte;
  ni_intval : Z;
  ni_capinfo : Z;
  ni_erp : Z;
  ni_pwrsave : Z;
  ni_associd : Z;
  ni_txseq : Z;
  ni_rxseq : Z;
  ni_fails : Z;
  ni_inact : Z;
  ni_txrate : Z;
  ni_state : Z;
}.

Inductive icvar :=
| IC_flags | IC_caps | IC_opmode | IC_state | IC_scan_lock | IC_max_rssi | IC_lintval
| IC_txpower | IC_des_esslen | IC_def_txkey | IC_rsnprotos | IC_rsnakms | IC_rsnciphers
| IC_rsngroupcipher.

#[global] Instance icvar_eq_dec : EqDecision icvar.
Proof. solve_decision. Defined.

(** [ic_chan_active] is a bitmap of 32 bytes; [ic_tree] lists the nodes of the
    tree in the order of their addresses. *)
Record ieee80211com := mk_ic {
  ic_v : icvar → Z;
  ic_myaddr : list byte;
  ic_channels : list ieee80211_channel;
  ic_chan_active : list byte;
  ic_bss : ieee80211_node;
  ic_tree : list ieee80211_node;
  ic_ibss_chan : chanptr;
  ic_des_chan : chanptr;
  ic_des_essid : list byte;
  ic_des_bssid : list byte;
  ic_nw_keys : list ieee80211_key;
  ic_psk : list byte;
}.

Definition set_ic_v f ic := mk_ic f (ic_myaddr ic) (ic_channels ic) (ic_chan_active ic) (ic_bss ic) (ic_tree ic) (ic_ibss_chan ic) (ic_des_chan ic) (ic_des_essid ic) (ic_des_bssid ic) (ic_nw_keys ic) (ic_psk ic).
Definition set_ic_tree t ic := mk_ic (ic_v ic) (ic_myaddr ic) (ic_channels ic) (ic_chan_active ic) (ic_bss ic) t (ic_ibss_chan ic) (ic_des_chan ic) (ic_des_essid ic) (ic_des_bssid ic) (ic_nw_keys ic) (ic_psk ic).
Definition set_ic_ibss_chan c ic := mk_ic (ic_v ic) (ic_myaddr ic) (ic_channels ic) (ic_chan_active ic) (ic_bss ic) (ic_tree ic) c (ic_des_chan ic) (ic_des_essid ic) (ic_des_bssid ic) (ic_nw_keys ic) (ic_psk ic).
Definition set_ic_des_chan c ic := mk_ic (ic_v ic) (ic_myaddr ic) (ic_channels ic) (ic_chan_active ic) (ic_bss ic) (ic_tree ic) (ic_ibss_chan ic) c (ic_des_essid ic) (ic_des_bssid ic) (ic_nw_keys ic) (ic_psk ic).
Definition set_ic_des_essid e ic := mk_ic (ic_v ic) (ic_myaddr ic) (ic_channels ic) (ic_chan_active ic) (ic_bss ic) (ic_tree ic) (ic_ibss_chan ic) (ic_des_chan ic) e (ic_des_bssid ic) (ic_nw_keys ic) (ic_psk ic).
Definition set_ic_des_bssid b ic := mk_ic (ic_v ic) (ic_myaddr ic) (ic_channels ic) (ic_chan_active ic) (ic_bss ic) (ic_tree ic) (ic_ibss_chan ic) (ic_des_chan ic) (ic_des_essid ic) b (ic_nw_keys ic) (ic_psk ic).
Definition set_ic_nw_keys k ic := mk_ic (ic_v ic) (ic_myaddr ic) (ic_channels ic) (ic_chan_active ic) (ic_bss ic) (ic_tree ic) (ic_ibss_chan ic) (ic_des_chan ic) (ic_des_essid ic) (ic_des_bssid ic) k (ic_psk ic).
Definition set_ic_psk p ic := mk_ic (ic_v ic) (ic_myaddr ic) (ic_channels ic) (ic_chan_active ic) (ic_bss ic) (ic_tree ic) (ic_ibss_chan ic) (ic_des_chan ic) (ic_des_essid ic) (ic_des_bssid ic) (ic_nw_keys ic) p.

(** ** Addresses of an interface

    [ia_netmask] is [None] for the mask of the class of the address, which
    in_ifinit() computes. *)

Record inaddr := mk_ia { ia_addr : Z; ia_netmask : option Z }.

(** ** struct ifnet

    [if_ic] is the rest of the struct ieee80211com of a wireless interface. *)

Record ifnet := mk_ifnet {
  if_xname : string;
  if_flags : Z;
  if_xflags : Z;
  if_metric : Z;
  if_mtu : Z;
  if_priority : Z;
  if_rdomain : Z;
  if_description : string;
  if_addrlist : list inaddr;
  if_ic : option ieee80211com;
}.

Definition with_if_flags (f : Z) (i : ifnet) : ifnet :=
  mk_ifnet (if_xname i) f (if_xflags i) (if_metric i) (if_mtu i) (if_priority i) (if_rdomain i) (if_description i) (if_addrlist i) (if_ic i).
Definition with_if_xflags (f : Z) (i : ifnet) : ifnet :=
  mk_ifnet (if_xname i) (if_flags i) f (if_metric i) (if_mtu i) (if_priority i) (if_rdomain i) (if_description i) (if_addrlist i) (if_ic i).
Definition with_if_metric (m : Z) (i : ifnet) : ifnet :=
  mk_ifnet (if_xname i) (if_flags i) (if_xflags i) m (if_mtu i) (if_priority i) (if_rdomain i) (if_description i) (if_addrlist i) (if_ic i).
Definition with_if_mtu (m : Z) (i : ifnet) : ifnet :=
  mk_ifnet (if_xname i) (if_flags i) (if_xflags i) (if_metric i) m (if_priority i) (if_rdomain i) (if_description i) (if_addrlist i) (if_ic i).
Definition with_if_priority (p : Z) (i : ifnet) : ifnet :=
  mk_ifnet (if_xname i) (if_flags i) (if_xflags i) (if_metric i) (if_mtu i) p (if_rdomain i) (if_description i) (if_addrlist i) (if_ic i).
Definition with_if_description (d : string) (i : ifnet) : ifnet :=
  mk_ifnet (if_xname i) (if_flags i) (if_xflags i) (if_metric i) (if_mtu i) (if_priority i) (if_rdomain i) d (if_addrlist i) (if_ic i).
Definition with_if_addrs (l : list inaddr) (i : ifnet) : ifnet :=
  mk_ifnet (if_xname i) (if_flags i) (if_xflags i) (if_metric i) (if_mtu i) (if_priority i) (if_rdomain i) (if_description i) l (if_ic i).
Definition with_if_ic (ic : option ieee80211com) (i : ifnet) : ifnet :=
  mk_ifnet (if_xname i) (if_flags i) (if_xflags i) (if_metric i) (if_mtu i) (if_priority i) (if_rdomain i) (if_description i) (if_addrlist i) ic.
