(* ===== verification/Net80211.v ===== *)
(** * Net80211: the wireless requests of the kernel

    Models src/usr/src/sys/net80211/ieee80211_ioctl.c: what the requests of the
    wireless handlers do to the struct ieee80211com of an interface; and
    iwn_ioctl(), iwn_init() and iwn_stop() of src/usr/src/sys/dev/pci/if_iwn.c,
    the driver of the interface that __monitor() of the daemon names.

    The code runs in the monad [NM] over the interface.  A cast of an interface
    that is not a wireless one and an access outside an array stop with
    [SUndef].  [WlanEnv] is what the code calls
    and is not modelled: the privileges of the process, the hardware, the state
    machine of the protocol, and the requests that belong to Ethernet and to
    media selection. *)
From coqutil Require Import Byte.
From stdpp Require Import base list strings functions.
From S2P Require Import Prelude IfData IfNet.

(** [w_suser] is what suser(9) returns, 0 for the superuser; [w_set_key] what
    ic_set_key returns; [w_newstate] what ic_newstate does; [w_scan] the part
    of ieee80211_begin_scan() after the nodes have been freed; [w_tsleep] what
    the sleep for a scan returns; [w_hardware] the first part of iwn_init(),
    which loads the firmware and configures the adapter, with its error, and
    [w_pslevel] the error of iwn_set_pslevel(), [None] while the calibration
    runs; [w_stack] is what an int holds that the process left indeterminate in
    the structure it passes. *)
Class WlanEnv := {
  w_suser : Z;
  w_set_key : ieee80211_key → Z;
  w_newstate : Z → ieee80211com → ieee80211com;
  w_scan : ieee80211com → ieee80211com;
  w_tsleep : Z;
  w_hardware : ieee80211com → Z * ieee80211com;
  w_pslevel : option Z;
  w_stack : Z;
  w_other : ∀ {A}, iocmd A → A → ifnet → Z * A * ifnet;
}.

Definition NM := CM ifnet.

(** ** The object behind an interface *)

Definition nundef {A} : NM A := stopM SUndef.
Definition nneed {A} (o : option A) : NM A := match o with Some a => mret a | None => nundef end.

(** struct ieee80211com *ic = (void * )ifp *)
Definition ic_get : NM ieee80211com := i ← get; nneed (if_ic i).
Definition ic_mod (f : ieee80211com → ieee80211com) : NM unit :=
  modify (λ i, with_if_ic (f <$> if_ic i) i).
Definition ic_rd (v : icvar) : NM Z := ic ← ic_get; mret (ic_v ic v).
Definition ic_set (v : icvar) (x : Z) (ic : ieee80211com) : ieee80211com :=
  set_ic_v (<[v := x]> (ic_v ic)) ic.
Definition ic_wr (v : icvar) (x : Z) : NM unit := ic_mod (ic_set v x).

(** ic->ic_flags |= m and ic->ic_flags &= ~m, of type u_int32_t. *)
Definition flag_on (m : Z) : NM unit := f ← ic_rd IC_flags; ic_wr IC_flags (Z.lor f m).
Definition flag_off (m : Z) : NM unit := f ← ic_rd IC_flags; ic_wr IC_flags (Z.ldiff f m).

(** memcpy(3) of [n] bytes over the start of an object. *)
Definition memcpy (dst src : list byte) (n : Z) : option (list byte) :=
  if (0 <=? n) && (n <=? Zlen dst) && (n <=? Zlen src) then Some (Ztake n src ++ Zdrop n dst) else None.

(** copyin(9) from a buffer of the process; what lies behind it is not
    mapped. *)
Definition copyin (src : list byte) (n : Z) : option (list byte) :=
  if n <=? Zlen src then Some (Ztake n src) else None.

(** isset(a, i) *)
Definition isset (a : list byte) (i : Z) : option bool :=
  b ← a !! Z.to_nat (i / 8); Some (Z.testbit (byte.unsigned b) (i `mod` 8)).

Definition chan_of (ic : ieee80211com) (c : chanptr) : option ieee80211_channel :=
  match c with CH_idx n => ic_channels ic !! Z.to_nat n | _ => None end.

Definition ieee80211_chan2ieee (c : chanptr) : Z :=
  match c with CH_idx n => n | CH_anyc => IEEE80211_CHAN_ANY | CH_null => 0 end.

(** ** Nodes *)

Definition node_flags (ic : ieee80211com) (ni : ieee80211_node) : Z :=
  Z.lor (if bool_decide (ni_macaddr ni = ni_bssid ni) then IEEE80211_NODEREQ_AP else 0)
        (if ni_ptr ni =? ni_ptr (ic_bss ic) then IEEE80211_NODEREQ_AP_BSS else 0).

(** [nr] is the structure that is filled in: its name and the fields for
    frequency hopping stay as they are. *)
Definition ieee80211_node2req (ic : ieee80211com) (ni : ieee80211_node) (nr : ieee80211_nodereq)
  : option ieee80211_nodereq :=
  ch ← chan_of ic (ni_chan ni);
  Some (mk_node (nr_ifname nr) (ni_macaddr ni) (ni_bssid ni) (ni_esslen ni) (ni_essid ni)
    (u16 (ieee80211_chan2ieee (ni_chan ni))) (ch_flags ch) (u8 (ni_nrates ni)) (ni_rates ni)
    (ni_rssi ni) (ic_v ic IC_max_rssi) (ni_tstamp ni) (ni_intval ni) (ni_capinfo ni)
    (nr_fhdwell nr) (nr_fhindex nr) (ni_erp ni) (ni_pwrsave ni) (ni_associd ni) (ni_txseq ni)
    (ni_rxseq ni) (u32 (ni_fails ni)) (u32 (ni_inact ni)) (u8 (ni_txrate ni)) (u16 (ni_state ni))
    (node_flags ic ni)).

(** The loop over the tree by key finds the node with the address. *)
Definition ieee80211_find_node (ic : ieee80211com) (mac : list byte) : option ieee80211_node :=
  snd <$> list_find (λ ni, ni_macaddr ni = mac) (ic_tree ic).

(** nrbuf, of which only what ieee80211_node2req() stores is set. *)
Definition nrbuf : ieee80211_nodereq :=
  mk_node None (zeros 6) (zeros 6) 0 (zeros 32) 0 0 0 (zeros 15) 0 0 (zeros 8) 0 0 None None
    0 0 0 0 0 0 0 0 0 0.

(** The loop of SIOCG80211ALLNODES; [i] bytes have been used of the buffer. *)
Fixpoint all_nodes (ic : ieee80211com) (l : list ieee80211_node) (size i : Z)
  : option (list ieee80211_nodereq) :=
  match l with
  | [] => Some []
  | ni :: l =>
      if i + SIZEOF_NODEREQ <=? size then
        nr ← ieee80211_node2req ic ni nrbuf;
        nrs ← all_nodes ic l size (i + SIZEOF_NODEREQ);
        Some (nr :: nrs)
      else Some []
  end.

(** ** WEP keys *)

Definition ieee80211_cipher_keylen (cipher : Z) : Z :=
  if cipher =? IEEE80211_CIPHER_WEP40 then 5
  else if cipher =? IEEE80211_CIPHER_TKIP then 32
  else if cipher =? IEEE80211_CIPHER_CCMP then 16
  else if cipher =? IEEE80211_CIPHER_WEP104 then 13
  else if cipher =? IEEE80211_CIPHER_BIP then 16
  else 0.

Definition put_key (i : nat) (k : ieee80211_key) : NM unit :=
  ic_mod (λ ic, set_ic_nw_keys (<[i := k]> (ic_nw_keys ic)) ic).

Section net80211.
Context `{!WlanEnv}.

(** The loop over the keys of the request; 0 when it comes to its end.  A null
    i_keydat is the empty list.  ic_delete_key of the old key releases what the
    driver keeps for it. *)
Fixpoint setnwkeys_loop (i : nat) (ks : list (Z * list byte)) : NM Z :=
  match ks with
  | [] => mret 0
  | (keylen, keydat) :: ks =>
      if (keylen =? 0) || bool_decide (keydat = []) then setnwkeys_loop (S i) ks
      else if IEEE80211_KEYBUF_SIZE <? keylen then mret EINVAL
      else
        ic ← ic_get;
        _ ← nneed (ic_nw_keys ic !! i);
        let cipher := if keylen <=? 5 then IEEE80211_CIPHER_WEP40 else IEEE80211_CIPHER_WEP104 in
        let len := ieee80211_cipher_keylen cipher in
        let k := mk_key 0 cipher (Z.lor IEEE80211_KEY_GROUP IEEE80211_KEY_TX) len in
        put_key i (k (zeros 32));;
        match copyin keydat len with
        | None => mret EFAULT
        | Some bs =>
            key ← nneed (memcpy (zeros 32) bs len);
            put_key i (k key);;
            if negb (w_set_key (k key) =? 0) then mret (w_set_key (k key))
            else setnwkeys_loop (S i) ks
        end
  end.

Definition ieee80211_ioctl_setnwkeys (nwkey : ieee80211_nwkey) : NM Z :=
  caps ← ic_rd IC_caps; flags ← ic_rd IC_flags;
  if negb (has_bits caps IEEE80211_C_WEP) then mret ENODEV
  else if i_wepon nwkey =? IEEE80211_NWKEY_OPEN then
    if negb (has_bits flags IEEE80211_F_WEPON) then mret 0
    else flag_off IEEE80211_F_WEPON;; mret ENETRESET
  else if (i_defkid nwkey <? 1) || (Z.of_nat IEEE80211_WEP_NKID <? i_defkid nwkey) then mret EINVAL
  else
    error ← setnwkeys_loop 0 (take IEEE80211_WEP_NKID (i_key nwkey));
    if negb (error =? 0) then mret error
    else
      ic_wr IC_def_txkey (i_defkid nwkey - 1);;
      flag_on IEEE80211_F_WEPON;; mret ENETRESET.

(** The loop that copies keys out: the error, and the keys of the request as
    they are then. *)
Fixpoint getnwkeys_loop (i : nat) (ks : list (Z * list byte)) : NM (Z * list (Z * list byte)) :=
  match ks with
  | [] => mret (0, [])
  | (keylen, keydat) :: ks =>
      if bool_decide (keydat = []) then
        '(e, r) ← getnwkeys_loop (S i) ks; mret (e, (keylen, keydat) :: r)
      else if negb (w_suser =? 0) then mret (w_suser, (keylen, keydat) :: ks)
      else
        ic ← ic_get;
        k ← nneed (ic_nw_keys ic !! i);
        let wep := (k_cipher k =? IEEE80211_CIPHER_WEP40) || (k_cipher k =? IEEE80211_CIPHER_WEP104) in
        let len := if wep then k_len k else 0 in
        bs ← nneed (copyin (k_key k) len);
        match memcpy keydat bs len with
        | None => mret (EFAULT, (len, keydat) :: ks)
        | Some dat => '(e, r) ← getnwkeys_loop (S i) ks; mret (e, (len, dat) :: r)
        end
  end.

Definition ieee80211_ioctl_getnwkeys (nwkey : ieee80211_nwkey) : NM (Z * ieee80211_nwkey) :=
  flags ← ic_rd IC_flags; txkey ← ic_rd IC_def_txkey;
  let wepon := if has_bits flags IEEE80211_F_WEPON then IEEE80211_NWKEY_WEP else IEEE80211_NWKEY_OPEN in
  '(e, ks) ← getnwkeys_loop 0 (take IEEE80211_WEP_NKID (i_key nwkey));
  mret (e, mk_nwkey (nk_name nwkey) wepon (txkey + 1) ks).

(** ** WPA parameters *)

(** if (v & from) r |= to *)
Definition translate (from to v : Z) : Z := if has_bits v from then to else 0.

Definition or_default (d v : Z) : Z := if v =? 0 then d else v.

Definition set_rsnprotos (protos : Z) : Z :=
  or_default (Z.lor IEEE80211_PROTO_WPA IEEE80211_PROTO_RSN)
    (Z.lor (translate IEEE80211_WPA_PROTO_WPA1 IEEE80211_PROTO_WPA protos)
           (translate IEEE80211_WPA_PROTO_WPA2 IEEE80211_PROTO_RSN protos)).

Definition set_rsnakms (akms : Z) : Z :=
  or_default IEEE80211_AKM_PSK
    (Z.lor (translate IEEE80211_WPA_AKM_PSK IEEE80211_AKM_PSK akms)
       (Z.lor (translate IEEE80211_WPA_AKM_SHA256_PSK IEEE80211_AKM_SHA256_PSK akms)
          (Z.lor (translate IEEE80211_WPA_AKM_8021X IEEE80211_AKM_8021X akms)
             (translate IEEE80211_WPA_AKM_SHA256_8021X IEEE80211_AKM_SHA256_8021X akms)))).

Definition set_rsngroupcipher (cipher rsnprotos : Z) : Z :=
  if cipher =? IEEE80211_WPA_CIPHER_WEP40 then IEEE80211_CIPHER_WEP40
  else if cipher =? IEEE80211_WPA_CIPHER_TKIP then IEEE80211_CIPHER_TKIP
  else if cipher =? IEEE80211_WPA_CIPHER_CCMP then IEEE80211_CIPHER_CCMP
  else if cipher =? IEEE80211_WPA_CIPHER_WEP104 then IEEE80211_CIPHER_WEP104
  else if has_bits rsnprotos IEEE80211_PROTO_WPA then IEEE80211_CIPHER_TKIP
  else IEEE80211_CIPHER_CCMP.

Definition set_rsnciphers (ciphers : Z) : Z :=
  or_default (Z.lor IEEE80211_CIPHER_TKIP IEEE80211_CIPHER_CCMP)
    (if has_bits ciphers IEEE80211_WPA_CIPHER_USEGROUP then IEEE80211_CIPHER_USEGROUP
     else Z.lor (translate IEEE80211_WPA_CIPHER_TKIP IEEE80211_CIPHER_TKIP ciphers)
                (translate IEEE80211_WPA_CIPHER_CCMP IEEE80211_CIPHER_CCMP ciphers)).

Definition ieee80211_ioctl_setwpaparms (wpa : ieee80211_wpaparams) : NM Z :=
  caps ← ic_rd IC_caps; flags ← ic_rd IC_flags;
  if negb (has_bits caps IEEE80211_C_RSN) then mret ENODEV
  else if wpa_enabled wpa =? 0 then
    if negb (has_bits flags IEEE80211_F_RSNON) then mret 0
    else flag_off IEEE80211_F_RSNON;; mret ENETRESET
  else
    let protos := set_rsnprotos (i_protos wpa) in
    ic_wr IC_rsnprotos protos;;
    ic_wr IC_rsnakms (set_rsnakms (i_akms wpa));;
    ic_wr IC_rsngroupcipher (set_rsngroupcipher (i_groupcipher wpa) protos);;
    ic_wr IC_rsnciphers (set_rsnciphers (i_ciphers wpa));;
    flag_on IEEE80211_F_RSNON;; mret ENETRESET.

Definition get_groupcipher (c : Z) : Z :=
  if c =? IEEE80211_CIPHER_WEP40 then IEEE80211_WPA_CIPHER_WEP40
  else if c =? IEEE80211_CIPHER_TKIP then IEEE80211_WPA_CIPHER_TKIP
  else if c =? IEEE80211_CIPHER_CCMP then IEEE80211_WPA_CIPHER_CCMP
  else if c =? IEEE80211_CIPHER_WEP104 then IEEE80211_WPA_CIPHER_WEP104
  else IEEE80211_WPA_CIPHER_NONE.

Definition get_protos (p : Z) : Z :=
  Z.lor (translate IEEE80211_PROTO_WPA IEEE80211_WPA_PROTO_WPA1 p)
        (translate IEEE80211_PROTO_RSN IEEE80211_WPA_PROTO_WPA2 p).

Definition get_akms (a : Z) : Z :=
  Z.lor (translate IEEE80211_AKM_PSK IEEE80211_WPA_AKM_PSK a)
    (Z.lor (translate IEEE80211_AKM_SHA256_PSK IEEE80211_WPA_AKM_SHA256_PSK a)
       (Z.lor (translate IEEE80211_AKM_8021X IEEE80211_WPA_AKM_8021X a)
          (translate IEEE80211_AKM_SHA256_8021X IEEE80211_WPA_AKM_SHA256_8021X a))).

Definition get_ciphers (c : Z) : Z :=
  if has_bits c IEEE80211_CIPHER_USEGROUP then IEEE80211_WPA_CIPHER_USEGROUP
  else Z.lor (translate IEEE80211_CIPHER_TKIP IEEE80211_WPA_CIPHER_TKIP c)
             (translate IEEE80211_CIPHER_CCMP IEEE80211_WPA_CIPHER_CCMP c).

Definition ieee80211_ioctl_getwpaparms (wpa : ieee80211_wpaparams) : NM ieee80211_wpaparams :=
  ic ← ic_get;
  mret (mk_wpa (wpa_name wpa) (cbool (has_bits (ic_v ic IC_flags) IEEE80211_F_RSNON))
          (get_protos (ic_v ic IC_rsnprotos)) (get_akms (ic_v ic IC_rsnakms))
          (get_ciphers (ic_v ic IC_rsnciphers)) (get_groupcipher (ic_v ic IC_rsngroupcipher))).

(** ** The requests *)

(** The states in which nothing has been joined yet. *)
Definition unjoined (ic : ieee80211com) : bool :=
  (ic_v ic IC_state =? IEEE80211_S_INIT) || (ic_v ic IC_state =? IEEE80211_S_SCAN).

(** A request that sets something: for the superuser only, and the argument is
    not changed. *)
Definition setting {A} (x : A) (m : NM Z) : NM (Z * A) :=
  if negb (w_suser =? 0) then mret (w_suser, x) else e ← m; mret (e, x).

Definition set_nwid (nwid : ieee80211_nwid) : NM Z :=
  if IEEE80211_NWID_LEN <? i_len nwid then mret EINVAL
  else
    ic_mod (set_ic_des_essid (zeros 32));;
    ic_wr IC_des_esslen (i_len nwid);;
    ic ← ic_get;
    e ← nneed (memcpy (ic_des_essid ic) (i_nwid nwid) (i_len nwid));
    ic_mod (set_ic_des_essid e);; mret ENETRESET.

Definition get_nwid : NM ieee80211_nwid :=
  ic ← ic_get;
  let '(len, essid) :=
    if unjoined ic then (u8 (ic_v ic IC_des_esslen), ic_des_essid ic)
    else (ni_esslen (ic_bss ic), ni_essid (ic_bss ic)) in
  e ← nneed (memcpy (zeros 32) essid len);
  mret (mk_nwid len e).

Definition set_wpapsk (psk : ieee80211_wpapsk) : NM Z :=
  (if negb (psk_enabled psk =? 0) then
     flag_on IEEE80211_F_PSK;;
     p ← nneed (memcpy (zeros 32) (i_psk psk) 32); ic_mod (set_ic_psk p)
   else
     flag_off IEEE80211_F_PSK;; ic_mod (set_ic_psk (zeros 32)));;
  mret ENETRESET.

Definition get_wpapsk (psk : ieee80211_wpapsk) : NM ieee80211_wpapsk :=
  ic ← ic_get;
  if has_bits (ic_v ic IC_flags) IEEE80211_F_PSK then
    if negb (w_suser =? 0) then mret (mk_psk (psk_name psk) 2 (zeros 32))
    else mret (mk_psk (psk_name psk) 1 (ic_psk ic))
  else mret (mk_psk (psk_name psk) 0 (i_psk psk)).

(** The test is of a capability, in the word of the flags. *)
Definition set_wmm (wmm : ieee80211_wmmparams) : NM Z :=
  flags ← ic_rd IC_flags;
  if negb (has_bits flags IEEE80211_C_QOS) then mret ENODEV
  else
    (if negb (wmm_enabled wmm =? 0) then flag_on IEEE80211_F_QOS else flag_off IEEE80211_F_QOS);;
    mret ENETRESET.

Definition set_power (power : ieee80211_power) : NM Z :=
  let maxsleep := default w_stack (i_maxsleep power) in
  let enabled := default w_stack (pw_enabled power) in
  ic_wr IC_lintval (u16 maxsleep);;
  caps ← ic_rd IC_caps; flags ← ic_rd IC_flags;
  if negb (enabled =? 0) then
    if negb (has_bits caps IEEE80211_C_PMGT) then mret EINVAL
    else if negb (has_bits flags IEEE80211_F_PMGTON) then flag_on IEEE80211_F_PMGTON;; mret ENETRESET
    else mret 0
  else if has_bits flags IEEE80211_F_PMGTON then flag_off IEEE80211_F_PMGTON;; mret ENETRESET
  else mret 0.

Definition set_bssid (bssid : list byte) : NM Z :=
  (if bool_decide (bssid = zeros 6) then flag_off IEEE80211_F_DESBSSID
   else flag_on IEEE80211_F_DESBSSID;; ic_mod (set_ic_des_bssid bssid));;
  ic ← ic_get;
  if ic_v ic IC_opmode =? IEEE80211_M_HOSTAP then mret 0
  else if unjoined ic then mret ENETRESET
  else if has_bits (ic_v ic IC_flags) IEEE80211_F_DESBSSID
          && negb (bool_decide (ic_des_bssid ic = ni_bssid (ic_bss ic))) then mret ENETRESET
  else mret 0.

Definition get_bssid : NM (list byte) :=
  ic ← ic_get;
  mret (if unjoined ic then
          if ic_v ic IC_opmode =? IEEE80211_M_HOSTAP then ic_myaddr ic
          else if has_bits (ic_v ic IC_flags) IEEE80211_F_DESBSSID then ic_des_bssid ic
          else zeros 6
        else ni_bssid (ic_bss ic)).

(** The reset that a new channel asks for. *)
Definition chan_reset : NM Z :=
  ic ← ic_get;
  let reset :=
    if unjoined ic then true
    else if ic_v ic IC_opmode =? IEEE80211_M_STA then
      negb (bool_decide (ic_des_chan ic = CH_anyc))
      && negb (bool_decide (ni_chan (ic_bss ic) = ic_des_chan ic))
    else negb (bool_decide (ni_chan (ic_bss ic) = ic_ibss_chan ic)) in
  mret (if reset then ENETRESET else 0).

Definition set_channel (n : Z) : NM Z :=
  if n =? IEEE80211_CHAN_ANY then ic_mod (set_ic_des_chan CH_anyc);; chan_reset
  else if IEEE80211_CHAN_MAX <? n then mret EINVAL
  else
    ic ← ic_get;
    active ← nneed (isset (ic_chan_active ic) n);
    if negb active then mret EINVAL
    else ic_mod (set_ic_des_chan (CH_idx n));; ic_mod (set_ic_ibss_chan (CH_idx n));; chan_reset.

Definition get_channel : NM Z :=
  ic ← ic_get;
  let chan := if unjoined ic then
                if ic_v ic IC_opmode =? IEEE80211_M_STA then ic_des_chan ic else ic_ibss_chan ic
              else ni_chan (ic_bss ic) in
  mret (u16 (ieee80211_chan2ieee chan)).

Definition set_txpower (v : option Z) : NM Z :=
  caps ← ic_rd IC_caps;
  if negb (has_bits caps IEEE80211_C_TXPMGT) then mret EINVAL
  else
    let v := default (i16 w_stack) v in
    if negb ((IEEE80211_TXPOWER_MIN <=? v) && (v <=? IEEE80211_TXPOWER_MAX)) then mret EINVAL
    else ic_wr IC_txpower v;; mret ENETRESET.

Definition scan_request : NM Z :=
  ic ← ic_get; i ← get;
  let up := Z.lor IFF_UP IFF_RUNNING in
  if ic_v ic IC_opmode =? IEEE80211_M_HOSTAP then mret 0
  else if negb (Z.land (if_flags i) up =? up) then mret ENETDOWN
  else
    let lock := ic_v ic IC_scan_lock in
    (if negb (has_bits lock IEEE80211_SCAN_REQUEST) then
       let lock := if has_bits lock IEEE80211_SCAN_LOCKED then Z.lor lock IEEE80211_SCAN_RESUME else lock in
       ic_wr IC_scan_lock (Z.lor lock IEEE80211_SCAN_REQUEST);;
       if negb (ic_v ic IC_state =? IEEE80211_S_SCAN) then ic_mod (w_newstate IEEE80211_S_SCAN)
       else mret tt
     else mret tt);;
    mret w_tsleep.

Definition get_flags (r : ifreq) : NM ifreq :=
  flags ← ic_rd IC_flags; opmode ← ic_rd IC_opmode;
  let flags := if negb (opmode =? IEEE80211_M_HOSTAP) then Z.ldiff flags IEEE80211_F_HOSTAPMASK else flags in
  mret (set_ifr_flags r (Z.shiftr flags IEEE80211_F_USERSHIFT)).

Definition set_flags80211 (r : ifreq) : NM Z :=
  f ← nneed (ifr_flags r);
  let flags := u32 (Z.shiftl f IEEE80211_F_USERSHIFT) in
  opmode ← ic_rd IC_opmode;
  if negb (opmode =? IEEE80211_M_HOSTAP) && has_bits flags IEEE80211_F_HOSTAPMASK then mret EINVAL
  else
    old ← ic_rd IC_flags;
    ic_wr IC_flags (Z.lor (Z.ldiff old IEEE80211_F_USERMASK) flags);; mret ENETRESET.

Definition set_mtu (r : ifreq) : NM Z :=
  m ← nneed (ifr_metric r);
  if negb ((IEEE80211_MTU_MIN <=? m) && (m <=? IEEE80211_MTU_MAX)) then mret EINVAL
  else modify (with_if_mtu m);; mret 0.

Definition get_node (nr : ieee80211_nodereq) : NM (Z * ieee80211_nodereq) :=
  ic ← ic_get;
  match ieee80211_find_node ic (nr_macaddr nr) with
  | None => mret (ENOENT, nr)
  | Some ni => nr ← nneed (ieee80211_node2req ic ni nr); mret (0, nr)
  end.

Definition get_allnodes (na : ieee80211_nodereq_all) : NM ieee80211_nodereq_all :=
  ic ← ic_get;
  nrs ← nneed (all_nodes ic (ic_tree ic) (na_size na) 0);
  mret (mk_nodes (na_ifname na) (na_size na) (Zlen nrs) nrs).

(** copyout() of ic_channels[] over the array of the process. *)
Definition get_allchans (ca : ieee80211_chanreq_all) : NM (Z * ieee80211_chanreq_all) :=
  ic ← ic_get;
  mret (if Zlen (i_chans ca) <? Zlen (ic_channels ic) then (EFAULT, ca)
        else (0, mk_chans (ca_name ca) (ic_channels ic ++ drop (length (ic_channels ic)) (i_chans ca)))).

Definition get_txpower (tx : ieee80211_txpower) : NM (Z * ieee80211_txpower) :=
  ic ← ic_get;
  mret (if negb (has_bits (ic_v ic IC_caps) IEEE80211_C_TXPMGT) then (EINVAL, tx)
        else (0, mk_txpower (tx_name tx) (i_mode tx) (Some (ic_v ic IC_txpower)))).

(** What ether_ioctl() and ifmedia_ioctl() do. *)
Definition other {A} (c : iocmd A) (x : A) : NM (Z * A) :=
  λ i, let '(e, x', i') := w_other c x i in (Ok (e, x'), i').

Definition ieee80211_ioctl {A} (c : iocmd A) : A → NM (Z * A) :=
  match c in iocmd A return A → NM (Z * A) with
  | SIOCS80211NWID => λ x, setting x (set_nwid x.2)
  | SIOCG80211NWID => λ x, nwid ← get_nwid; mret (0, (x.1, nwid))
  | SIOCS80211NWKEY => λ x, setting x (ieee80211_ioctl_setnwkeys x)
  | SIOCG80211NWKEY => ieee80211_ioctl_getnwkeys
  | SIOCS80211WMMPARMS => λ x, setting x (set_wmm x)
  | SIOCG80211WMMPARMS => λ x,
      flags ← ic_rd IC_flags; mret (0, mk_wmm (wmm_name x) (cbool (has_bits flags IEEE80211_F_QOS)))
  | SIOCS80211WPAPARMS => λ x, setting x (ieee80211_ioctl_setwpaparms x)
  | SIOCG80211WPAPARMS => λ x, x ← ieee80211_ioctl_getwpaparms x; mret (0, x)
  | SIOCS80211WPAPSK => λ x, setting x (set_wpapsk x)
  | SIOCG80211WPAPSK => λ x, x ← get_wpapsk x; mret (0, x)
  | SIOCS80211POWER => λ x, setting x (set_power x)
  | SIOCG80211POWER => λ x,
      ic ← ic_get;
      mret (0, mk_power (pw_name x) (Some (cbool (has_bits (ic_v ic IC_flags) IEEE80211_F_PMGTON)))
                 (Some (ic_v ic IC_lintval)))
  | SIOCS80211BSSID => λ x, setting x (set_bssid (i_bssid x))
  | SIOCG80211BSSID => λ x, b ← get_bssid; mret (0, mk_bssid (bss_name x) b)
  | SIOCS80211CHANNEL => λ x, setting x (set_channel (i_channel x))
  | SIOCG80211CHANNEL => λ x, n ← get_channel; mret (0, mk_chanreq (ch_name x) n)
  | SIOCG80211ALLCHANS => get_allchans
  | SIOCS80211TXPOWER => λ x, setting x (set_txpower (i_val x))
  | SIOCG80211TXPOWER => get_txpower
  | SIOCSIFMTU => λ x, e ← set_mtu x; mret (e, x)
  | SIOCS80211SCAN => λ x, setting x scan_request
  | SIOCG80211NODE => get_node
  | SIOCG80211ALLNODES => λ x, x ← get_allnodes x; mret (0, x)
  | SIOCG80211FLAGS => λ x, x ← get_flags x; mret (0, x)
  | SIOCS80211FLAGS => λ x, setting x (set_flags80211 x)
  | c => other c
  end.

(** ** The iwn driver *)

Definition iwn_stop : NM unit :=
  modify (λ i, with_if_flags (Z.ldiff (if_flags i) (Z.lor IFF_RUNNING IFF_OACTIVE)) i);;
  ic_wr IC_scan_lock IEEE80211_SCAN_UNLOCKED;;
  ic_mod (w_newstate IEEE80211_S_INIT).

Definition ieee80211_begin_scan : NM unit :=
  lock ← ic_rd IC_scan_lock; opmode ← ic_rd IC_opmode;
  if has_bits lock IEEE80211_SCAN_LOCKED then mret tt
  else
    ic_wr IC_scan_lock (Z.lor lock IEEE80211_SCAN_LOCKED);;
    (if negb (opmode =? IEEE80211_M_HOSTAP) then flag_on IEEE80211_F_ASCAN else mret tt);;
    ic_mod (set_ic_tree []);;
    ic_mod w_scan.

Definition iwn_init : NM Z :=
  ic ← ic_get;
  let '(error, ic) := w_hardware ic in
  ic_mod (λ _, ic);;
  if negb (error =? 0) then iwn_stop;; mret error
  else
    modify (λ i, with_if_flags (i16 (Z.lor (Z.ldiff (if_flags i) IFF_OACTIVE) IFF_RUNNING)) i);;
    opmode ← ic_rd IC_opmode;
    (if negb (opmode =? IEEE80211_M_MONITOR) then ieee80211_begin_scan
     else ic_mod (w_newstate IEEE80211_S_RUN));;
    mret 0.

Definition iwn_running : NM bool :=
  i ← get; mret (Z.land (if_flags i) (Z.lor IFF_UP IFF_RUNNING) =? Z.lor IFF_UP IFF_RUNNING).

(** What follows the switch: ENETRESET restarts a running interface. *)
Definition iwn_reset (error : Z) : NM Z :=
  if error =? ENETRESET then
    up ← iwn_running; if up : bool then iwn_stop;; iwn_init else mret 0
  else mret error.

(** The case SIOCSIFFLAGS; SIOCSIFADDR sets the flag first. *)
Definition iwn_flags : NM Z :=
  i ← get;
  if has_bits (if_flags i) IFF_UP then
    if negb (has_bits (if_flags i) IFF_RUNNING) then iwn_init else mret 0
  else if has_bits (if_flags i) IFF_RUNNING then iwn_stop;; mret 0
  else mret 0.

(** iwn_ioctl() for a process that does not wait for another.  An address of
    an interface is set through SIOCAIFADDR, which in_control() passes on as
    SIOCSIFADDR. *)
Definition iwn_ioctl {A} (c : iocmd A) : A → NM (Z * A) :=
  match c in iocmd A return A → NM (Z * A) with
  | SIOCAIFADDR => λ x,
      modify (λ i, with_if_flags (i16 (Z.lor (if_flags i) IFF_UP)) i);;
      e ← iwn_flags; e ← iwn_reset e; mret (e, x)
  | SIOCSIFFLAGS => λ x, e ← iwn_flags; e ← iwn_reset e; mret (e, x)
  | SIOCS80211POWER => λ x,
      '(e, x) ← ieee80211_ioctl SIOCS80211POWER x;
      if negb (e =? ENETRESET) then mret (e, x)
      else
        state ← ic_rd IC_state;
        e ← iwn_reset (match w_pslevel with
                       | Some z => if state =? IEEE80211_S_RUN then z else 0
                       | None => 0
                       end);
        mret (e, x)
  | c => λ x, '(e, x) ← ieee80211_ioctl c x; e ← iwn_reset e; mret (e, x)
  end.

(** The driver as a part of the interface requests.  A request that is not
    defined has no effect here; the theorems show that there is none. *)
Definition iwn_drv {A} (c : iocmd A) (x : A) (i : ifnet) : Z * A * ifnet :=
  match iwn_ioctl c x i with
  | (Ok (e, x'), i') => (e, x', i')
  | (Stop _, _) => (EFAULT, x, i)
  end.
End net80211.
