(* ===== verification/IfCore.v ===== *)
(** * IfCore: the handlers every interface has

    Models the address-family independent part of
    src/usr/src/sbin/ifconfig/ifcutil.c: the socket and interface
    information (getsock, getinfo), addresses (setifaddr, in_getaddr,
    in_getprefix, at_getaddr and their callers), flags, metric, MTU, groups,
    description, routing domain and link-level address; and is_bridge of
    src/usr/src/sbin/ifconfig/brconfig.c, which getinfo calls.

    The monad and the globals are those of IfData.  A handler takes the
    char pointer and the int its entry in the command table is called
    with. *)
From coqutil Require Import Byte Word.LittleEndianList.
From stdpp Require Import base list strings functions.
From Stdlib Require Import Ascii.
From S2P Require Import Prelude CString CNum NetAddr InetNet Scan IfData.

(** Which of the four address structures an af_getaddr function fills. *)
Definition RIDADDR : Z := 0.
Definition ADDR : Z := 1.
Definition MASK : Z := 2.
Definition DSTADDR : Z := 3.

Definition last_char (s : string) : option ascii := list.last (bytes s).
Definition ends_in_digit (s : string) : bool := from_option isdigit false (last_char s).

(** The octets of in_getprefix: [len] one bits, most significant first. *)
Fixpoint prefix_octets (n : nat) (len : Z) : list byte :=
  match n with
  | O => []
  | S n => if 7 <? len then byte.of_Z 255 :: prefix_octets n (len - 8)
           else byte.of_Z (u8 (Z.shiftl 255 (8 - len))) :: prefix_octets n 0
  end.

(** memset 0xff for 0 and for all the bits, prefix_octets otherwise; len
    reaches 0 on the way unless it is a multiple of 8, and 0xff << 8 leaves
    no bits in an octet. *)
Definition prefix_mask (n : nat) (len : Z) : list byte :=
  if (len =? 0) || (len =? 8 * Z.of_nat n) then replicate n (byte.of_Z 255)
  else prefix_octets n len.

Definition sets (d v : Z) : Z := if d <? 0 then Z.ldiff v (- d) else Z.lor v d.

Section core.
Context `{!Kernel, !Libs}.

(** ** The socket and the interface *)

Definition socket (naf : Z) : GM Z :=
  λ g, match k_socket naf (g_k g) with
       | (inl fd, k) => (Ok fd, set_k k g)
       | (inr e, k) =>
           (Ok (-1), set_k k (set_env (mk_cenv (ce_alloc (g_env g)) e (ce_closed (g_env g))) g))
       end.

Definition getsock (naf : Z) : GM unit :=
  oaf ← rd G_oaf;
  if oaf =? naf then mret tt
  else
    (if negb (oaf =? -1) then s ← rd G_s; in_env (close s) else mret tt);;
    s ← socket naf;
    wr G_s s;;
    if s <? 0 then wr G_oaf (-1) else wr G_oaf naf.

Definition is_bridge (brdg : string) : GM bool :=
  '(r, _) ← ioctl SIOCGIFFLAGS (mk_ifreq (ifname brdg) (U_bytes (zeros 16)));
  if r <? 0 then mret false
  else
    '(r, _) ← ioctl SIOCBRDGRTS (mk_ifbac (ifname brdg) 0 []);
    if r <? 0 then e ← errno; mret (e =? ENETDOWN) else mret true.

(** The part of getinfo that follows a successful SIOCGIFFLAGS. *)
Definition getinfo_rest (r : ifreq) : GM (Z * ifreq) :=
  f ← need (ifr_flags r); wr G_flags (Z.land f 0xffff);;
  '(z, r) ← ioctl SIOCGIFXFLAGS r;
  let r := if z <? 0 then set_ifr_flags r 0 else r in
  f ← need (ifr_flags r); wr G_xflags f;;
  '(z, r) ← ioctl SIOCGIFMETRIC r;
  (if z <? 0 then wr G_metric 0 else m ← need (ifr_metric r); wr G_metric (u64 m));;
  name ← gets g_name;
  b ← is_bridge name;
  r ← (if (b : bool) then wr G_mtu 0;; mret r
       else '(z, r) ← ioctl SIOCGIFMTU r;
            (if z <? 0 then wr G_mtu 0 else m ← need (ifr_metric r); wr G_mtu (u64 m));; mret r);
  '(z, r) ← ioctl SIOCGIFRDOMAIN r;
  (if z <? 0 then wr G_rdomainid 0 else m ← need (ifr_metric r); wr G_rdomainid m);;
  mret (0, r).

(** The ifreq is passed by value; the result is what *ifr holds after. *)
Definition getinfo (r : ifreq) (create : bool) : GM (Z * ifreq) :=
  af ← rd G_af;
  getsock af;;
  s ← rd G_s;
  if s <? 0 then err
  else
    name ← gets g_name;
    c ← need (last_char name);
    if negb (isdigit c) then mret (-1, r)
    else
      '(z, r) ← ioctl SIOCGIFFLAGS r;
      if negb (z <? 0) then getinfo_rest r
      else
        oerrno ← errno;
        if negb create then mret (-1, r)
        else
          '(z, r) ← ioctl SIOCIFCREATE r;
          if z <? 0 then errno_set oerrno;; mret (-1, r)
          else
            '(z, r) ← ioctl SIOCGIFFLAGS r;
            if z <? 0 then mret (-1, r) else getinfo_rest r.

(** getinfo(&ifr, create) on the global ifr. *)
Definition getinfo_ifr (create : bool) : GM Z :=
  r ← gets g_ifr; '(z, r) ← getinfo r create; modify (set_ifr r);; mret z.

Definition clone_create (addr : cptr) (param : Z) : GM unit :=
  getsock AF_INET;;
  ifr_take_name;;
  z ← ioctl_ifr SIOCIFCREATE;
  if z =? -1 then err else mret tt.

Definition clone_destroy (addr : cptr) (param : Z) : GM unit :=
  ifr_take_name;;
  z ← ioctl_ifr SIOCIFDESTROY;
  if z =? -1 then err else mret tt.

(** ** Internet addresses *)

(** sintab[which], read and written. *)
Definition sintab (which : Z) (g : glob) : sockaddr :=
  if which =? RIDADDR then default (zeros 16) (ifr_bytes (g_ridreq g))
  else if which =? ADDR then ifra_addr (g_in_addreq g)
  else if which =? MASK then ifra_mask (g_in_addreq g)
  else ifra_dstaddr (g_in_addreq g).

Definition set_sintab (which : Z) (sa : sockaddr) (g : glob) : glob :=
  let q := g_in_addreq g in
  if which =? RIDADDR then set_ridreq (mk_ifreq (ifr_name (g_ridreq g)) (U_bytes sa)) g
  else if which =? ADDR then set_in_addreq (mk_alias (ifra_name q) sa (ifra_dstaddr q) (ifra_mask q)) g
  else if which =? MASK then set_in_addreq (mk_alias (ifra_name q) (ifra_addr q) (ifra_dstaddr q) sa) g
  else set_in_addreq (mk_alias (ifra_name q) (ifra_addr q) sa (ifra_mask q)) g.

Definition sin_poke (which : Z) (off : nat) (bs : list byte) : GM unit :=
  modify (λ g, set_sintab which (poke off bs (sintab which g)) g).

(** sin_len, and sin_family unless the structure is the mask. *)
Definition sin_header (which : Z) : GM unit :=
  sin_poke which 0 [byte.of_Z 16];;
  if negb (which =? MASK) then sin_poke which 1 [byte.of_Z AF_INET] else mret tt.

Definition in_getprefix (plen : string) (which : Z) : GM unit :=
  len ← strtonum_or_err plen 0 32;
  sin_header which;;
  sin_poke which 4 (prefix_mask 4 len).

(** The decimal text of a prefix length, in the three bytes of p[]. *)
Definition bits_text (bits : Z) : string := String.string_of_list_ascii (dec_octet bits).

(** inet_makeaddr(net, INADDR_ANY), in host order. *)
Definition inet_makeaddr_any (net : Z) : Z :=
  if net <? 128 then u32 (Z.shiftl net 24)
  else if net <? 65536 then u32 (Z.shiftl net 16)
  else if net <? 16777216 then u32 (Z.shiftl net 8)
  else u32 net.

(** The branch of in_getaddr for an address that is not ADDR with a slash
    and a width. *)
Definition in_getaddr_plain (s : string) (which : Z) : GM unit :=
  r ← need (inet_aton (cmem s));
  match r with
  | Some a => sin_poke which 4 (be32 a)
  | None =>
      match gethostbyname s with
      | Some h => sin_poke which 4 h
      | None =>
          match getnetbyname s with
          | Some n => sin_poke which 4 (be32 (inet_makeaddr_any n))
          | None => err
          end
      end
  end.

Definition in_getaddr (s : string) (which : Z) : GM unit :=
  sin_header which;;
  slash ← need (strrchr (cmem s) "/"%char);
  if (which =? ADDR) && bool_decide (is_Some slash) then
    r ← need (inet_net_pton (cmem s) [0; 0; 0; 0]);
    match r with
    | Some (bits, octets) =>
        in_getprefix (bits_text bits) MASK;;
        sin_poke which 4 (map byte.of_Z octets)
    | None => in_getaddr_plain s which
    end
  else in_getaddr_plain s which.

(** ** AppleTalk addresses *)

(** The address structure is ifra_addr of addreq: sat_len, sat_family, one
    byte of port, sat_addr at offset 4. *)
Definition sat_poke (off : nat) (bs : list byte) : GM unit :=
  modify (λ g, let q := g_addreq g in
    set_addreq (mk_alias (ifra_name q) (poke off bs (ifra_addr q)) (ifra_dstaddr q) (ifra_mask q)) g).

Definition at_getaddr (addr : string) (which : Z) : GM unit :=
  sat_poke 1 [byte.of_Z AF_APPLETALK];;
  sat_poke 0 [byte.of_Z 16];;
  if which =? MASK then err
  else match sscanf_u_u "."%char addr with
  | Some (net, node) =>
      if (net =? 0) || (0xffff <? net) || (node =? 0) || (0xfe <? node) then err
      else sat_poke 4 (be16 net);; sat_poke 6 [byte.of_Z node]
  | None => err
  end.

Definition setatrange (range : cptr) (d : Z) : GM unit :=
  range ← deref range;
  match sscanf_u_u "-"%char range with
  | Some (first, last) =>
      if (first =? 0) || (0xffff <? first) || (last =? 0) || (0xffff <? last) || (last <? first)
      then err
      else modify (λ g, set_at_nr (mk_nr (nr_phase (g_at_nr g)) first last) g)
  | None => err
  end.

Definition setatphase (phase : cptr) (d : Z) : GM unit :=
  phase ← deref phase;
  let set p := modify (λ g, set_at_nr (mk_nr p (nr_firstnet (g_at_nr g)) (nr_lastnet (g_at_nr g))) g) in
  if bool_decide (phase = "1") then set 1
  else if bool_decide (phase = "2") then set 2
  else err.

(** ** IPv6 addresses *)

Definition set_ifr6 (r : in6_ifreq) (g : glob) : glob :=
  set_in6 (mk_glob6 r (g_in6_ridreq (g_in6 g)) (g_in6_addreq (g_in6 g))) g.
Definition set_in6_ridreq (r : in6_ifreq) (g : glob) : glob :=
  set_in6 (mk_glob6 (g_ifr6 (g_in6 g)) r (g_in6_addreq (g_in6 g))) g.
Definition set_in6_addreq (q : in6_aliasreq) (g : glob) : glob :=
  set_in6 (mk_glob6 (g_ifr6 (g_in6 g)) (g_in6_ridreq (g_in6 g)) q) g.

(** sin6tab[which], read and written. *)
Definition sin6tab (which : Z) (g : glob) : sockaddr :=
  let q := g_in6_addreq (g_in6 g) in
  if which =? RIDADDR then ifr6_addr (g_in6_ridreq (g_in6 g))
  else if which =? ADDR then ifra6_addr q
  else if which =? MASK then ifra6_prefixmask q
  else ifra6_dstaddr q.

Definition set_sin6tab (which : Z) (sa : sockaddr) (g : glob) : glob :=
  let q := g_in6_addreq (g_in6 g) in
  let set a d m := set_in6_addreq (mk_alias6 (ifra6_name q) a d m (ifra6_flags q) (ifra6_lifetime q)) g in
  if which =? RIDADDR then set_in6_ridreq (set_ifr6_addr (g_in6_ridreq (g_in6 g)) sa) g
  else if which =? ADDR then set sa (ifra6_dstaddr q) (ifra6_prefixmask q)
  else if which =? MASK then set (ifra6_addr q) (ifra6_dstaddr q) sa
  else set (ifra6_addr q) sa (ifra6_prefixmask q).

Definition sin6_poke (which : Z) (off : nat) (bs : list byte) : GM unit :=
  modify (λ g, set_sin6tab which (poke off bs (sin6tab which g)) g).

Definition in6_getprefix (plen : string) (which : Z) : GM unit :=
  len ← strtonum_or_err plen 0 128;
  sin6_poke which 0 [byte.of_Z SIZEOF_SIN6];;
  (if negb (which =? MASK) then sin6_poke which 1 [byte.of_Z AF_INET6] else mret tt);;
  sin6_poke which 8 (prefix_mask 16 len).

(** The scope of a link-local address goes into its second group. *)
Definition embed_scope (sa : sockaddr) : sockaddr :=
  if is_linklocal (sin6_addr sa) && bool_decide (take 2 (drop 10 sa) = zeros 2)
     && negb (sin6_scope_id sa =? 0)
  then poke 24 (zeros 4) (poke 10 (be16 (Z.land (sin6_scope_id sa) 0xffff)) sa)
  else sa.

(** buf[] has MAXHOSTNAMELEN + sizeof("/128") bytes. *)
Definition in6_getaddr (s : string) (which : Z) : GM unit :=
  slash ← need (strchr (cmem s) "/"%char);
  s ← (match slash with
       | Some i =>
           if which =? ADDR then
             if 256 + 5 <=? slen s then err
             else
               in6_getprefix (String.string_of_list_ascii (drop (S i) (bytes s))) MASK;;
               wr G_explicit_prefix 1;;
               mret (stake i s)
           else mret s
       | None => mret s
       end);
  match getaddrinfo AF_INET6 s (Some "0") with
  | None => err
  | Some sa =>
      if negb (Zlen sa =? SIZEOF_SIN6) then err
      else sin6_poke which 0 (embed_scope sa)
  end.

(** The flags, lifetimes and interface identifier of the address that is to
    be set. *)
Definition setia6flags (vname : cptr) (value : Z) : GM unit :=
  modify (λ g, let q := g_in6_addreq (g_in6 g) in
    set_in6_addreq (mk_alias6 (ifra6_name q) (ifra6_addr q) (ifra6_dstaddr q) (ifra6_prefixmask q)
                      (i32 (sets value (ifra6_flags q))) (ifra6_lifetime q)) g).

Definition set_lifetime (l : in6_addrlifetime) (g : glob) : glob :=
  let q := g_in6_addreq (g_in6 g) in
  set_in6_addreq (mk_alias6 (ifra6_name q) (ifra6_addr q) (ifra6_dstaddr q) (ifra6_prefixmask q)
                    (ifra6_flags q) l) g.

(** The sum is one of ints. *)
Definition setia6lifetime (cmd : string) (val : cptr) : GM unit :=
  val ← deref val;
  newval ← strtonum_or_err val 0 1000000;
  t ← gets (λ g, k_gettimeofday (g_k g));
  p ← gets g_afp; p ← need p;
  if negb (af_af p =? AF_INET6) then err
  else
    e ← need (if (- 2 ^ 31 <=? t + newval) && (t + newval <? 2 ^ 31) then Some (t + newval) else None);
    l ← gets (λ g, ifra6_lifetime (g_in6_addreq (g_in6 g)));
    if bool_decide (cmd = "vltime") then
      modify (set_lifetime (mk_lt6 e (ia6t_preferred l) newval (ia6t_pltime l)))
    else if bool_decide (cmd = "pltime") then
      modify (set_lifetime (mk_lt6 (ia6t_expire l) e (ia6t_vltime l) newval))
    else mret tt.

Definition setia6pltime (val : cptr) (d : Z) : GM unit := setia6lifetime "pltime" val.
Definition setia6vltime (val : cptr) (d : Z) : GM unit := setia6lifetime "vltime" val.

Definition setia6eui64 (cmd : cptr) (val : Z) : GM unit :=
  p ← gets g_afp; p ← need p;
  if negb (af_af p =? AF_INET6) then err
  else
    in6 ← gets (λ g, sin6_addr (ifra6_addr (g_in6_addreq (g_in6 g))));
    if negb (bool_decide (drop 8 in6 = zeros 8)) then err
    else
      k ← gets g_k; name ← gets g_name;
      match k_getifaddrs k with
      | None => err
      | Some ifap =>
          match List.find (λ ifa, (sa_family (ifa_addr ifa) =? AF_INET6) && bool_decide (ifa_name ifa = name)
                                  && is_linklocal (sin6_addr (ifa_addr ifa))) ifap with
          | None => err
          | Some ifa => lladdr ← need (elements 8 (drop 16 (ifa_addr ifa))); sin6_poke ADDR 16 lladdr
          end
      end.

(** The function af_getaddr of a row of afs, and its call through afp. *)
Definition af_getaddr (p : afswtch) (addr : string) (which : Z) : GM unit :=
  match p with
  | AFS_inet => in_getaddr addr which
  | AFS_inet6 => in6_getaddr addr which
  | AFS_atalk => at_getaddr addr which
  end.

Definition afp_getaddr (addr : cptr) (which : Z) : GM unit :=
  p ← gets g_afp; p ← need p; addr ← deref addr; af_getaddr p addr which.

Definition setifaddr (addr : cptr) (param : Z) : GM unit :=
  n ← rd G_setaddr; wr G_setaddr (n + 1);;
  doalias ← rd G_doalias;
  (if 0 <=? doalias then wr G_newaddr 1 else mret tt);;
  (if doalias =? 0 then wr G_clearaddr 1 else mret tt);;
  afp_getaddr addr (if 0 <=? doalias then ADDR else RIDADDR).

Definition setifnetmask (addr : cptr) (ignored : Z) : GM unit := afp_getaddr addr MASK.
Definition setifbroadaddr (addr : cptr) (ignored : Z) : GM unit := afp_getaddr addr DSTADDR.

Definition setifipdst (addr : cptr) (ignored : Z) : GM unit :=
  addr ← deref addr;
  in_getaddr addr DSTADDR;;
  n ← rd G_setipdst; wr G_setipdst (n + 1);;
  wr G_clearaddr 0;;
  wr G_newaddr 0.

Definition setifdstaddr (addr : cptr) (param : Z) : GM unit :=
  n ← rd G_setaddr; wr G_setaddr (n + 1);;
  afp_getaddr addr DSTADDR.

(** atalk has no af_getprefix. *)
Definition setifprefixlen (addr : cptr) (d : Z) : GM unit :=
  p ← gets g_afp; p ← need p;
  (match p with
   | AFS_inet => addr ← deref addr; in_getprefix addr MASK
   | AFS_inet6 => addr ← deref addr; in6_getprefix addr MASK
   | AFS_atalk => mret tt
   end);;
  wr G_explicit_prefix 1.

(** rqtosa(af_ridreq) and rqtosa(af_addreq): for atalk both are addreq. *)
Definition notealias_copy (p : afswtch) (g : glob) : glob :=
  match p with
  | AFS_inet =>
      let src := ifra_addr (g_in_addreq g) in
      let dst := default (zeros 16) (ifr_bytes (g_ridreq g)) in
      set_ridreq (mk_ifreq (ifr_name (g_ridreq g)) (U_bytes (poke 0 (Ztake (sa_len src) src) dst))) g
  | AFS_inet6 =>
      let src := ifra6_addr (g_in6_addreq (g_in6 g)) in
      set_in6_ridreq (set_ifr6_addr (g_in6_ridreq (g_in6 g)) (Ztake (sa_len src) src)) g
  | AFS_atalk => g
  end.

Definition notealias (addr : cptr) (param : Z) : GM unit :=
  setaddr ← rd G_setaddr; doalias ← rd G_doalias;
  (if negb (setaddr =? 0) && (doalias =? 0) && (param <? 0) then
     p ← gets g_afp; p ← need p; modify (notealias_copy p)
   else mret tt);;
  wr G_doalias param;;
  if param <? 0 then wr G_clearaddr 1;; wr G_newaddr 0 else wr G_clearaddr 0.

Definition notrailers (vname : cptr) (value : Z) : GM unit :=
  out ("Note: trailers are no longer sent, but always received" +:+ String "010" "").

(** ** Flags *)

Definition setifflags (vname : cptr) (value : Z) : GM unit :=
  my_ifr ← gets g_ifr;
  '(z, my_ifr) ← ioctl SIOCGIFFLAGS my_ifr;
  if z <? 0 then err
  else
    name ← gets g_name;
    let my_ifr := set_ifr_name my_ifr (ifname name) in
    f ← need (ifr_flags my_ifr);
    let flags := sets value f in
    wr G_flags flags;;
    '(z, _) ← ioctl SIOCSIFFLAGS (set_ifr_flags my_ifr flags);
    if z <? 0 then err else mret tt.

Definition setifxflags (vname : cptr) (value : Z) : GM unit :=
  my_ifr ← gets g_ifr;
  '(z, my_ifr) ← ioctl SIOCGIFXFLAGS my_ifr;
  (if z <? 0 then warn "SIOCGIFXFLAGS" else mret tt);;
  name ← gets g_name;
  let my_ifr := set_ifr_name my_ifr (ifname name) in
  f ← need (ifr_flags my_ifr);
  let xflags := sets value f in
  wr G_xflags xflags;;
  '(z, _) ← ioctl SIOCSIFXFLAGS (set_ifr_flags my_ifr xflags);
  if z <? 0 then warn "SIOCSIFXFLAGS" else mret tt.

(** ** Metric, MTU, description, groups *)

(** Store an int in the global ifr and send it. *)
Definition send_metric (c : iocmd ifreq) (n : Z) (what : string) : GM unit :=
  modify (λ g, set_ifr (set_ifr_metric (g_ifr g) n) g);;
  z ← ioctl_ifr c;
  if z <? 0 then warn what else mret tt.

Definition setifmetric (val : cptr) (ignored : Z) : GM unit :=
  ifr_take_name;;
  val ← deref val;
  n ← strtonum_or_err val 0 INT_MAX;
  send_metric SIOCSIFMETRIC n "SIOCSIFMETRIC".

Definition setifmtu (val : cptr) (d : Z) : GM unit :=
  ifr_take_name;;
  val ← deref val;
  n ← strtonum_or_err val 0 INT_MAX;
  send_metric SIOCSIFMTU n "SIOCSIFMTU".

Definition setifpriority (id : cptr) (param : Z) : GM unit :=
  id ← deref id;
  prio ← strtonum_or_err id 0 15;
  ifr_take_name;;
  send_metric SIOCSIFPRIORITY prio "SIOCSIFPRIORITY".

Definition setinstance (id : cptr) (param : Z) : GM unit :=
  id ← deref id;
  rdomainid ← strtonum_or_err id 0 RT_TABLEID_MAX;
  ifr_take_name;;
  send_metric SIOCSIFRDOMAIN rdomainid "SIOCSIFRDOMAIN".

Definition setifrtlabel (label : cptr) (d : Z) : GM unit :=
  label ← (if negb (d =? 0) then mret "" else deref label);
  '(z, _) ← ioctl_data SIOCSIFRTLABEL label;
  if z <? 0 then warn "SIOCSIFRTLABEL" else mret tt.

Definition setifdesc (val : cptr) (ignored : Z) : GM unit :=
  val ← deref val;
  '(z, _) ← ioctl_data SIOCSIFDESCR val;
  if z <? 0 then warn "SIOCSIFDESCR" else mret tt.

Definition unsetifdesc (noval : cptr) (ignored : Z) : GM unit :=
  '(z, _) ← ioctl_data SIOCSIFDESCR "";
  if z <? 0 then warn "SIOCSIFDESCR" else mret tt.

(** The checks setifgroup and unsetifgroup share. *)
Definition group_request (group_name : string) : GM ifgroupreq :=
  name ← gets g_name;
  if ends_in_digit group_name then err
  else
    let '(group, len) := strlcpy_s group_name IFNAMSIZ in
    if IFNAMSIZ <=? len then err else mret (mk_ifgr (ifname name) group 0).

Definition setifgroup (group_name : cptr) (dummy : Z) : GM unit :=
  group_name ← deref group_name;
  ifgr ← group_request group_name;
  '(z, _) ← ioctl SIOCAIFGROUP ifgr;
  if z =? -1 then e ← errno; if negb (e =? EEXIST) then err else mret tt else mret tt.

Definition unsetifgroup (group_name : cptr) (dummy : Z) : GM unit :=
  group_name ← deref group_name;
  ifgr ← group_request group_name;
  '(z, _) ← ioctl SIOCDIFGROUP ifgr;
  if z =? -1 then err else mret tt.

(** ** Link-level address *)

(** sa_len, sa_family and the first six bytes of sa_data. *)
Definition lladdr_bytes (octets : list byte) : list byte :=
  byte.of_Z ETHER_ADDR_LEN :: byte.of_Z AF_LINK :: octets.

Definition send_lladdr (octets : list byte) : GM unit :=
  ifr_take_name;;
  modify (λ g, set_ifr (ifr_store (g_ifr g) (lladdr_bytes octets)) g);;
  z ← ioctl_ifr SIOCSIFLLADDR;
  if z <? 0 then warn "SIOCSIFLLADDR" else mret tt.

Definition arc4random_buf (n : nat) : GM (list byte) :=
  λ g, let '(bs, k) := k_arc4random_buf n (g_k g) in (Ok bs, set_k k g).

(** Octets as bytes of memory. *)
Definition to_bytes (l : list Z) : list byte := map byte.of_Z l.

Definition setiflladdr (addr : cptr) (param : Z) : GM unit :=
  addr ← deref addr;
  if bool_decide (addr = "random") then
    bs ← arc4random_buf 6;
    match bs with
    | b :: bs => send_lladdr (byte.of_Z (Z.land (byte.unsigned b) 0xfc) :: bs)
    | [] => undef
    end
  else
    ea ← need (ether_aton (cmem addr));
    match ea with
    | None => warn "malformed link-level address"
    | Some octets => send_lladdr (to_bytes octets)
    end.
End core.
