(* ===== verification/IfWireless.v ===== *)
(** * IfWireless: the handlers of wireless interfaces

    Models the IEEE 802.11 part of src/usr/src/sbin/ifconfig/ifcutil.c:
    get_string and print_string, and the handlers from setifnwid to
    setifpowersave.  A comma separated list is split with [tokens], which the
    theorem on strtok in CString relates to the strtok loop. *)
From coqutil Require Import Byte Word.LittleEndianList.
From stdpp Require Import base list strings functions.
From Stdlib Require Import Ascii.
From S2P Require Import Prelude CString CNum NetAddr Scan Sha1 Pbkdf2 IfData IfCore.

Definition WPA_PSK_LEN : Z := 32.

(** strcasecmp(a, b) == 0; CString relates strcasecmp to [lower]. *)
Definition case_eq_s (a b : string) : bool := bool_decide (lower a = lower b).

(** ** get_string *)

Definition isprint (a : ascii) : bool := in_range 32 126 a.

(** tolower(c) == 'x' *)
Definition is_x (c : ascii) : bool := Ascii.eqb c "x" || Ascii.eqb c "X".

(** What a run of the loop ends with: the rest of val and the bytes stored,
    one of the two diagnostics, or a read or store outside an object. *)
Inductive gsres :=
| GS_ok (val : list ascii) (stored : list byte)
| GS_bad_hex
| GS_too_long
| GS_undef.

(** strchr(sep, c) != NULL: the terminator of sep is found too. *)
Definition sep_has (sep : option string) (c : ascii) : bool :=
  match sep with
  | None => false
  | Some sep => existsb (Ascii.eqb c) (bytes sep) || is_nul c
  end.

Definition tohex (c : ascii) : Z := default 0 (digit_val c).

(** The loop.  [n] bytes have been stored at [buf], which has room for
    [len]; the test [p > buf + len] lets one byte more be stored. *)
Fixpoint get_string_loop (hexstr : bool) (sep : option string) (len n : Z) (val : list ascii)
  : gsres :=
  let put (b : Z) (r : gsres) :=
    if len <? n then GS_too_long
    else if len =? n then GS_undef
    else match r with
         | GS_ok v bs => GS_ok v (byte.of_Z b :: bs)
         | r => r
         end in
  match val with
  | [] => GS_undef
  | c :: v =>
      if is_nul c then GS_ok val []
      else if sep_has sep c then GS_ok v []
      else if hexstr then
        if negb (isxdigit c) then GS_bad_hex
        else match v with
        | [] => GS_undef
        | c2 :: v2 =>
            if negb (isxdigit c2) then GS_bad_hex
            else put (Z.lor (Z.shiftl (tohex c) 4) (tohex c2))
                   (get_string_loop hexstr sep len (n + 1) v2)
        end
      else if Ascii.eqb c "\" && bool_decide (is_Some sep) then
        match v with
        | [] => GS_undef
        | c2 :: v2 =>
            if sep_has sep c2 then put (uch c2) (get_string_loop hexstr sep len (n + 1) v2)
            else put (uch c) (get_string_loop hexstr sep len (n + 1) v)
        end
      else put (uch c) (get_string_loop hexstr sep len (n + 1) v)
  end.

Definition get_string_s (val : list ascii) (sep : option string) (len : Z) : gsres :=
  match val with
  | [] => GS_undef
  | c :: v =>
      if Ascii.eqb c "0" then
        match v with
        | [] => GS_undef
        | x :: v' => if is_x x then get_string_loop true sep len 0 v'
                     else get_string_loop false sep len 0 val
        end
      else get_string_loop false sep len 0 val
  end.

(** ** print_string *)

Definition byte_x02 (b : byte) : list ascii := x02 (byte.unsigned b).

(** The bytes are printed as they are. *)
Definition printable (buf : list byte) : bool :=
  match buf with
  | b0 :: b1 :: _ =>
      negb (Ascii.eqb (ascii_of_byte b0) "0" && is_x (ascii_of_byte b1))
  | _ => true
  end && forallb (λ b, isprint (ascii_of_byte b)) buf.

Definition DQUOTE : ascii := "034".

(** The characters print_string writes for a buffer and its length. *)
Definition print_string (buf : list byte) : list ascii :=
  let raw := map ascii_of_byte buf in
  if printable buf then
    if existsb isspace raw || bool_decide (buf = []) then DQUOTE :: raw ++ [DQUOTE] else raw
  else "0"%char :: "x"%char :: concat (map byte_x02 buf).

(** ** The WPA option tables *)

Definition wpaproto (s : string) : option Z :=
  if case_eq_s s "wpa1" then Some IEEE80211_WPA_PROTO_WPA1
  else if case_eq_s s "wpa2" then Some IEEE80211_WPA_PROTO_WPA2
  else None.

Definition wpaakm (s : string) : option Z :=
  if case_eq_s s "psk" then Some IEEE80211_WPA_AKM_PSK
  else if case_eq_s s "802.1x" then Some IEEE80211_WPA_AKM_8021X
  else None.

Definition ciphers : list (string * Z) :=
  [("usegroup", 0x01); ("wep40", 0x02); ("tkip", 0x04); ("ccmp", 0x08); ("wep104", 0x10)].

Fixpoint cipher_loop (tbl : list (string * Z)) (name : string) : Z :=
  match tbl with
  | [] => IEEE80211_WPA_CIPHER_NONE
  | (n, c) :: tbl => if case_eq_s name n then c else cipher_loop tbl name
  end.

Definition getwpacipher (name : string) : Z := cipher_loop ciphers name.

Definition wpacipher (s : string) : option Z :=
  let c := getwpacipher s in if c =? IEEE80211_WPA_CIPHER_NONE then None else Some c.

(** The strtok loop over a comma separated list: the or of the bits of its
    words, [None] when one is unknown. *)
Definition opt_bits (lookup : string → option Z) (val : string) : option Z :=
  foldr (λ w acc, b ← lookup (String.string_of_list_ascii w); a ← acc; Some (Z.lor b a))
    (Some 0) (tokens (bytes ",") (bytes val)).

Definition nwflags : list (string * Z) := [("hidenwid", 1); ("nobridge", 2)].

Fixpoint table_find (tbl : list (string * Z)) (s : string) : option Z :=
  match tbl with
  | [] => None
  | (n, v) :: tbl => if bool_decide (s = n) then Some v else table_find tbl s
  end.

Section wireless.
Context `{!Kernel, !Libs}.

(** get_string on a buffer of [len] bytes: the rest of the string and the
    buffer's used bytes, or [None] for a return of NULL. *)
Definition get_string (val : list ascii) (sep : option string) (len : Z)
  : GM (option (list ascii * list byte)) :=
  match get_string_s val sep len with
  | GS_ok v bs => mret (Some (v, bs))
  | GS_bad_hex => warn "bad hexadecimal digits";; mret None
  | GS_too_long => warn "strings too long";; mret None
  | GS_undef => undef
  end.

(** memset(p, 0, *lenp - len): the buffer as a whole. *)
Definition padded (len : Z) (bs : list byte) : list byte :=
  bs ++ zeros (Z.to_nat (len - Zlen bs)).

Definition setifnwid (val : cptr) (d : Z) : GM unit :=
  r ← (if negb (d =? 0) then mret (Some [])
       else val ← deref val;
            r ← get_string (cmem val) None IEEE80211_NWID_LEN;
            mret (snd <$> r));
  match r with
  | None => mret tt
  | Some bs =>
      ifr_take_name;;
      '(z, _) ← ioctl_data SIOCS80211NWID (mk_nwid (Zlen bs) (padded IEEE80211_NWID_LEN bs));
      if z <? 0 then warn "SIOCS80211NWID" else mret tt
  end.

Definition setifbssid (val : cptr) (d : Z) : GM unit :=
  r ← (if negb (d =? 0) then mret (Some (zeros 6))
       else val ← deref val; ea ← need (ether_aton (cmem val)); mret (to_bytes <$> ea));
  match r with
  | None => warn "malformed BSSID"
  | Some octets =>
      name ← gets g_name;
      '(z, _) ← ioctl SIOCS80211BSSID (mk_bssid (ifname name) octets);
      if z =? -1 then warn "SIOCS80211BSSID" else mret tt
  end.

Definition no_key : Z * list byte := (0, []).

(** The keys of a full set: a get_string for each of the four. *)
Fixpoint nwkey_keys (n : nat) (val : list ascii)
  : GM (option (list ascii * list (Z * list byte))) :=
  match n with
  | O => mret (Some (val, []))
  | S n =>
      r ← get_string val (Some ",") 16;
      match r with
      | None => mret None
      | Some (val, bs) =>
          r ← nwkey_keys n val;
          mret (match r with
                | None => None
                | Some (val, ks) => Some (val, (Zlen bs, padded 16 bs) :: ks)
                end)
      end
  end.

(** The branch at set_nwkey: the default key and the four keys. *)
Definition nwkey_set (val : list ascii) : GM (option (Z * list (Z * list byte))) :=
  c0 ← need (val !! 0%nat);
  full ← (if isdigit c0 then c1 ← need (val !! 1%nat); mret (Ascii.eqb c1 ":") else mret false);
  if (full : bool) then
    r ← nwkey_keys IEEE80211_WEP_NKID (drop 2 val);
    match r with
    | None => mret None
    | Some (val, ks) =>
        c ← need (val !! 0%nat);
        if negb (is_nul c) then warn "SIOCS80211NWKEY: too many keys.";; mret None
        else mret (Some (uch c0 - 48, ks))
    end
  else
    r ← get_string val None 16;
    mret (match r with
          | None => None
          | Some (_, bs) => Some (1, (Zlen bs, padded 16 bs) :: replicate 3 no_key)
          end).

Definition setifnwkey (val : cptr) (d : Z) : GM unit :=
  r ← (if d =? -1 then mret (Some (0, 1, replicate 4 no_key))
       else
         val ← deref val;
         let persist := Z.lor IEEE80211_NWKEY_WEP IEEE80211_NWKEY_PERSIST in
         if case_eq_s "persist" val then mret (Some (persist, 0, replicate 4 (-1, [])))
         else if bool_decide (lower "persist:" = take 8 (lower val)) then
           r ← nwkey_set (drop 8 (cmem val)); mret ((λ '(kid, ks), (persist, kid, ks)) <$> r)
         else
           r ← nwkey_set (cmem val); mret ((λ '(kid, ks), (IEEE80211_NWKEY_WEP, kid, ks)) <$> r));
  match r with
  | None => mret tt
  | Some (wepon, kid, ks) =>
      name ← gets g_name;
      '(z, _) ← ioctl SIOCS80211NWKEY (mk_nwkey (ifname name) wepon kid ks);
      if z =? -1 then warn "SIOCS80211NWKEY" else mret tt
  end.

(** Read the WPA parameters, change them and write them back. *)
Definition with_wpa (f : ieee80211_wpaparams → ieee80211_wpaparams) : GM unit :=
  name ← gets g_name;
  '(z, wpa) ← ioctl SIOCG80211WPAPARMS (mk_wpa (ifname name) 0 0 0 0 0);
  if z <? 0 then err
  else
    '(z, _) ← ioctl SIOCS80211WPAPARMS (f wpa);
    if z <? 0 then err else mret tt.

Definition set_enabled d w := mk_wpa (wpa_name w) d (i_protos w) (i_akms w) (i_ciphers w) (i_groupcipher w).
Definition set_protos v w := mk_wpa (wpa_name w) (wpa_enabled w) v (i_akms w) (i_ciphers w) (i_groupcipher w).
Definition set_akms v w := mk_wpa (wpa_name w) (wpa_enabled w) (i_protos w) v (i_ciphers w) (i_groupcipher w).
Definition set_ciphers v w := mk_wpa (wpa_name w) (wpa_enabled w) (i_protos w) (i_akms w) v (i_groupcipher w).
Definition set_groupcipher v w := mk_wpa (wpa_name w) (wpa_enabled w) (i_protos w) (i_akms w) (i_ciphers w) v.

Definition setifwpa (val : cptr) (d : Z) : GM unit := with_wpa (set_enabled d).

(** strdup, and the option list it is a copy of. *)
Definition opt_list (lookup : string → option Z) (val : cptr) : GM Z :=
  val ← deref val;
  ok ← in_env alloc_ok;
  if negb ok then err
  else match opt_bits lookup val with Some b => mret b | None => err end.

Definition setifwpaprotos (val : cptr) (d : Z) : GM unit :=
  rval ← opt_list wpaproto val; with_wpa (set_protos rval).

Definition setifwpaakms (val : cptr) (d : Z) : GM unit :=
  rval ← opt_list wpaakm val; with_wpa (set_akms rval).

Definition setifwpaciphers (val : cptr) (d : Z) : GM unit :=
  rval ← opt_list wpacipher val; with_wpa (set_ciphers rval).

Definition setifwpagroupcipher (val : cptr) (d : Z) : GM unit :=
  val ← deref val;
  let cipher := getwpacipher val in
  if cipher =? IEEE80211_WPA_CIPHER_NONE then err else with_wpa (set_groupcipher cipher).

Definition str_bytes (s : string) : list byte := map byte_of_ascii (bytes s).

(** The pre-shared key for an argument and the network id of the interface:
    a full hexadecimal key as it is, a passphrase derived.  [stk] is the
    stack of hmac_sha1. *)
Definition wpakey_psk (stk : list byte) (val : string) (nwid : ieee80211_nwid) : GM (list byte) :=
  let passlen := slen val in
  if (passlen =? 2 + 2 * WPA_PSK_LEN) && bool_decide (stake 2 val = "0x") then
    r ← get_string (cmem val) None WPA_PSK_LEN;
    match r with
    | Some (_, bs) => if Zlen bs =? WPA_PSK_LEN then mret bs else err
    | None => err
    end
  else if (passlen <? 8) || (63 <? passlen) then err
  else if i_len nwid =? 0 then err
  else if Zlen (i_nwid nwid) <? i_len nwid then undef
  else
    '(z, key) ← in_env (pkcs5_pbkdf2 stk (str_bytes val) (Ztake (i_len nwid) (i_nwid nwid))
                          (Z.to_nat WPA_PSK_LEN) 4096);
    if negb (z =? 0) then err else mret key.

Definition setifwpakey_stk (stk : list byte) (val : cptr) (d : Z) : GM unit :=
  psk ← (if negb (d =? -1) then
           modify (set_ifr ifreq_zero);;
           ifr_take_name;;
           '(z, nwid) ← ioctl_data SIOCG80211NWID (mk_nwid 0 (zeros 32));
           if negb (z =? 0) then err
           else val ← deref val; key ← wpakey_psk stk val nwid; mret (1, key)
         else mret (0, zeros 32));
  name ← gets g_name;
  '(z, _) ← ioctl SIOCS80211WPAPSK (mk_psk (ifname name) (psk : Z * list byte).1 psk.2);
  if z <? 0 then err else with_wpa (set_enabled psk.1).

(** The digest does not depend on the stack, by the theorems of Pbkdf2. *)
Definition setifwpakey (val : cptr) (d : Z) : GM unit := setifwpakey_stk (zeros 64) val d.

(** usage(1) ends the process. *)
Definition show_once (v : gvar) : GM unit :=
  c ← rd G_shownet80211chans; n ← rd G_shownet80211nodes;
  if negb (c =? 0) || negb (n =? 0) then err else wr v 1.

Definition setifchan (val : cptr) (d : Z) : GM unit :=
  match val with
  | None => show_once G_shownet80211chans
  | Some val =>
      chan ← (if negb (d =? 0) then mret (Some IEEE80211_CHAN_ANY)
              else match strtonum_s val 1 256 with
                   | inl n => mret (Some n)
                   | inr e => errno_set (numerr_errno e);; warn "invalid channel";; mret None
                   end);
      match chan with
      | None => mret tt
      | Some chan =>
          name ← gets g_name;
          '(z, _) ← ioctl SIOCS80211CHANNEL (mk_chanreq (ifname name) (u16 chan));
          if z =? -1 then warn "SIOCS80211CHANNEL" else mret tt
      end
  end.

Definition setifscan (val : cptr) (d : Z) : GM unit := show_once G_shownet80211nodes.

Definition setiftxpower (val : cptr) (d : Z) : GM unit :=
  name ← gets g_name;
  tx ← (if d =? 1 then mret (mk_txpower (ifname name) IEEE80211_TXPOWER_MODE_AUTO None)
        else val ← deref val;
             dbm ← strtonum_or_err val SHRT_MIN SHRT_MAX;
             mret (mk_txpower (ifname name) IEEE80211_TXPOWER_MODE_FIXED (Some (i16 dbm))));
  '(z, _) ← ioctl SIOCS80211TXPOWER tx;
  if z =? -1 then warn "SIOCS80211TXPOWER" else mret tt.

Definition setifnwflag (val : cptr) (d : Z) : GM unit :=
  val ← deref val;
  match table_find nwflags val with
  | None => err
  | Some flag =>
      z ← ioctl_ifr SIOCG80211FLAGS;
      if negb (z =? 0) then err
      else
        r ← gets g_ifr;
        f ← need (ifr_flags r);
        modify (set_ifr (set_ifr_flags r (if negb (d =? 0) then Z.ldiff f flag else Z.lor f flag)));;
        z ← ioctl_ifr SIOCS80211FLAGS;
        if negb (z =? 0) then err else mret tt
  end.

Definition unsetifnwflag (val : cptr) (d : Z) : GM unit := setifnwflag val 1.

Definition setifpowersave (val : cptr) (d : Z) : GM unit :=
  name ← gets g_name;
  '(z, power) ← ioctl SIOCG80211POWER (mk_power (ifname name) None None);
  if z =? -1 then warn "SIOCG80211POWER"
  else
    maxsleep ← (match val with
                | Some val => if negb (d =? -1) then Some <$> strtonum_or_err val 0 INT_MAX
                              else mret (i_maxsleep power)
                | None => mret (i_maxsleep power)
                end);
    '(z, _) ← ioctl SIOCS80211POWER
                (mk_power (pw_name power) (Some (if d =? -1 then 0 else 1)) maxsleep);
    if z =? -1 then warn "SIOCS80211POWER" else mret tt.
End wireless.
