(* ===== verification/IfMedia.v ===== *)
(** * IfMedia: media selection

    Models the media part of src/usr/src/sbin/ifconfig/ifcutil.c (the
    lookups, print_media_word and the handlers from init_current_media to
    setmediainst) with the tables and macros of
    src/usr/src/sys/net/if_media.h.  A media word is a C int. *)
From coqutil Require Import Byte.
From stdpp Require Import base list strings functions.
From Stdlib Require Import Ascii.
From S2P Require Import Prelude CString CNum NetAddr Scan IfData IfCore IfWireless.

(** ** if_media.h *)

Definition IFM_NMASK : Z := 0x000000e0.
Definition IFM_TMASK : Z := 0x0000001f.
Definition IFM_IMASK : Z := 0xf0000000.
Definition IFM_ISHIFT : Z := 28.
Definition IFM_OMASK : Z := 0x0000ff00.
Definition IFM_MMASK : Z := 0x00070000.
Definition IFM_GMASK : Z := 0x0ff00000.

Definition IFM_TYPE (x : Z) : Z := Z.land x IFM_NMASK.
Definition IFM_SUBTYPE (x : Z) : Z := Z.land x IFM_TMASK.
Definition IFM_INST (x : Z) : Z := Z.shiftr (Z.land x IFM_IMASK) IFM_ISHIFT.
Definition IFM_OPTIONS (x : Z) : Z := Z.land x (Z.lor IFM_OMASK IFM_GMASK).
Definition IFM_MODE (x : Z) : Z := Z.land x IFM_MMASK.
Definition IFM_INST_MAX : Z := IFM_INST IFM_IMASK.

(** The result is stored in an int. *)
Definition IFM_MAKEWORD (type subtype options instance : Z) : Z :=
  i32 (Z.lor (Z.lor (Z.lor type subtype) options) (Z.shiftl instance IFM_ISHIFT)).

Definition IFM_TYPE_MATCH (dt t : Z) : bool :=
  (IFM_TYPE dt =? 0) || (IFM_TYPE dt =? IFM_TYPE t).

(** IFM_TYPE_DESCRIPTIONS *)
Definition ifm_type_descriptions : list (string * Z) :=
  [("Ethernet", 0x20); ("ether", 0x20); ("FDDI", 0x60); ("IEEE802.11", 0x80); ("TDM", 0xa0);
   ("CARP", 0xc0)].

(** IFM_SUBTYPE_DESCRIPTIONS *)
Definition ifm_subtype_descriptions : list (string * Z) :=
  [("autoselect", 0x0); ("auto", 0x0); ("manual", 0x1); ("none", 0x2); ("10baseT", 0x23);
   ("10baseT/UTP", 0x23); ("UTP", 0x23); ("10UTP", 0x23); ("10base2", 0x24);
   ("10base2/BNC", 0x24); ("BNC", 0x24); ("10BNC", 0x24); ("10base5", 0x25);
   ("10base5/AUI", 0x25); ("AUI", 0x25); ("10AUI", 0x25); ("100baseTX", 0x26); ("100TX", 0x26);
   ("100baseFX", 0x27); ("100FX", 0x27); ("100baseT4", 0x28); ("100T4", 0x28);
   ("100baseVG", 0x29); ("100VG", 0x29); ("100baseT2", 0x2a); ("100T2", 0x2a);
   ("1000baseSX", 0x2b); ("1000SX", 0x2b); ("10baseSTP", 0x2c); ("STP", 0x2c); ("10STP", 0x2c);
   ("10baseFL", 0x2d); ("FL", 0x2d); ("10FL", 0x2d); ("1000baseLX", 0x2e); ("1000LX", 0x2e);
   ("1000baseCX", 0x2f); ("1000CX", 0x2f); ("1000baseT", 0x30); ("1000T", 0x30);
   ("1000baseTX", 0x30); ("1000TX", 0x30); ("HomePNA1", 0x31); ("HPNA1", 0x31);
   ("10GbaseLR", 0x32); ("10GLR", 0x32); ("10GBASE-LR", 0x32); ("10GbaseSR", 0x33);
   ("10GSR", 0x33); ("10GBASE-SR", 0x33); ("10GbaseCX4", 0x34); ("10GCX4", 0x34);
   ("10GBASE-CX4", 0x34); ("2500baseSX", 0x35); ("2500SX", 0x35); ("10GbaseT", 0x36);
   ("10GT", 0x36); ("10GBASE-T", 0x36); ("10GSFP+Cu", 0x37); ("10GCu", 0x37);
   ("Single-mode", 0x63); ("SMF", 0x63); ("Multi-mode", 0x64); ("MMF", 0x64); ("UTP", 0x65);
   ("CDDI", 0x65); ("FH1", 0x83); ("FH2", 0x84); ("DS2", 0x85); ("DS5", 0x86); ("DS11", 0x87);
   ("DS1", 0x88); ("DS22", 0x89); ("OFDM6", 0x8a); ("OFDM9", 0x8b); ("OFDM12", 0x8c);
   ("OFDM18", 0x8d); ("OFDM24", 0x8e); ("OFDM36", 0x8f); ("OFDM48", 0x90); ("OFDM54", 0x91);
   ("OFDM72", 0x92); ("t1", 0xa3); ("t1-ami", 0xa4); ("e1", 0xa5); ("e1-g.704", 0xa6);
   ("e1-ami", 0xa7); ("e1-ami-g.704", 0xa8); ("t3", 0xa9); ("t3-m13", 0xaa); ("e3", 0xab);
   ("e3-g.751", 0xac); ("e3-g.832", 0xad); ("e1-g.704-crc4", 0xae)].

(** IFM_MODE_DESCRIPTIONS *)
Definition ifm_mode_descriptions : list (string * Z) :=
  [("autoselect", 0x0); ("auto", 0x0); ("11a", 0x10080); ("11b", 0x20080); ("11g", 0x30080);
   ("fh", 0x40080); ("master", 0x100a0)].

(** IFM_OPTION_DESCRIPTIONS *)
Definition ifm_option_descriptions : list (string * Z) :=
  [("full-duplex", 0x100000); ("fdx", 0x100000); ("half-duplex", 0x200000); ("hdx", 0x200000);
   ("flag0", 0x1000000); ("flag1", 0x2000000); ("flag2", 0x4000000); ("loopback", 0x8000000);
   ("hw-loopback", 0x8000000); ("loop", 0x8000000); ("master", 0x120); ("rxpause", 0x220);
   ("txpause", 0x420); ("dual-attach", 0x160); ("das", 0x160); ("adhoc", 0x180);
   ("hostap", 0x280); ("ibss", 0x480); ("ibss-master", 0x880); ("monitor", 0x1080);
   ("turbo", 0x2080); ("hdlc-crc16", 0x1a0); ("ppp", 0x2a0); ("framerelay-ansi", 0x4a0);
   ("framerelay-cisco", 0x8a0); ("framerelay-itu", 0x4a0)].

(** ** Lookups *)

Fixpoint media_type_loop (desc : list (string * Z)) (mword : Z) : string :=
  match desc with
  | [] => "<unknown type>"
  | (s, w) :: desc => if IFM_TYPE mword =? w then s else media_type_loop desc mword
  end.

Definition get_media_type_string (mword : Z) : string := media_type_loop ifm_type_descriptions mword.

Fixpoint media_subtype_loop (desc : list (string * Z)) (mword : Z) : string :=
  match desc with
  | [] => "<unknown subtype>"
  | (s, w) :: desc =>
      if IFM_TYPE_MATCH w mword && (IFM_SUBTYPE w =? IFM_SUBTYPE mword) then s
      else media_subtype_loop desc mword
  end.

Definition get_media_subtype_string (mword : Z) : string :=
  media_subtype_loop ifm_subtype_descriptions mword.

(** -1 when there is no such word. *)
Fixpoint lookup_media_word (desc : list (string * Z)) (type : Z) (val : string) : Z :=
  match desc with
  | [] => -1
  | (s, w) :: desc =>
      if IFM_TYPE_MATCH w type && case_eq_s s val then w else lookup_media_word desc type val
  end.

(** The strtok loop of get_media_options; [None] is its errx. *)
Fixpoint media_options_loop (type : Z) (words : list string) (rval : Z) : option Z :=
  match words with
  | [] => Some rval
  | str :: words =>
      let option := lookup_media_word ifm_option_descriptions type str in
      if option =? -1 then None
      else media_options_loop type words (Z.lor rval (IFM_OPTIONS option))
  end.

Definition words_of (val : string) : list string :=
  map String.string_of_list_ascii (tokens (bytes ",") (bytes val)).

(** ** print_media_word *)

Fixpoint mode_loop (desc : list (string * Z)) (ifmw : Z) : option string :=
  match desc with
  | [] => None
  | (s, w) :: desc =>
      if IFM_TYPE_MATCH w ifmw && (IFM_MODE ifmw =? IFM_MODE w) then Some s else mode_loop desc ifmw
  end.

(** The names the option loop prints, in order. *)
Fixpoint option_loop (desc : list (string * Z)) (ifmw seen_option : Z) : list string :=
  match desc with
  | [] => []
  | (s, w) :: desc =>
      if IFM_TYPE_MATCH w ifmw && negb (Z.land (IFM_OPTIONS ifmw) (IFM_OPTIONS w) =? 0)
         && (Z.land seen_option (IFM_OPTIONS w) =? 0)
      then s :: option_loop desc ifmw (Z.lor seen_option (IFM_OPTIONS w))
      else option_loop desc ifmw seen_option
  end.

Definition print_options (ifmw : Z) : list string := option_loop ifm_option_descriptions ifmw 0.

(** Words separated by commas. *)
Fixpoint join_comma (l : list string) : string :=
  match l with
  | [] => ""
  | [s] => s
  | s :: l => s +:+ "," +:+ join_comma l
  end.

Definition print_media_word (ifmw : Z) (print_type as_syntax : bool) : string :=
  (if print_type then get_media_type_string ifmw +:+ " " else "")
  +:+ (if as_syntax then "media " else "") +:+ get_media_subtype_string ifmw
  +:+ (if negb (IFM_MODE ifmw =? 0) then
         match mode_loop ifm_mode_descriptions ifmw with
         | Some s => " mode " +:+ s
         | None => ""
         end
       else "")
  +:+ (match print_options ifmw with
       | [] => ""
       | l => " " +:+ (if as_syntax then "mediaopt " else "") +:+ join_comma l
       end)
  +:+ (if negb (IFM_INST ifmw =? 0) then " instance " +:+ bits_text (IFM_INST ifmw) else "").

(** ** The handlers *)

Definition A_MEDIA : Z := 0x0001.
Definition A_MEDIAOPTSET : Z := 0x0002.
Definition A_MEDIAOPTCLR : Z := 0x0004.
Definition A_MEDIAOPT : Z := Z.lor A_MEDIAOPTSET A_MEDIAOPTCLR.
Definition A_MEDIAINST : Z := 0x0008.
Definition A_MEDIAMODE : Z := 0x0010.
Definition A_SILENT : Z := 0x8000000.

Section media.
Context `{!Kernel, !Libs}.

Definition get_media_subtype (type : Z) (val : string) : GM Z :=
  let rval := lookup_media_word ifm_subtype_descriptions type val in
  if rval =? -1 then err else mret rval.

Definition get_media_mode (type : Z) (val : string) : GM Z :=
  let rval := lookup_media_word ifm_mode_descriptions type val in
  if rval =? -1 then err else mret rval.

Definition get_media_options (type : Z) (val : string) : GM Z :=
  ok ← in_env alloc_ok;
  if negb ok then err
  else match media_options_loop type (words_of val) 0 with
  | Some rval => mret rval
  | None => err
  end.

(** ifmr is zeroed before the request, and kept if it fails. *)
Definition init_current_media : GM unit :=
  actions ← rd G_actions;
  (if negb (has_bits actions (Z.lor (Z.lor A_MEDIA A_MEDIAOPT) A_MEDIAMODE)) then
     name ← gets g_name;
     '(z, ifmr) ← ioctl SIOCGIFMEDIA (mk_ifmr (ifname name) 0 0 0 0 []);
     (if z <? 0 then e ← errno; if negb (e =? E2BIG) then err else mret tt else mret tt);;
     wr G_media_current (i32 (ifm_current ifmr))
   else mret tt);;
  m ← rd G_media_current;
  if IFM_TYPE m =? 0 then err else mret tt.

Definition process_media_commands : GM unit :=
  actions ← rd G_actions;
  if negb (has_bits actions (Z.lor A_MEDIA A_MEDIAOPT)) then mret tt
  else
    m ← rd G_media_current; s ← rd G_mediaopt_set; c ← rd G_mediaopt_clear;
    let m := Z.ldiff (Z.lor m s) c in
    wr G_media_current m;;
    ifr_take_name;;
    modify (λ g, set_ifr (set_ifr_metric (g_ifr g) m) g);;
    _ ← ioctl_ifr SIOCSIFMEDIA;
    mret tt.

(** errx(3) when one of the actions has been taken. *)
Definition unless (mask : Z) : GM unit :=
  actions ← rd G_actions; if has_bits actions mask then err else mret tt.

Definition setmedia (val : cptr) (d : Z) : GM unit :=
  match val with
  | None =>
      f ← rd G_showmediaflag;
      if negb (f =? 0) then err else wr G_showmediaflag 1
  | Some val =>
      init_current_media;;
      unless A_MEDIA;;
      unless A_MEDIAMODE;;
      unless A_MEDIAOPT;;
      m ← rd G_media_current;
      subtype ← get_media_subtype (IFM_TYPE m) val;
      wr G_media_current (IFM_MAKEWORD (IFM_TYPE m) subtype 0 (IFM_INST m))
  end.

Definition setmediamode (val : cptr) (d : Z) : GM unit :=
  init_current_media;;
  unless A_MEDIAMODE;;
  m ← rd G_media_current;
  val ← deref val;
  mode ← get_media_mode (IFM_TYPE m) val;
  wr G_media_current
    (Z.lor (IFM_MAKEWORD (IFM_TYPE m) (IFM_SUBTYPE m) (IFM_OPTIONS m) (IFM_INST m)) mode).

Definition setmediaopt (val : cptr) (d : Z) : GM unit :=
  init_current_media;;
  unless A_MEDIAOPTSET;;
  unless A_MEDIAINST;;
  m ← rd G_media_current;
  val ← deref val;
  o ← get_media_options (IFM_TYPE m) val;
  wr G_mediaopt_set o.

Definition unsetmediaopt (val : cptr) (d : Z) : GM unit :=
  init_current_media;;
  unless A_MEDIAOPTCLR;;
  unless A_MEDIA;;
  m ← rd G_media_current;
  val ← deref val;
  o ← get_media_options (IFM_TYPE m) val;
  wr G_mediaopt_clear o.

Definition setmediainst (val : cptr) (d : Z) : GM unit :=
  init_current_media;;
  unless A_MEDIAINST;;
  actions ← rd G_actions;
  if negb (has_bits actions A_MEDIA) then err
  else
    m ← rd G_media_current;
    val ← deref val;
    inst ← strtonum_or_err val 0 IFM_INST_MAX;
    wr G_media_current (IFM_MAKEWORD (IFM_TYPE m) (IFM_SUBTYPE m) (IFM_OPTIONS m) inst).
End media.
