(* ===== verification/IfProto.v ===== *)
(** * IfProto: the handlers of protocol and pseudo interfaces

    Models the parts of src/usr/src/sbin/ifconfig/ifcutil.c for serial time
    slots, MPLS labels, tunnels, vlan(4), carp(4), pfsync(4), pflow(4),
    pppoe(4), sppp(4) and trunk(4).  Internet addresses and ports in the
    requests are kept in host byte order. *)
From coqutil Require Import Byte Word.LittleEndianList.
From stdpp Require Import base list strings functions.
From Stdlib Require Import Ascii.
From S2P Require Import Prelude CString CNum NetAddr Printf Scan IfData IfCore IfWireless.

(** ** Time slots *)

Definition SINGLE_CHANNEL : Z := 0x1.
Definition RANGE_CHANNEL : Z := 0x2.
Definition ALL_CHANNELS : Z := 0xFFFFFFFF.

(** The loop over a range.  A value of i outside of 0..30 ends it, so 32
    rounds are enough. *)
Fixpoint ts_range (fuel : nat) (i ts_stop map : Z) : option Z :=
  if ts_stop <? i then Some map
  else match fuel with
  | O => None
  | S fuel => mask ← shift1 i; ts_range fuel (i + 1) ts_stop (Z.lor map mask)
  end.

Definition get_ts_map (ts_flag ts_start ts_stop : Z) : option Z :=
  if negb (has_bits ts_flag (Z.lor SINGLE_CHANNEL RANGE_CHANNEL)) then Some 0
  else if has_bits ts_flag RANGE_CHANNEL then ts_range 32 ts_start ts_stop 0
  else shift1 ts_stop.

(** The loop of settimeslot over the characters at ptr. *)
Fixpoint timeslot_loop (fuel : nat) (ptr : list ascii) (ts_flag ts ts_start ts_map : Z) : option Z :=
  match fuel, ptr with
  | _, [] => None
  | O, _ => None
  | S fuel, c :: ptr' =>
      if is_nul c then
        if negb (ts_flag =? 0) then m ← get_ts_map ts_flag ts_start ts; Some (Z.lor ts_map m)
        else Some ts_map
      else if isdigit c then
        '(v, ep, _) ← strtoul ptr 10;
        timeslot_loop fuel (Zdrop ep ptr) (Z.lor ts_flag SINGLE_CHANNEL) (i32 v) ts_start ts_map
      else if Ascii.eqb c "-" then
        timeslot_loop fuel ptr' (Z.lor ts_flag RANGE_CHANNEL) ts ts ts_map
      else
        m ← get_ts_map ts_flag ts_start ts;
        timeslot_loop fuel ptr' 0 ts ts_start (Z.lor ts_map m)
  end.

Definition timeslot_map (val : string) : option Z :=
  if bool_decide (val = "all") then Some ALL_CHANNELS
  else timeslot_loop (length (cmem val)) (cmem val) 0 0 0 0.

(** ** Tables *)

Definition carp_states : list string := ["INIT"; "BACKUP"; "MASTER"].
Definition carp_bal_modes : list string := ["none"; "arp"; "ip"; "ip-stealth"; "ip-unicast"].
Definition CARP_MAXNODES : nat := 32.
Definition CARP_KEY_LEN : Z := 20.
Definition MPLS_LABEL_MAX : Z := 2 ^ 20 - 1.
Definition PFLOW_MASK_SRCIP : Z := 0x1.
Definition PFLOW_MASK_DSTIP : Z := 0x2.
Definition PFLOW_MASK_DSTPRT : Z := 0x4.
Definition PPPOE_NAMELEN : Z := 512.
Definition PPP_PAP : Z := 0xc023.
Definition PPP_CHAP : Z := 0xc223.
Definition AUTHMAXLEN : Z := 256.
Definition AUTHFLAG_NOCALLOUT : Z := 1.
Definition AUTHFLAG_NORECHALLENGE : Z := 2.
(** ('S' << 24) + (n << 16) + sizeof(struct sauthreq) *)
Definition SPPPIO (n : Z) : Z := Z.shiftl 83 24 + Z.shiftl n 16 + 520.
Definition SPPPIOGMAUTH : Z := SPPPIO 3.
Definition SPPPIOSMAUTH : Z := SPPPIO 4.
Definition SPPPIOGHAUTH : Z := SPPPIO 5.
Definition SPPPIOSHAUTH : Z := SPPPIO 6.

Definition trunk_protos : list (string * Z) :=
  [("roundrobin", 1); ("failover", 2); ("lacp", 5); ("loadbalance", 3); ("broadcast", 4);
   ("none", 0); ("default", 1)].

(** The index of the first name that strcasecmp(3) finds equal. *)
Fixpoint find_case (names : list string) (val : string) (i : Z) : option Z :=
  match names with
  | [] => None
  | n :: names => if case_eq_s val n then Some i else find_case names val (i + 1)
  end.

(** The number of leading characters outside of the digits: strcspn(3). *)
Fixpoint skip_nondigits (l : list ascii) : list ascii :=
  match l with
  | c :: l' => if isdigit c then l else skip_nondigits l'
  | [] => []
  end.

(** The nodes of a carpnodes list; [None] is one of its errors. *)
Fixpoint carp_nodes_loop (toks : list (list ascii)) (room : nat) : option (list (Z * Z)) :=
  match toks with
  | [] => Some []
  | str :: toks =>
      match room with
      | O => None
      | S room =>
          '(vhid, advskew) ← sscanf_u_u ":"%char (String.string_of_list_ascii str);
          if (255 <=? vhid) || (255 <=? advskew) then None
          else r ← carp_nodes_loop toks room; Some ((vhid, advskew) :: r)
      end
  end.

Definition pad_nodes (l : list Z) : list Z := l ++ replicate (CARP_MAXNODES - length l) 0.

Section proto.
Context `{!Kernel, !Libs}.

Definition settimeslot (val : cptr) (d : Z) : GM unit :=
  val ← deref val;
  ts_map ← need (timeslot_map val);
  ifr_take_name;;
  '(z, _) ← ioctl_data SIOCSIFTIMESLOT ts_map;
  if z <? 0 then err else mret tt.

Definition setmpelabel (val : cptr) (d : Z) : GM unit :=
  val ← deref val;
  label ← strtonum_or_err val 0 MPLS_LABEL_MAX;
  '(z, _) ← ioctl_data SIOCSETLABEL label;
  if z =? -1 then warn "SIOCSETLABEL" else mret tt.

(** ** Tunnels *)

Definition resolve (family : Z) (host : string) (service : option string) : GM sockaddr :=
  match getaddrinfo family host service with Some sa => mret sa | None => err end.

(** sizeof(req.addr), a struct sockaddr_storage *)
Definition SS_SIZE : Z := 256.

Definition settunnel (src dst : cptr) : GM unit :=
  p ← gets g_afp; p ← need p;
  src ← deref src; srcres ← resolve (af_af p) src None;
  dst ← deref dst; dstres ← resolve (af_af p) dst None;
  if negb (sa_family srcres =? sa_family dstres) then err
  else if (SS_SIZE <? Zlen srcres) || (SS_SIZE <? Zlen dstres) then err
  else
    name ← gets g_name;
    '(z, _) ← ioctl SIOCSLIFPHYADDR (mk_laddr (ifname name) srcres dstres);
    if z <? 0 then warn "SIOCSLIFPHYADDR" else mret tt.

Definition deletetunnel (ignored : cptr) (alsoignored : Z) : GM unit :=
  z ← ioctl_ifr SIOCDIFPHYADDR;
  if z <? 0 then warn "SIOCDIFPHYADDR" else mret tt.

Definition settunnelinst (id : cptr) (param : Z) : GM unit :=
  id ← deref id;
  rdomainid ← strtonum_or_err id 0 RT_TABLEID_MAX;
  ifr_take_name;;
  send_metric SIOCSLIFPHYRTABLE rdomainid "SIOCSLIFPHYRTABLE".

(** ** vlan *)

(** Read the vlan of the interface, change it and write it back. *)
Definition with_vlan (get set : iocmd (ifreq * vlanreq)) (f : vlanreq → GM vlanreq) : GM unit :=
  '(z, vreq) ← ioctl_data get (mk_vlan "" 0);
  if z =? -1 then err
  else
    vreq ← f vreq;
    '(z, _) ← ioctl_data set vreq;
    if z =? -1 then err else mret tt.

Definition setvlantag (val : cptr) (d : Z) : GM unit :=
  val ← deref val;
  tag ← strtonum_or_err val 0 4095;
  wr G_tag tag;;
  wr G_have_tag 1;;
  with_vlan SIOCGETVLAN SIOCSETVLAN (λ vreq, mret (mk_vlan (vlr_parent vreq) tag)).

Definition setvlanprio (val : cptr) (d : Z) : GM unit :=
  val ← deref val;
  prio ← strtonum_or_err val 0 7;
  with_vlan SIOCGETVLANPRIO SIOCSETVLANPRIO (λ vreq, mret (mk_vlan (vlr_parent vreq) prio)).

Definition setvlandev (val : cptr) (d : Z) : GM unit :=
  with_vlan SIOCGETVLAN SIOCSETVLAN (λ vreq,
    val ← deref val;
    have_tag ← rd G_have_tag;
    tag ← (if (have_tag =? 0) && (vlr_tag vreq =? 0) then
             r ← gets g_ifr;
             strtonum_or_err (String.string_of_list_ascii (skip_nondigits (bytes (ifr_name r)))) 0 4095
           else if negb (have_tag =? 0) then rd G_tag
           else mret (vlr_tag vreq));
    mret (mk_vlan (ifname val) (u16 tag))).

Definition unsetvlandev (val : cptr) (d : Z) : GM unit :=
  with_vlan SIOCGETVLAN SIOCSETVLAN (λ vreq, mret (mk_vlan "" 0)).

(** ** carp *)

Definition carp_zero : carpreq :=
  mk_carp "" (replicate CARP_MAXNODES 0) (replicate CARP_MAXNODES 0) (replicate CARP_MAXNODES 0) 0 0 0 "" 0.

Definition with_carp (f : carpreq → GM carpreq) : GM unit :=
  '(z, c) ← ioctl_data SIOCGVH carp_zero;
  if z =? -1 then err
  else
    c ← f c;
    '(z, _) ← ioctl_data SIOCSVH c;
    if z =? -1 then err else mret tt.

Definition set_carpdev v c := mk_carp v (carpr_vhids c) (carpr_advskews c) (carpr_states c) (carpr_state c) (carpr_balancing c) (carpr_advbase c) (carpr_key c) (carpr_peer c).
Definition set_nodes vhids advskews c := mk_carp (carpr_carpdev c) vhids advskews (carpr_states c) (carpr_state c) (carpr_balancing c) (carpr_advbase c) (carpr_key c) (carpr_peer c).
Definition set_carp_state v c := mk_carp (carpr_carpdev c) (carpr_vhids c) (carpr_advskews c) (carpr_states c) v (carpr_balancing c) (carpr_advbase c) (carpr_key c) (carpr_peer c).
Definition set_balancing v c := mk_carp (carpr_carpdev c) (carpr_vhids c) (carpr_advskews c) (carpr_states c) (carpr_state c) v (carpr_advbase c) (carpr_key c) (carpr_peer c).
Definition set_advbase v c := mk_carp (carpr_carpdev c) (carpr_vhids c) (carpr_advskews c) (carpr_states c) (carpr_state c) (carpr_balancing c) v (carpr_key c) (carpr_peer c).
Definition set_key v c := mk_carp (carpr_carpdev c) (carpr_vhids c) (carpr_advskews c) (carpr_states c) (carpr_state c) (carpr_balancing c) (carpr_advbase c) v (carpr_peer c).
Definition set_peer v c := mk_carp (carpr_carpdev c) (carpr_vhids c) (carpr_advskews c) (carpr_states c) (carpr_state c) (carpr_balancing c) (carpr_advbase c) (carpr_key c) v.

Definition setcarp_passwd (val : cptr) (d : Z) : GM unit :=
  with_carp (λ c, val ← deref val; mret (set_key (strlcpy_s val CARP_KEY_LEN).1 c)).

Definition setcarp_vhid (val : cptr) (d : Z) : GM unit :=
  val ← deref val;
  vhid ← strtonum_or_err val 1 255;
  with_carp (λ c, mret (set_nodes (<[1%nat := 0]> (<[0%nat := vhid]> (carpr_vhids c)))
                          (carpr_advskews c) c)).

Definition setcarp_advskew (val : cptr) (d : Z) : GM unit :=
  val ← deref val;
  advskew ← strtonum_or_err val 0 255;
  with_carp (λ c, mret (set_nodes (carpr_vhids c) (<[0%nat := advskew]> (carpr_advskews c)) c)).

Definition setcarp_advbase (val : cptr) (d : Z) : GM unit :=
  val ← deref val;
  advbase ← strtonum_or_err val 0 255;
  with_carp (λ c, mret (set_advbase advbase c)).

(** getaddrinfo for AF_INET, and the address found. *)
Definition resolve_inet (val : string) (service : option string) : GM sockaddr :=
  sa ← resolve AF_INET val service;
  if negb (sa_family sa =? AF_INET) then err else mret sa.

Definition setcarppeer (val : cptr) (d : Z) : GM unit :=
  with_carp (λ c, val ← deref val; sa ← resolve_inet val None; mret (set_peer (sin_addr sa) c)).

Definition unsetcarppeer (val : cptr) (d : Z) : GM unit := with_carp (λ c, mret (set_peer 0 c)).

Definition setcarp_state (val : cptr) (d : Z) : GM unit :=
  with_carp (λ c,
    val ← deref val;
    mret (match find_case carp_states val 0 with Some i => set_carp_state i c | None => c end)).

Definition setcarpdev (val : cptr) (d : Z) : GM unit :=
  with_carp (λ c, val ← deref val; mret (set_carpdev (ifname val) c)).

Definition unsetcarpdev (val : cptr) (d : Z) : GM unit := with_carp (λ c, mret (set_carpdev "" c)).

Definition setcarp_nodes (val : cptr) (d : Z) : GM unit :=
  with_carp (λ c,
    val ← deref val;
    ok ← in_env alloc_ok;
    if negb ok then err
    else match carp_nodes_loop (tokens (bytes ",") (bytes val)) CARP_MAXNODES with
    | None => err
    | Some nodes => mret (set_nodes (pad_nodes (map fst nodes)) (pad_nodes (map snd nodes)) c)
    end).

Definition setcarp_balancing (val : cptr) (d : Z) : GM unit :=
  with_carp (λ c,
    val ← deref val;
    match find_case carp_bal_modes val 0 with Some i => mret (set_balancing i c) | None => err end).

(** ** pfsync *)

Definition with_pfsync (f : pfsyncreq → GM pfsyncreq) : GM unit :=
  '(z, p) ← ioctl_data SIOCGETPFSYNC (mk_pfsync "" 0 0 0);
  if z =? -1 then err
  else
    p ← f p;
    '(z, _) ← ioctl_data SIOCSETPFSYNC p;
    if z =? -1 then err else mret tt.

Definition set_syncdev v p := mk_pfsync v (pfsyncr_syncpeer p) (pfsyncr_maxupdates p) (pfsyncr_defer p).
Definition set_syncpeer v p := mk_pfsync (pfsyncr_syncdev p) v (pfsyncr_maxupdates p) (pfsyncr_defer p).

Definition setpfsync_syncdev (val : cptr) (d : Z) : GM unit :=
  with_pfsync (λ p, val ← deref val; mret (set_syncdev (ifname val) p)).

Definition unsetpfsync_syncdev (val : cptr) (d : Z) : GM unit :=
  with_pfsync (λ p, mret (set_syncdev "" p)).

Definition setpfsync_syncpeer (val : cptr) (d : Z) : GM unit :=
  with_pfsync (λ p, val ← deref val; sa ← resolve_inet val None; mret (set_syncpeer (sin_addr sa) p)).

Definition unsetpfsync_syncpeer (val : cptr) (d : Z) : GM unit :=
  with_pfsync (λ p, mret (set_syncpeer 0 p)).

Definition setpfsync_maxupd (val : cptr) (d : Z) : GM unit :=
  val ← deref val;
  maxupdates ← strtonum_or_err val 0 255;
  with_pfsync (λ p, mret (mk_pfsync (pfsyncr_syncdev p) (pfsyncr_syncpeer p) maxupdates (pfsyncr_defer p))).

Definition setpfsync_defer (val : cptr) (d : Z) : GM unit :=
  with_pfsync (λ p, mret (mk_pfsync (pfsyncr_syncdev p) (pfsyncr_syncpeer p) (pfsyncr_maxupdates p) d)).

(** ** pflow *)

Definition send_pflow (p : pflowreq) : GM unit :=
  '(z, _) ← ioctl_data SIOCSETPFLOW p;
  if z =? -1 then err else mret tt.

Definition setpflow_sender (val : cptr) (d : Z) : GM unit :=
  val ← deref val;
  sa ← resolve_inet val None;
  send_pflow (mk_pflow (sin_addr sa) 0 0 PFLOW_MASK_SRCIP).

Definition unsetpflow_sender (val : cptr) (d : Z) : GM unit :=
  send_pflow (mk_pflow 0 0 0 PFLOW_MASK_SRCIP).

(** sizeof(buf): MAXHOSTNAMELEN + sizeof (":65535") *)
Definition RECEIVER_BUF : Z := 256 + 7.

Definition sin_port (sa : sockaddr) : Z := le_combine (rev (take 2 (drop 2 sa))).

(** The two parts of a string at its first colon. *)
Fixpoint split_colon (l : list ascii) : option (list ascii * list ascii) :=
  match l with
  | [] => None
  | c :: l => if Ascii.eqb c ":" then Some ([], l)
              else '(a, b) ← split_colon l; Some (c :: a, b)
  end.

Definition setpflow_receiver (val : cptr) (d : Z) : GM unit :=
  val ← deref val;
  match split_colon (bytes val) with
  | None => err
  | Some (ip, port) =>
      if RECEIVER_BUF <=? slen val then err
      else
        sa ← resolve_inet (String.string_of_list_ascii ip) (Some (String.string_of_list_ascii port));
        send_pflow (mk_pflow 0 (sin_addr sa) (sin_port sa) (Z.lor PFLOW_MASK_DSTIP PFLOW_MASK_DSTPRT))
  end.

Definition unsetpflow_receiver (val : cptr) (d : Z) : GM unit :=
  send_pflow (mk_pflow 0 0 0 (Z.lor PFLOW_MASK_DSTIP PFLOW_MASK_DSTPRT)).

(** ** pppoe *)

(** A failure to read the parameters is silent. *)
Definition with_pppoe (f : pppoediscparms → GM pppoediscparms) : GM unit :=
  name ← gets g_name;
  '(z, p) ← ioctl PPPOEGETPARMS (mk_pppoe (ifname name) None None None);
  if negb (z =? 0) then mret tt
  else
    p ← f p;
    '(z, _) ← ioctl PPPOESETPARMS p;
    if negb (z =? 0) then err else mret tt.

Definition setpppoe_dev (val : cptr) (d : Z) : GM unit :=
  with_pppoe (λ p, val ← deref val;
    mret (mk_pppoe (pp_ifname p) (Some (ifname val)) (ac_name p) (service_name p))).

Definition pppoe_name (val : cptr) (d : Z) : GM string :=
  if d =? 0 then val ← deref val; mret (strlcpy_s val PPPOE_NAMELEN).1 else mret "".

Definition setpppoe_svc (val : cptr) (d : Z) : GM unit :=
  with_pppoe (λ p, n ← pppoe_name val d;
    mret (mk_pppoe (pp_ifname p) (eth_ifname p) (ac_name p) (Some n))).

Definition setpppoe_ac (val : cptr) (d : Z) : GM unit :=
  with_pppoe (λ p, n ← pppoe_name val d;
    mret (mk_pppoe (pp_ifname p) (eth_ifname p) (Some n) (service_name p))).

(** ** sppp *)

Definition spppauthinfo (d : Z) : GM sauthreq :=
  '(z, spa) ← ioctl_data SIOCGIFGENERIC
                (mk_sauth (if d =? 0 then SPPPIOGMAUTH else SPPPIOGHAUTH) 0 0 "" "");
  if z =? -1 then err else mret spa.

Definition send_sauth (cmd : Z) (spa : sauthreq) : GM unit :=
  '(z, _) ← ioctl_data SIOCSIFGENERIC
              (mk_sauth cmd (spa_proto spa) (spa_flags spa) (spa_name spa) (spa_secret spa));
  if z =? -1 then err else mret tt.

Definition set_auth_cmd (d : Z) : Z := if d =? 0 then SPPPIOSMAUTH else SPPPIOSHAUTH.

Definition setspppproto (val : cptr) (d : Z) : GM unit :=
  spa ← spppauthinfo d;
  val ← deref val;
  match table_find [("pap", PPP_PAP); ("chap", PPP_CHAP); ("none", 0)] val with
  | Some proto =>
      send_sauth (set_auth_cmd d)
        (mk_sauth (spa_cmd spa) proto (spa_flags spa) (spa_name spa) (spa_secret spa))
  | None => err
  end.

Definition setsppppeerproto (val : cptr) (d : Z) : GM unit := setspppproto val 1.

(** A name or key that is copied whole. *)
Definition auth_string (spa : sauthreq) (val : cptr) : GM string :=
  if spa_proto spa =? 0 then err
  else
    val ← deref val;
    let '(s, n) := strlcpy_s val AUTHMAXLEN in
    if AUTHMAXLEN <=? n then err else mret s.

Definition setspppname (val : cptr) (d : Z) : GM unit :=
  spa ← spppauthinfo d;
  s ← auth_string spa val;
  send_sauth (set_auth_cmd d)
    (mk_sauth (spa_cmd spa) (spa_proto spa) (spa_flags spa) s (spa_secret spa)).

Definition setsppppeername (val : cptr) (d : Z) : GM unit := setspppname val 1.

Definition setspppkey (val : cptr) (d : Z) : GM unit :=
  spa ← spppauthinfo d;
  s ← auth_string spa val;
  send_sauth (set_auth_cmd d)
    (mk_sauth (spa_cmd spa) (spa_proto spa) (spa_flags spa) (spa_name spa) s).

Definition setsppppeerkey (val : cptr) (d : Z) : GM unit := setspppkey val 1.

Definition setsppppeerflag (val : cptr) (d : Z) : GM unit :=
  spa ← spppauthinfo 1;
  if spa_proto spa =? 0 then err
  else
    val ← deref val;
    match table_find [("callin", AUTHFLAG_NOCALLOUT); ("norechallenge", AUTHFLAG_NORECHALLENGE)] val with
    | Some flag =>
        let f := if negb (d =? 0) then Z.ldiff (spa_flags spa) flag else Z.lor (spa_flags spa) flag in
        send_sauth SPPPIOSHAUTH
          (mk_sauth (spa_cmd spa) (spa_proto spa) f (spa_name spa) (spa_secret spa))
    | None => err
    end.

Definition unsetsppppeerflag (val : cptr) (d : Z) : GM unit := setsppppeerflag val 1.

(** ** trunk *)

Definition lacp_zero : lacp_opreq :=
  mk_lacpreq (mk_lacp 0 (zeros 6) 0 0 0) (mk_lacp 0 (zeros 6) 0 0 0).

Definition trunk_port (c : iocmd trunk_reqport) (val : cptr) : GM unit :=
  name ← gets g_name;
  val ← deref val;
  '(z, _) ← ioctl c (mk_rp (ifname name) (ifname val) 0);
  if negb (z =? 0) then err else mret tt.

Definition settrunkport (val : cptr) (d : Z) : GM unit := trunk_port SIOCSTRUNKPORT val.
Definition unsettrunkport (val : cptr) (d : Z) : GM unit := trunk_port SIOCSTRUNKDELPORT val.

Definition settrunkproto (val : cptr) (d : Z) : GM unit :=
  val ← deref val;
  match table_find trunk_protos val with
  | None => err
  | Some proto =>
      name ← gets g_name;
      '(z, _) ← ioctl SIOCSTRUNK (mk_ra (ifname name) proto 0 0 [] lacp_zero);
      if negb (z =? 0) then err else mret tt
  end.
End proto.
