(* ===== verification/Brconfig.v ===== *)
(** * Brconfig: the handlers of bridge interfaces

    Models src/usr/src/sbin/ifconfig/brconfig.c: member flags, members and
    span ports, parameters, static addresses, and the filter rules
    (bridge_rule, bridge_rulefile, bridge_showrule); and the status of a
    bridge (bridge_cfg, bridge_list, bridge_addrs, bridge_rules,
    bridge_status).  A buffer that ioctl(2) fills is the list of its
    elements. *)
From coqutil Require Import Byte.
From stdpp Require Import base list strings functions.
From Stdlib Require Import Ascii.
From S2P Require Import Prelude CString CNum NetAddr Printf Scan IfData IfCore.

Definition IFBIF_LEARNING : Z := 0x0001.
Definition IFBIF_DISCOVER : Z := 0x0002.
Definition IFBIF_BLOCKNONIP : Z := 0x0004.
Definition IFBIF_STP : Z := 0x0008.
Definition IFBIF_BSTP_EDGE : Z := 0x0010.
Definition IFBIF_BSTP_AUTOEDGE : Z := 0x0020.
Definition IFBIF_BSTP_PTP : Z := 0x0040.
Definition IFBIF_BSTP_AUTOPTP : Z := 0x0080.
Definition IFBIF_RO_MASK : Z := 0xff00.
Definition IFBF_FLUSHDYN : Z := 0x0.
Definition IFBF_FLUSHALL : Z := 0x1.
Definition IFBAF_STATIC : Z := 0x01.
Definition BRL_ACTION_BLOCK : Z := 0x01.
Definition BRL_ACTION_PASS : Z := 0x02.
Definition BRL_FLAG_IN : Z := 0x08.
Definition BRL_FLAG_OUT : Z := 0x04.
Definition BRL_FLAG_SRCVALID : Z := 0x02.
Definition BRL_FLAG_DSTVALID : Z := 0x01.
Definition PF_TAG_NAME_SIZE : Z := 64.
Definition MAXRULEWORDS : nat := 8.

Definition IFBIF_SPAN : Z := 0x0100.

(** Of 16 bits: IFBAFBITS and IFBIFBITS. *)
Definition IFBAFBITS : string := bits_of 16 [(1, "STATIC")].
Definition IFBIFBITS : string :=
  bits_of 16 [(1, "LEARNING"); (2, "DISCOVER"); (3, "BLOCKNONIP"); (4, "STP"); (5, "EDGE");
              (6, "AUTOEDGE"); (7, "PTP"); (8, "AUTOPTP"); (9, "SPAN")].

Definition stpstates : list string :=
  ["disabled"; "listening"; "learning"; "forwarding"; "blocking"; "discarding"].
Definition stproles : list string := ["disabled"; "root"; "designated"; "alternate"; "backup"].
Definition stpproto : list string := ["stp"; "(none)"; "rstp"].

(** ** Rules *)

(** What a run over the words of a rule ends with: the rule, the label
    bad_rule (with the diagnostics before it), or the return after a
    malformed address. *)
Inductive ruleres :=
| Rule (r : ifbrlreq)
| BadRule (warnings : list string)
| BadAddr
| RuleUndef.

Definition set_rl_flags f r := mk_ifbrl (rl_name r) (rl_ifsname r) (rl_action r) f (rl_src r) (rl_dst r) (rl_tagname r).
Definition set_rl_src v r := mk_ifbrl (rl_name r) (rl_ifsname r) (rl_action r) (rl_flags r) v (rl_dst r) (rl_tagname r).
Definition set_rl_dst v r := mk_ifbrl (rl_name r) (rl_ifsname r) (rl_action r) (rl_flags r) (rl_src r) v (rl_tagname r).
Definition set_rl_tag v r := mk_ifbrl (rl_name r) (rl_ifsname r) (rl_action r) (rl_flags r) (rl_src r) (rl_dst r) v.

(** The address after src or dst. *)
Definition rule_addr (arg : string) (k : list byte → ruleres) : ruleres :=
  match ether_aton (cmem arg) with
  | None => RuleUndef
  | Some None => BadAddr
  | Some (Some octets) => k (to_bytes octets)
  end.

(** The loop while (argc). *)
Fixpoint rule_opts (argv : list string) (r : ifbrlreq) : ruleres :=
  match argv with
  | [] => Rule r
  | kw :: argv =>
      if bool_decide (kw = "dst") then
        if has_bits (rl_flags r) BRL_FLAG_DSTVALID then BadRule []
        else match argv with
        | [] => BadRule []
        | a :: argv =>
            rule_addr a (λ ea, rule_opts argv
              (set_rl_dst (Some ea) (set_rl_flags (Z.lor (rl_flags r) BRL_FLAG_DSTVALID) r)))
        end
      else if bool_decide (kw = "src") then
        if has_bits (rl_flags r) BRL_FLAG_SRCVALID then BadRule []
        else match argv with
        | [] => BadRule []
        | a :: argv =>
            rule_addr a (λ ea, rule_opts argv
              (set_rl_src (Some ea) (set_rl_flags (Z.lor (rl_flags r) BRL_FLAG_SRCVALID) r)))
        end
      else if bool_decide (kw = "tag") then
        match argv with
        | [] => BadRule ["missing tag name"]
        | t :: argv =>
            if negb (bool_decide (rl_tagname r = "")) then BadRule ["tag already defined"]
            else
              let '(tag, n) := strlcpy_s t PF_TAG_NAME_SIZE in
              if PF_TAG_NAME_SIZE <? n then BadRule ["tag name too long"]
              else rule_opts argv (set_rl_tag tag r)
        end
      else BadRule []
  end.

(** From the direction on: [argv] follows the action. *)
Definition rule_direction (argv : list string) : option (Z * list string) :=
  match argv with
  | [] => None
  | w :: rest =>
      if bool_decide (w = "in") then Some (BRL_FLAG_IN, rest)
      else if bool_decide (w = "out") then Some (BRL_FLAG_OUT, rest)
      else if bool_decide (w = "in/out") then Some (Z.lor BRL_FLAG_IN BRL_FLAG_OUT, rest)
      else if bool_decide (w = "on") then Some (Z.lor BRL_FLAG_IN BRL_FLAG_OUT, argv)
      else None
  end.

Definition rule_parse (name : string) (argv : list string) : ruleres :=
  match argv with
  | [] => BadRule []
  | w :: argv =>
      let go action :=
        match rule_direction argv with
        | None => BadRule []
        | Some (flags, on :: ifs :: argv) =>
            if bool_decide (on = "on") then
              rule_opts argv (mk_ifbrl (ifname name) (ifname ifs) action flags None None "")
            else BadRule []
        | Some _ => BadRule []
        end in
      if bool_decide (w = "block") then go BRL_ACTION_BLOCK
      else if bool_decide (w = "pass") then go BRL_ACTION_PASS
      else BadRule []
  end.

(** The words of a line of a rule file. *)
Definition rule_words (line : string) : list string :=
  map String.string_of_list_ascii
    (tokens ["010"; "009"; "013"; " "]%char (bytes line)).

(** ** bridge_showrule *)

(** The text of an optional address; [None] for one never stored. *)
Definition show_addr (valid : bool) (kw : string) (a : option (list byte)) : option string :=
  if valid then ea ← a; Some (" " +:+ kw +:+ " " +:+ ether_ntoa (map byte.unsigned ea)) else Some "".

(** The line written for a rule. *)
Definition bridge_showrule (r : ifbrlreq) : option string :=
  let act :=
    if rl_action r =? BRL_ACTION_BLOCK then "block "
    else if rl_action r =? BRL_ACTION_PASS then "pass "
    else "[neither block nor pass?]" +:+ newline in
  let dir :=
    if Z.land (rl_flags r) (Z.lor BRL_FLAG_IN BRL_FLAG_OUT) =? Z.lor BRL_FLAG_IN BRL_FLAG_OUT
    then "in/out "
    else if has_bits (rl_flags r) BRL_FLAG_IN then "in "
    else if has_bits (rl_flags r) BRL_FLAG_OUT then "out "
    else "[neither in nor out?]" +:+ newline in
  src ← show_addr (has_bits (rl_flags r) BRL_FLAG_SRCVALID) "src" (rl_src r);
  dst ← show_addr (has_bits (rl_flags r) BRL_FLAG_DSTVALID) "dst" (rl_dst r);
  let tag := if bool_decide (rl_tagname r = "") then "" else " tag " +:+ rl_tagname r in
  Some (act +:+ dir +:+ "on " +:+ rl_ifsname r +:+ src +:+ dst +:+ tag +:+ newline).

Section bridge.
Context `{!Kernel, !Libs}.

(** ** Member flags *)

Definition member_req (name ifsname : string) : ifbreq :=
  mk_ifbr (ifname name) (Some (ifname ifsname)) None None None None None None.

Definition bridge_flag (ifsname : cptr) (f : Z → Z) : GM unit :=
  name ← gets g_name;
  ifsname ← deref ifsname;
  '(z, req) ← ioctl SIOCBRDGGIFFLGS (member_req name ifsname);
  if z <? 0 then err
  else
    flags ← need (ifbr_ifsflags req);
    '(z, _) ← ioctl SIOCBRDGSIFFLGS
                (mk_ifbr (ifbr_name req) (ifbr_ifsname req) (Some (u32 (f flags))) (ifbr_portno req)
                   (ifbr_state req) (ifbr_priority req) (ifbr_path_cost req) (ifbr_role req));
    if z <? 0 then err else mret tt.

Definition bridge_ifsetflag (ifsname : cptr) (flag : Z) : GM unit :=
  bridge_flag ifsname (λ f, Z.lor f (Z.ldiff flag IFBIF_RO_MASK)).

Definition bridge_ifclrflag (ifsname : cptr) (flag : Z) : GM unit :=
  bridge_flag ifsname (λ f, Z.ldiff f (Z.lor flag IFBIF_RO_MASK)).

Definition setdiscover (val : cptr) (d : Z) := bridge_ifsetflag val IFBIF_DISCOVER.
Definition unsetdiscover (val : cptr) (d : Z) := bridge_ifclrflag val IFBIF_DISCOVER.
Definition setblocknonip (val : cptr) (d : Z) := bridge_ifsetflag val IFBIF_BLOCKNONIP.
Definition unsetblocknonip (val : cptr) (d : Z) := bridge_ifclrflag val IFBIF_BLOCKNONIP.
Definition setlearn (val : cptr) (d : Z) := bridge_ifsetflag val IFBIF_LEARNING.
Definition unsetlearn (val : cptr) (d : Z) := bridge_ifclrflag val IFBIF_LEARNING.
Definition setstp (val : cptr) (d : Z) := bridge_ifsetflag val IFBIF_STP.
Definition unsetstp (val : cptr) (d : Z) := bridge_ifclrflag val IFBIF_STP.
Definition setedge (val : cptr) (d : Z) := bridge_ifsetflag val IFBIF_BSTP_EDGE.
Definition unsetedge (val : cptr) (d : Z) := bridge_ifclrflag val IFBIF_BSTP_EDGE.
Definition setautoedge (val : cptr) (d : Z) := bridge_ifsetflag val IFBIF_BSTP_AUTOEDGE.
Definition unsetautoedge (val : cptr) (d : Z) := bridge_ifclrflag val IFBIF_BSTP_AUTOEDGE.
Definition setptp (val : cptr) (d : Z) := bridge_ifsetflag val IFBIF_BSTP_PTP.
Definition unsetptp (val : cptr) (d : Z) := bridge_ifclrflag val IFBIF_BSTP_PTP.
Definition setautoptp (val : cptr) (d : Z) := bridge_ifsetflag val IFBIF_BSTP_AUTOPTP.
Definition unsetautoptp (val : cptr) (d : Z) := bridge_ifclrflag val IFBIF_BSTP_AUTOPTP.

Definition flush_with (flags : Z) : GM unit :=
  name ← gets g_name;
  '(z, _) ← ioctl SIOCBRDGFLUSH (mk_ifbr (ifname name) None (Some flags) None None None None None);
  if z <? 0 then err else mret tt.

Definition bridge_flushall (val : cptr) (p : Z) : GM unit := flush_with IFBF_FLUSHALL.
Definition bridge_flush (val : cptr) (p : Z) : GM unit := flush_with IFBF_FLUSHDYN.

(** ** Members *)

Definition bridge_add (ifn : cptr) (d : Z) : GM unit :=
  name ← gets g_name;
  ifn ← deref ifn;
  '(z, _) ← ioctl SIOCBRDGADD (member_req name ifn);
  if z <? 0 then e ← errno; if e =? EEXIST then mret tt else err else mret tt.

(** A request on a member whose failure is fatal. *)
Definition member_ioctl (c : iocmd ifbreq) (ifn : cptr) : GM unit :=
  name ← gets g_name;
  ifn ← deref ifn;
  '(z, _) ← ioctl c (member_req name ifn);
  if z <? 0 then err else mret tt.

Definition bridge_delete (ifn : cptr) (d : Z) : GM unit := member_ioctl SIOCBRDGDEL ifn.
Definition bridge_addspan (ifn : cptr) (d : Z) : GM unit := member_ioctl SIOCBRDGADDS ifn.
Definition bridge_delspan (ifn : cptr) (d : Z) : GM unit := member_ioctl SIOCBRDGDELS ifn.

(** ** Parameters *)

Definition send_param (c : iocmd ifbrparam) (v : Z) : GM unit :=
  name ← gets g_name;
  '(z, _) ← ioctl c (mk_ifbrp (ifname name) (Some v));
  if z <? 0 then err else mret tt.

(** errno = 0, strtoul with base 0 and the checks of its result. *)
Definition ulong_arg (arg : cptr) (max : Z) : GM Z :=
  arg ← deref arg;
  errno_set 0;;
  r ← need (strtoul_arg arg max);
  match r with Some v => mret v | None => err end.

Definition bridge_timeout (arg : cptr) (d : Z) : GM unit :=
  arg ← deref arg;
  errno_set 0;;
  '(newtime, ep, erange) ← need (strtol (cmem arg) 0);
  c ← need (cmem arg !! Z.to_nat ep);
  if bool_decide (arg = "") || negb (is_nul c) || (newtime <? 0) || (INT_MAX <? newtime)
     || (erange && (newtime =? LLONG_MAX))
  then err else send_param SIOCBRDGSTO newtime.

Definition bridge_maxage (arg : cptr) (d : Z) : GM unit :=
  v ← ulong_arg arg 0xff; send_param SIOCBRDGSMA v.
Definition bridge_priority (arg : cptr) (d : Z) : GM unit :=
  v ← ulong_arg arg 0xffff; send_param SIOCBRDGSPRI v.
Definition bridge_fwddelay (arg : cptr) (d : Z) : GM unit :=
  v ← ulong_arg arg 0xff; send_param SIOCBRDGSFD v.
Definition bridge_hellotime (arg : cptr) (d : Z) : GM unit :=
  v ← ulong_arg arg 0xff; send_param SIOCBRDGSHT v.
Definition bridge_maxaddr (arg : cptr) (d : Z) : GM unit :=
  v ← ulong_arg arg 0xffffffff; send_param SIOCBRDGSCACHE v.

(** The index of a protocol name; the value is stored in ifbrp_prio. *)
Fixpoint proto_index (names : list string) (arg : string) (i : Z) : option Z :=
  match names with
  | [] => None
  | n :: names => if bool_decide (arg = n) then Some i else proto_index names arg (i + 1)
  end.

Definition bridge_proto (arg : cptr) (d : Z) : GM unit :=
  arg ← deref arg;
  match proto_index stpproto arg 0 with
  | Some proto => send_param SIOCBRDGSPROTO proto
  | None => err
  end.

Definition bridge_holdcnt (value : cptr) (d : Z) : GM unit :=
  value ← deref value;
  v ← strtonum_or_err value 0 255;
  send_param SIOCBRDGSTXHC v.

Definition bridge_ifprio (ifn val : cptr) : GM unit :=
  name ← gets g_name;
  ifn ← deref ifn;
  v ← ulong_arg val 0xff;
  '(z, _) ← ioctl SIOCBRDGSIFPRIO
              (mk_ifbr (ifname name) (Some (ifname ifn)) None None None (Some v) None None);
  if z <? 0 then err else mret tt.

Definition bridge_ifcost (ifn val : cptr) : GM unit :=
  name ← gets g_name;
  ifn ← deref ifn;
  v ← ulong_arg val 0xffffffff;
  '(z, _) ← ioctl SIOCBRDGSIFCOST
              (mk_ifbr (ifname name) (Some (ifname ifn)) None None None None (Some v) None);
  if z <? 0 then err else mret tt.

Definition bridge_noifcost (ifn : cptr) (d : Z) : GM unit :=
  name ← gets g_name;
  ifn ← deref ifn;
  '(z, _) ← ioctl SIOCBRDGSIFCOST
              (mk_ifbr (ifname name) (Some (ifname ifn)) None None None None (Some 0) None);
  if z <? 0 then err else mret tt.

(** ** Addresses *)

Definition bridge_deladdr (addr : cptr) (d : Z) : GM unit :=
  name ← gets g_name;
  addr ← deref addr;
  ea ← need (ether_aton (cmem addr));
  match ea with
  | None => err
  | Some octets =>
      '(z, _) ← ioctl SIOCBRDGDADDR (mk_ifba (ifname name) None None (to_bytes octets) None);
      if z <? 0 then err else mret tt
  end.

Definition bridge_addaddr (ifn addr : cptr) : GM unit :=
  name ← gets g_name;
  ifn ← deref ifn;
  addr ← deref addr;
  ea ← need (ether_aton (cmem addr));
  match ea with
  | None => err
  | Some octets =>
      '(z, _) ← ioctl SIOCBRDGSADDR
                  (mk_ifba (ifname name) (Some (ifname ifn)) None (to_bytes octets) (Some IFBAF_STATIC));
      if z <? 0 then err else mret tt
  end.

(** realloc of a buffer of [len] bytes, a request for its contents, and a
    buffer twice as large while the answer may have been cut short.  [len]
    is an int: twenty rounds reach its largest value.  The result is the
    length of the answer and the answer, [None] when [ask] ends the loop. *)
Fixpoint grow_loop {A} (fuel : nat) (size len : Z) (ask : Z → GM (option (Z * list A)))
  : GM (option (Z * list A)) :=
  match fuel with
  | O => stopM SFuel
  | S fuel =>
      ok ← in_env alloc_ok;
      if negb ok then err
      else
        r ← ask len;
        match r with
        | None => mret None
        | Some (got, l) =>
            if got + size <? len then mret (Some (got, l))
            else if INT_MAX <? len * 2 then undef
            else grow_loop fuel size (len * 2) ask
        end
  end.

(** ifsname, in buf of IFNAMSIZ + 1 bytes *)
Definition member_name (n : option string) : GM string :=
  n ← need n; mret (strlcpy_s n (IFNAMSIZ + 1)).1.

Definition print_addr (delim : string) (ifba : ifbareq) : GM unit :=
  buf ← member_name (ifba_ifsname ifba);
  age ← need (ifba_age ifba);
  out (delim +:+ ether_ntoa (map byte.unsigned (ifba_dst ifba)) +:+ " " +:+ buf +:+ " " +:+ fmt_u age +:+ " ");;
  flags ← need (ifba_flags ifba);
  t ← need (printb "flags" flags IFBAFBITS);
  out (t +:+ newline).

Definition bridge_addrs (delim : cptr) (d : Z) : GM unit :=
  delim ← deref delim;
  let delim := if bool_decide (delim = "addr") then "" else delim in
  name ← gets g_name;
  r ← grow_loop 20 40 8192 (λ len,
        '(z, ifbac) ← ioctl SIOCBRDGRTS (mk_ifbac (ifname name) len []);
        if z <? 0 then e ← errno; if e =? ENETDOWN then mret None else err
        else mret (Some (ifbac_len ifbac, ifbac_req ifbac)));
  match r with
  | None => mret tt
  | Some (len, reqs) => l ← need (elements (len / 40) reqs); each (print_addr delim) l
  end.

Definition bridge_rules (ifn : cptr) (d : Z) : GM unit :=
  ifn ← deref ifn;
  name ← gets g_name;
  r ← grow_loop 20 110 8192 (λ len,
        '(z, ifc) ← ioctl SIOCBRDGGRL (mk_ifbrlc (ifname name) (ifname ifn) len []);
        if z <? 0 then err else mret (Some (ifbrl_len ifc, ifbrl_req ifc)));
  match r with
  | None => mret tt
  | Some (len, reqs) =>
      l ← need (elements ((len + 109) / 110) reqs);
      each (λ r, t ← need (bridge_showrule r); out t) l
  end.

(** ** Status *)

(** PV2ID *)
Definition bridge_prio (pv : Z) : Z := u16 (Z.shiftr pv 48).
Definition bridge_lladdr (pv : Z) : list Z :=
  map (λ k, u8 (Z.shiftr pv k)) [40; 32; 24; 16; 8; 0].

Definition bridge_cfg (delim : string) : GM unit :=
  name ← gets g_name;
  '(z, p) ← ioctl SIOCBRDGGPARAM
              (mk_ifbop (ifname name) None None None None None None None None None None);
  if negb (z =? 0) then err
  else
    out delim;;
    pri ← need (ifbop_priority p); ht ← need (ifbop_hellotime p); fd ← need (ifbop_fwddelay p);
    ma ← need (ifbop_maxage p); hc ← need (ifbop_holdcount p); proto ← need (ifbop_protocol p);
    pname ← need (stpproto !! Z.to_nat proto);
    out ("priority " +:+ fmt_u pri +:+ " hellotime " +:+ fmt_u ht +:+ " fwddelay " +:+ fmt_u fd
         +:+ " maxage " +:+ fmt_u ma +:+ " holdcnt " +:+ fmt_u hc +:+ " proto " +:+ pname +:+ newline);;
    aflag ← rd G_aflag;
    if negb (aflag =? 0) then mret tt
    else
      desg ← need (ifbop_desg_bridge p);
      out (tab +:+ "designated: id " +:+ ether_ntoa (bridge_lladdr desg) +:+ " priority "
           +:+ fmt_u (bridge_prio desg) +:+ newline);;
      root ← need (ifbop_root_bridge p);
      if root =? desg then mret tt
      else
        cost ← need (ifbop_root_path_cost p); port ← need (ifbop_root_port p);
        out (tab +:+ "root: id " +:+ ether_ntoa (bridge_lladdr root) +:+ " priority "
             +:+ fmt_u (bridge_prio root) +:+ " ifcost " +:+ fmt_u cost +:+ " port "
             +:+ fmt_u (Z.land port 0xfff) +:+ newline).

Definition print_member (delim : string) (reqp : ifbreq) : GM unit :=
  buf ← member_name (ifbr_ifsname reqp);
  out (delim +:+ buf +:+ " ");;
  flags ← need (ifbr_ifsflags reqp);
  t ← need (printb "flags" flags IFBIFBITS);
  out (t +:+ newline);;
  if has_bits flags IFBIF_SPAN then mret tt
  else
    port ← need (ifbr_portno reqp); prio ← need (ifbr_priority reqp); cost ← need (ifbr_path_cost reqp);
    out (tab +:+ tab +:+ "port " +:+ fmt_u port +:+ " ifpriority " +:+ fmt_u prio +:+ " ifcost "
         +:+ fmt_u cost);;
    (if has_bits flags IFBIF_STP then
       state ← need (ifbr_state reqp); role ← need (ifbr_role reqp);
       sname ← need (stpstates !! Z.to_nat state); rname ← need (stproles !! Z.to_nat role);
       out (" " +:+ sname +:+ " role " +:+ rname)
     else mret tt);;
    out newline;;
    bridge_rules (Some buf) 0.

Definition bridge_list (delim : string) : GM unit :=
  name ← gets g_name;
  r ← grow_loop 20 88 8192 (λ len,
        '(z, bifc) ← ioctl SIOCBRDGIFS (mk_ifbic (ifname name) len []);
        if z <? 0 then err else mret (Some (ifbic_len bifc, ifbic_req bifc)));
  match r with
  | None => mret tt
  | Some (len, reqs) => l ← need (elements (len / 88) reqs); each (print_member delim) l
  end.

Definition bridge_status : GM unit :=
  name ← gets g_name;
  b ← is_bridge name;
  if negb b then mret tt
  else
    '(z, _) ← ioctl SIOCGIFFLAGS (mk_ifreq (ifname name) (U_bytes (zeros 16)));
    if z <? 0 then mret tt
    else
      bridge_cfg tab;;
      bridge_list tab;;
      aflag ← rd G_aflag; ifaliases ← rd G_ifaliases;
      if negb (aflag =? 0) && (ifaliases =? 0) then mret tt
      else
        '(z, bp1) ← ioctl SIOCBRDGGCACHE (mk_ifbrp (ifname name) None);
        if z <? 0 then mret tt
        else
          '(z, bp2) ← ioctl SIOCBRDGGTO (mk_ifbrp (ifname name) None);
          if z <? 0 then mret tt
          else
            csize ← need (ifbrp_val bp1); ctime ← need (ifbrp_val bp2);
            out (tab +:+ "Addresses (max cache: " +:+ fmt_u csize +:+ ", timeout: "
                 +:+ fmt_u (u32 ctime) +:+ "):" +:+ newline);;
            bridge_addrs (Some (tab +:+ tab)) 0.

(** ** Rules *)

Definition bridge_flushrule (ifn : cptr) (d : Z) : GM unit :=
  name ← gets g_name;
  ifn ← deref ifn;
  '(z, _) ← ioctl SIOCBRDGFRL (mk_rln (ifname name) (ifname ifn));
  if z <? 0 then err else mret tt.

Definition bridge_rule (argv : list string) : GM Z :=
  if bool_decide (argv = []) then warn "invalid rule";; mret 1
  else
  name ← gets g_name;
  match rule_parse name argv with
  | Rule r =>
      '(z, _) ← ioctl SIOCBRDGARL r;
      if z <? 0 then warn name;; mret 1 else mret 0
  | BadRule ws => modify (λ g, set_warn (g_warn g ++ ws ++ ["invalid rule: "]) g);; mret 1
  | BadAddr => warn "invalid address";; mret 1
  | RuleUndef => undef
  end.

(** One line of a rule file; a '#' or a newline at its start skips it. *)
Definition rule_line (buf : string) : GM unit :=
  match bytes buf with
  | c :: _ =>
      if Ascii.eqb c "#" || Ascii.eqb c "010" then mret tt
      else
        let argv := rule_words buf in
        if (MAXRULEWORDS <? length argv)%nat then warn "invalid rule: ..."
        else _ ← bridge_rule argv; mret tt
  | [] => _ ← bridge_rule []; mret tt
  end.

Fixpoint rule_lines (lines : list string) : GM unit :=
  match lines with
  | [] => mret tt
  | l :: lines => rule_line l;; rule_lines lines
  end.

Definition bridge_rulefile (fname : cptr) (d : Z) : GM unit :=
  fname ← deref fname;
  k ← gets g_k;
  match k_file fname k with
  | None => err
  | Some lines => rule_lines lines
  end.
End bridge.
