(* ===== verification/IfStatus.v ===== *)
(** * IfStatus: what ifconfig(8) prints

    Models the output of src/usr/src/sbin/ifconfig/ifcutil.c, built with
    INET6: status and the status of every kind of interface, and the
    requests they make.  Text goes to [g_out] with [out]. *)
From coqutil Require Import Byte Word.LittleEndianList.
From stdpp Require Import base list strings functions.
From Stdlib Require Import Ascii.
From Corelib Require Import SpecFloat.
From S2P Require Import Prelude CString CNum NetAddr Printf Scan IfData IfCore IfWireless.
From S2P Require Import IfMedia IfProto Brconfig.

Definition EPROTONOSUPPORT : Z := 43.
Definition EAFNOSUPPORT : Z := 47.

(** ** Link states *)

Definition IFT_ETHER : Z := 0x6.
Definition IFT_PPP : Z := 0x17.
Definition IFT_IEEE80211 : Z := 0x47.
Definition IFT_CARP : Z := 0xf7.
Definition LINK_STATE_UNKNOWN : Z := 0.
Definition LINK_STATE_INVALID : Z := 1.
Definition LINK_STATE_DOWN : Z := 2.
Definition LINK_STATE_KALIVE_DOWN : Z := 3.
Definition LINK_STATE_UP : Z := 4.
Definition LINK_STATE_HALF_DUPLEX : Z := 5.
Definition LINK_STATE_FULL_DUPLEX : Z := 6.

(** Rows of type, state and description; type 0 is any type. *)
Definition if_status_descriptions : list (Z * Z * string) :=
  [(IFT_ETHER, LINK_STATE_DOWN, "no carrier");
   (IFT_IEEE80211, LINK_STATE_DOWN, "no network");
   (IFT_PPP, LINK_STATE_DOWN, "no carrier");
   (IFT_CARP, LINK_STATE_DOWN, "backup");
   (IFT_CARP, LINK_STATE_UP, "master");
   (IFT_CARP, LINK_STATE_HALF_DUPLEX, "master");
   (IFT_CARP, LINK_STATE_FULL_DUPLEX, "master");
   (0, LINK_STATE_UP, "active");
   (0, LINK_STATE_HALF_DUPLEX, "active");
   (0, LINK_STATE_FULL_DUPLEX, "active");
   (0, LINK_STATE_UNKNOWN, "unknown");
   (0, LINK_STATE_INVALID, "invalid");
   (0, LINK_STATE_DOWN, "down");
   (0, LINK_STATE_KALIVE_DOWN, "keepalive down")].

Definition link_state_desc_match (p : Z * Z * string) (mt state : Z) : bool :=
  ((p.1.1 =? mt) || (p.1.1 =? 0)) && (p.1.2 =? state).

(** The description of a state that no row matches is its number in brackets,
    cut to the seven characters of buf. *)
Definition get_linkstate (mt link_state : Z) : string :=
  match list_find (λ p, link_state_desc_match p mt link_state) if_status_descriptions with
  | Some (_, p) => p.2
  | None => stake 7 ("[#" +:+ fmt_d link_state +:+ "]")
  end.

(** ** Names of bits *)

Definition IFFBITS : string :=
  bits_of 20 [(1, "UP"); (2, "BROADCAST"); (3, "DEBUG"); (4, "LOOPBACK"); (5, "POINTOPOINT");
              (6, "NOTRAILERS"); (7, "RUNNING"); (8, "NOARP"); (9, "PROMISC"); (10, "ALLMULTI");
              (11, "OACTIVE"); (12, "SIMPLEX"); (13, "LINK0"); (14, "LINK1"); (15, "LINK2");
              (16, "MULTICAST"); (17, "TXREADY"); (18, "NOINET6"); (19, "INET6_PRIVACY");
              (20, "MPLS"); (21, "WOL")].
Definition IEEE80211_F_USERBITS : string := bits_of 16 [(1, "HIDENWID"); (2, "NOBRIDGE")].
Definition IEEE80211_CAPINFO_BITS : string :=
  bits_of 8 [(1, "ESS"); (2, "IBSS"); (3, "CF_POLLABLE"); (4, "CF_POLLREQ"); (5, "PRIVACY");
             (6, "SHORT_PREAMBLE"); (7, "PBCC"); (8, "CHNL_AGILITY"); (9, "SPECTRUM_MGMT");
             (10, "QOS"); (11, "SHORT_SLOTTIME"); (12, "APSD"); (14, "DSSSOFDM");
             (15, "DELAYED_B_ACK"); (16, "IMMEDIATE_B_ACK")].
Definition IEEE80211_NODEREQ_STATE_BITS : string :=
  bits_of 16 [(1, "CACHE"); (2, "BSS"); (3, "AUTH"); (4, "ASSOC"); (5, "COLLECT")].
Definition TRUNK_PORT_BITS : string :=
  bits_of 16 [(1, "MASTER"); (2, "STACK"); (3, "ACTIVE"); (4, "COLLECTING"); (5, "DISTRIBUTING");
              (6, "DISABLED")].

(** ** Wireless *)

Definition IEEE80211_CHAN_PASSIVE : Z := 0x0200.
Definition IEEE80211_RATE_VAL : Z := 0x7f.
Definition IEEE80211_CAPINFO_ESS : Z := 0x0001.
Definition NR_NODES : Z := 512.

(** The names of a table whose bits are set, with commas between them. *)
Fixpoint table_names (tbl : list (string * Z)) (v : Z) : list string :=
  match tbl with
  | [] => []
  | (n, m) :: tbl => if has_bits v m then n :: table_names tbl v else table_names tbl v
  end.

Definition print_cipherset (cipherset : Z) : string :=
  if cipherset =? IEEE80211_WPA_CIPHER_NONE then "none"
  else join_comma (table_names ciphers cipherset).

Definition print_wpaprotos (protos : Z) : string :=
  join_comma (table_names [("wpa1", IEEE80211_WPA_PROTO_WPA1); ("wpa2", IEEE80211_WPA_PROTO_WPA2)] protos).

Definition print_wpaakms (akms : Z) : string :=
  join_comma (table_names [("psk", IEEE80211_WPA_AKM_PSK); ("802.1x", IEEE80211_WPA_AKM_8021X)] akms).

(** IEEE80211_NODEREQ_RSSI, in single precision. *)
Definition float_of (n : Z) : spec_float := binary_normalize 24 128 n 0 false.
Definition trunc_float (x : spec_float) : Z :=
  match x with
  | S754_finite false m e => if 0 <=? e then Z.pos m * 2 ^ e else Z.pos m / 2 ^ (- e)
  | _ => 0
  end.
Definition rssi_percent (rssi max_rssi : Z) : Z :=
  trunc_float (SFmul 24 128 (SFdiv 24 128 (float_of rssi) (float_of max_rssi)) (float_of 100)).

(** "%u%%" or "%udB" *)
Definition rssi_text (nr : ieee80211_nodereq) : string :=
  if negb (nr_max_rssi nr =? 0) then fmt_u (rssi_percent (nr_rssi nr) (nr_max_rssi nr)) +:+ "%"
  else fmt_u (nr_rssi nr) +:+ "dB".

(** A length from the kernel, cut to the size of the array. *)
Definition print_nwid (len : Z) (nwid : list byte) : string :=
  text (print_string (Ztake (Z.min len IEEE80211_NWID_LEN) nwid)).

Definition ieee80211_printnode (nr : ieee80211_nodereq) : option string :=
  let ap := has_bits (nr_flags nr) IEEE80211_NODEREQ_AP in
  rate ← (if nr_nrates nr =? 0 then Some ""
          else r ← nr_rates nr !! Z.to_nat (nr_nrates nr - 1);
               Some (fmt_u (Z.land (byte.unsigned r) IEEE80211_RATE_VAL / 2) +:+ "M "));
  let capinfo := Z.ldiff (nr_capinfo nr) IEEE80211_CAPINFO_ESS in
  caps ← (if capinfo =? 0 then Some ""
          else t ← printb_status capinfo IEEE80211_CAPINFO_BITS; Some (t +:+ " "));
  state ← (if ap then Some ""
           else m ← shift1 (nr_state nr); printb_status m IEEE80211_NODEREQ_STATE_BITS);
  Some ((if ap then "nwid " +:+ print_nwid (nr_nwid_len nr) (nr_nwid nr) +:+ " chan "
                    +:+ fmt_u (nr_channel nr) +:+ " bssid " +:+ ether_ntoa (map byte.unsigned (nr_bssid nr))
         else "lladdr " +:+ ether_ntoa (map byte.unsigned (nr_macaddr nr)))
        +:+ " " +:+ rssi_text nr +:+ " " +:+ (if nr_pwrsave nr =? 0 then "" else "powersave ")
        +:+ rate +:+ caps +:+ state).

(** The test for an ambiguity with the keywords of nwkey, and whether the keys
    are printed with their numbers. *)
Definition ambiguous_key (keylen : Z) (keydat : list byte) : bool :=
  let key := map ascii_of_byte keydat in
  ((2 <=? keylen) && from_option isdigit false (key !! 0%nat)
   && from_option (λ c, Ascii.eqb c ":") false (key !! 1%nat))
  || ((7 <=? keylen) && bool_decide (map charmap (take 7 key) = lower "persist")).

Definition nwkey_verbose (nwkey : ieee80211_nwkey) : bool :=
  negb (i_defkid nwkey =? 1)
  || existsb (λ k, negb (k.1 =? 0)) (tail (i_key nwkey))
  || match i_key nwkey with (l, d) :: _ => ambiguous_key l d | [] => false end.

Definition print_key (k : Z * list byte) : option string :=
  if k.1 <? 0 then Some "persist" else d ← elements k.1 k.2; Some (text (print_string d)).

(** What follows nwkey. *)
Definition print_nwkey (nwkey : ieee80211_nwkey) : option string :=
  if nwkey_verbose nwkey then
    l ← mapM print_key (i_key nwkey);
    Some (fmt_d (i_defkid nwkey) +:+ ":" +:+ join_comma l)
  else k ← i_key nwkey !! 0%nat; print_key k.

Definition node_zero : ieee80211_nodereq :=
  mk_node (Some "") (zeros 6) (zeros 6) 0 (zeros 32) 0 0 0 (zeros 15) 0 0 (zeros 8) 0 0 (Some 0) (Some 0)
    0 0 0 0 0 0 0 0 0 0.

(** Does an interface name satisfy the name that printif() and active_check()
    are called with? *)
Definition name_matches (oname ifname : string) : bool :=
  if ends_in_digit oname then bool_decide (oname = ifname)
  else String.prefix oname ifname
       && from_option isdigit false (bytes ifname !! length (bytes oname)).

(** ** IPv6 addresses *)

(** The loops of prefix(): over the bytes that are 0xff, over the bits of the
    next one from the highest on as long as they are set, and over the rest of
    its bits; both leave out the lowest bit. *)
Fixpoint ff_bytes (l : list byte) : nat :=
  match l with
  | b :: l => if byte.unsigned b =? 0xff then S (ff_bytes l) else O
  | [] => O
  end.
Fixpoint set_bits (b : Z) (bit : nat) : nat :=
  match bit with
  | O => O
  | S n => if has_bits b (Z.shiftl 1 (Z.of_nat bit)) then set_bits b n else bit
  end.
Fixpoint clear_below (b : Z) (bit : nat) : bool :=
  match bit with
  | O => true
  | S n => negb (has_bits b (Z.shiftl 1 (Z.of_nat bit))) && clear_below b n
  end.

Definition prefix6 (nam : list byte) : Z :=
  let plen := 8 * Z.of_nat (ff_bytes nam) in
  match drop (ff_bytes nam) nam with
  | [] => plen
  | b :: rest =>
      let bit := set_bits (byte.unsigned b) 7 in
      if clear_below (byte.unsigned b) bit && forallb (λ b, byte.unsigned b =? 0) rest
      then plen + (7 - Z.of_nat bit) else 0
  end.

(** sec2str() prints (u_long)total; a time_t is an int. *)
Definition sec2str (total : Z) : string := fmt_u (u64 total).

(** A link-local address has the number of its interface in the second
    group; as an address to print it has it in sin6_scope_id. *)
Definition in6_fillscopeid (sin6 : sockaddr) : sockaddr :=
  if is_linklocal (sin6_addr sin6) then
    poke 10 (zeros 2) (poke 24 (le_split 4 (le_combine (rev (take 2 (drop 10 sin6))))) sin6)
  else sin6.

Definition Lflag : Z := 1.

(** The words for ifru_flags6. *)
Definition in6_flag_words : list (string * Z) :=
  [(" anycast", IN6_IFF_ANYCAST); (" tentative", IN6_IFF_TENTATIVE); (" duplicated", IN6_IFF_DUPLICATED);
   (" detached", IN6_IFF_DETACHED); (" deprecated", IN6_IFF_DEPRECATED); (" autoconf", IN6_IFF_AUTOCONF);
   (" autoconfprivacy", IN6_IFF_PRIVACY)].
Definition in6_flags_text (flags6 : Z) : string := foldr String.append "" (table_names in6_flag_words flags6).

(** A point in time that a lifetime ends at, 0 for never; [t] is the time. *)
Definition lifetime_text (ends t : Z) : string :=
  if ends =? 0 then "infty" else if ends <? t then "0" else sec2str (ends - t).

Section status.
Context `{!Kernel, !Libs}.

(** printf of a text that may not be defined. *)
Definition out_need (t : option string) : GM unit := t ← need t; out t.

(** nr[i] after the kernel has stored its nodes in the zeroed array. *)
Definition nr_at (na : ieee80211_nodereq_all) (i : nat) : GM ieee80211_nodereq :=
  if Z.of_nat i <? NR_NODES then mret (default node_zero (na_node na !! i)) else undef.

(** printf and a test of flags: [when b m]. *)
Definition when (b : bool) (m : GM unit) : GM unit := if b then m else mret tt.

(** The loop over chans[1] to chans[256]; [i] is the number of the first. *)
Fixpoint list_chans (i : Z) (chans : list ieee80211_channel) : GM unit :=
  match chans with
  | [] => mret tt
  | c :: chans =>
      when (negb (ch_flags c =? 0))
        (out (tab +:+ tab +:+ fmt_4d i +:+ "  " +:+ fmt_4d (ic_freq c) +:+ " MHz  "
              +:+ (if has_bits (ch_flags c) IEEE80211_CHAN_PASSIVE then "passive scan" else "-") +:+ newline));;
      list_chans (i + 1) chans
  end.

Definition ieee80211_listchans : GM unit :=
  name ← gets g_name;
  '(z, ca) ← ioctl SIOCG80211ALLCHANS (mk_chans (ifname name) (replicate 257 (mk_chan80211 0 0)));
  if negb (z =? 0) then warn "SIOCG80211ALLCHANS"
  else
    out (tab +:+ tab +:+ "chan  " +:+ pad_right 8 "freq" +:+ "  properties" +:+ newline);;
    list_chans 1 (take 256 (drop 1 (i_chans ca))).

(** The loop over nr[]. *)
Fixpoint list_nodes (na : ieee80211_nodereq_all) (todo i : nat) : GM unit :=
  match todo with
  | O => mret tt
  | S todo =>
      nr ← nr_at na i;
      out (tab +:+ tab);; out_need (ieee80211_printnode nr);; out newline;;
      list_nodes na todo (S i)
  end.

(** The structure ifr is a local one. *)
Definition ieee80211_listnodes : GM unit :=
  flags ← rd G_flags;
  let down := negb (has_bits flags IFF_UP) in
  when down (setifflags (Some "up") IFF_UP);;
  name ← gets g_name;
  '(z, _) ← ioctl SIOCS80211SCAN (mk_ifreq (ifname name) (U_bytes (zeros 16)));
  (if negb (z =? 0) then
     e ← errno; when (e =? EPERM) (out (tab +:+ tab +:+ "no permission to scan" +:+ newline))
   else
     '(z, na) ← ioctl SIOCG80211ALLNODES (mk_nodes (ifname name) (NR_NODES * 124) 0 []);
     if negb (z =? 0) then warn "SIOCG80211ALLNODES"
     else
       when (na_nodes na =? 0) (out (tab +:+ tab +:+ "none" +:+ newline));;
       list_nodes na (Z.to_nat (na_nodes na)) 0);;
  when down (setifflags (Some "restore") (- IFF_UP)).

(** What is printed of the access point of the interface, and the request for
    its signal strength. *)
Definition bssid_status (name : string) (bssid : list byte) : GM unit :=
  out (" bssid " +:+ ether_ntoa (map byte.unsigned bssid));;
  '(z, nr) ← ioctl SIOCG80211NODE
    (mk_node (Some (ifname name)) bssid (zeros 6) 0 (zeros 32) 0 0 0 (zeros 15) 0 0 (zeros 8) 0 0
       (Some 0) (Some 0) 0 0 0 0 0 0 0 0 0 0);
  when ((z =? 0) && negb (nr_rssi nr =? 0)) (out (" " +:+ rssi_text nr)).

(** keybuf[][] holds nothing that is printed before the kernel has stored
    it. *)
Definition nwkey_status (nwkey : ieee80211_nwkey) : GM unit :=
  out " nwkey ";;
  '(z, nwkey) ← ioctl SIOCG80211NWKEY
    (mk_nwkey (nk_name nwkey) (i_wepon nwkey) (i_defkid nwkey) (replicate 4 (16, zeros 16)));
  if z =? -1 then out "<not displayed>" else out_need (print_nwkey nwkey).

Definition wpa_status (wpa : ieee80211_wpaparams) : string :=
  " wpaprotos " +:+ print_wpaprotos (i_protos wpa) +:+ " wpaakms " +:+ print_wpaakms (i_akms wpa)
  +:+ " wpaciphers " +:+ print_cipherset (i_ciphers wpa)
  +:+ " wpagroupcipher " +:+ print_cipherset (i_groupcipher wpa).

(** What follows the name ieee80211: up to the flags, from the answers of the
    eight requests. *)
Definition ieee80211_lines (name : string) (nwid : Z * ieee80211_nwid) (nwkey : Z * ieee80211_nwkey)
    (psk : Z * ieee80211_wpapsk) (power : Z * ieee80211_power) (channel : Z * ieee80211chanreq)
    (bssid : Z * ieee80211_bssid) (txpower : Z * ieee80211_txpower)
    (wpa : Z * ieee80211_wpaparams) : GM unit :=
  when (nwid.1 =? 0) (out (" nwid " +:+ print_nwid (i_len nwid.2) (i_nwid nwid.2)));;
  when ((channel.1 =? 0) && negb (i_channel channel.2 =? 0)
        && negb (i_channel channel.2 =? IEEE80211_CHAN_ANY))
    (out (" chan " +:+ fmt_u (i_channel channel.2)));;
  when ((bssid.1 =? 0) && negb (bool_decide (i_bssid bssid.2 = zeros 6)))
    (bssid_status name (i_bssid bssid.2));;
  when ((nwkey.1 =? 0) && (0 <? i_wepon nwkey.2)) (nwkey_status nwkey.2);;
  when ((psk.1 =? 0) && negb (psk_enabled psk.2 =? 0))
    (out (" wpakey " +:+ (if psk_enabled psk.2 =? 2 then "<not displayed>"
                           else text (print_string (i_psk psk.2)))));;
  when ((wpa.1 =? 0) && negb (wpa_enabled wpa.2 =? 0)) (out (wpa_status wpa.2));;
  (if power.1 =? 0 then
     enabled ← need (pw_enabled power.2);
     when (negb (enabled =? 0))
       (sleep ← need (i_maxsleep power.2); out (" powersave on (" +:+ fmt_d sleep +:+ "ms sleep)"))
   else mret tt);;
  (if txpower.1 =? 0 then
     v ← need (i_val txpower.2);
     out (" " +:+ fmt_d v +:+ "dBm" +:+ (if i_mode txpower.2 =? IEEE80211_TXPOWER_MODE_AUTO then " (auto)" else ""))
   else mret tt).

Definition ieee80211_status : GM unit :=
  name ← gets g_name;
  modify (set_ifr (mk_ifreq (ifname name) (U_bytes (zeros 16))));;
  nwid ← ioctl_data SIOCG80211NWID (mk_nwid 0 (zeros 32));
  nwkey ← ioctl SIOCG80211NWKEY (mk_nwkey (ifname name) 0 0 (replicate 4 no_key));
  psk ← ioctl SIOCG80211WPAPSK (mk_psk (ifname name) 0 (zeros 32));
  power ← ioctl SIOCG80211POWER (mk_power (ifname name) (Some 0) (Some 0));
  channel ← ioctl SIOCG80211CHANNEL (mk_chanreq (ifname name) 0);
  bssid ← ioctl SIOCG80211BSSID (mk_bssid (ifname name) (zeros 6));
  txpower ← ioctl SIOCG80211TXPOWER (mk_txpower (ifname name) 0 (Some 0));
  wpa ← ioctl SIOCG80211WPAPARMS (mk_wpa (ifname name) 0 0 0 0 0);
  if negb (existsb (Z.eqb 0) [nwid.1; nwkey.1; psk.1; power.1; channel.1; bssid.1; wpa.1; txpower.1])
  then mret tt
  else
    out (tab +:+ "ieee80211:");;
    ieee80211_lines name nwid nwkey psk power channel bssid txpower wpa;;
    z ← ioctl_ifr SIOCG80211FLAGS;
    (if z =? 0 then
       r ← gets g_ifr; f ← need (ifr_flags r);
       when (negb (f =? 0)) (out " ";; out_need (printb_status f IEEE80211_F_USERBITS))
     else mret tt);;
    out newline;;
    c ← rd G_shownet80211chans; n ← rd G_shownet80211nodes;
    if negb (c =? 0) then ieee80211_listchans
    else when (negb (n =? 0)) ieee80211_listnodes.

(** ** Time slots, labels and vlans *)

(** One entry of the line: a slot or a range. *)
Definition slot_text (sep : string) (start last : Z) : string :=
  sep +:+ fmt_d start +:+ (if start =? last then "" else "-" +:+ fmt_d last).

(** The loop over the 64 bits of an unsigned long; [start] is -1 outside of a
    range.  Every round shifts an int by [i]. *)
Fixpoint slot_loop (todo : nat) (i start : Z) (sep : string) (ts_map : Z) : option string :=
  match todo with
  | O => Some (if negb (start =? -1) then slot_text sep start (i - 1) else "")
  | S todo =>
      bit ← shift1 i;
      if (start =? -1) && has_bits ts_map bit then slot_loop todo (i + 1) i sep ts_map
      else if negb (start =? -1) && negb (has_bits ts_map bit) then
        r ← slot_loop todo (i + 1) (-1) "," ts_map; Some (slot_text sep start (i - 1) +:+ r)
      else slot_loop todo (i + 1) start sep ts_map
  end.

Definition timeslot_status : GM unit :=
  '(z, ts_map) ← ioctl_data SIOCGIFTIMESLOT 0;
  if z =? -1 then mret tt
  else out (tab +:+ "timeslot:");; out_need (slot_loop 64 0 (-1) " " ts_map);; out newline.

Definition mpe_status : GM unit :=
  '(z, label) ← ioctl_data SIOCGETLABEL 0;
  if z =? -1 then mret tt else out (tab +:+ "mpls label: " +:+ fmt_d label +:+ newline).

Definition or_none (none s : string) : string := if bool_decide (s = "") then none else s.

Definition vlan_status : GM unit :=
  '(z, vreq) ← ioctl_data SIOCGETVLAN (mk_vlan "" 0);
  if z =? -1 then mret tt
  else
    '(z, preq) ← ioctl_data SIOCGETVLANPRIO (mk_vlan "" 0);
    if z =? -1 then mret tt
    else
      when (negb (vlr_tag vreq =? 0) || negb (bool_decide (vlr_parent vreq = "")))
        (out (tab +:+ "vlan: " +:+ fmt_d (vlr_tag vreq) +:+ " priority: " +:+ fmt_d (vlr_tag preq)
              +:+ " parent interface: " +:+ or_none "<none>" (vlr_parent vreq) +:+ newline)).

(** ** carp, pfsync and pflow *)

Definition INADDR_CARP_GROUP : Z := 0xe0000012.
Definition INADDR_PFSYNC_GROUP : Z := 0xe00000f0.

(** An element of carp_states[] or carp_bal_modes[]. *)
Definition carp_name (names : list string) (i : Z) : string :=
  default "<UNKNOWN>" (names !! Z.to_nat i).

(** The loop over carpr_vhids[], from its element [i] on: [todo] elements are
    left of the array, and the loop has no other end than a zero. *)
Fixpoint carp_loop (todo i : nat) (c : carpreq) (peer : string) : option string :=
  match todo with
  | O => None
  | S todo =>
      vhid ← carpr_vhids c !! i;
      if vhid =? 0 then Some ""
      else
        st ← carpr_states c !! i;
        let state := carp_name carp_states st in
        second ← carpr_vhids c !! 1%nat;
        skew ← carpr_advskews c !! i;
        let dev := or_none "none" (carpr_carpdev c) in
        rest ← carp_loop todo (S i) c peer;
        Some ((if second =? 0 then
                 tab +:+ "carp: " +:+ state +:+ " carpdev " +:+ dev +:+ " vhid " +:+ fmt_u vhid
                 +:+ " advbase " +:+ fmt_d (carpr_advbase c) +:+ " advskew " +:+ fmt_u skew +:+ peer +:+ newline
               else
                 (if (i =? 0)%nat then
                    tab +:+ "carp: carpdev " +:+ dev +:+ " advbase " +:+ fmt_d (carpr_advbase c)
                    +:+ " balancing " +:+ carp_name carp_bal_modes (carpr_balancing c) +:+ peer +:+ newline
                  else "")
                 +:+ tab +:+ tab +:+ "state " +:+ state +:+ " vhid " +:+ fmt_u vhid +:+ " advskew "
                 +:+ fmt_u skew +:+ newline)
              +:+ rest)
  end.

Definition carp_status : GM unit :=
  '(z, c) ← ioctl_data SIOCGVH carp_zero;
  if z =? -1 then mret tt
  else
    let peer := if carpr_peer c =? INADDR_CARP_GROUP then "" else " carppeer " +:+ inet_ntoa (carpr_peer c) in
    out_need (carp_loop (S CARP_MAXNODES) 0 c peer).

Definition pfsync_status : GM unit :=
  '(z, p) ← ioctl_data SIOCGETPFSYNC (mk_pfsync "" 0 0 0);
  if z =? -1 then mret tt
  else
    when (negb (bool_decide (pfsyncr_syncdev p = "")))
      (out (tab +:+ "pfsync: syncdev: " +:+ pfsyncr_syncdev p +:+ " "
            +:+ (if pfsyncr_syncpeer p =? INADDR_PFSYNC_GROUP then ""
                 else "syncpeer: " +:+ inet_ntoa (pfsyncr_syncpeer p) +:+ " ")
            +:+ "maxupd: " +:+ fmt_d (pfsyncr_maxupdates p) +:+ " defer: "
            +:+ (if pfsyncr_defer p =? 0 then "off" else "on") +:+ newline)).

Definition pflow_status : GM unit :=
  '(z, p) ← ioctl_data SIOCGETPFLOW (mk_pflow 0 0 0 0);
  if z =? -1 then mret tt
  else
    out (tab +:+ "pflow: sender: " +:+ inet_ntoa (sender_ip p) +:+ " receiver: "
         +:+ inet_ntoa (receiver_ip p) +:+ ":" +:+ fmt_u (receiver_port p) +:+ newline).

(** ** pppoe and sppp *)

Definition PPPOE_STATE_SESSION : Z := 3.
Definition pppoe_states : list string := ["initial"; "PADI sent"; "PADR sent"; "session"; "closing"].

(** The time since the session was established, as day, hour, min and sec of
    type unsigned long, printed as long. *)
Definition session_text (now start : Z) : string :=
  let diff := if start =? 0 then 0 else now - start in
  let day := Z.quot diff 86400 in
  let diff := Z.rem diff 86400 in
  let hour := Z.quot diff 3600 in
  let diff := Z.rem diff 3600 in
  " time: " +:+ (if day =? 0 then "" else fmt_d day +:+ "d ") +:+ fmt_02 hour +:+ ":"
  +:+ fmt_02 (Z.quot diff 60) +:+ ":" +:+ fmt_02 (Z.rem diff 60).

Definition pppoe_status : GM unit :=
  name ← gets g_name;
  '(z, p) ← ioctl PPPOEGETPARMS (mk_pppoe (ifname name) None None None);
  if negb (z =? 0) then mret tt
  else
    dev ← need (eth_ifname p); ac ← need (ac_name p); svc ← need (service_name p);
    out (tab +:+ "dev: " +:+ dev +:+ " ");;
    when (negb (bool_decide (ac = ""))) (out ("ac: " +:+ ac +:+ " "));;
    when (negb (bool_decide (svc = ""))) (out ("svc: " +:+ svc +:+ " "));;
    '(z, st) ← ioctl PPPOEGETSESSION (mk_session (ifname name) 0 0 0 0 0);
    if negb (z =? 0) then err
    else
      out ("state: " +:+ default "" (pppoe_states !! Z.to_nat (ses_state st)));;
      out (newline +:+ tab +:+ "sid: 0x" +:+ fmt_x (session_id st) +:+ " PADI retries: "
           +:+ fmt_d (i32 (padi_retry_no st)) +:+ " PADR retries: " +:+ fmt_d (i32 (padr_retry_no st)));;
      (if ses_state st =? PPPOE_STATE_SESSION then
         k ← gets g_k; out (session_text (k_gettimeofday k) (session_time st))
       else mret tt);;
      out newline.

Definition PHASE_DEAD : Z := 0.
Definition sppp_phases : list string := ["dead"; "establish"; "terminate"; "authenticate"; "network"].

Definition sppp_printproto (name : string) (auth : sauthreq) : string :=
  if spa_proto auth =? 0 then ""
  else
    name +:+ "proto "
    +:+ (if spa_proto auth =? PPP_PAP then "pap " else if spa_proto auth =? PPP_CHAP then "chap "
         else "0x" +:+ fmt_04x (spa_proto auth) +:+ " ")
    +:+ (if bool_decide (spa_name auth = "") then ""
         else name +:+ "name " +:+ dquote +:+ spa_name auth +:+ dquote +:+ " ")
    +:+ (if bool_decide (spa_secret auth = "") then ""
         else name +:+ "key " +:+ dquote +:+ spa_secret auth +:+ dquote +:+ " ").

Definition sppp_status : GM unit :=
  '(z, spr) ← ioctl_data SIOCGIFGENERIC_DEFS (mk_sppp 0);
  if z =? -1 then mret tt
  else if pp_phase spr =? PHASE_DEAD then mret tt
  else
    out (tab +:+ "sppp: phase " +:+ default "illegal" (sppp_phases !! Z.to_nat (pp_phase spr)) +:+ " ");;
    spa ← spppauthinfo 0;
    out (sppp_printproto "auth" spa);;
    spa ← spppauthinfo 1;
    out (sppp_printproto "peer" spa);;
    when (has_bits (spa_flags spa) AUTHFLAG_NOCALLOUT) (out "callin ");;
    when (has_bits (spa_flags spa) AUTHFLAG_NORECHALLENGE) (out "norechallenge ");;
    out newline.

(** ** trunk *)

Definition TRUNK_MAX_PORTS : Z := 32.
Definition TRUNK_PROTO_LACP : Z := 5.
(** sizeof(struct trunk_reqport) *)
Definition SIZEOF_REQPORT : Z := 72.

Fixpoint proto_name (tbl : list (string * Z)) (proto : Z) : string :=
  match tbl with
  | [] => "<unknown>"
  | (n, p) :: tbl => if proto =? p then n else proto_name tbl proto
  end.

Definition lacp_text (l : lacp_side) : string :=
  "(" +:+ fmt_04X (l_prio l) +:+ "," +:+ ether_ntoa (map byte.unsigned (l_mac l)) +:+ ","
  +:+ fmt_04X (l_key l) +:+ "," +:+ fmt_04X (l_portprio l) +:+ "," +:+ fmt_04X (l_portno l) +:+ ")".

Definition print_port (rp : trunk_reqport) : GM unit :=
  out (tab +:+ tab +:+ "trunkport " +:+ rp_portname rp +:+ " ");;
  out_need (printb_status (rp_flags rp) TRUNK_PORT_BITS);;
  out newline.

Definition trunk_status : GM unit :=
  name ← gets g_name;
  '(z, rp) ← ioctl SIOCGTRUNKPORT (mk_rp (ifname name) (ifname name) 0);
  let isport := z =? 0 in
  '(z, ra) ← ioctl SIOCGTRUNK (mk_ra (ifname name) 0 (TRUNK_MAX_PORTS * SIZEOF_REQPORT) 0 [] lacp_zero);
  if z =? 0 then
    out (tab +:+ "trunk: trunkproto " +:+ proto_name trunk_protos (ra_proto ra));;
    when isport (out (" trunkdev " +:+ rp_ifname rp));;
    out newline;;
    (if ra_proto ra =? TRUNK_PROTO_LACP then
       ok ← in_env alloc_ok;
       if negb ok then err
       else out (tab +:+ "trunk id: [" +:+ lacp_text (actor (ra_lacpreq ra)) +:+ "," +:+ newline +:+ tab +:+ tab
                 +:+ " " +:+ lacp_text (partner (ra_lacpreq ra)) +:+ "]" +:+ newline)
     else mret tt);;
    ports ← need (elements (ra_ports ra) (ra_port ra));
    each print_port ports;;
    show ← rd G_showmediaflag;
    when (negb (show =? 0))
      (out (tab +:+ "supported trunk protocols:" +:+ newline);;
       each (λ p, out (tab +:+ tab +:+ "trunkproto " +:+ p.1 +:+ newline)) trunk_protos)
  else when isport (out (tab +:+ "trunk: trunkdev " +:+ rp_ifname rp +:+ newline)).

(** ** Keep-alives *)

Definition send_kalive (timeo cnt : Z) : GM unit :=
  name ← gets g_name;
  '(z, _) ← ioctl SIOCSETKALIVE (mk_ikar (ifname name) timeo cnt);
  when (z <? 0) (warn "SIOCSETKALIVE").

Definition setkeepalive (timeout count : cptr) : GM unit :=
  timeout ← deref timeout; t ← strtonum_or_err timeout 1 3600;
  count ← deref count; c ← strtonum_or_err count 2 600;
  send_kalive t c.

Definition unsetkeepalive (val : cptr) (d : Z) : GM unit := send_kalive 0 0.

(** ** Addresses *)

(** The bytes of ifr_addr. *)
Definition ifr_sa : GM sockaddr := r ← gets g_ifr; need (ifr_bytes r).
Definition set_ifr_sa (sa : sockaddr) : GM unit :=
  modify (λ g, set_ifr (mk_ifreq (ifr_name (g_ifr g)) (U_bytes sa)) g).

(** A request for an address, and what follows a failure of it. *)
Definition address_ioctl (c : iocmd ifreq) (what : string) : GM unit :=
  z ← ioctl_ifr c;
  if z <? 0 then
    e ← errno;
    if e =? EADDRNOTAVAIL then set_ifr_sa (zeros 16) else warn what
  else mret tt.

(** getsock, and the test of the socket: [false] ends the caller. *)
Definition status_socket (af : Z) : GM bool :=
  getsock af;;
  s ← rd G_s;
  if s <? 0 then e ← errno; if e =? EPROTONOSUPPORT then mret false else err else mret true.

Definition in_status (force : Z) : GM unit :=
  ok ← status_socket AF_INET;
  if negb ok then mret tt
  else
    ifr_take_name;;
    sin2 ← ifr_sa;
    out (tab +:+ "inet " +:+ inet_ntoa (sin_addr sin2));;
    z ← ioctl_ifr SIOCGIFNETMASK;
    (if z <? 0 then
       e ← errno;
       when (negb (e =? EADDRNOTAVAIL)) (warn "SIOCGIFNETMASK");;
       set_ifr_sa (zeros 16)
     else sa ← ifr_sa; wr G_netmask (sin_addr sa));;
    flags ← rd G_flags;
    when (has_bits flags IFF_POINTOPOINT)
      (set_ifr_sa sin2;; address_ioctl SIOCGIFDSTADDR "SIOCGIFDSTADDR";; ifr_take_name;;
       sa ← ifr_sa; out (" --> " +:+ inet_ntoa (sin_addr sa)));;
    netmask ← rd G_netmask;
    out (" netmask 0x" +:+ fmt_x netmask);;
    when (has_bits flags IFF_BROADCAST)
      (set_ifr_sa sin2;; address_ioctl SIOCGIFBRDADDR "SIOCGIFBRDADDR";; ifr_take_name;;
       sa ← ifr_sa;
       when (negb (sin_addr sa =? 0)) (out (" broadcast " +:+ inet_ntoa (sin_addr sa))));;
    out newline.

(** struct sockaddr_at: s_net and s_node, and the net range at its end. *)
Definition be16_at (off : nat) (sa : sockaddr) : Z := le_combine (rev (take 2 (drop off sa))).
Definition byte_at (off : nat) (sa : sockaddr) : Z := byte.unsigned (nth off sa Byte.x00).
Definition at_text (sa : sockaddr) : string := fmt_d (be16_at 4 sa) +:+ "." +:+ fmt_d (byte_at 6 sa).
Definition range_text (first last phase : Z) : string :=
  " range " +:+ fmt_d first +:+ "-" +:+ fmt_d last +:+ " phase " +:+ fmt_d phase.

Definition at_status (force : Z) : GM unit :=
  ok ← status_socket AF_APPLETALK;
  if negb ok then mret tt
  else
    modify (set_ifr ifreq_zero);;
    ifr_take_name;;
    z ← ioctl_ifr SIOCGIFADDR;
    e ← errno;
    let none := (e =? EADDRNOTAVAIL) || (e =? EAFNOSUPPORT) in
    if (z <? 0) && none && (force =? 0) then mret tt
    else
      (if z <? 0 then if none then set_ifr_sa (zeros 16) else warn "SIOCGIFADDR" else mret tt);;
      ifr_take_name;;
      sat ← ifr_sa;
      out (tab +:+ "AppleTalk " +:+ at_text sat
           +:+ range_text (be16_at 10 sat) (be16_at 12 sat) (byte_at 8 sat));;
      flags ← rd G_flags;
      when (has_bits flags IFF_POINTOPOINT)
        (address_ioctl SIOCGIFDSTADDR "SIOCGIFDSTADDR";; ifr_take_name;;
         sat ← ifr_sa; out ("--> " +:+ at_text sat));;
      when (has_bits flags IFF_BROADCAST) (sat ← ifr_sa; out (" broadcast " +:+ at_text sat));;
      out newline.

(** checkatrange() on ifra_addr of addreq; the range is kept in host byte
    order. *)
Definition checkatrange : GM unit :=
  sat ← gets (λ g, ifra_addr (g_addreq g));
  let net := be16_at 4 sat in
  modify (λ g, let nr := g_at_nr g in
    set_at_nr (mk_nr (if nr_phase nr =? 0 then 2 else nr_phase nr)
                 (if nr_firstnet nr =? 0 then net else nr_firstnet nr)
                 (if nr_firstnet nr =? 0 then net else nr_lastnet nr)) g);;
  nr ← gets g_at_nr;
  out (tab +:+ "atalk " +:+ at_text sat +:+ range_text (nr_firstnet nr) (nr_lastnet nr) (nr_phase nr) +:+ newline);;
  if (net <? nr_firstnet nr) || (nr_lastnet nr <? net) then err
  else
    sat_poke 8 (byte.of_Z (nr_phase nr) :: byte.of_Z 0 :: be16 (nr_firstnet nr) ++ be16 (nr_lastnet nr)).

(** One of the requests of in6_alias() for the address [sa] in a local ifr6:
    [None] when it fails, which is reported unless there is no such
    address. *)
Definition in6_ask (c : iocmd in6_ifreq) (what : string) (sa : sockaddr) : GM (option in6_ifreq) :=
  name ← gets g_name;
  '(z, r) ← ioctl c (set_ifr6_addr (mk_ifreq6 (ifname name) (zeros SIZEOF_IFRU6)) sa);
  if z <? 0 then
    e ← errno; when (negb (e =? EADDRNOTAVAIL)) (warn what);; mret None
  else mret (Some r).

Definition in6_text (sin6 : sockaddr) : string := default "" (getnameinfo sin6).

(** The other end of a point-to-point interface. *)
Definition in6_dst_line (sa : sockaddr) : GM unit :=
  r ← in6_ask SIOCGIFDSTADDR_IN6 "SIOCGIFDSTADDR_IN6" sa;
  let dst := match r with
             | Some r => ifr6_addr r
             | None => poke 0 [byte.of_Z SIZEOF_SIN6; byte.of_Z AF_INET6] (zeros 28)
             end in
  out (" -> " +:+ in6_text (in6_fillscopeid dst)).

Definition in6_lifetime_line (sa : sockaddr) : GM unit :=
  r ← in6_ask SIOCGIFALIFETIME_IN6 "SIOCGIFALIFETIME_IN6" sa;
  match r with
  | None => mret tt
  | Some r =>
      let expire := ifru_int 0 r in
      let preferred := ifru_int 4 r in
      when (negb (preferred =? 0) || negb (expire =? 0))
        (t ← gets (λ g, k_gettimeofday (g_k g));
         out (" pltime " +:+ lifetime_text preferred t +:+ " vltime " +:+ lifetime_text expire t))
  end.

(** in6_alias() on the global ifr6, whose address it changes. *)
Definition in6_status (force : Z) : GM unit :=
  ok ← status_socket AF_INET6;
  if negb ok then mret tt
  else
    creq ← gets (λ g, g_ifr6 (g_in6 g));
    let sin6 := in6_fillscopeid (ifr6_addr creq) in
    modify (set_ifr6 (set_ifr6_addr creq sin6));;
    out (tab +:+ "inet6 " +:+ in6_text sin6);;
    flags ← rd G_flags;
    when (has_bits flags IFF_POINTOPOINT) (in6_dst_line sin6);;
    r ← in6_ask SIOCGIFNETMASK_IN6 "SIOCGIFNETMASK_IN6" sin6;
    (match r with
     | Some r => out (" prefixlen " +:+ fmt_d (prefix6 (sin6_addr (ifr6_addr r))))
     | None => mret tt
     end);;
    r ← in6_ask SIOCGIFAFLAG_IN6 "SIOCGIFAFLAG_IN6" sin6;
    (match r with
     | Some r => out (in6_flags_text (ifru_flags6 r))
     | None => mret tt
     end);;
    when (negb (sin6_scope_id sin6 =? 0)) (out (" scopeid 0x" +:+ fmt_x (sin6_scope_id sin6)));;
    when (negb (Lflag =? 0)) (in6_lifetime_line sin6);;
    out newline.

Definition af_status (p : afswtch) (force : Z) : GM unit :=
  match p with
  | AFS_inet => in_status force
  | AFS_inet6 => in6_status force
  | AFS_atalk => at_status force
  end.

(** ** phys_status *)

Definition phys_status (force : Z) : GM unit :=
  name ← gets g_name;
  '(z, req) ← ioctl SIOCGLIFPHYADDR (mk_laddr (ifname name) (zeros 256) (zeros 256));
  if z <? 0 then mret tt
  else
    let inet6 sa := sa_family sa =? AF_INET6 in
    let addr_text sa := default "<error>" (getnameinfo (if inet6 sa then in6_fillscopeid sa else sa)) in
    out (tab +:+ "physical address inet" +:+ (if inet6 (iflr_addr req) then "6" else "") +:+ " "
         +:+ addr_text (iflr_addr req) +:+ " --> " +:+ addr_text (iflr_dstaddr req));;
    z ← ioctl_ifr SIOCGLIFPHYRTABLE;
    (if z =? 0 then
       rdomainid ← rd G_rdomainid;
       r ← gets g_ifr; rt ← need (ifr_metric r);
       when (negb (rdomainid =? 0) || negb (rt =? 0)) (out (" rdomain " +:+ fmt_d rt))
     else mret tt);;
    out newline.

(** ** status *)

Definition IFM_AVALID : Z := 0x1.
Definition IFM_ACTIVE : Z := 0x2.

Definition ifm_status_valid_list : list Z := [IFM_AVALID].

(** Rows of type, valid bit, bit and the texts for the bit clear and set. *)
Definition ifm_status_descriptions : list (Z * Z * Z * (string * string)) :=
  [(0x20, IFM_AVALID, IFM_ACTIVE, ("no carrier", "active"));
   (0x60, IFM_AVALID, IFM_ACTIVE, ("no ring", "inserted"));
   (0x80, IFM_AVALID, IFM_ACTIVE, ("no network", "active"));
   (0xa0, IFM_AVALID, IFM_ACTIVE, ("no carrier", "active"));
   (0xc0, IFM_AVALID, IFM_ACTIVE, ("backup", "master"))].

(** The inner loop: the text of the first row for a type and a valid bit. *)
Fixpoint ifm_status_desc (tbl : list (Z * Z * Z * (string * string))) (type valid status : Z)
  : option string :=
  match tbl with
  | [] => None
  | (ty, va, bit, (off, on)) :: tbl =>
      if (ty =? type) && (va =? valid) then Some (if has_bits status bit then on else off)
      else ifm_status_desc tbl type valid status
  end.

Definition media_status (current status : Z) : string :=
  match omap (λ valid, ifm_status_desc ifm_status_descriptions (IFM_TYPE current) valid status)
          ifm_status_valid_list with
  | [] => "unknown"
  | d :: ds => foldl (λ t d, t +:+ ", " +:+ d) d ds
  end.

(** From IFM_NMIN to IFM_NMAX. *)
Definition media_types : list Z := [0x20; 0x40; 0x60; 0x80; 0xa0; 0xc0; 0xe0].

(** The lines of the media of one type. *)
Definition supported_media (media_list : list Z) (type : Z) : string :=
  match List.filter (λ m, IFM_TYPE m =? type) media_list with
  | [] => ""
  | l => tab +:+ "supported media:" +:+ newline
         +:+ foldr (λ m t, tab +:+ tab +:+ print_media_word m false true +:+ newline +:+ t) "" l
  end.

(** The media part; a failure of the first request prints the link state.
    [sdl_type] is [None] for a null sdl. *)
Definition media_lines (sdl_type : option Z) (ls : Z) : GM unit :=
  name ← gets g_name;
  '(z, ifmr) ← ioctl SIOCGIFMEDIA (mk_ifmr (ifname name) 0 0 0 0 []);
  if z <? 0 then
    when (negb (ls =? LINK_STATE_UNKNOWN))
      (type ← need sdl_type; out (tab +:+ "status: " +:+ get_linkstate type ls +:+ newline))
  else if ifm_count ifmr =? 0 then warn (name +:+ ": no media types?")
  else
    ok ← in_env alloc_ok;
    if negb ok then err
    else
      '(z, ifmr) ← ioctl SIOCGIFMEDIA
        (mk_ifmr (ifm_name ifmr) (ifm_current ifmr) (ifm_status ifmr) (ifm_active ifmr) (ifm_count ifmr)
           (replicate (Z.to_nat (ifm_count ifmr)) 0));
      if z <? 0 then err
      else
        out (tab +:+ "media: " +:+ print_media_word (ifm_current ifmr) true false
             +:+ (if ifm_active ifmr =? ifm_current ifmr then ""
                  else " (" +:+ print_media_word (ifm_active ifmr) false false +:+ ")") +:+ newline);;
        when (has_bits (ifm_status ifmr) IFM_AVALID)
          (out (tab +:+ "status: " +:+ media_status (ifm_current ifmr) (ifm_status ifmr) +:+ newline));;
        ieee80211_status;;
        show ← rd G_showmediaflag;
        when (negb (show =? 0))
          (media_list ← need (elements (ifm_count ifmr) (ifm_ulist ifmr));
           each (λ type, out (supported_media media_list type)) media_types).

(** sdl_alen, and the octets LLADDR() points to. *)
Definition sdl_alen (sa : sockaddr) : Z := byte_at 6 sa.
Definition sdl_lladdr (sa : sockaddr) : option (list byte) :=
  elements 6 (drop (8 + Z.to_nat (byte_at 5 sa)) sa).

(** The first lines: flags, numbers and the link-level address. *)
Definition head_lines (sdl : option (sockaddr * Z)) : GM unit :=
  name ← gets g_name;
  out (name +:+ ": ");;
  flags ← rd G_flags; xflags ← rd G_xflags;
  out_need (printb "flags" (Z.lor flags (Z.shiftl xflags 16)) IFFBITS);;
  rdomainid ← rd G_rdomainid; metric ← rd G_metric; mtu ← rd G_mtu;
  when (negb (rdomainid =? 0)) (out (" rdomain " +:+ fmt_d rdomainid));;
  when (negb (metric =? 0)) (out (" metric " +:+ fmt_u metric));;
  when (negb (mtu =? 0)) (out (" mtu " +:+ fmt_u mtu));;
  out newline;;
  match sdl with
  | None => mret tt
  | Some (sa, type) =>
      when (negb (sdl_alen sa =? 0) && ((type =? IFT_ETHER) || (type =? IFT_CARP)))
        (ll ← need (sdl_lladdr sa); out (tab +:+ "lladdr " +:+ ether_ntoa (map byte.unsigned ll) +:+ newline))
  end.

(** The description, the priority and the keep-alives. *)
Definition info_lines : GM unit :=
  name ← gets g_name;
  '(z, (r, descr)) ← ioctl SIOCGIFDESCR (mk_ifreq (ifname name) U_ptr, "");
  when ((z =? 0) && negb (bool_decide (descr = ""))) (out (tab +:+ "description: " +:+ descr +:+ newline));;
  b ← is_bridge name;
  (if b : bool then mret tt
   else
     '(z, r) ← ioctl SIOCGIFPRIORITY r;
     if z =? 0 then p ← need (ifr_metric r); out (tab +:+ "priority: " +:+ fmt_d p +:+ newline) else mret tt);;
  '(z, k) ← ioctl SIOCGETKALIVE (mk_ikar (ifname name) 0 0);
  when ((z =? 0) && (negb (ikar_timeo k =? 0) || negb (ikar_cnt k =? 0)))
    (out (tab +:+ "keepalive: timeout " +:+ fmt_d (ikar_timeo k) +:+ " count " +:+ fmt_d (ikar_cnt k) +:+ newline)).

(** [sdl] is the link-level address with its type, [None] for NULL. *)
Definition status (link : Z) (sdl : option (sockaddr * Z)) (ls : Z) : GM unit :=
  head_lines sdl;;
  info_lines;;
  vlan_status;; carp_status;; pfsync_status;; pppoe_status;; timeslot_status;; sppp_status;;
  trunk_status;; mpe_status;; pflow_status;;
  media_lines (snd <$> sdl) ls;;
  (if link =? 0 then
     p ← gets g_afp;
     match p with
     | Some p => af_status p 1
     | None => each (λ p, sa ← ifr_sa; set_ifr_sa (poke 1 [byte.of_Z (af_af p)] sa);; af_status p 0) (afs true)
     end
   else mret tt);;
  phys_status 0;;
  bridge_status.
End status.
