(* ===== verification/Gate.v ===== *)
(** * Gate: the command tables and the loops that interpret them

    Models, of src/ifconfigd/ifconfigd.c, the table cmds and ifconfig_gate(),
    through which the daemon applies every setting, and, of
    src/usr/src/sbin/ifconfig/ifconfig.c, the loop of main() that interprets
    the same words for ifconfig(8), against which the daemon's copy is
    compared.

    An argument vector is a list of char pointers; the word after its end is
    NULL when the list says so ([None]), and a read past the list is
    undefined.  The fuel of a loop is the number of words: every round
    consumes at least one. *)
From coqutil Require Import Byte Word.LittleEndianList.
From stdpp Require Import base list strings functions.
From Stdlib Require Import Ascii.
From S2P Require Import Prelude CString CNum NetAddr InetNet Scan IfData IfCore IfWireless.
From S2P Require Import IfMedia IfProto Brconfig.

Definition NEXTARG0 : Z := 0xffffff.
Definition NEXTARG : Z := 0xfffffe.
Definition NEXTARG2 : Z := 0xfffffd.

Section gate.
Context `{!Kernel, !Libs}.

(** struct cmd; [None] is a null pointer. *)
Record cmd := mk_cmd {
  c_name : option string;
  c_parameter : Z;
  c_action : Z;
  c_func : option (cptr → Z → GM unit);
  c_func2 : option (cptr → cptr → GM unit);
}.

Definition cmd1 n p a f : cmd := mk_cmd (Some n) p a (Some f) None.
Definition cmd2 n f : cmd := mk_cmd (Some n) NEXTARG2 0 None (Some f).
Definition cmd0 f : cmd := mk_cmd None 0 0 f None.

(** The named rows of the table. *)
Definition named_cmds : list cmd :=
  [cmd1 "up" IFF_UP 0 setifflags;
   cmd1 "down" (- IFF_UP) 0 setifflags;
   cmd1 "arp" (- IFF_NOARP) 0 setifflags;
   cmd1 "-arp" IFF_NOARP 0 setifflags;
   cmd1 "debug" IFF_DEBUG 0 setifflags;
   cmd1 "-debug" (- IFF_DEBUG) 0 setifflags;
   cmd1 "alias" IFF_UP 0 notealias;
   cmd1 "-alias" (- IFF_UP) 0 notealias;
   cmd1 "delete" (- IFF_UP) 0 notealias;
   cmd1 "netmask" NEXTARG 0 setifnetmask;
   cmd1 "mtu" NEXTARG 0 setifmtu;
   cmd1 "nwid" NEXTARG 0 setifnwid;
   cmd1 "-nwid" (- 1) 0 setifnwid;
   cmd1 "bssid" NEXTARG 0 setifbssid;
   cmd1 "-bssid" (- 1) 0 setifbssid;
   cmd1 "nwkey" NEXTARG 0 setifnwkey;
   cmd1 "-nwkey" (- 1) 0 setifnwkey;
   cmd1 "wpa" 1 0 setifwpa;
   cmd1 "-wpa" 0 0 setifwpa;
   cmd1 "wpaakms" NEXTARG 0 setifwpaakms;
   cmd1 "wpaciphers" NEXTARG 0 setifwpaciphers;
   cmd1 "wpagroupcipher" NEXTARG 0 setifwpagroupcipher;
   cmd1 "wpaprotos" NEXTARG 0 setifwpaprotos;
   cmd1 "wpakey" NEXTARG 0 setifwpakey;
   cmd1 "-wpakey" (- 1) 0 setifwpakey;
   cmd1 "chan" NEXTARG0 0 setifchan;
   cmd1 "-chan" (- 1) 0 setifchan;
   cmd1 "scan" NEXTARG0 0 setifscan;
   cmd1 "broadcast" NEXTARG 0 setifbroadaddr;
   cmd1 "prefixlen" NEXTARG 0 setifprefixlen;
   cmd1 "vlan" NEXTARG 0 setvlantag;
   cmd1 "vlandev" NEXTARG 0 setvlandev;
   cmd1 "-vlandev" 1 0 unsetvlandev;
   cmd1 "group" NEXTARG 0 setifgroup;
   cmd1 "-group" NEXTARG 0 unsetifgroup;
   cmd1 "trailers" (- 1) 0 notrailers;
   cmd1 "-trailers" 1 0 notrailers;
   cmd1 "metric" NEXTARG 0 setifmetric;
   cmd1 "powersave" NEXTARG0 0 setifpowersave;
   cmd1 "-powersave" (- 1) 0 setifpowersave;
   cmd1 "priority" NEXTARG 0 setifpriority;
   cmd1 "rtlabel" NEXTARG 0 setifrtlabel;
   cmd1 "-rtlabel" (- 1) 0 setifrtlabel;
   cmd1 "rdomain" NEXTARG 0 setinstance;
   cmd1 "range" NEXTARG 0 setatrange;
   cmd1 "phase" NEXTARG 0 setatphase;
   cmd1 "mpls" IFXF_MPLS 0 setifxflags;
   cmd1 "-mpls" (- IFXF_MPLS) 0 setifxflags;
   cmd1 "mplslabel" NEXTARG 0 setmpelabel;
   cmd1 "advbase" NEXTARG 0 setcarp_advbase;
   cmd1 "advskew" NEXTARG 0 setcarp_advskew;
   cmd1 "carppeer" NEXTARG 0 setcarppeer;
   cmd1 "-carppeer" 1 0 unsetcarppeer;
   cmd1 "pass" NEXTARG 0 setcarp_passwd;
   cmd1 "vhid" NEXTARG 0 setcarp_vhid;
   cmd1 "vlanprio" NEXTARG 0 setvlanprio;
   cmd1 "state" NEXTARG 0 setcarp_state;
   cmd1 "carpdev" NEXTARG 0 setcarpdev;
   cmd1 "carpnodes" NEXTARG 0 setcarp_nodes;
   cmd1 "balancing" NEXTARG 0 setcarp_balancing;
   cmd1 "-carpdev" 1 0 unsetcarpdev;
   cmd1 "syncdev" NEXTARG 0 setpfsync_syncdev;
   cmd1 "-syncdev" 1 0 unsetpfsync_syncdev;
   cmd1 "syncif" NEXTARG 0 setpfsync_syncdev;
   cmd1 "-syncif" 1 0 unsetpfsync_syncdev;
   cmd1 "syncpeer" NEXTARG 0 setpfsync_syncpeer;
   cmd1 "-syncpeer" 1 0 unsetpfsync_syncpeer;
   cmd1 "maxupd" NEXTARG 0 setpfsync_maxupd;
   cmd1 "defer" 1 0 setpfsync_defer;
   cmd1 "-defer" 0 0 setpfsync_defer;
   cmd2 "giftunnel" settunnel;
   cmd2 "tunnel" settunnel;
   cmd1 "deletetunnel" 0 0 deletetunnel;
   cmd1 "tunneldomain" NEXTARG 0 settunnelinst;
   cmd1 "pppoedev" NEXTARG 0 setpppoe_dev;
   cmd1 "pppoesvc" NEXTARG 0 setpppoe_svc;
   cmd1 "-pppoesvc" 1 0 setpppoe_svc;
   cmd1 "pppoeac" NEXTARG 0 setpppoe_ac;
   cmd1 "-pppoeac" 1 0 setpppoe_ac;
   cmd1 "timeslot" NEXTARG 0 settimeslot;
   cmd1 "txpower" NEXTARG 0 setiftxpower;
   cmd1 "-txpower" 1 0 setiftxpower;
   cmd1 "trunkport" NEXTARG 0 settrunkport;
   cmd1 "-trunkport" NEXTARG 0 unsettrunkport;
   cmd1 "trunkproto" NEXTARG 0 settrunkproto;
   cmd1 "authproto" NEXTARG 0 setspppproto;
   cmd1 "authname" NEXTARG 0 setspppname;
   cmd1 "authkey" NEXTARG 0 setspppkey;
   cmd1 "peerproto" NEXTARG 0 setsppppeerproto;
   cmd1 "peername" NEXTARG 0 setsppppeername;
   cmd1 "peerkey" NEXTARG 0 setsppppeerkey;
   cmd1 "peerflag" NEXTARG 0 setsppppeerflag;
   cmd1 "-peerflag" NEXTARG 0 unsetsppppeerflag;
   cmd1 "nwflag" NEXTARG 0 setifnwflag;
   cmd1 "-nwflag" NEXTARG 0 unsetifnwflag;
   cmd1 "flowsrc" NEXTARG 0 setpflow_sender;
   cmd1 "-flowsrc" 1 0 unsetpflow_sender;
   cmd1 "flowdst" NEXTARG 0 setpflow_receiver;
   cmd1 "-flowdst" 1 0 unsetpflow_receiver;
   cmd1 "-inet6" IFXF_NOINET6 0 setifxflags;
   cmd1 "add" NEXTARG 0 bridge_add;
   cmd1 "del" NEXTARG 0 bridge_delete;
   cmd1 "addspan" NEXTARG 0 bridge_addspan;
   cmd1 "delspan" NEXTARG 0 bridge_delspan;
   cmd1 "discover" NEXTARG 0 setdiscover;
   cmd1 "-discover" NEXTARG 0 unsetdiscover;
   cmd1 "blocknonip" NEXTARG 0 setblocknonip;
   cmd1 "-blocknonip" NEXTARG 0 unsetblocknonip;
   cmd1 "learn" NEXTARG 0 setlearn;
   cmd1 "-learn" NEXTARG 0 unsetlearn;
   cmd1 "stp" NEXTARG 0 setstp;
   cmd1 "-stp" NEXTARG 0 unsetstp;
   cmd1 "edge" NEXTARG 0 setedge;
   cmd1 "-edge" NEXTARG 0 unsetedge;
   cmd1 "autoedge" NEXTARG 0 setautoedge;
   cmd1 "-autoedge" NEXTARG 0 unsetautoedge;
   cmd1 "ptp" NEXTARG 0 setptp;
   cmd1 "-ptp" NEXTARG 0 unsetptp;
   cmd1 "autoptp" NEXTARG 0 setautoptp;
   cmd1 "-autoptp" NEXTARG 0 unsetautoptp;
   cmd1 "flush" 0 0 bridge_flush;
   cmd1 "flushall" 0 0 bridge_flushall;
   cmd2 "static" bridge_addaddr;
   cmd1 "deladdr" NEXTARG 0 bridge_deladdr;
   cmd1 "maxaddr" NEXTARG 0 bridge_maxaddr;
   cmd1 "addr" 0 0 bridge_addrs;
   cmd1 "hellotime" NEXTARG 0 bridge_hellotime;
   cmd1 "fwddelay" NEXTARG 0 bridge_fwddelay;
   cmd1 "maxage" NEXTARG 0 bridge_maxage;
   cmd1 "proto" NEXTARG 0 bridge_proto;
   cmd2 "ifpriority" bridge_ifprio;
   cmd2 "ifcost" bridge_ifcost;
   cmd1 "-ifcost" NEXTARG 0 bridge_noifcost;
   cmd1 "timeout" NEXTARG 0 bridge_timeout;
   cmd1 "holdcnt" NEXTARG 0 bridge_holdcnt;
   cmd1 "spanpriority" NEXTARG 0 bridge_priority;
   cmd1 "ipdst" NEXTARG 0 setifipdst;
   cmd1 "rules" NEXTARG 0 bridge_rules;
   cmd1 "rulefile" NEXTARG 0 bridge_rulefile;
   cmd1 "flushrule" NEXTARG 0 bridge_flushrule;
   cmd1 "description" NEXTARG 0 setifdesc;
   cmd1 "descr" NEXTARG 0 setifdesc;
   cmd1 "-description" 1 0 unsetifdesc;
   cmd1 "-descr" 1 0 unsetifdesc;
   cmd1 "wol" IFXF_WOL 0 setifxflags;
   cmd1 "-wol" (- IFXF_WOL) 0 setifxflags;
   cmd1 "destroy" 0 0 clone_destroy;
   cmd1 "link0" IFF_LINK0 0 setifflags;
   cmd1 "-link0" (- IFF_LINK0) 0 setifflags;
   cmd1 "link1" IFF_LINK1 0 setifflags;
   cmd1 "-link1" (- IFF_LINK1) 0 setifflags;
   cmd1 "link2" IFF_LINK2 0 setifflags;
   cmd1 "-link2" (- IFF_LINK2) 0 setifflags;
   cmd1 "media" NEXTARG0 A_MEDIA setmedia;
   cmd1 "mediaopt" NEXTARG A_MEDIAOPTSET setmediaopt;
   cmd1 "-mediaopt" NEXTARG A_MEDIAOPTCLR unsetmediaopt;
   cmd1 "mode" NEXTARG A_MEDIAMODE setmediamode;
   cmd1 "instance" NEXTARG A_MEDIAINST setmediainst;
   cmd1 "inst" NEXTARG A_MEDIAINST setmediainst;
   cmd1 "lladdr" NEXTARG 0 setiflladdr].
(** The whole table: the rows for the source and the destination address of
    a word that is no command, and the row that ends it, follow. *)
Definition cmds : list cmd :=
  named_cmds ++ [cmd0 (Some setifaddr); cmd0 (Some setifdstaddr); cmd0 None].

(** The scan for a word: the rows from the one that stops it. *)
Fixpoint find_cmd (w : string) (tab : list cmd) : list cmd :=
  match tab with
  | [] => []
  | p :: tab' =>
      match c_name p with
      | None => tab
      | Some n => if bool_decide (w = n) then tab else find_cmd w tab'
      end
  end.

(** argv[i] *)
Definition arg (argv : list cptr) (i : nat) : GM cptr := need (argv !! i).

Definition call1 (p : cmd) (a : cptr) (v : Z) : GM unit :=
  f ← need (c_func p); f a v.
Definition call2 (p : cmd) (a b : cptr) : GM unit :=
  f ← need (c_func2 p); f a b.

Definition act (p : cmd) : GM unit :=
  a ← rd G_actions; wr G_actions (Z.lor (Z.lor a A_SILENT) (c_action p)).

(** One round of the while loop of ifconfig_gate(): the number of words it
    consumed. *)
Definition gate_round (argv : list cptr) : GM nat :=
  w ← arg argv 0; w ← deref w;
  p ← need (head (find_cmd w cmds));
  if c_parameter p =? NEXTARG then
    a ← arg argv 1;
    match a with
    | None => err
    | Some _ => call1 p a 0;; act p;; mret 2%nat
    end
  else if c_parameter p =? NEXTARG2 then
    a ← arg argv 1;
    match a with
    | None => err
    | Some _ =>
        b ← arg argv 2;
        match b with
        | None => err
        | Some _ => call2 p a b;; mret 3%nat
        end
    end
  else call1 p (Some w) (c_parameter p);; act p;; mret 1%nat.

Fixpoint gate_loop (fuel : nat) (argc : Z) (argv : list cptr) : GM unit :=
  if argc <=? 0 then mret tt
  else match fuel with
  | O => stopM SFuel
  | S fuel => n ← gate_round argv; gate_loop fuel (argc - Z.of_nat n) (drop n argv)
  end.

(** The address family: its keyword is consumed, inet is the default. *)
Fixpoint find_af (w : string) (tab : list afswtch) : option afswtch :=
  match tab with
  | [] => None
  | p :: tab => if bool_decide (af_name p = w) then Some p else find_af w tab
  end.

Definition select_af (INET6 : bool) (argc : Z) (argv : list cptr) : GM (option afswtch * Z * list cptr) :=
  if 0 <? argc then
    w ← arg argv 0; w ← deref w;
    let hit := find_af w (afs INET6) in
    let p := default AFS_inet hit in
    modify (set_afp (Some p));;
    wr G_af (af_af p);;
    modify (λ g, set_ifr (set_ifr_family (g_ifr g) (af_af p)) g);;
    mret (if bool_decide (is_Some hit) then (Some p, argc - 1, tail argv) else (Some p, argc, argv))
  else mret (None, argc, argv).

(** Send a request to delete the address of a row of afs; the structure that
    af_ridreq points to gets the name first.  For atalk it is addreq, taken
    for a struct ifreq. *)
Definition at_ridreq (q : aliasreq) : ifreq := mk_ifreq (ifra_name q) (U_bytes (ifra_addr q)).
Definition delete_address (p : afswtch) (name : string) : GM Z :=
  match p with
  | AFS_inet =>
      modify (λ g, set_ridreq (set_ifr_name (g_ridreq g) (ifname name)) g);;
      r ← gets g_ridreq;
      '(z, r) ← ioctl SIOCDIFADDR r;
      modify (set_ridreq r);; mret z
  | AFS_inet6 =>
      modify (λ g, set_in6_ridreq (mk_ifreq6 (ifname name) (ifr6_ifru (g_in6_ridreq (g_in6 g)))) g);;
      r ← gets (λ g, g_in6_ridreq (g_in6 g));
      '(z, r) ← ioctl SIOCDIFADDR_IN6 r;
      modify (set_in6_ridreq r);; mret z
  | AFS_atalk =>
      r ← gets (λ g, at_ridreq (g_addreq g));
      '(z, r) ← ioctl SIOCDIFADDR (set_ifr_name r (ifname name));
      modify (λ g, let q := g_addreq g in
        set_addreq (mk_alias (ifr_name r) (default (ifra_addr q) (ifr_bytes r)) (ifra_dstaddr q) (ifra_mask q)) g);;
      mret z
  end.

(** The same for af_addreq and the address to add. *)
Definition add_address_of (p : afswtch) (name : string) : GM Z :=
  let named q := mk_alias (ifname name) (ifra_addr q) (ifra_dstaddr q) (ifra_mask q) in
  match p with
  | AFS_inet =>
      modify (λ g, set_in_addreq (named (g_in_addreq g)) g);;
      q ← gets g_in_addreq;
      '(z, q) ← ioctl SIOCAIFADDR q;
      modify (set_in_addreq q);; mret z
  | AFS_inet6 =>
      modify (λ g, let q := g_in6_addreq (g_in6 g) in
        set_in6_addreq (mk_alias6 (ifname name) (ifra6_addr q) (ifra6_dstaddr q) (ifra6_prefixmask q)
                          (ifra6_flags q) (ifra6_lifetime q)) g);;
      q ← gets (λ g, g_in6_addreq (g_in6 g));
      '(z, q) ← ioctl SIOCAIFADDR_IN6 q;
      modify (set_in6_addreq q);; mret z
  | AFS_atalk =>
      modify (λ g, set_addreq (named (g_addreq g)) g);;
      q ← gets g_addreq;
      '(z, q) ← ioctl SIOCAIFADDR q;
      modify (set_addreq q);; mret z
  end.

(** The requests that follow the loop. *)
Definition clear_address (rafp : option afswtch) : GM unit :=
  p ← need rafp;
  name ← gets g_name;
  z ← delete_address p name;
  if z <? 0 then
    e ← errno; doalias ← rd G_doalias;
    if (e =? EADDRNOTAVAIL) && (0 <=? doalias) then mret tt else err
  else mret tt.

Definition new_address (rafp : option afswtch) : GM unit :=
  p ← need rafp;
  name ← gets g_name;
  z ← add_address_of p name;
  if z <? 0 then err else mret tt.

Definition apply_addresses (rafp : option afswtch) : GM unit :=
  c ← rd G_clearaddr;
  (if negb (c =? 0) then clear_address rafp else mret tt);;
  n ← rd G_newaddr;
  if negb (n =? 0) then new_address rafp else mret tt.

(** sizeof(iface), the size of a pointer, bounds the copy into name[]. *)
Definition ifconfig_gate (argc : Z) (argv : list cptr) (iface : string) : GM unit :=
  let '(n, len) := strlcpy_s iface PTR_SIZE in
  modify (set_name n);;
  if IFNAMSIZ <=? len then err
  else
    '(rafp, argc, argv) ← select_af false argc argv;
    modify (λ g, set_ifr (set_ifr_name (g_ifr g) (ifname iface)) g);;
    _ ← getinfo_ifr false;
    gate_loop (Z.to_nat argc) argc argv;;
    process_media_commands;;
    apply_addresses rafp.

(** ** The loop of ifconfig(8) *)

(** The row for a word that is no command: one further for every address
    already given. *)
Definition addr_row (w : string) (tab : list cmd) (setaddr : Z) : option (option cmd) :=
  match tab with
  | [] => None
  | p :: _ =>
      match c_name p with
      | Some _ => Some (Some p)
      | None =>
          (fix go (n : nat) (tab : list cmd) : option (option cmd) :=
             match n, tab with
             | O, p :: _ => Some (Some p)
             | S n, _ :: ((p :: _) as tab') =>
                 match c_func p with None => Some None | Some _ => go n tab' end
             | _, _ => None
             end) (Z.to_nat setaddr) tab
      end
  end.

(** Is a word the name of a command? *)
Definition is_command (w : string) (tab : list cmd) : bool :=
  match find_cmd w tab with
  | p :: _ => bool_decide (is_Some (c_name p))
  | [] => false
  end.

Definition nextarg (p : cmd) (argv : list cptr) : GM nat :=
  a ← arg argv 1;
  match a with
  | None => err
  | Some _ => call1 p a 0;; act p;; mret 2%nat
  end.

(** One round; [inr] is the return of main() in the rule command. *)
Definition ifconfig_round (tab : list cmd) (argv : list cptr) : GM (nat + Z) :=
  w ← arg argv 0; w ← deref w;
  if bool_decide (w = "rule") then
    r ← bridge_rule (omap id (tail argv)); mret (inr r)
  else
    setaddr ← rd G_setaddr;
    row ← need (addr_row w (find_cmd w tab) setaddr);
    match row with
    | None => err
    | Some p =>
        inl <$>
        match c_func p, c_func2 p with
        | None, None => mret 1%nat
        | _, _ =>
          if c_parameter p =? NEXTARG0 then
            a ← arg argv 1;
            match a with
            | None => call1 p None 0;; mret 1%nat
            | Some v => if is_command v tab then call1 p None 0;; mret 1%nat else nextarg p argv
            end
          else if c_parameter p =? NEXTARG then nextarg p argv
          else if c_parameter p =? NEXTARG2 then
            a ← arg argv 1;
            match a with
            | None => err
            | Some _ =>
                b ← arg argv 2;
                match b with
                | None => err
                | Some _ => call2 p a b;; act p;; mret 3%nat
                end
            end
          else call1 p (Some w) (c_parameter p);; act p;; mret 1%nat
        end
    end.

Fixpoint ifconfig_loop (tab : list cmd) (fuel : nat) (argc : Z) (argv : list cptr) : GM (option Z) :=
  if argc <=? 0 then mret None
  else match fuel with
  | O => stopM SFuel
  | S fuel =>
      r ← ifconfig_round tab argv;
      match r with
      | inr code => mret (Some code)
      | inl n => ifconfig_loop tab fuel (argc - Z.of_nat n) (drop n argv)
      end
  end.

(** ** Rows of the table *)

Lemma find_cmd_Forall (P : cmd → Prop) w tab : Forall P tab → Forall P (find_cmd w tab).
Proof.
  induction 1 as [|q tab Hq Ht IH]; [done|]. cbn [find_cmd]. repeat case_match; try done; by constructor.
Qed.

Lemma addr_row_Forall (P : cmd → Prop) w tab n p : Forall P tab → addr_row w tab n = Some (Some p) → P p.
Proof.
  intros Ht. unfold addr_row. destruct tab as [|q tab]; [done|]. destruct (c_name q).
  { intros [= <-]. by apply Forall_inv in Ht. }
  generalize (q :: tab) Ht. clear q tab Ht. induction (Z.to_nat n) as [|k IH]; intros tab Ht.
  - destruct tab as [|q tab]; [done|]. intros [= <-]. by apply Forall_inv in Ht.
  - destruct tab as [|q [|q' tab]]; [done..|]. case_match; [|done]. apply IH.
    by apply Forall_inv_tail in Ht.
Qed.

(** ** Rounds of the loop of ifconfig_gate() by the kind of row *)

Lemma gate_round_word w p argv g :
  head (find_cmd w cmds) = Some p → c_parameter p ≠ NEXTARG → c_parameter p ≠ NEXTARG2 →
  gate_round (Some w :: argv) g =
    (call1 p (Some w) (c_parameter p) ≫= λ _, act p ≫= λ _, mret 1%nat) g.
Proof.
  intros Hrow H1 H2. unfold gate_round.
  rewrite (bind_ok _ _ _ (Some w) g), (bind_ok _ _ _ w g), (bind_ok _ _ _ p g) by (done || by rewrite Hrow).
  by rewrite (proj2 (Z.eqb_neq _ _) H1), (proj2 (Z.eqb_neq _ _) H2).
Qed.

Lemma gate_round_arg w a p argv g :
  head (find_cmd w cmds) = Some p → c_parameter p = NEXTARG →
  gate_round (Some w :: Some a :: argv) g =
    (call1 p (Some a) 0 ≫= λ _, act p ≫= λ _, mret 2%nat) g.
Proof.
  intros Hrow H1. unfold gate_round.
  rewrite (bind_ok _ _ _ (Some w) g), (bind_ok _ _ _ w g), (bind_ok _ _ _ p g) by (done || by rewrite Hrow).
  by rewrite (proj2 (Z.eqb_eq _ _) H1).
Qed.
End gate.
