(* ===== verification/TypeProps.v ===== *)
(** * TypeProps: the requests of ifconfig fit their structures

    [keeps] is a Hoare triple for the invariant [glob_ok] of the globals, in
    which every request has to fit; the lemmas go through all handlers of the
    command table. *)
From coqutil Require Import Byte Word.LittleEndianList.
From stdpp Require Import base list strings functions.
From Stdlib Require Import Ascii.
From S2P Require Import Prelude CString CNum NetAddr InetNet Printf Scan Pbkdf2 IfData Fits IfCore IfWireless.
From S2P Require Import IfMedia IfProto Brconfig Gate.

(** ** Values *)

Create HintDb fits.

Lemma stake_len n s : slen (stake n s) ≤ Z.of_nat n.
Proof. unfold slen, stake, Zlen. rewrite bytes_of_list, length_take. lia. Qed.

Lemma ifname_is_name s : is_name (ifname s).
Proof.
  unfold is_name, in_chars, ifname, strlcpy_s. cbn [fst]. change (IFNAMSIZ - 1) with 15.
  pose proof (stake_len (Z.to_nat 15) s). unfold IFNAMSIZ. lia.
Qed.

Lemma strlcpy_chars s n : 0 < n → in_chars n (strlcpy_s s n).1.
Proof.
  intros Hn. unfold in_chars, strlcpy_s. cbn [fst]. pose proof (stake_len (Z.to_nat (n - 1)) s). lia.
Qed.

Lemma empty_chars n : 0 < n → in_chars n "".
Proof. done. Qed.

Lemma ifr_store_ok r bs : ifreq_ok r → Zlen bs ≤ 16 → ifreq_set (ifr_store r bs).
Proof.
  intros [Hn Hb] Hl. split; [done|]. eexists. split; [reflexivity|].
  unfold Zlen in *. rewrite length_app, length_drop.
  unfold if_set, zeros in *. destruct (ifr_bytes r) as [b|]; cbn in Hb |- *; [lia|].
  destruct (length bs); simpl; lia.
Qed.

Lemma ifreq_set_ok r : ifreq_set r → ifreq_ok r.
Proof. intros (Hn & bs & Hb & Hl). split; [done|]. by rewrite Hb. Qed.

Lemma set_flags_ok r f : ifreq_ok r → ifreq_set (set_ifr_flags r f).
Proof. intros H. apply ifr_store_ok; [done|]. unfold Zlen. rewrite length_le_split. lia. Qed.
Lemma set_metric_ok r n : ifreq_ok r → ifreq_set (set_ifr_metric r n).
Proof. intros H. apply ifr_store_ok; [done|]. unfold Zlen. rewrite length_le_split. lia. Qed.
Lemma set_family_ok r f : ifreq_ok r → ifreq_set (set_ifr_family r f).
Proof.
  intros H. apply ifr_store_ok; [done|]. unfold Zlen. rewrite length_app, length_take. cbn [length]. lia.
Qed.
Lemma set_name_ok r s : ifreq_ok r → ifreq_ok (set_ifr_name r (ifname s)).
Proof. intros [_ Hb]. split; [apply ifname_is_name|done]. Qed.
Lemma set_name_set r s : ifreq_set r → ifreq_set (set_ifr_name r (ifname s)).
Proof. intros [_ Hb]. split; [apply ifname_is_name|done]. Qed.
Lemma u32_fits z : in_u32 (u32 z).
Proof. unfold in_u32, u32. apply Z.mod_pos_bound. lia. Qed.
Lemma u16_fits z : in_u16 (u16 z).
Proof. unfold in_u16, u16. apply Z.mod_pos_bound. lia. Qed.

Lemma le_combine_range n l : (length l ≤ n)%nat → 0 ≤ le_combine l < 2 ^ (8 * Z.of_nat n).
Proof.
  intros H. rewrite <- (firstn_all2 l H), le_combine_firstn. apply Z.mod_pos_bound. lia.
Qed.
Lemma sin_addr_range sa : in_u32 (sin_addr sa).
Proof.
  apply (le_combine_range 4). rewrite length_rev, length_take, length_drop. lia.
Qed.
Lemma sin_port_range sa : in_u16 (sin_port sa).
Proof.
  apply (le_combine_range 2). rewrite length_rev, length_take, length_drop. lia.
Qed.

Lemma set_data_ok r : ifreq_ok r → ifreq_ok (set_ifr_data r).
Proof. by intros [Hn _]. Qed.

Lemma poke_len off bs sa n : Zlen sa = n → Z.of_nat off + Zlen bs ≤ n → Zlen (poke off bs sa) = n.
Proof.
  unfold Zlen, poke. intros Hs Hb. rewrite !length_app, length_take, length_drop. lia.
Qed.

Lemma set_addr6_ok r sa : ifreq6_ok r → (length sa ≤ 28)%nat → ifreq6_ok (set_ifr6_addr r sa).
Proof.
  intros [Hn Hu] Hl. split; [done|]. unfold set_ifr6_addr. cbn [ifr6_ifru].
  rewrite length_poke; [done|]. rewrite Hu. unfold SIZEOF_IFRU6. lia.
Qed.

Lemma zeros_len n : Zlen (zeros n) = Z.of_nat n.
Proof. unfold Zlen, zeros. by rewrite length_replicate. Qed.

(** ** Computations that keep the invariant *)

Section keeps.
Context {K : Kernel} {LB : Libs} {TK : TypedKernel K} {TL : TypedLibs LB}.

Definition glob6_ok (x : glob6) : Prop :=
  ifreq6_ok (g_ifr6 x) ∧ ifreq6_ok (g_in6_ridreq x) ∧ aliasreq6_ok (g_in6_addreq x).
Definition glob_ok (g : glob) : Prop :=
  k_ok (g_k g) ∧ ifreq_ok (g_ifr g) ∧ ifreq_set (g_ridreq g) ∧ aliasreq_ok (g_in_addreq g)
  ∧ aliasreq_ok (g_addreq g) ∧ glob6_ok (g_in6 g).

Definition keeps {A} (m : GM A) (Q : A → Prop) : Prop :=
  ∀ g, glob_ok g → glob_ok (m g).2 ∧ match (m g).1 with Ok a => Q a | Stop _ => True end.

Lemma keeps_mono {A} (m : GM A) (P Q : A → Prop) : keeps m P → (∀ a, P a → Q a) → keeps m Q.
Proof. intros Hm HPQ g Hg. destruct (Hm g Hg) as [H1 H2]. split; [done|]. case_match; auto. Qed.

Lemma keeps_ret {A} (a : A) (Q : A → Prop) : Q a → keeps (mret a) Q.
Proof. by intros HQ g Hg. Qed.

Lemma keeps_bind {A B} (m : GM A) (f : A → GM B) P Q :
  keeps m P → (∀ a, P a → keeps (f a) Q) → keeps (m ≫= f) Q.
Proof.
  intros Hm Hf g Hg. destruct (Hm g Hg) as [H1 H2]. unfold mbind, CM_bind.
  destruct (m g) as [[a|w] g']; [by apply Hf|done].
Qed.

Lemma keeps_assoc {A B C} (m : GM A) (f : A → GM B) (h : B → GM C) Q :
  keeps (m ≫= λ x, f x ≫= h) Q → keeps ((m ≫= f) ≫= h) Q.
Proof.
  intros H g Hg. specialize (H g Hg). unfold mbind, CM_bind in *. by destruct (m g) as [[a|w] g'].
Qed.

Lemma keeps_unassoc {A B C} (m : GM A) (f : A → GM B) (h : B → GM C) Q :
  keeps ((m ≫= f) ≫= h) Q → keeps (m ≫= λ x, f x ≫= h) Q.
Proof.
  intros H g Hg. specialize (H g Hg). unfold mbind, CM_bind in *. by destruct (m g) as [[a|w] g'].
Qed.

Lemma keeps_ret_bind {A B} (a : A) (f : A → GM B) Q : keeps (f a) Q → keeps (mret a ≫= f) Q.
Proof. done. Qed.

Lemma keeps_fmap {A B} (m : GM A) (f : A → B) (Q : B → Prop) : keeps m (λ a, Q (f a)) → keeps (f <$> m) Q.
Proof.
  intros Hm g Hg. destruct (Hm g Hg) as [H1 H2]. unfold fmap, CM_fmap. by destruct (m g) as [[a|w] g'].
Qed.

Lemma keeps_fmap_bind {A B C} (m : GM A) (f : A → B) (h : B → GM C) Q :
  keeps (m ≫= λ a, h (f a)) Q → keeps ((f <$> m) ≫= h) Q.
Proof.
  intros H g Hg. specialize (H g Hg). unfold mbind, CM_bind, fmap, CM_fmap in *.
  by destruct (m g) as [[a|w] g'].
Qed.

Lemma keeps_stop {A} w (Q : A → Prop) : keeps (stopM w) Q.
Proof. by intros g Hg. Qed.
Lemma keeps_stop_bind {A B} w (f : A → GM B) Q : keeps (stopM w ≫= f) Q.
Proof. by intros g Hg. Qed.
Lemma keeps_err {A} (Q : A → Prop) : keeps err Q.
Proof. apply keeps_stop. Qed.
Lemma keeps_undef {A} (Q : A → Prop) : keeps undef Q.
Proof. apply keeps_stop. Qed.
Lemma keeps_need {A} (o : option A) : keeps (need o) (λ a, o = Some a).
Proof. by destruct o; intros g Hg. Qed.
Lemma keeps_gets {A} (f : glob → A) : keeps (gets f) (λ a, ∃ g, glob_ok g ∧ a = f g).
Proof. intros g Hg. split; [done|]. by exists g. Qed.
Lemma keeps_modify (f : glob → glob) : (∀ g, glob_ok g → glob_ok (f g)) → keeps (modify f) (λ _, True).
Proof. intros Hf g Hg. split; [by apply Hf|done]. Qed.
Lemma keeps_rd v : keeps (rd v) (λ _, True).
Proof. by intros g Hg. Qed.
Lemma keeps_wr v x : keeps (wr v x) (λ _, True).
Proof. by apply keeps_modify. Qed.
Lemma keeps_warn msg : keeps (warn msg) (λ _, True).
Proof. by apply keeps_modify. Qed.
Lemma keeps_out t : keeps (out t) (λ _, True).
Proof. by apply keeps_modify. Qed.
Lemma keeps_env {A} (m : CM cenv A) : keeps (in_env m) (λ _, True).
Proof. intros g Hg. unfold in_env, zoom. by destruct (m (g_env g)) as [[a|w] c]. Qed.
Lemma keeps_errno : keeps errno (λ _, True).
Proof. by intros g Hg. Qed.
Lemma keeps_errno_set e : keeps (errno_set e) (λ _, True).
Proof. apply keeps_env. Qed.

Lemma keeps_ioctl {A} (c : iocmd A) x : fits c x → keeps (ioctl c x) (λ r, fits c r.2).
Proof.
  intros Hx g Hg. unfold ioctl. destruct Hg as (Hk & Hr).
  destruct (k_ioctl (g_v g G_s) c x (g_k g)) as [[e x'] k'] eqn:E.
  destruct (k_ok_ioctl _ _ _ _ Hk Hx _ _ _ E) as [Hk' He].
  destruct (Z.eqb_spec e 0) as [->|]; (split; [by split|]); [by apply He|done].
Qed.

(** A request with the global ifr, and with a pointer in it. *)
Lemma keeps_ioctl_ifr (c : iocmd ifreq) :
  (∀ r, ifreq_ok r → fits c r) → (∀ r, fits c r → ifreq_ok r) → keeps (ioctl_ifr c) (λ _, True).
Proof.
  intros H1 H2. unfold ioctl_ifr. eapply keeps_bind; [apply keeps_gets|].
  intros r (g & (_ & Hr & _) & ->). eapply keeps_bind; [by apply keeps_ioctl, H1|].
  intros [z r] Hr'. eapply keeps_bind; [|intros; by apply keeps_ret].
  apply keeps_modify. intros g' (? & ? & ? & ? & ? & ?). split_and!; [done|by apply H2|done..].
Qed.

(** A store in the global ifr before such a request. *)
Lemma keeps_store_ioctl (c : iocmd ifreq) (h : glob → ifreq) :
  (∀ g, glob_ok g → fits c (h g)) → (∀ r, fits c r → ifreq_ok r) →
  keeps (modify (λ g, set_ifr (h g) g) ≫= λ _, ioctl_ifr c) (λ _, True).
Proof.
  intros H1 H2 g Hg. unfold ioctl_ifr, ioctl, mbind, CM_bind, gets, modify.
  cbn [g_v set_ifr g_ifr g_k]. pose proof (H1 g Hg) as Hx. destruct Hg as (Hk & Hr & Hg).
  destruct (k_ioctl _ c (h g) (g_k g)) as [[e x] k] eqn:E.
  destruct (k_ok_ioctl _ _ _ _ Hk Hx _ _ _ E) as [Hk' He].
  destruct (Z.eqb_spec e 0) as [->|]; (split; [|done]); (split; [done|]); (split; [|done]); cbn; auto.
Qed.

Lemma keeps_ioctl_data {D} (c : iocmd (ifreq * D)) (P : D → Prop) d :
  (∀ x, fits c x ↔ with_data P x) → P d → keeps (ioctl_data c d) (λ r, P r.2).
Proof.
  intros H Hd. unfold ioctl_data. eapply keeps_bind; [apply keeps_gets|].
  intros r (g & (_ & [Hn _] & _) & ->). eapply keeps_bind; [apply keeps_ioctl, H; by split|].
  intros [z [r d']] [Hr Hd']%H. eapply keeps_bind; [|intros; by apply keeps_ret].
  apply keeps_modify. intros g' (? & ? & ? & ? & ? & ?). by split_and!.
Qed.

Lemma keeps_socket naf : keeps (socket naf) (λ _, True).
Proof.
  intros g (Hk & Hg). unfold socket. pose proof (k_ok_socket naf _ Hk) as H.
  by destruct (k_socket naf (g_k g)) as [[fd|e] k].
Qed.

Lemma keeps_random n : keeps (arc4random_buf n) (λ bs, length bs = n).
Proof.
  intros g (Hk & Hg). unfold arc4random_buf. pose proof (k_ok_random n _ Hk) as H.
  destruct (k_arc4random_buf n (g_k g)) as [bs k]. by destruct H.
Qed.

Lemma keeps_strtonum s lo hi : keeps (strtonum_or_err s lo hi) (λ n, lo ≤ n ≤ hi).
Proof.
  unfold strtonum_or_err. destruct (strtonum_s s lo hi) as [n|e] eqn:E; [|apply keeps_err].
  apply keeps_ret. by eapply strtonum_s_range.
Qed.
End keeps.

#[export] Hint Resolve keeps_err keeps_undef keeps_stop keeps_need keeps_gets keeps_rd keeps_wr : fits.
#[export] Hint Resolve keeps_warn keeps_out keeps_env keeps_errno keeps_errno_set keeps_socket : fits.
#[export] Hint Resolve keeps_random keeps_strtonum : fits.

#[export] Hint Resolve ifname_is_name ifreq_set_ok set_flags_ok set_metric_ok set_family_ok : fits.
#[export] Hint Resolve set_name_ok set_name_set set_data_ok : fits.
#[export] Hint Resolve u32_fits u16_fits sin_addr_range sin_port_range : fits.
#[export] Hint Extern 2 (in_chars _ (strlcpy_s _ _).1) => apply strlcpy_chars; done : fits.
#[export] Hint Extern 2 (in_chars _ "") => done : fits.
#[export] Hint Extern 2 (is_name "") => done : fits.
#[export] Hint Extern 2 (Zlen (zeros _) = _) => reflexivity : fits.

Lemma ether_octets_len k s os : ether_octets k s = Some (Some os) → length os = k.
Proof.
  revert s os. induction k as [|k IH]; intros s os; cbn [ether_octets]; [by intros [= <-]|].
  destruct (strtol s 16) as [[[l ep] e]|]; [|done]. cbn [mbind option_bind].
  case_match; [done|]. destruct (s !! Z.to_nat ep); [|done]. cbn [mbind option_bind].
  case_match; [done|]. destruct (ether_octets k _) as [[r|]|] eqn:E; cbn; intros [= <-].
  simpl. f_equal. by eapply IH.
Qed.

Lemma ether_aton_len s a : ether_aton s = Some a → if_set (λ os, Zlen (to_bytes os) = 6) a.
Proof.
  unfold ether_aton. destruct (skip_spaces s) as [s'|]; [|done]. cbn [mbind option_bind]. intros E.
  destruct a as [os|]; [|done]. apply ether_octets_len in E. unfold to_bytes, Zlen. cbn.
  rewrite length_map. lia.
Qed.
#[export] Hint Resolve ether_aton_len : fits.

(** ** Lengths and ranges of what the routines compute *)

Lemma store_len i v dst dst' : store i v dst = Some dst' → length dst' = length dst.
Proof. unfold store. case_match; [|done]. intros [= <-]. by rewrite length_insert. Qed.

Lemma pton_octets_len size dst idx ch src r :
  pton_octets size dst idx ch src = Some (Some r) → length r.1.1.1.1 = length dst.
Proof.
  revert dst idx ch src. induction size as [|size IH]; intros dst idx ch src; cbn [pton_octets];
    (destruct (pton_dec 255 0 ch src) as [[[[tmp c] s]|]|]; [|done..]); cbn [mbind option_bind]; [done|].
  destruct (store idx tmp dst) as [dst'|] eqn:E; [|done]. apply store_len in E. cbn [mbind option_bind].
  case_match; [by intros [= <-]|]. case_match; [done|]. case_match; [done|]. case_match; [done|].
  intros Hr. rewrite <- E. by eapply IH.
Qed.

Lemma pton_hex_len size dst idx dirty src r :
  pton_hex size dst idx dirty src = Some (Some r) → length r.1.1.1.1 = length dst.
Proof.
  revert size dst idx dirty. induction src as [|ch src IH]; intros size dst idx dirty; cbn [pton_hex]; [done|].
  case_match; [by intros [= <-]|]. destruct (digit_val ch); [|done]. destruct (dst !! idx); [|done].
  cbn [mbind option_bind]. destruct dirty; cbn [negb].
  - destruct (store idx _ dst) as [d|] eqn:E; [|done]. apply store_len in E. cbn [mbind option_bind].
    case_match; [|done]. destruct (store (S idx) 0 d) as [d'|] eqn:E'; [|done]. apply store_len in E'.
    cbn [mbind option_bind]. intros Hr%IH. congruence.
  - destruct (store idx _ dst) as [d|] eqn:E; [|done]. apply store_len in E. cbn [mbind option_bind].
    intros Hr%IH. congruence.
Qed.

Lemma pton_extend_len k size dst idx d :
  pton_extend k size dst idx = Some (Some d) → length d = length dst.
Proof.
  revert size dst idx. induction k as [|k IH]; intros size dst idx; cbn [pton_extend]; [by intros [= <-]|].
  case_match; [done|]. destruct (store idx 0 dst) as [d'|] eqn:E; [|done]. apply store_len in E.
  cbn [mbind option_bind]. intros Hr%IH. congruence.
Qed.

Lemma pton_bits_len dst idx size ch src b d :
  pton_bits dst idx size ch src = Some (Some (b, d)) → length d = length dst.
Proof.
  unfold pton_bits. intros H. destruct (if Ascii.eqb ch "/" then _ else _) as [[bits|]|]; [|done..].
  cbn [mbind option_bind] in H.
  destruct (pton_extend _ size dst idx) as [[d'|]|] eqn:E; cbn in H; [|done..].
  injection H as <- <-. by eapply pton_extend_len.
Qed.

Lemma inet_net_pton_len src dst b d :
  inet_net_pton src dst = Some (Some (b, d)) → length d = length dst.
Proof.
  unfold inet_net_pton, inet_net_pton_ipv4. destruct src as [|ch src]; [done|].
  destruct (if Ascii.eqb ch "0" then _ else _) as [[]|]; [| |done]; cbn [mbind option_bind].
  - destruct dst as [|z dst]; [done|]. destruct (store 0 0 _) as [d0|] eqn:E0; [|done].
    apply store_len in E0. cbn [mbind option_bind].
    destruct (pton_hex _ _ _ _ _) as [[[[[[d1 i] sz] c] s]|]|] eqn:E; [|done..].
    apply pton_hex_len in E. cbn [mbind option_bind]. intros Hr%pton_bits_len. cbn in *. congruence.
  - case_match; [|done].
    destruct (pton_octets _ _ _ _ _) as [[[[[[d1 i] sz] c] s]|]|] eqn:E; [|done..].
    apply pton_octets_len in E. cbn [mbind option_bind]. intros Hr%pton_bits_len. cbn in *. congruence.
Qed.

Lemma lor_range n a b : 0 ≤ a < 2 ^ n → 0 ≤ b < 2 ^ n → 0 ≤ n → 0 ≤ Z.lor a b < 2 ^ n.
Proof.
  intros Ha Hb Hn. split; [apply Z.lor_nonneg; lia|].
  destruct (decide (Z.lor a b = 0)) as [->|H]; [lia|]. apply Z.log2_lt_pow2.
  - assert (0 ≤ Z.lor a b) by (apply Z.lor_nonneg; lia). lia.
  - rewrite Z.log2_lor by lia. apply Z.max_lub_lt.
    + destruct (decide (a = 0)) as [->|]; [|apply Z.log2_lt_pow2; lia]. change (Z.log2 0) with 0.
      destruct (decide (n = 0)) as [->|]; [|lia]. simpl in Ha, Hb. assert (b = 0) as -> by lia. done.
    + destruct (decide (b = 0)) as [->|]; [|apply Z.log2_lt_pow2; lia]. change (Z.log2 0) with 0.
      destruct (decide (n = 0)) as [->|]; [|lia]. simpl in Ha, Hb. assert (a = 0) as -> by lia. done.
Qed.

Lemma shift1_range i m : shift1 i = Some m → 0 ≤ m < 2 ^ 32.
Proof.
  unfold shift1. case_match eqn:E; [|done]. apply andb_true_iff in E as [H1 H2].
  apply Z.leb_le in H1, H2. intros [= <-]. rewrite Z.shiftl_1_l.
  split; [lia|]. apply Z.pow_lt_mono_r; lia.
Qed.

Lemma ts_range_range fuel i stop m m' : 0 ≤ m < 2 ^ 32 → ts_range fuel i stop m = Some m' → 0 ≤ m' < 2 ^ 32.
Proof.
  revert i m. induction fuel as [|fuel IH]; intros i m Hm; cbn [ts_range]; (case_match; [by intros [= <-]|]);
    [done|]. destruct (shift1 i) as [b|] eqn:E; [|done]. apply shift1_range in E. cbn [mbind option_bind].
  apply IH. by apply lor_range.
Qed.

Lemma timeslot_loop_range fuel ptr f ts st m m' :
  0 ≤ m < 2 ^ 32 → timeslot_loop fuel ptr f ts st m = Some m' → 0 ≤ m' < 2 ^ 32.
Proof.
  assert (∀ a b c r, get_ts_map a b c = Some r → 0 ≤ r < 2 ^ 32) as Hmap.
  { intros a b c r. unfold get_ts_map. case_match; [by intros [= <-]|].
    case_match; [by apply ts_range_range|apply shift1_range]. }
  revert ptr f ts st m. induction fuel as [|fuel IH]; intros ptr f ts st m Hm; cbn [timeslot_loop];
    (destruct ptr as [|c ptr]; [done|]); [done|].
  case_match; [case_match; [|by intros [= <-]]|case_match; [|case_match]].
  - destruct (get_ts_map f st ts) as [r|] eqn:E; [|done]. intros [= <-]. apply lor_range; eauto; lia.
  - destruct (strtoul (c :: ptr) 10) as [[[v ep] e]|]; [|done]. cbn [mbind option_bind]. by apply IH.
  - by apply IH.
  - destruct (get_ts_map f st ts) as [r|] eqn:E; [|done]. cbn [mbind option_bind]. apply IH.
    apply lor_range; eauto; lia.
Qed.

Lemma timeslot_map_range s m : timeslot_map s = Some m → in_u64 m.
Proof.
  unfold timeslot_map. case_match; [intros [= <-]; done|]. intros Hr%timeslot_loop_range; [|lia].
  unfold in_u64. lia.
Qed.
#[export] Hint Resolve timeslot_map_range : fits.

Lemma prefix_octets_len n len : length (prefix_octets n len) = n.
Proof.
  revert len. induction n as [|n IH]; intros len; [done|]. cbn [prefix_octets].
  case_match; cbn [length]; by rewrite IH.
Qed.

Lemma prefix_mask_len n len : length (prefix_mask n len) = n.
Proof. unfold prefix_mask. case_match; [apply length_replicate|apply prefix_octets_len]. Qed.

Lemma get_string_loop_len hex sep len n val v bs :
  get_string_loop hex sep len n val = GS_ok v bs → n ≤ len → n + Zlen bs ≤ len.
Proof.
  revert n v bs. induction val as [val IH] using (induction_ltof1 _ (@length ascii)). unfold ltof in IH.
  assert (∀ val' n v bs b, (length val' < length val)%nat →
    (if len <? n then GS_too_long else if len =? n then GS_undef
     else match get_string_loop hex sep len (n + 1) val' with
          | GS_ok v bs => GS_ok v (byte.of_Z b :: bs) | _ => get_string_loop hex sep len (n + 1) val' end)
    = GS_ok v bs →
    n ≤ len → n + Zlen bs ≤ len) as Hput.
  { intros val' n v bs b Hl. destruct (Z.ltb_spec len n); [done|]. destruct (Z.eqb_spec len n); [done|].
    destruct (get_string_loop hex sep len (n + 1) val') as [v' bs'| | |] eqn:E; [|done..].
    intros [= <- <-] Hn. rewrite Zlen_cons. specialize (IH val' Hl _ _ _ E). lia. }
  intros n v bs. destruct val as [|c val]; [done|]. cbn [get_string_loop].
  case_match; [intros [= <- <-]; unfold Zlen; simpl; lia|].
  case_match; [intros [= <- <-]; unfold Zlen; simpl; lia|].
  destruct hex.
  - case_match; [done|]. destruct val as [|c2 val]; [done|]. case_match; [done|].
    apply Hput. simpl. lia.
  - case_match; [destruct val as [|c2 val]; [done|]; case_match|]; apply Hput; simpl; lia.
Qed.

Lemma get_string_len val sep len v bs :
  0 ≤ len → get_string_s val sep len = GS_ok v bs → Zlen bs ≤ len.
Proof.
  intros Hl. unfold get_string_s. destruct val as [|c val]; [done|].
  case_match; [destruct val as [|x val]; [done|]; case_match|]; intros Hr%get_string_loop_len; lia.
Qed.

Lemma padded_len n bs : Zlen bs ≤ n → Zlen (padded n bs) = n.
Proof. intros H. unfold padded, zeros, Zlen in *. rewrite length_app, length_replicate. lia. Qed.

Lemma ldiff_range n a b : 0 ≤ a < 2 ^ n → 0 ≤ Z.ldiff a b < 2 ^ n.
Proof.
  intros Ha. assert (0 ≤ Z.ldiff a b ≤ a); [|lia]. apply Z.ldiff_le; [lia|].
  apply Z.bits_inj'. intros i _. rewrite !Z.ldiff_spec, Z.bits_0. by destruct (Z.testbit a i), (Z.testbit b i).
Qed.

Lemma i16_fits z : in_i16 (i16 z).
Proof. unfold in_i16, i16, sx. pose proof (Z.mod_pos_bound (z + 2 ^ (16 - 1)) (2 ^ 16)). lia. Qed.

(** Values of the tables of names. *)
Lemma table_find_in (P : Z → Prop) tbl s v : Forall (λ r, P r.2) tbl → table_find tbl s = Some v → P v.
Proof.
  induction 1 as [|[n x] tbl Hx _ IH]; [done|]. cbn [table_find]. case_match; [by intros [= <-]|done].
Qed.

Lemma find_case_in names val i j : find_case names val i = Some j → i ≤ j < i + Zlen names.
Proof.
  revert i. induction names as [|n names IH]; intros i; [done|]. cbn [find_case]. rewrite Zlen_cons.
  pose proof (Zlen_nonneg names). case_match; [intros [= <-]; lia|intros Hr%IH; lia].
Qed.

Lemma opt_bits_in lookup val v n :
  0 ≤ n → (∀ s b, lookup s = Some b → 0 ≤ b < 2 ^ n) → opt_bits lookup val = Some v → 0 ≤ v < 2 ^ n.
Proof.
  intros Hn Hl. unfold opt_bits. revert v. induction (tokens _ _) as [|w ws IH]; intros v; cbn [foldr].
  - intros [= <-]. lia.
  - destruct (lookup _) as [b|] eqn:Eb; [|done]. cbn [mbind option_bind].
    destruct (foldr _ _ ws) as [a|]; [|done]. intros [= <-]. apply lor_range; eauto.
Qed.

Lemma wpaproto_in s b : wpaproto s = Some b → 0 ≤ b < 2 ^ 32.
Proof. unfold wpaproto. repeat case_match; [intros [= <-]..|]; done. Qed.
Lemma wpaakm_in s b : wpaakm s = Some b → 0 ≤ b < 2 ^ 32.
Proof. unfold wpaakm. repeat case_match; [intros [= <-]..|]; done. Qed.
Lemma getwpacipher_in s : 0 ≤ getwpacipher s < 2 ^ 32.
Proof. unfold getwpacipher, ciphers. cbn [cipher_loop]. repeat case_match; done. Qed.
Lemma wpacipher_in s b : wpacipher s = Some b → 0 ≤ b < 2 ^ 32.
Proof.
  unfold wpacipher. case_match; [done|]. intros [= <-]. apply getwpacipher_in.
Qed.

Lemma sscanf_u_u_in sep s a b : sscanf_u_u sep s = Some (a, b) → in_u32 a ∧ in_u32 b.
Proof.
  assert (∀ l v r, scan_u l = Some (v, r) → in_u32 v) as Hs.
  { intros l v r. unfold scan_u. destruct (match scan_skip l with [] => _ | _ :: _ => _ end) as [[neg sg] l'].
    destruct (span_digits_z _ _) as [[|d ds] r']; [done|]. intros [= <- _]. apply u32_fits. }
  unfold sscanf_u_u. destruct (scan_u (bytes s)) as [[x [|c r]]|] eqn:E1; [done| |done].
  case_match; [|done]. destruct (scan_u r) as [[y r']|] eqn:E2; [|done]. intros [= <- <-].
  split; by eapply Hs.
Qed.

Lemma carp_nodes_in toks room nodes :
  carp_nodes_loop toks room = Some nodes →
  (length nodes ≤ room)%nat ∧ Forall (λ n, in_u8 n.1 ∧ in_u8 n.2) nodes.
Proof.
  revert room nodes. induction toks as [|str toks IH]; intros room nodes; cbn [carp_nodes_loop].
  { intros [= <-]. split; [simpl; lia|done]. }
  destruct room as [|room]; [done|]. destruct (sscanf_u_u _ _) as [[vhid advskew]|] eqn:E; [|done].
  apply sscanf_u_u_in in E as [Ha Hb]. cbn [mbind option_bind].
  destruct (Z.leb_spec 255 vhid); [done|]. destruct (Z.leb_spec 255 advskew); [done|]. cbn [orb].
  destruct (carp_nodes_loop toks room) as [r|] eqn:Er; [|done]. intros [= <-].
  apply IH in Er as [Hr1 Hr2]. unfold in_u32, in_u8 in *. cbn [mbind option_bind length]. split; [lia|].
  constructor; [cbn; lia|done].
Qed.

Lemma pad_nodes_ok l :
  (length l ≤ 32)%nat → Forall in_u8 l → length (pad_nodes l) = 32%nat ∧ Forall in_u8 (pad_nodes l).
Proof.
  intros Hl Hf. unfold pad_nodes, CARP_MAXNODES. split; [rewrite length_app, length_replicate; lia|].
  apply list.Forall_app. split; [done|]. by apply list.Forall_replicate.
Qed.

Ltac head_fn t := lazymatch t with ?f _ => head_fn f | _ => t end.

(** Take the structures of a request apart. *)
Ltac open_fits :=
  cbn [fits] in *;
  unfold with_data, bssid_ok, nwid_ok, nwkey_ok, wpaparams_ok, wpapsk_ok, chanreq_ok, txpower_ok,
    power_ok, ifmediareq_ok, vlanreq_ok, pfsyncreq_ok, pflowreq_ok, pppoediscparms_ok, sauthreq_ok,
    reqport_ok, reqall_ok, laddrreq_ok, ifbreq_ok, param_set, ifbareq_ok, ifbaconf_ok, ifbrlconf_ok,
    rln_ok, ifgroupreq_ok, session_ok, ifkalivereq_ok, if_clonereq_ok, ifbifconf_ok, ifbropreq_ok,
    param_ok, nodereq_ok, nodereq_all_ok, ifgmembreq_ok in *;
  cbn [fst snd] in *; destruct_and?.

(** The values of the named constants in the bounds of a parsed number. *)
Ltac named_bounds :=
  repeat match goal with
         | H : _ ≤ ?c |- _ => is_const c; let v := eval vm_compute in c in change c with v in H
         | H : _ ≤ _ ≤ ?c |- _ => is_const c; let v := eval vm_compute in c in change c with v in H
         end.

Ltac fit :=
  open_fits; cbn; split_and?;
  try solve [ done | assumption | eauto 3 with fits
            | unfold in_int, in_u8, in_u16, in_u32, in_u64, in_i16, Zlen in *; cbn in *; named_bounds; lia ].

(** A store in the global ifr, and what a request made of it. *)
Ltac fit_ifr :=
  cbn [fits];
  first [ intros ? (? & ? & ? & ? & ? & ?); solve [eauto 3 with fits] | intros; first [done | by apply ifreq_set_ok] ].

(** A change of the globals. *)
Ltac glob_fit :=
  let g := fresh "g" in
  intros g (? & ? & ? & ? & ? & ?); open_fits; unfold glob_ok; cbn;
  split_and?; try solve [done | assumption | eauto 4 with fits].

Ltac keeps_step :=
  lazymatch goal with
  | |- keeps (mbind _ ?m) _ =>
      lazymatch m with
      | mret _ => apply keeps_ret_bind
      | err => apply keeps_stop_bind
      | undef => apply keeps_stop_bind
      | mbind _ _ => apply keeps_assoc
      | fmap _ _ => apply keeps_fmap_bind
      | if ?b then _ else _ => destruct b eqn:?
      | match ?x with _ => _ end => destruct x eqn:?
      | let x := _ in _ => cbv zeta
      | gets _ => eapply keeps_bind; [apply keeps_gets|intros ? (? & (? & ? & ? & ? & ? & ?) & ->)]
      | modify _ =>
          lazymatch goal with
          | |- keeps (mbind (λ _, mbind _ (ioctl_ifr ?c)) (modify _)) _ =>
              apply keeps_unassoc; eapply keeps_bind; [apply (keeps_store_ioctl c); [fit_ifr..]|intros ? _]
          | _ => eapply keeps_bind; [apply keeps_modify; glob_fit|intros ? _]
          end
      | ioctl_ifr _ => eapply keeps_bind; [by apply keeps_ioctl_ifr|intros ? _]
      | ioctl_data _ _ => eapply keeps_bind; [eapply keeps_ioctl_data; [intros; cbn [fits]; reflexivity|fit]|intros [??] ?]
      | ioctl _ _ => eapply keeps_bind; [apply keeps_ioctl; fit|intros [??] ?; cbn [snd] in *]
      | _ => first [ eapply keeps_bind; [solve [eauto with fits nocore]|intros ? ?]
                   | let h := head_fn m in unfold h ]
      end
  | |- keeps (if ?b then _ else _) _ => destruct b eqn:?
  | |- keeps (match ?x with _ => _ end) _ => destruct x eqn:?
  | |- keeps (let x := _ in _) _ => cbv zeta
  | |- keeps (mret _) _ => apply keeps_ret
  | |- keeps (fmap _ _) _ => apply keeps_fmap
  | |- keeps err _ => apply keeps_err
  | |- keeps undef _ => apply keeps_undef
  | |- keeps (stopM _) _ => apply keeps_stop
  | |- keeps (modify _) _ => apply keeps_modify; glob_fit
  | |- keeps (ioctl _ _) _ => eapply keeps_mono; [apply keeps_ioctl; fit|]
  | |- keeps ?m _ =>
      first [ solve [eapply keeps_mono; [solve [eauto with fits nocore]|intros; first [done | solve [fit]]]]
            | let h := head_fn m in unfold h ]
  end; cbv beta in *.
Ltac keeps := repeat keeps_step; try done.

Section handlers.
Context {K : Kernel} {LB : Libs} {TK : TypedKernel K} {TL : TypedLibs LB}.


(** ** Addresses *)

Lemma keeps_sin_poke which off bs : Z.of_nat off + Zlen bs ≤ 16 → keeps (sin_poke which off bs) (λ _, True).
Proof.
  intros H. apply keeps_modify. intros g (Hk & Hi & Hr & (Ha & H1 & H2 & H3) & Hc).
  pose proof Hr as (Hn & b & Hb & Hl). unfold sintab, set_sintab. rewrite Hb. cbn [default from_option].
  unfold glob_ok. destruct (which =? RIDADDR); [|destruct (which =? ADDR); [|destruct (which =? MASK)]];
    cbn; (split_and!; [done|done| | |by apply Hc|by apply Hc]); try done;
    try (repeat split; cbn; try done; by apply poke_len).
  split; [done|]. eexists. split; [reflexivity|by apply poke_len].
Qed.

Lemma keeps_sin_header which : keeps (sin_header which) (λ _, True).
Proof.
  unfold sin_header. eapply keeps_bind; [by apply keeps_sin_poke|intros _ _].
  case_match; [by apply keeps_sin_poke|by apply keeps_ret].
Qed.

Lemma keeps_getprefix s which : keeps (in_getprefix s which) (λ _, True).
Proof.
  unfold in_getprefix. eapply keeps_bind; [apply keeps_strtonum|intros n Hn].
  eapply keeps_bind; [apply keeps_sin_header|intros _ _].
  apply keeps_sin_poke. unfold Zlen. rewrite prefix_mask_len. lia.
Qed.

Lemma keeps_plain s which : keeps (in_getaddr_plain s which) (λ _, True).
Proof using TL.
  unfold in_getaddr_plain. eapply keeps_bind; [apply keeps_need|intros r _].
  assert (∀ v, keeps (sin_poke which 4 (be32 v)) (λ _, True)) as Hp.
  { intros v. apply keeps_sin_poke. unfold be32, Zlen. rewrite length_rev, length_le_split. lia. }
  destruct r; [done|]. destruct (gethostbyname s) as [h|] eqn:E.
  - apply keeps_sin_poke. apply host_four in E. unfold Zlen. lia.
  - destruct (getnetbyname s); [done|apply keeps_err].
Qed.

Lemma keeps_in_getaddr s which : keeps (in_getaddr s which) (λ _, True).
Proof using TL.
  unfold in_getaddr. eapply keeps_bind; [apply keeps_sin_header|intros _ _].
  eapply keeps_bind; [apply keeps_need|intros slash _].
  case_match; [|apply keeps_plain]. eapply keeps_bind; [apply keeps_need|intros r Hr].
  destruct r as [[bits octets]|]; [|apply keeps_plain].
  eapply keeps_bind; [apply keeps_getprefix|intros _ _]. apply keeps_sin_poke.
  apply inet_net_pton_len in Hr. unfold Zlen. rewrite length_map, Hr. done.
Qed.

Lemma keeps_sat_poke off bs : Z.of_nat off + Zlen bs ≤ 16 → keeps (sat_poke off bs) (λ _, True).
Proof.
  intros H. apply keeps_modify. intros g (Hk & Hi & Hr & Ha & (Hn & H1 & H2 & H3) & H6).
  split_and!; try done. split_and!; try done. by apply poke_len.
Qed.

Lemma keeps_at_getaddr s which : keeps (at_getaddr s which) (λ _, True).
Proof.
  unfold at_getaddr. eapply keeps_bind; [by apply keeps_sat_poke|intros _ _].
  eapply keeps_bind; [by apply keeps_sat_poke|intros _ _]. case_match; [apply keeps_err|].
  destruct (sscanf_u_u "."%char s) as [[net node]|]; [|apply keeps_err]. case_match; [apply keeps_err|].
  eapply keeps_bind; [apply keeps_sat_poke|intros _ _; by apply keeps_sat_poke].
  unfold be16, Zlen. rewrite length_rev, length_le_split. lia.
Qed.

(** The globals for INET6. *)
Lemma set_ifr6_ok r g : glob_ok g → ifreq6_ok r → glob_ok (set_ifr6 r g).
Proof. intros (Hk & Hi & Hr & Ha & Hc & H1 & H2 & H3) H. by split_and!. Qed.
Lemma set_in6_ridreq_ok r g : glob_ok g → ifreq6_ok r → glob_ok (set_in6_ridreq r g).
Proof. intros (Hk & Hi & Hr & Ha & Hc & H1 & H2 & H3) H. by split_and!. Qed.
Lemma set_in6_addreq_ok q g : glob_ok g → aliasreq6_ok q → glob_ok (set_in6_addreq q g).
Proof. intros (Hk & Hi & Hr & Ha & Hc & H1 & H2 & H3) H. by split_and!. Qed.
Lemma in6_addreq_ok g : glob_ok g → aliasreq6_ok (g_in6_addreq (g_in6 g)).
Proof. by intros (_ & _ & _ & _ & _ & _ & _ & H). Qed.
Lemma in6_ridreq_ok g : glob_ok g → ifreq6_ok (g_in6_ridreq (g_in6 g)).
Proof. by intros (_ & _ & _ & _ & _ & _ & H & _). Qed.

Lemma keeps_sin6_poke which off bs : (off + length bs ≤ 28)%nat → keeps (sin6_poke which off bs) (λ _, True).
Proof.
  intros H. apply keeps_modify. intros g Hg. pose proof (in6_ridreq_ok g Hg) as Hr. pose proof Hr as [_ Hu].
  pose proof (in6_addreq_ok g Hg) as (Hq & H1 & H2 & H3 & H4 & H5).
  assert (length (ifr6_addr (g_in6_ridreq (g_in6 g))) = 28%nat) as H6.
  { unfold ifr6_addr. by rewrite length_take, Hu. }
  unfold sin6tab, set_sin6tab. cbv zeta. destruct (which =? RIDADDR).
  { apply set_in6_ridreq_ok, set_addr6_ok; [done..|]. rewrite length_poke; lia. }
  destruct (which =? ADDR); [|destruct (which =? MASK)]; (apply set_in6_addreq_ok; [done|]);
    refine (conj Hq (conj _ (conj _ (conj _ (conj H4 H5))))); cbn; rewrite ?length_poke; lia.
Qed.

Lemma keeps_in6_getprefix s which : keeps (in6_getprefix s which) (λ _, True).
Proof.
  unfold in6_getprefix. eapply keeps_bind; [apply keeps_strtonum|intros n Hn].
  eapply keeps_bind; [apply keeps_sin6_poke; cbn; lia|intros _ _].
  eapply keeps_bind; [case_match; [apply keeps_sin6_poke; cbn; lia|by apply keeps_ret]|intros _ _].
  apply keeps_sin6_poke. rewrite prefix_mask_len. lia.
Qed.

Lemma embed_scope_length sa : length sa = 28%nat → length (embed_scope sa) = 28%nat.
Proof.
  intros H. unfold embed_scope. case_match; [|done].
  assert (∀ v, length (be16 v) = 2%nat) as Hb by (intros; unfold be16; by rewrite length_rev, length_le_split).
  set (sa' := poke 10 _ sa). assert (length sa' = 28%nat) as H'.
  { unfold sa'. rewrite length_poke; [done|]. rewrite Hb. lia. }
  rewrite length_poke; [done|]. rewrite H'. done.
Qed.

Lemma keeps_in6_getaddr s which : keeps (in6_getaddr s which) (λ _, True).
Proof.
  unfold in6_getaddr. eapply keeps_bind; [apply keeps_need|intros slash _].
  eapply (keeps_bind _ _ (λ _, True)).
  - destruct slash; [|by apply keeps_ret]. case_match; [|by apply keeps_ret]. case_match; [apply keeps_err|].
    eapply keeps_bind; [apply keeps_in6_getprefix|intros _ _]. keeps.
  - intros h _. destruct (getaddrinfo _ _ _) as [sa|]; [|apply keeps_err].
    destruct (Z.eqb_spec (Zlen sa) SIZEOF_SIN6) as [E|]; [|apply keeps_err]. cbn [negb].
    apply keeps_sin6_poke. rewrite embed_scope_length; [lia|]. unfold Zlen, SIZEOF_SIN6 in E. lia.
Qed.

Lemma keeps_af_getaddr p s which : keeps (af_getaddr p s which) (λ _, True).
Proof using TL. destruct p; [apply keeps_in_getaddr|apply keeps_in6_getaddr|apply keeps_at_getaddr]. Qed.

Lemma keeps_alias_copy p : keeps (modify (notealias_copy p)) (λ _, True).
Proof.
  apply keeps_modify. intros g Hg. destruct p; cbn; [| |done].
  2: { pose proof (in6_addreq_ok g Hg) as (_ & Hl & _). apply set_in6_ridreq_ok, set_addr6_ok; [done..| |].
       - by apply in6_ridreq_ok.
       - unfold Ztake. rewrite length_take. lia. }
  destruct Hg as (Hk & Hi & (Hn & b & Hb & Hl) & Ha & Hc). split_and!; try apply Hc; try done.
  split; [done|]. eexists. split; [reflexivity|]. rewrite Hb. cbn [default from_option]. destruct Ha as (_ & H1 & _).
  apply poke_len; [done|]. unfold Ztake, Zlen in *. rewrite length_take. lia.
Qed.

Lemma keeps_send_metric c n what :
  (∀ r, fits c r ↔ ifreq_set r) → keeps (send_metric c n what) (λ _, True).
Proof.
  intros Hc. unfold send_metric. apply keeps_unassoc. eapply keeps_bind; [|intros; keeps].
  apply (keeps_store_ioctl c (λ g, set_ifr_metric (g_ifr g) n)).
  - intros g (_ & Hi & _). by apply Hc, set_metric_ok.
  - intros r Hr. by apply ifreq_set_ok, Hc.
Qed.

Lemma keeps_send_lladdr octets : length octets = 6%nat → keeps (send_lladdr octets) (λ _, True).
Proof.
  intros Hl. unfold send_lladdr. keeps_step. keeps_step. apply keeps_unassoc.
  eapply keeps_bind; [|intros; keeps].
  apply (keeps_store_ioctl SIOCSIFLLADDR (λ g, ifr_store (g_ifr g) (lladdr_bytes octets))).
  - intros g (_ & Hi & _). apply ifr_store_ok; [done|]. unfold lladdr_bytes, Zlen. cbn [length]. lia.
  - intros r Hr. by apply ifreq_set_ok.
Qed.

Lemma keeps_get_string val sep len :
  0 ≤ len → keeps (get_string val sep len) (if_set (λ r, Zlen r.2 ≤ len)).
Proof.
  intros Hl. unfold get_string. destruct (get_string_s val sep len) eqn:E; keeps.
  cbn. by eapply get_string_len.
Qed.

#[local] Hint Extern 2 (keeps (get_string _ _ _) _) => apply keeps_get_string; done : fits.
#[local] Hint Extern 2 (Zlen (padded _ _) = _) => apply padded_len; cbn in *; (done || lia) : fits.
#[local] Hint Extern 2 (∀ r, fits _ r ↔ _) => reflexivity : fits.
#[local] Hint Resolve keeps_sin_poke keeps_sin_header keeps_getprefix keeps_plain keeps_in_getaddr : fits.
#[local] Hint Resolve keeps_in6_getprefix keeps_in6_getaddr : fits.
#[local] Hint Resolve keeps_at_getaddr keeps_af_getaddr keeps_alias_copy keeps_send_metric keeps_send_lladdr : fits.

(** ** Wireless *)

Lemma keeps_with_wpa f : (∀ w, wpaparams_ok w → wpaparams_ok (f w)) → keeps (with_wpa f) (λ _, True).
Proof.
  intros Hf. unfold with_wpa. do 3 keeps_step; [keeps|].
  eapply keeps_bind; [by apply keeps_ioctl, Hf|]. intros [??] _. keeps.
Qed.

Lemma keeps_opt_list lookup val :
  (∀ s b, lookup s = Some b → 0 ≤ b < 2 ^ 32) → keeps (opt_list lookup val) in_u32.
Proof.
  intros Hl. unfold opt_list. keeps. by eapply (opt_bits_in lookup _ _ 32).
Qed.

Lemma keeps_setifnwid val d : keeps (setifnwid val d) (λ _, True).
Proof.
  unfold setifnwid. eapply (keeps_bind _ _ (if_set (λ bs, Zlen bs ≤ 32))).
  - case_match; [by apply keeps_ret|]. keeps. by destruct a0 as [[v bs]|].
  - intros [bs|] Hb; [|keeps]. cbn in Hb. pose proof (Zlen_nonneg bs). keeps.
Qed.

Lemma keeps_setifbssid val d : keeps (setifbssid val d) (λ _, True).
Proof.
  unfold setifbssid. eapply (keeps_bind _ _ (if_set (λ bs, Zlen bs = 6))).
  - case_match; [by apply keeps_ret|]. keeps. match goal with H : ether_aton _ = Some ?a |- _ =>
      apply ether_aton_len in H; by destruct a end.
  - intros [bs|] Hb; [|keeps]. cbn in Hb. keeps.
Qed.

Definition key_ok (k : Z * list byte) : Prop := in_int k.1 ∧ (k.2 = [] ∨ Zlen k.2 = 16).

Lemma padded_key_ok bs : Zlen bs ≤ 16 → key_ok (Zlen bs, padded 16 bs).
Proof.
  intros H. split; [unfold in_int; pose proof (Zlen_nonneg bs); cbn; lia|right; by apply padded_len].
Qed.

Lemma empty_key_ok n : in_int n → key_ok (n, []).
Proof. intros H. split; [done|by left]. Qed.

Lemma keeps_nwkey_keys n val :
  keeps (nwkey_keys n val) (if_set (λ r, length r.2 = n ∧ Forall key_ok r.2)).
Proof.
  revert val. induction n as [|n IH]; intros val; cbn [nwkey_keys]; [by apply keeps_ret|].
  eapply keeps_bind; [by apply keeps_get_string|]. intros [[v bs]|] Hb; [|by apply keeps_ret].
  eapply keeps_bind; [apply IH|]. intros [[v' ks]|] Hk; [|by apply keeps_ret]. apply keeps_ret.
  cbn in *. destruct Hk as [Hk1 Hk2]. split; [lia|]. constructor; [by apply padded_key_ok|done].
Qed.

Lemma keeps_nwkey_set val :
  keeps (nwkey_set val) (if_set (λ r, in_int r.1 ∧ length r.2 = 4%nat ∧ Forall key_ok r.2)).
Proof.
  unfold nwkey_set. keeps_step. eapply (keeps_bind _ _ (λ _, True)); [keeps|]. intros [] _.
  - eapply keeps_bind; [apply keeps_nwkey_keys|]. intros [[v ks]|] Hk; [|by apply keeps_ret]. keeps.
    cbn in *. split; [|done]. unfold in_int. match goal with |- context [uch ?c] => pose proof (uch_range c) end. lia.
  - eapply keeps_bind; [by apply keeps_get_string|]. intros [[v bs]|] Hb; [|by apply keeps_ret]. keeps.
    cbn [if_set fst snd length replicate] in *. split_and!; [done..|].
    constructor; [by apply padded_key_ok|]. by apply (Forall_replicate key_ok 3 no_key), empty_key_ok.
Qed.

Lemma keeps_setifnwkey val d : keeps (setifnwkey val d) (λ _, True).
Proof.
  unfold setifnwkey.
  eapply (keeps_bind _ _ (if_set (λ r, in_int r.1.1 ∧ in_int r.1.2 ∧ length r.2 = 4%nat ∧ Forall key_ok r.2))).
  - case_match; [apply keeps_ret; split_and!; [done..|]; by apply Forall_replicate, empty_key_ok|]. keeps_step.
    cbv zeta. case_match; [apply keeps_ret; split_and!; [done..|]; by apply Forall_replicate, empty_key_ok|].
    case_match; (eapply keeps_bind; [apply keeps_nwkey_set|]);
      (intros [[kid ks]|] Hk; apply keeps_ret; [|done]; split; [done|apply Hk]).
  - intros [[[w kid] ks]|] Hk; [|keeps]. cbn in Hk. destruct Hk as (? & ? & ? & ?). keeps.
Qed.

Lemma keeps_setifwpa val d : in_int d → keeps (setifwpa val d) (λ _, True).
Proof. intros Hd. apply keeps_with_wpa. intros w Hw. fit. Qed.
Lemma keeps_setifwpaprotos val d : keeps (setifwpaprotos val d) (λ _, True).
Proof.
  eapply keeps_bind; [apply keeps_opt_list, wpaproto_in|]. intros v Hv. apply keeps_with_wpa. intros w Hw. fit.
Qed.
Lemma keeps_setifwpaakms val d : keeps (setifwpaakms val d) (λ _, True).
Proof.
  eapply keeps_bind; [apply keeps_opt_list, wpaakm_in|]. intros v Hv. apply keeps_with_wpa. intros w Hw. fit.
Qed.
Lemma keeps_setifwpaciphers val d : keeps (setifwpaciphers val d) (λ _, True).
Proof.
  eapply keeps_bind; [apply keeps_opt_list, wpacipher_in|]. intros v Hv. apply keeps_with_wpa. intros w Hw. fit.
Qed.
Lemma keeps_setifwpagroupcipher val d : keeps (setifwpagroupcipher val d) (λ _, True).
Proof.
  unfold setifwpagroupcipher. do 2 keeps_step; [keeps|]. apply keeps_with_wpa. intros w Hw. fit.
  apply getwpacipher_in.
Qed.

Lemma keeps_pbkdf2 pass salt : keeps (in_env (pkcs5_pbkdf2 (zeros 64) pass salt 32 4096)) (λ r, r.1 = 0 → Zlen r.2 = 32).
Proof.
  intros g Hg. split; [by apply (keeps_env _ _ Hg)|]. unfold in_env, zoom.
  destruct (pkcs5_pbkdf2 _ _ _ _ _ _) as [[[z key]|w] c] eqn:E; [|done]. cbn. intros ->.
  apply pbkdf2_length in E; [|done..]. unfold Zlen. lia.
Qed.

Lemma keeps_wpakey_psk val nwid : keeps (wpakey_psk (zeros 64) val nwid) (λ k, Zlen k = 32).
Proof.
  unfold wpakey_psk. cbv zeta. case_match.
  - eapply keeps_bind; [by apply keeps_get_string|]. intros [[v bs]|] _; [|keeps].
    destruct (Z.eqb_spec (Zlen bs) WPA_PSK_LEN); [by apply keeps_ret|keeps].
  - do 3 (case_match; [keeps|]). eapply keeps_bind; [apply keeps_pbkdf2|]. intros [z k] Hk.
    destruct (Z.eqb_spec z 0); [|keeps]. by apply keeps_ret, Hk.
Qed.

#[local] Hint Extern 2 (keeps (with_wpa _) _) => apply keeps_with_wpa; intros; fit : fits.
#[local] Hint Resolve keeps_wpakey_psk : fits.

Lemma keeps_setifwpakey val d : keeps (setifwpakey val d) (λ _, True).
Proof.
  unfold setifwpakey, setifwpakey_stk.
  eapply (keeps_bind _ _ (λ r, in_int r.1 ∧ Zlen r.2 = 32)); [keeps|]. intros [e k] [??]. keeps.
Qed.

Lemma keeps_setifpowersave val d : keeps (setifpowersave val d) (λ _, True).
Proof.
  unfold setifpowersave. do 3 keeps_step; [keeps|].
  assert (in_int (if d =? -1 then 0 else 1)) by by case_match.
  eapply (keeps_bind _ _ (if_set in_int)); [keeps; fit|]. intros m Hm. keeps.
Qed.

#[local] Hint Resolve i16_fits : fits.
#[local] Hint Resolve keeps_setifnwid keeps_setifbssid keeps_setifnwkey keeps_setifwpaprotos keeps_setifwpaakms : fits.
#[local] Hint Resolve keeps_setifwpaciphers keeps_setifwpagroupcipher keeps_setifwpakey keeps_setifpowersave : fits.

(** ** Cloners, groups and link-level addresses *)

Lemma keeps_group_request n : keeps (group_request n) ifgroupreq_ok.
Proof.
  unfold group_request. keeps_step. keeps_step; [keeps|].
  pose proof (strlcpy_chars n IFNAMSIZ eq_refl) as Hc. destruct (strlcpy_s n IFNAMSIZ) as [s l].
  keeps_step; [keeps|]. apply keeps_ret. fit.
Qed.

Lemma keeps_setifgroup val d : keeps (setifgroup val d) (λ _, True).
Proof.
  unfold setifgroup. keeps_step. eapply keeps_bind; [apply keeps_group_request|]. intros r Hr.
  eapply keeps_bind; [by apply keeps_ioctl|]. intros [z x] _. keeps.
Qed.
Lemma keeps_unsetifgroup val d : keeps (unsetifgroup val d) (λ _, True).
Proof.
  unfold unsetifgroup. keeps_step. eapply keeps_bind; [apply keeps_group_request|]. intros r Hr.
  eapply keeps_bind; [by apply keeps_ioctl|]. intros [z x] _. keeps.
Qed.

Lemma keeps_setiflladdr val d : keeps (setiflladdr val d) (λ _, True).
Proof.
  unfold setiflladdr. keeps_step. case_match.
  - eapply keeps_bind; [apply keeps_random|]. intros [|b bs] Hb; [keeps|]. by apply keeps_send_lladdr.
  - eapply keeps_bind; [apply keeps_need|]. intros [os|] Ho; [|keeps].
    apply ether_aton_len in Ho. cbn in Ho. apply keeps_send_lladdr. unfold Zlen in Ho. lia.
Qed.

(** ** Cluster interfaces *)

Lemma carp_zero_ok : carpreq_ok carp_zero.
Proof. repeat split; try done; by apply Forall_replicate. Qed.

Lemma keeps_with_carp f : (∀ c, carpreq_ok c → keeps (f c) carpreq_ok) → keeps (with_carp f) (λ _, True).
Proof.
  intros Hf. unfold with_carp.
  eapply keeps_bind; [eapply (keeps_ioctl_data SIOCGVH carpreq_ok), carp_zero_ok; intros; reflexivity|].
  intros [z c] Hc. keeps_step; [keeps|]. eapply keeps_bind; [by apply Hf|]. intros c' Hc'.
  eapply keeps_bind; [eapply (keeps_ioctl_data SIOCSVH carpreq_ok), Hc'; intros; reflexivity|].
  intros [z' ?] _. keeps.
Qed.

Lemma set_nodes_ok vs ss c :
  carpreq_ok c → length vs = 32%nat ∧ Forall in_u8 vs → length ss = 32%nat ∧ Forall in_u8 ss →
  carpreq_ok (set_nodes vs ss c).
Proof. unfold carpreq_ok. cbn. tauto. Qed.

Lemma insert_nodes_ok i v (l : list Z) :
  in_u8 v → length l = 32%nat ∧ Forall in_u8 l → length (<[i := v]> l) = 32%nat ∧ Forall in_u8 (<[i := v]> l).
Proof. intros Hv [Hl Hf]. split; [by rewrite length_insert|]. by apply Forall_insert. Qed.

Lemma carp_vhids_ok c : carpreq_ok c → length (carpr_vhids c) = 32%nat ∧ Forall in_u8 (carpr_vhids c).
Proof. unfold carpreq_ok. tauto. Qed.
Lemma carp_advskews_ok c : carpreq_ok c → length (carpr_advskews c) = 32%nat ∧ Forall in_u8 (carpr_advskews c).
Proof. unfold carpreq_ok. tauto. Qed.

Ltac carp_fit := unfold carpreq_ok in *; cbn; destruct_and?; split_and!; try done; eauto with fits.

Lemma keeps_setcarpdev val d : keeps (setcarpdev val d) (λ _, True).
Proof. apply keeps_with_carp; intros c Hc; keeps; carp_fit. Qed.
Lemma keeps_unsetcarpdev val d : keeps (unsetcarpdev val d) (λ _, True).
Proof. apply keeps_with_carp; intros c Hc; keeps; carp_fit. Qed.
Lemma keeps_setcarppeer val d : keeps (setcarppeer val d) (λ _, True).
Proof. apply keeps_with_carp; intros c Hc; keeps; carp_fit. Qed.
Lemma keeps_unsetcarppeer val d : keeps (unsetcarppeer val d) (λ _, True).
Proof. apply keeps_with_carp; intros c Hc; keeps; carp_fit. Qed.
Lemma keeps_setcarp_passwd val d : keeps (setcarp_passwd val d) (λ _, True).
Proof.
  apply keeps_with_carp; intros c Hc. keeps. carp_fit.
  pose proof (stake_len (Z.to_nat (CARP_KEY_LEN - 1)) a) as Hl. change (Z.of_nat _) with 19 in Hl. lia.
Qed.
Lemma keeps_setcarp_vhid val d : keeps (setcarp_vhid val d) (λ _, True).
Proof.
  unfold setcarp_vhid. do 2 keeps_step. apply keeps_with_carp. intros c Hc. apply keeps_ret, set_nodes_ok; [done| |].
  - apply insert_nodes_ok; [done|]. apply insert_nodes_ok; [unfold in_u8; lia|by apply carp_vhids_ok].
  - by apply carp_advskews_ok.
Qed.
Lemma keeps_setcarp_advskew val d : keeps (setcarp_advskew val d) (λ _, True).
Proof.
  unfold setcarp_advskew. do 2 keeps_step. apply keeps_with_carp. intros c Hc. apply keeps_ret, set_nodes_ok; [done| |].
  - by apply carp_vhids_ok.
  - apply insert_nodes_ok; [unfold in_u8; lia|by apply carp_advskews_ok].
Qed.
Lemma keeps_setcarp_advbase val d : keeps (setcarp_advbase val d) (λ _, True).
Proof.
  unfold setcarp_advbase. do 2 keeps_step. apply keeps_with_carp. intros c Hc. apply keeps_ret. carp_fit.
  unfold in_int. lia.
Qed.
Lemma keeps_setcarp_state val d : keeps (setcarp_state val d) (λ _, True).
Proof.
  apply keeps_with_carp; intros c Hc. keeps_step. apply keeps_ret.
  destruct (find_case carp_states a 0) as [i|] eqn:E; [|done]. apply find_case_in in E.
  change (Zlen carp_states) with 3 in E. carp_fit. unfold in_int. lia.
Qed.
Lemma keeps_setcarp_balancing val d : keeps (setcarp_balancing val d) (λ _, True).
Proof.
  apply keeps_with_carp; intros c Hc. keeps_step.
  destruct (find_case carp_bal_modes a 0) as [i|] eqn:E; [|keeps]. apply keeps_ret. apply find_case_in in E.
  change (Zlen carp_bal_modes) with 5 in E. carp_fit. unfold in_u8. lia.
Qed.
Lemma keeps_setcarp_nodes val d : keeps (setcarp_nodes val d) (λ _, True).
Proof.
  apply keeps_with_carp; intros c Hc. do 2 keeps_step. keeps_step; [keeps|].
  destruct (carp_nodes_loop _ _) as [nodes|] eqn:E; [|keeps]. apply keeps_ret.
  apply carp_nodes_in in E as [Hl Hf]. unfold CARP_MAXNODES in Hl.
  apply set_nodes_ok; [done|apply pad_nodes_ok..]; rewrite ?length_map; try done;
    apply List.Forall_map; (eapply list.Forall_impl; [done|]); by intros n [??].
Qed.

#[local] Hint Resolve keeps_setifgroup keeps_unsetifgroup keeps_setiflladdr keeps_setcarp_passwd : fits.
#[local] Hint Resolve keeps_setcarp_vhid keeps_setcarp_advskew keeps_setcarp_advbase keeps_setcarp_state : fits.
#[local] Hint Resolve keeps_setcarp_balancing keeps_setcarp_nodes : fits.
#[local] Hint Resolve keeps_setcarpdev keeps_unsetcarpdev keeps_setcarppeer keeps_unsetcarppeer : fits.

(** ** pppoe, sppp and trunks *)

Lemma keeps_pppoe_name val d : keeps (pppoe_name val d) (in_chars 512).
Proof. unfold pppoe_name. keeps. by apply (strlcpy_chars _ 512). Qed.

Lemma keeps_authinfo d : keeps (spppauthinfo d) sauthreq_ok.
Proof. unfold spppauthinfo. assert (in_int (if d =? 0 then SPPPIOGMAUTH else SPPPIOGHAUTH)) by by case_match. keeps. Qed.

Lemma set_auth_cmd_int d : in_int (set_auth_cmd d).
Proof. unfold set_auth_cmd. by case_match. Qed.

Lemma keeps_auth_string spa val : keeps (auth_string spa val) (in_chars 256).
Proof.
  unfold auth_string. keeps_step; [keeps|]. keeps_step. pose proof (strlcpy_chars a AUTHMAXLEN eq_refl) as Hc.
  destruct (strlcpy_s a AUTHMAXLEN) as [s n]. keeps.
Qed.

#[local] Hint Resolve keeps_pppoe_name keeps_authinfo set_auth_cmd_int keeps_auth_string : fits.

Lemma keeps_setspppproto val d : keeps (setspppproto val d) (λ _, True).
Proof.
  unfold setspppproto. keeps. fit. eapply (table_find_in in_u16); [|done]. by repeat constructor.
Qed.
Lemma keeps_setsppppeerflag val d : keeps (setsppppeerflag val d) (λ _, True).
Proof.
  unfold setsppppeerflag. do 2 keeps_step; [keeps|]. keeps_step.
  destruct (table_find _ a0) as [f|] eqn:E; [|keeps]. cbv zeta.
  assert (0 ≤ f < 2 ^ 16) as Hf by (eapply (table_find_in (λ f, 0 ≤ f < 2 ^ 16)); [|done]; by repeat constructor).
  assert (in_u16 (if negb (d =? 0) then Z.ldiff (spa_flags a) f else Z.lor (spa_flags a) f)).
  { destruct H as (_ & _ & H & _). case_match; [by apply (ldiff_range 16)|by apply (lor_range 16)]. }
  keeps.
Qed.
Lemma keeps_settrunkproto val d : keeps (settrunkproto val d) (λ _, True).
Proof.
  unfold settrunkproto. keeps. eapply (table_find_in in_u32); [|done]. by repeat constructor.
Qed.

Lemma keeps_setifnwflag val d : keeps (setifnwflag val d) (λ _, True).
Proof. unfold setifnwflag. keeps. Qed.

Lemma keeps_notealias val d : keeps (notealias val d) (λ _, True).
Proof.
  unfold notealias. do 2 keeps_step. eapply (keeps_bind _ _ (λ _, True)); [|intros; keeps].
  case_match; [|keeps]. do 2 keeps_step. apply keeps_alias_copy.
Qed.

#[local] Hint Resolve keeps_setspppproto keeps_setsppppeerflag keeps_settrunkproto keeps_setifnwflag keeps_notealias : fits.

(** ** Bridges *)

Lemma strtoul_loop_nonneg base cutoff cutlim s : ∀ c pos acc any e acc' any' pos' e',
  0 ≤ base → 0 ≤ acc →
  strtoul_loop base cutoff cutlim c s pos acc any e = Some (acc', any', pos', e') → 0 ≤ acc'.
Proof.
  induction s as [|c' s IH]; intros c pos acc any e acc' any' pos' e' Hb Ha; cbn [strtoul_loop];
    (destruct (digit_val c) as [d|] eqn:Ed; [|by intros [= <- _ _ _]]);
    (case_match; [by intros [= <- _ _ _]|]); apply digit_val_nonneg in Ed; [by repeat case_match|].
  repeat case_match; simplify_eq; apply IH; try done; nia.
Qed.

Lemma strtoul_arg_range s max v : strtoul_arg s max = Some (Some v) → 0 ≤ v ≤ max.
Proof.
  unfold strtoul_arg, strtoul. destruct (strtoll_sign (cmem s)) as [[[[neg c] s1] p1]|]; [|done].
  cbn [mbind option_bind]. destruct (strtoll_base c s1 p1 0) as [[[[c2 s2] p2] b]|] eqn:Eb; [|done].
  assert (0 ≤ b) as Hb.
  { revert Eb. unfold strtoll_base. repeat case_match; cbn [mbind option_bind]; intros [=]; subst; try done; by repeat case_match. }
  cbn [mbind option_bind]. destruct (strtoul_loop _ _ _ _ _ _ _ _ _) as [[[[acc any] p3] e]|] eqn:El; [|done].
  apply strtoul_loop_nonneg in El; [|done..]. cbn [mbind option_bind].
  destruct (cmem s !! _) as [x|]; [|done]. cbn [mbind option_bind].
  destruct (bool_decide _ || _ || (max <? _) || _) eqn:Et; [done|]. intros [= <-].
  apply orb_false_iff in Et as [[_ Et%Z.ltb_ge]%orb_false_iff _].
  split; [|done]. case_match; [apply u64_range|done].
Qed.

Lemma keeps_ulong_arg a max : keeps (ulong_arg a max) (λ v, 0 ≤ v ≤ max).
Proof.
  unfold ulong_arg. do 2 keeps_step. eapply keeps_bind; [apply keeps_need|].
  intros [v|] Hv; [|keeps]. apply keeps_ret. by eapply strtoul_arg_range.
Qed.

Lemma keeps_send_param c v (P : Z → Prop) :
  (∀ x, fits c x ↔ param_set P x) → P v → keeps (send_param c v) (λ _, True).
Proof.
  intros Hc Hv. unfold send_param. keeps_step. eapply keeps_bind; [apply keeps_ioctl, Hc|intros [??] _; keeps].
  split; [apply ifname_is_name|]. by exists v.
Qed.

Lemma keeps_send_ulong c a max (P : Z → Prop) :
  (∀ x, fits c x ↔ param_set P x) → (∀ v, 0 ≤ v ≤ max → P v) →
  keeps (v ← ulong_arg a max; send_param c v) (λ _, True).
Proof.
  intros Hc Hm. eapply keeps_bind; [apply keeps_ulong_arg|]. intros v Hv. eapply keeps_send_param; eauto.
Qed.

Ltac send_ulong := eapply keeps_send_ulong; [intros; cbn [fits]; reflexivity|unfold in_u8, in_u16, in_u32; lia].

Lemma keeps_bridge_maxage a d : keeps (bridge_maxage a d) (λ _, True).
Proof. send_ulong. Qed.
Lemma keeps_bridge_priority a d : keeps (bridge_priority a d) (λ _, True).
Proof. send_ulong. Qed.
Lemma keeps_bridge_fwddelay a d : keeps (bridge_fwddelay a d) (λ _, True).
Proof. send_ulong. Qed.
Lemma keeps_bridge_hellotime a d : keeps (bridge_hellotime a d) (λ _, True).
Proof. send_ulong. Qed.
Lemma keeps_bridge_maxaddr a d : keeps (bridge_maxaddr a d) (λ _, True).
Proof. send_ulong. Qed.
Lemma keeps_bridge_holdcnt a d : keeps (bridge_holdcnt a d) (λ _, True).
Proof.
  unfold bridge_holdcnt. do 2 keeps_step. eapply keeps_send_param; [intros; cbn [fits]; reflexivity|unfold in_u8; lia].
Qed.
Lemma keeps_bridge_timeout a d : keeps (bridge_timeout a d) (λ _, True).
Proof.
  unfold bridge_timeout. do 2 keeps_step. eapply keeps_bind; [apply keeps_need|]. intros [[n ep] e] _. keeps_step.
  destruct (_ || (n <? 0) || (INT_MAX <? n) || _) eqn:E; [keeps|].
  apply orb_false_iff in E as [[[_ E1%Z.ltb_ge]%orb_false_iff E2%Z.ltb_ge]%orb_false_iff _].
  eapply keeps_send_param; [intros; cbn [fits]; reflexivity|]. unfold in_int. change INT_MAX with 2147483647 in E2. lia.
Qed.

Lemma keeps_bridge_proto a d : keeps (bridge_proto a d) (λ _, True).
Proof.
  unfold bridge_proto. keeps_step. destruct (proto_index _ _ _) as [p|] eqn:E; [|keeps].
  eapply keeps_send_param; [intros; cbn [fits]; reflexivity|]. revert E. unfold stpproto. cbn [proto_index].
  repeat case_match; intros [= <-]; done.
Qed.

Lemma keeps_bridge_ifprio a b : keeps (bridge_ifprio a b) (λ _, True).
Proof.
  unfold bridge_ifprio. do 2 keeps_step. eapply keeps_bind; [apply keeps_ulong_arg|]. intros v Hv. keeps.
Qed.
Lemma keeps_bridge_ifcost a b : keeps (bridge_ifcost a b) (λ _, True).
Proof.
  unfold bridge_ifcost. do 2 keeps_step. eapply keeps_bind; [apply keeps_ulong_arg|]. intros v Hv. keeps.
Qed.

Lemma keeps_bridge_deladdr a d : keeps (bridge_deladdr a d) (λ _, True).
Proof.
  unfold bridge_deladdr. do 2 keeps_step. eapply keeps_bind; [apply keeps_need|]. intros [os|] Ho; [|keeps].
  apply ether_aton_len in Ho. cbn in Ho. keeps.
Qed.
Lemma keeps_bridge_addaddr a b : keeps (bridge_addaddr a b) (λ _, True).
Proof.
  unfold bridge_addaddr. do 3 keeps_step. eapply keeps_bind; [apply keeps_need|]. intros [os|] Ho; [|keeps].
  apply ether_aton_len in Ho. cbn in Ho. keeps.
Qed.

Lemma keeps_each {A} (f : A → GM unit) l : (∀ x, keeps (f x) (λ _, True)) → keeps (each f l) (λ _, True).
Proof.
  intros Hf. induction l as [|x l IH]; cbn [each]; [by apply keeps_ret|].
  eapply keeps_bind; [apply Hf|]. by intros _ _.
Qed.

Lemma keeps_grow {A} fuel size len (ask : Z → GM (option (Z * list A))) :
  (∀ n, 0 ≤ n ≤ INT_MAX → keeps (ask n) (λ _, True)) → 0 ≤ len ≤ INT_MAX →
  keeps (grow_loop fuel size len ask) (λ _, True).
Proof.
  intros Ha. revert len. induction fuel as [|fuel IH]; intros len Hl; cbn [grow_loop]; [apply keeps_stop|].
  keeps_step. keeps_step; [keeps|]. eapply keeps_bind; [by apply Ha|]. intros [[got l]|] _; [|keeps].
  keeps_step; [keeps|]. destruct (Z.ltb_spec INT_MAX (len * 2)); [keeps|]. apply IH. lia.
Qed.

(** The buffers the bridge answers in. *)
Ltac keeps_ask :=
  eapply keeps_bind;
    [ apply keeps_grow; [intros n Hn; assert (in_u32 n) by (change INT_MAX with 2147483647 in Hn; unfold in_u32; lia); keeps
                        |vm_compute; done]
    | intros [[??]|] _; [|by apply keeps_ret]; keeps_step; apply keeps_each; intros ?].

Lemma keeps_bridge_addrs a d : keeps (bridge_addrs a d) (λ _, True).
Proof. unfold bridge_addrs. do 2 keeps_step. keeps_ask. keeps. Qed.
Lemma keeps_bridge_rules a d : keeps (bridge_rules a d) (λ _, True).
Proof. unfold bridge_rules. do 2 keeps_step. keeps_ask. keeps. Qed.

Definition rule_ok (r : ruleres) : Prop := match r with Rule r => ifbrlreq_ok r | _ => True end.

Lemma rule_addr_ok arg k : (∀ a, Zlen a = 6 → rule_ok (k a)) → rule_ok (rule_addr arg k).
Proof.
  intros Hk. unfold rule_addr. destruct (ether_aton _) as [[os|]|] eqn:E; [|done..].
  apply ether_aton_len in E. by apply Hk.
Qed.

Lemma set_rl_flags_ok f r : in_u8 f → ifbrlreq_ok r → ifbrlreq_ok (set_rl_flags (Z.lor (rl_flags r) f) r).
Proof.
  intros Hf (? & ? & ? & Hr & ?). unfold ifbrlreq_ok. cbn. assert (in_u8 (Z.lor (rl_flags r) f)) by by apply (lor_range 8). tauto.
Qed.

Lemma set_rl_dst_ok a r : Zlen a = 6 → ifbrlreq_ok r → ifbrlreq_ok (set_rl_dst (Some a) r).
Proof. unfold ifbrlreq_ok. cbn. tauto. Qed.
Lemma set_rl_src_ok a r : Zlen a = 6 → ifbrlreq_ok r → ifbrlreq_ok (set_rl_src (Some a) r).
Proof. unfold ifbrlreq_ok. cbn. tauto. Qed.
Lemma set_rl_tag_ok t r : in_chars 64 t → ifbrlreq_ok r → ifbrlreq_ok (set_rl_tag t r).
Proof. unfold ifbrlreq_ok. cbn. tauto. Qed.

Lemma rule_opts_ok argv r : ifbrlreq_ok r → rule_ok (rule_opts argv r).
Proof.
  revert r. induction argv as [argv IH] using (induction_ltof1 _ (@length string)). unfold ltof in IH.
  intros r Hr. destruct argv as [|kw argv]; [done|]. cbn [rule_opts].
  case_match; [|case_match; [|case_match; [|done]]].
  - case_match; [done|]. destruct argv as [|a argv]; [done|]. apply rule_addr_ok. intros ea He.
    apply IH; [simpl; lia|]. by apply set_rl_dst_ok, set_rl_flags_ok.
  - case_match; [done|]. destruct argv as [|a argv]; [done|]. apply rule_addr_ok. intros ea He.
    apply IH; [simpl; lia|]. by apply set_rl_src_ok, set_rl_flags_ok.
  - destruct argv as [|t argv]; [done|]. case_match; [done|].
    pose proof (strlcpy_chars t PF_TAG_NAME_SIZE eq_refl) as Hc. destruct (strlcpy_s t PF_TAG_NAME_SIZE) as [tag n].
    case_match; [done|]. apply IH; [simpl; lia|]. by apply set_rl_tag_ok.
Qed.

Lemma rule_parse_ok name argv : rule_ok (rule_parse name argv).
Proof.
  unfold rule_parse. destruct argv as [|w argv]; [done|].
  assert (∀ action, in_u8 action → rule_ok
    match rule_direction argv with
    | Some (flags, on :: ifs :: argv) =>
        if bool_decide (on = "on") then
          rule_opts argv (mk_ifbrl (ifname name) (ifname ifs) action flags None None "")
        else BadRule []
    | _ => BadRule []
    end) as Hgo.
  { intros action Ha. destruct (rule_direction argv) as [[flags [|on [|ifs argv']]]|] eqn:E; [done..| |done].
    case_match; [|done]. apply rule_opts_ok. split_and!; try done; try apply ifname_is_name.
    revert E. unfold rule_direction. destruct argv; [done|]. by repeat case_match; intros [= <- _]. }
  cbv zeta. destruct (bool_decide (w = "block")); [by apply Hgo|].
  destruct (bool_decide (w = "pass")); [by apply Hgo|done].
Qed.

Lemma keeps_bridge_rule argv : keeps (bridge_rule argv) (λ _, True).
Proof.
  unfold bridge_rule. keeps_step; [keeps|]. keeps_step.
  match goal with |- context [rule_parse ?n argv] => pose proof (rule_parse_ok n argv) as Hp;
    destruct (rule_parse n argv) as [r| | |]; [|keeps..] end.
  eapply keeps_bind; [by apply keeps_ioctl|]. intros [??] _. keeps.
Qed.
#[local] Hint Resolve keeps_bridge_rule : fits.

Lemma keeps_rule_lines lines : keeps (rule_lines lines) (λ _, True).
Proof.
  induction lines as [|l lines IH]; cbn [rule_lines]; [by apply keeps_ret|].
  eapply (keeps_bind _ _ (λ _, True)); [unfold rule_line; keeps|]. by intros _ _.
Qed.
#[local] Hint Resolve keeps_rule_lines : fits.

#[local] Hint Resolve keeps_bridge_maxage keeps_bridge_priority keeps_bridge_fwddelay keeps_bridge_hellotime : fits.
#[local] Hint Resolve keeps_bridge_maxaddr keeps_bridge_holdcnt keeps_bridge_timeout keeps_bridge_proto : fits.
#[local] Hint Resolve keeps_bridge_ifprio keeps_bridge_ifcost keeps_bridge_deladdr keeps_bridge_addaddr : fits.
#[local] Hint Resolve keeps_bridge_addrs keeps_bridge_rules : fits.

Lemma keeps_resolve family host service : keeps (resolve family host service) (λ _, True).
Proof. unfold resolve. keeps. Qed.
#[local] Hint Resolve keeps_resolve : fits.

Lemma keeps_settunnel a b : keeps (settunnel a b) (λ _, True).
Proof.
  unfold settunnel. do 6 keeps_step. keeps_step; [keeps|].
  destruct (_ || _) eqn:E; [keeps|]. apply orb_false_iff in E as [E1%Z.ltb_ge E2%Z.ltb_ge].
  change SS_SIZE with 256 in *. keeps.
Qed.

(** ** The commands *)

Definition row_ok (p : cmd) : Prop :=
  in_int (c_parameter p) ∧ if_set (λ f, ∀ a v, in_int v → keeps (f a v) (λ _, True)) (c_func p)
  ∧ if_set (λ f, ∀ a b, keeps (f a b) (λ _, True)) (c_func2 p).

Lemma row1 n p a f :
  in_int p → (∀ x v, in_int v → keeps (f x v) (λ _, True)) → row_ok (cmd1 n p a f).
Proof. by intros Hp Hf. Qed.
Lemma row2 n f : (∀ x y, keeps (f x y) (λ _, True)) → row_ok (cmd2 n f).
Proof. by intros Hf. Qed.

#[local] Hint Resolve keeps_settunnel : fits.

Lemma rows_ok : Forall row_ok cmds.
Proof using TL.
  unfold cmds, named_cmds. cbn [app].
  repeat (apply list.Forall_cons; split;
    [ first [ apply row1; [done|intros; keeps; fail] | apply row2; intros; keeps; fail
            | split_and!; [done|cbn; try done; intros; keeps; fail|done] ] |]).
  done.
Qed.

End handlers.

#[export] Hint Resolve keeps_sin_poke keeps_sat_poke keeps_bridge_rule keeps_bridge_addrs keeps_bridge_rules : fits.
#[export] Hint Resolve keeps_authinfo keeps_resolve ldiff_range keeps_getprefix keeps_in6_getprefix : fits.
#[export] Hint Extern 2 (Zlen (padded _ _) = _) => apply padded_len; cbn in *; (done || lia) : fits.
