(* ===== verification/Ifconfig.v ===== *)
(** * Ifconfig: the ifconfig program

    Models main() of src/usr/src/sbin/ifconfig/ifconfig.c around the loop of
    Gate.v, and the functions of src/usr/src/sbin/ifconfig/ifcutil.c that
    print interfaces, groups and cloners, as the Makefile builds them, with
    INET6. *)
From coqutil Require Import Byte.
From stdpp Require Import base list strings functions.
From Stdlib Require Import Ascii.
From S2P Require Import Prelude CString CNum NetAddr Printf Scan IfData IfCore IfWireless.
From S2P Require Import IfMedia IfProto Brconfig IfStatus Gate.

(** sizeof(struct ifg_req) *)
Definition SIZEOF_IFG_REQ : Z := 16.

(** What the options set: aflag, ifaliases, gflag, Cflag and nomore. *)
Record ifopts := mk_opts {
  o_aflag : bool;
  o_ifaliases : bool;
  o_gflag : bool;
  o_Cflag : bool;
  o_nomore : bool;
}.

(** The loop over the letters; [None] is usage(1). *)
Fixpoint option_letters (l : list ascii) (o : ifopts) : option ifopts :=
  match l with
  | [] => Some o
  | c :: l =>
      if Ascii.eqb c "a" then option_letters l (mk_opts true (o_ifaliases o) (o_gflag o) (o_Cflag o) true)
      else if Ascii.eqb c "A" then option_letters l (mk_opts true true (o_gflag o) (o_Cflag o) true)
      else if Ascii.eqb c "g" then option_letters l (mk_opts (o_aflag o) (o_ifaliases o) true (o_Cflag o) (o_nomore o))
      else if Ascii.eqb c "C" then option_letters l (mk_opts (o_aflag o) (o_ifaliases o) (o_gflag o) true true)
      else None
  end.

Section ifconfig.
Context `{!Kernel, !Libs}.

(** ** Groups and cloners *)

(** [pr] is printif().  [None] is a return of -1; the elements the second
    request did not store are zero. *)
Definition printgroup (pr : cptr → Z → GM unit) (groupname : string) (ifaliases : Z) : GM (option Z) :=
  getsock AF_INET;;
  '(z, ifgr) ← ioctl SIOCGIFGMEMB (mk_gmemb (ifname groupname) 0 []);
  if z =? -1 then
    e ← errno;
    if (e =? EINVAL) || (e =? ENOTTY) || (e =? ENOENT) then mret None else err
  else
    ok ← in_env alloc_ok;
    if negb ok then err
    else
      let n := Z.to_nat (ifgr_len ifgr / SIZEOF_IFG_REQ) in
      '(z, ifgr) ← ioctl SIOCGIFGMEMB (mk_gmemb (ifgm_name ifgr) (ifgr_len ifgr) (replicate n ""));
      if z =? -1 then err
      else
        each (λ m, pr (Some m) ifaliases) (take n (ifgr_groups ifgr ++ replicate n ""));;
        mret (Some (Z.of_nat n)).

Definition printgroupattribs (groupname : string) : GM unit :=
  getsock AF_INET;;
  '(z, ifgr) ← ioctl SIOCGIFGATTR (mk_ifgr (ifname groupname) "" 0);
  if z =? -1 then err
  else out (groupname +:+ ": carp demote count " +:+ fmt_d (ifgr_carp_demoted ifgr) +:+ newline).

Definition setgroupattribs (groupname : string) (argv : list string) : GM unit :=
  getsock AF_INET;;
  p ← need (argv !! 0%nat);
  neg ← (match argv !! 1%nat with Some a => strtonum_or_err a 0 128 | None => mret 1 end);
  let '(neg, p) := match bytes p with
                   | c :: l => if Ascii.eqb c "-" then (- neg, text l) else (neg, p)
                   | [] => (neg, p)
                   end in
  if bool_decide (p = "carpdemote") then
    '(z, _) ← ioctl SIOCSIFGATTR (mk_ifgr (ifname groupname) "" neg);
    if z =? -1 then err else mret tt
  else err.

Definition list_cloners : GM unit :=
  getsock AF_INET;;
  '(z, ifcr) ← ioctl SIOCIFGCLONERS (mk_clonereq 0 0 []);
  if z =? -1 then err
  else
    ok ← in_env alloc_ok;
    if negb ok then err
    else
      let total := ifcr_total ifcr in
      '(z, ifcr) ← ioctl SIOCIFGCLONERS (mk_clonereq total total (replicate (Z.to_nat total) ""));
      if z =? -1 then err
      else
        l ← need (elements (Z.min (ifcr_count ifcr) (ifcr_total ifcr)) (ifcr_buffer ifcr));
        out (match l with
             | [] => ""
             | n :: l => foldl (λ t n, t +:+ " " +:+ n) n l
             end +:+ newline).

(** ** Interfaces *)

(** The rows of afs whose family an address has. *)
Definition address_status (family : Z) : GM unit :=
  p ← gets g_afp;
  match p with
  | Some p => when (family =? af_af p) (af_status p 1)
  | None => each (λ p, when (family =? af_af p) (af_status p 0)) (afs true)
  end.

(** The loop over the addresses: the number of those printed.  [namep] is the
    name of the last link-level address, [noinet] whether no Internet address
    has been printed since. *)
Fixpoint printif_loop (oname : option string) (ifaliases : Z) (l : list ifaddrs)
    (namep : option string) (count : Z) (noinet : bool) : GM Z :=
  match l with
  | [] => mret count
  | ifa :: l =>
      let next := printif_loop oname ifaliases l in
      if negb (from_option (λ o, name_matches o (ifa_name ifa)) true oname) then next namep count noinet
      else
        let sa := ifa_addr ifa in
        modify (set_name (ifname (ifa_name ifa)));;
        (if sa_family sa =? AF_INET6 then
           modify (set_ifr6 (set_ifr6_addr (mk_ifreq6 (ifname (ifa_name ifa)) (zeros SIZEOF_IFRU6))
                               (Ztake (Z.min SIZEOF_SIN6 (sa_len sa)) sa)))
         else
           modify (set_ifr (ifr_store (mk_ifreq (ifname (ifa_name ifa)) (U_bytes (zeros 16)))
                              (Ztake (Z.min 16 (sa_len sa)) sa))));;
        if sa_family sa =? AF_LINK then
          z ← getinfo_ifr false;
          if z <? 0 then next (Some (ifa_name ifa)) count noinet
          else
            status 1 (Some (sa, ifa_type ifa)) (ifa_link_state ifa);;
            next (Some (ifa_name ifa)) (count + 1) true
        else if from_option (λ n, bool_decide (n = ifa_name ifa)) true namep then
          if (sa_family sa =? AF_INET) && (ifaliases =? 0) && negb noinet then next namep count noinet
          else
            address_status (sa_family sa);;
            next namep (count + 1) (noinet && negb (sa_family sa =? AF_INET))
        else next namep count noinet
  end.

(** printif() and printgroup() call each other; the members of a group are
    interfaces, whose names end in a digit, so two levels are enough. *)
Fixpoint printif (fuel : nat) (ifn : cptr) (ifaliases : Z) : GM unit :=
  match fuel with
  | O => stopM SFuel
  | S fuel =>
      aflag ← rd G_aflag;
      let ifn := if negb (aflag =? 0) then None else ifn in
      group ← (match ifn with
               | None => mret None
               | Some n =>
                   ok ← in_env alloc_ok;
                   if negb ok then err
                   else if negb (bool_decide (n = "")) && negb (ends_in_digit n)
                   then printgroup (printif fuel) n ifaliases
                   else mret None
               end);
      match group with
      | Some _ => mret tt
      | None =>
          k ← gets g_k;
          match k_getifaddrs k with
          | None => err
          | Some l =>
              count ← printif_loop ifn ifaliases l None 0 true;
              if count =? 0 then err else mret tt
          end
      end
  end.

(** ** main *)

Definition exit {A} (code : Z) : GM A := stopM (SExit code).

(** The rows that the table of ifconfig(8) has and that of the daemon has not:
    wpapsk, and the rows for INET6. *)
Definition wpapsk_cmds : list cmd :=
  [cmd1 "wpapsk" NEXTARG 0 setifwpakey; cmd1 "-wpapsk" (- 1) 0 setifwpakey].
Definition inet6_cmds : list cmd :=
  [cmd1 "anycast" IN6_IFF_ANYCAST 0 setia6flags;
   cmd1 "-anycast" (- IN6_IFF_ANYCAST) 0 setia6flags;
   cmd1 "tentative" IN6_IFF_TENTATIVE 0 setia6flags;
   cmd1 "-tentative" (- IN6_IFF_TENTATIVE) 0 setia6flags;
   cmd1 "pltime" NEXTARG 0 setia6pltime;
   cmd1 "vltime" NEXTARG 0 setia6vltime;
   cmd1 "eui64" 0 0 setia6eui64;
   cmd1 "autoconfprivacy" IFXF_INET6_PRIVACY 0 setifxflags;
   cmd1 "-autoconfprivacy" (- IFXF_INET6_PRIVACY) 0 setifxflags;
   cmd2 "keepalive" setkeepalive;
   cmd1 "-keepalive" 1 0 unsetkeepalive].

(** The table of ifconfig(8): that of the daemon with these rows after -wpakey
    and after -vlandev. *)
Definition ifconfig_cmds : list cmd :=
  take 25 cmds ++ wpapsk_cmds ++ take 8 (drop 25 cmds) ++ inet6_cmds ++ drop 33 cmds.

(** strlcpy(name, word, sizeof(name)) >= IFNAMSIZ *)
Definition take_name (w : string) : GM unit :=
  modify (set_name (ifname w));;
  if IFNAMSIZ <=? slen w then err else mret tt.

(** The options and the name: what is left of the words, gflag and Cflag. *)
Definition main_options (words : list string) : GM (list string * bool * bool) :=
  w ← need (words !! 0%nat);
  match bytes w with
  | c :: letters =>
      if Ascii.eqb c "-" then
        match option_letters letters (mk_opts false false false false false) with
        | None => err
        | Some o =>
            when (o_aflag o) (wr G_aflag 1);;
            when (o_ifaliases o) (wr G_ifaliases 1);;
            if o_nomore o then mret (tail words, o_gflag o, o_Cflag o)
            else match tail words with
            | [] => err
            | n :: rest => take_name n;; mret (rest, o_gflag o, o_Cflag o)
            end
        end
      else take_name w;; mret (tail words, false, false)
  | [] => take_name w;; mret (tail words, false, false)
  end.

(** What follows the loop over the words. *)
Definition ifconfig_end (rafp : option afswtch) : GM unit :=
  process_media_commands;;
  af ← rd G_af; explicit_prefix ← rd G_explicit_prefix;
  when ((af =? AF_INET6) && (explicit_prefix =? 0)) (setifprefixlen (Some "64") 0);;
  when (af =? AF_APPLETALK) checkatrange;;
  apply_addresses rafp;;
  exit 0.

(** From the name on; the argument vector ends with NULL.  After the loop argc
    is 0: the words a row takes have been seen not to be NULL. *)
Definition main_command (words : list string) (gflag Cflag : bool) : GM unit :=
  name ← gets g_name;
  '(rafp, argc, argv) ← select_af true (Zlen words) (map Some words ++ [None]);
  let words := omap id argv in
  aflag ← rd G_aflag;
  if Cflag then if (0 <? argc) || negb (aflag =? 0) then err else list_cloners;; exit 0
  else if gflag then
    (if argc =? 0 then printgroupattribs name else setgroupattribs name words);; exit 0
  else
    ifr_take_name;;
    modify (λ g, let l := ifra6_lifetime (g_in6_addreq (g_in6 g)) in
      set_lifetime (mk_lt6 (ia6t_expire l) (ia6t_preferred l) ND6_INFINITE_LIFETIME ND6_INFINITE_LIFETIME) g);;
    words ← (match words with
             | w :: rest => if bool_decide (w = "create") then
                              clone_create (Some w) 0;;
                              if bool_decide (rest = []) then exit 0 else mret rest
                            else mret words
             | [] => mret []
             end);
    (if aflag =? 0 then
       _ ← getinfo_ifr (match words with w :: _ => negb (bool_decide (w = "destroy")) | [] => false end);
       mret tt
     else mret tt);;
    af ← rd G_af;
    when (negb (bool_decide (words = [])) && (af =? AF_INET6)) (setifxflags (Some "inet6") (- IFXF_NOINET6));;
    r ← ifconfig_loop ifconfig_cmds (length words) (Zlen words) (map Some words ++ [None]);
    match r with
    | Some code => exit code
    | None =>
        actions ← rd G_actions;
        if actions =? 0 then
          r ← gets g_ifr; ifaliases ← rd G_ifaliases;
          printif 2 (Some (ifr_name r)) (if negb (aflag =? 0) then ifaliases else 1);; exit 0
        else ifconfig_end rafp
    end.

(** [words] are the arguments after the name of the program. *)
Definition ifconfig_main (words : list string) : GM unit :=
  match words with
  | [] => wr G_aflag 1;; printif 2 None 0;; exit 0
  | _ => '(words, gflag, Cflag) ← main_options words; main_command words gflag Cflag
  end.
End ifconfig.
