(* ===== verification/GateTypes.v ===== *)
(** * GateTypes: every request of ifconfig_gate() and of ifconfig(8) fits

    The handlers keep the invariant of TypeProps; here the rest of
    ifconfig_gate() (Gate) and of ifconfig's main() (Ifconfig), the status
    output included, does. *)
From coqutil Require Import Byte Word.LittleEndianList.
From stdpp Require Import base list strings functions.
From Stdlib Require Import Ascii.
From S2P Require Import Prelude CString CNum NetAddr InetNet Printf Scan IfData Fits IfCore IfWireless.
From S2P Require Import IfMedia IfProto Brconfig IfStatus Gate TypeProps Ifconfig.

Section gate_types.
Context {K : Kernel} {LB : Libs} {TK : TypedKernel K} {TL : TypedLibs LB}.

Lemma find_cmd_row w tab p : Forall row_ok tab → head (find_cmd w tab) = Some p → row_ok p.
Proof.
  induction 1 as [|q tab Hq Ht IH]; [done|]. cbn [find_cmd].
  destruct (c_name q); [case_match|]; [by intros [= <-]|done|by intros [= <-]].
Qed.

Lemma keeps_call1 p a v : row_ok p → in_int v → keeps (call1 p a v) (λ _, True).
Proof.
  intros (_ & Hf & _) Hv. unfold call1. eapply keeps_bind; [apply keeps_need|]. intros f Ef.
  rewrite Ef in Hf. by apply Hf.
Qed.
Lemma keeps_call2 p a b : row_ok p → keeps (call2 p a b) (λ _, True).
Proof.
  intros (_ & _ & Hf). unfold call2. eapply keeps_bind; [apply keeps_need|]. intros f Ef.
  rewrite Ef in Hf. by apply Hf.
Qed.

#[local] Hint Resolve keeps_call2 : fits.
#[local] Hint Extern 2 (keeps (call1 _ _ _) _) => apply keeps_call1; [done|done] : fits.

Lemma keeps_gate_round argv : keeps (gate_round argv) (λ _, True).
Proof using TL.
  unfold gate_round. do 2 keeps_step. eapply keeps_bind; [apply keeps_need|]. intros p Hp.
  eapply find_cmd_row in Hp; [|apply rows_ok]. pose proof Hp as (Hi & _). keeps.
Qed.

Lemma keeps_gate_loop fuel argc argv : keeps (gate_loop fuel argc argv) (λ _, True).
Proof using TL.
  revert argc argv. induction fuel as [|fuel IH]; intros argc argv; cbn [gate_loop].
  { keeps. }
  case_match; [keeps|]. eapply keeps_bind; [apply keeps_gate_round|]. intros n _. apply IH.
Qed.

(** ** What follows the commands *)

Lemma keeps_delete_address p n : keeps (delete_address p n) (λ _, True).
Proof.
  destruct p; unfold delete_address; [keeps| |].
  - eapply keeps_bind; [apply keeps_modify|intros _ _].
    { intros g Hg. apply set_in6_ridreq_ok; [done|]. pose proof (in6_ridreq_ok g Hg) as [_ Hu].
      split; [apply ifname_is_name|done]. }
    eapply keeps_bind; [apply keeps_gets|intros r (g & Hg & ->)].
    eapply keeps_bind; [by apply keeps_ioctl, in6_ridreq_ok|intros [z r] Hr].
    eapply keeps_bind; [apply keeps_modify; intros; by apply set_in6_ridreq_ok|intros _ _; keeps].
  - eapply keeps_bind; [apply keeps_gets|intros r (g & (_ & _ & _ & _ & (Hn & Hl & _) & _) & ->)].
    eapply keeps_bind; [apply keeps_ioctl; split; [apply ifname_is_name|by eexists]|intros [z r] (Hm & b & Hb & Hbl)].
    eapply keeps_bind; [apply keeps_modify|intros _ _; keeps].
    intros g' (? & ? & ? & ? & (? & ? & ? & ?) & ?). cbn in Hb; rewrite Hb. by split_and!.
Qed.

Lemma keeps_add_address_of p n : keeps (add_address_of p n) (λ _, True).
Proof.
  destruct p; unfold add_address_of.
  - eapply keeps_bind; [apply keeps_modify|intros _ _].
    { intros g (? & ? & ? & [? ?] & ? & ?). split_and!; try done. split; [apply ifname_is_name|done]. }
    keeps.
  - eapply keeps_bind; [apply keeps_modify|intros _ _].
    { intros g Hg. apply set_in6_addreq_ok; [done|]. pose proof (in6_addreq_ok g Hg) as [_ Hu].
      split; [apply ifname_is_name|done]. }
    eapply keeps_bind; [apply keeps_gets|intros q (g & Hg & ->)].
    eapply keeps_bind; [by apply keeps_ioctl, in6_addreq_ok|intros [z q] Hq].
    eapply keeps_bind; [apply keeps_modify; intros; by apply set_in6_addreq_ok|intros _ _; keeps].
  - eapply keeps_bind; [apply keeps_modify|intros _ _].
    { intros g (? & ? & ? & ? & [? ?] & ?). split_and!; try done. split; [apply ifname_is_name|done]. }
    keeps.
Qed.
#[local] Hint Resolve keeps_delete_address keeps_add_address_of : fits.

Lemma keeps_clear_address p : keeps (clear_address p) (λ _, True).
Proof. unfold clear_address. keeps. Qed.
Lemma keeps_new_address p : keeps (new_address p) (λ _, True).
Proof. unfold new_address. keeps. Qed.

#[local] Hint Resolve keeps_gate_round keeps_gate_loop keeps_clear_address keeps_new_address : fits.

(** ** Interface information *)

#[local] Hint Extern 1 (ifreq_ok (mk_ifreq (stake _ _) _)) => split; [apply ifname_is_name|reflexivity] : fits.

Lemma keeps_is_bridge b : keeps (is_bridge b) (λ _, True).
Proof.
  unfold is_bridge. keeps.
Qed.
Lemma keeps_getsock naf : keeps (getsock naf) (λ _, True).
Proof. unfold getsock. keeps. Qed.
#[local] Hint Resolve keeps_is_bridge keeps_getsock : fits.

(** A request with a copy of the ifreq. *)
Lemma keeps_ifreq (c : iocmd ifreq) r :
  (∀ r, fits c r ↔ ifreq_ok r) → ifreq_ok r → keeps (ioctl c r) (λ r, ifreq_ok r.2).
Proof. intros H Hr. eapply keeps_mono; [by apply keeps_ioctl, H|]. intros [z r'] Hr'. by apply H. Qed.

Ltac ifreq_step := eapply keeps_bind; [apply keeps_ifreq; [done|eauto with fits]|intros [? ?] ?; cbn [snd] in *].

Lemma keeps_getinfo_rest r : ifreq_ok r → keeps (getinfo_rest r) (λ r, ifreq_ok r.2).
Proof.
  intros Hr. unfold getinfo_rest. do 2 keeps_step. ifreq_step. cbv zeta.
  assert (ifreq_ok (if z <? 0 then set_ifr_flags i 0 else i)) as Hi by (case_match; eauto with fits).
  do 2 keeps_step. ifreq_step. eapply (keeps_bind _ _ (λ _, True)); [keeps|intros _ _]. do 2 keeps_step.
  eapply (keeps_bind _ _ ifreq_ok).
  { keeps_step; [keeps|]. ifreq_step. eapply (keeps_bind _ _ (λ _, True)); [keeps|intros _ _]. by apply keeps_ret. }
  intros r' Hr'. ifreq_step. eapply (keeps_bind _ _ (λ _, True)); [keeps|intros _ _]. by apply keeps_ret.
Qed.

Lemma keeps_getinfo r create : ifreq_ok r → keeps (getinfo r create) (λ r, ifreq_ok r.2).
Proof.
  intros Hr. unfold getinfo. do 3 keeps_step. keeps_step; [keeps|]. do 2 keeps_step.
  keeps_step; [by apply keeps_ret|]. ifreq_step.
  keeps_step; [by apply keeps_getinfo_rest|]. keeps_step. keeps_step; [by apply keeps_ret|]. ifreq_step.
  keeps_step; [keeps|]. ifreq_step. keeps_step; [|by apply keeps_getinfo_rest]. keeps.
Qed.

Lemma keeps_getinfo_ifr create : keeps (getinfo_ifr create) (λ _, True).
Proof.
  unfold getinfo_ifr. keeps_step. eapply keeps_bind; [by apply keeps_getinfo|]. intros [z r] Hr. keeps.
Qed.

Lemma keeps_process_media : keeps process_media_commands (λ _, True).
Proof. unfold process_media_commands. keeps. Qed.
Lemma keeps_select_af b argc argv : keeps (select_af b argc argv) (λ _, True).
Proof. unfold select_af. keeps. Qed.
Lemma keeps_apply_addresses p : keeps (apply_addresses p) (λ _, True).
Proof. unfold apply_addresses. keeps. Qed.
#[local] Hint Resolve keeps_getinfo_ifr keeps_process_media keeps_select_af keeps_apply_addresses : fits.

Lemma keeps_gate argc argv iface : keeps (ifconfig_gate argc argv iface) (λ _, True).
Proof using TL.
  unfold ifconfig_gate. keeps.
Qed.

(** ** Status output *)

Lemma keeps_when b m : keeps m (λ _, True) → keeps (when b m) (λ _, True).
Proof. intros Hm. unfold when. case_match; [done|by apply keeps_ret]. Qed.

#[local] Hint Extern 2 (keeps (when _ _) _) => apply keeps_when; solve [keeps] : fits.
#[local] Hint Extern 2 (keeps (each _ _) _) => apply keeps_each; intros; solve [keeps] : fits.
#[local] Hint Resolve carp_zero_ok : fits.

(** A part of the output whose end every branch reaches. *)
Ltac part := eapply (keeps_bind _ _ (λ _, True)); [solve [keeps]|intros ? _].

Lemma keeps_setifflags a v : keeps (setifflags a v) (λ _, True).
Proof. unfold setifflags. keeps. Qed.
#[local] Hint Resolve keeps_setifflags : fits.

Lemma keeps_list_chans i chans : keeps (list_chans i chans) (λ _, True).
Proof. revert i. induction chans as [|c chans IH]; intros i; cbn [list_chans]; [keeps|]. part. apply IH. Qed.
Lemma keeps_list_nodes na todo i : keeps (list_nodes na todo i) (λ _, True).
Proof.
  revert i. induction todo as [|todo IH]; intros i; cbn [list_nodes]; [keeps|].
  eapply (keeps_bind _ _ (λ _, True)); [unfold nr_at; keeps|intros nr _]. do 3 part. apply IH.
Qed.
#[local] Hint Resolve keeps_list_chans keeps_list_nodes : fits.

Lemma keeps_listchans : keeps ieee80211_listchans (λ _, True).
Proof.
  unfold ieee80211_listchans. keeps_step. eapply keeps_bind; [apply keeps_ioctl|intros [z ca] _; keeps].
  split_and!; [apply ifname_is_name|done|]. by apply Forall_replicate.
Qed.
Lemma keeps_listnodes : keeps ieee80211_listnodes (λ _, True).
Proof.
  unfold ieee80211_listnodes. keeps_step. cbv zeta. part. do 2 keeps_step. 
  part. keeps.
Qed.

#[local] Hint Resolve keeps_listchans keeps_listnodes : fits.

Lemma keeps_bssid_status n b : Zlen b = 6 → keeps (bssid_status n b) (λ _, True).
Proof. intros Hb. unfold bssid_status. keeps. Qed.

Lemma keeps_nwkey_status k : nwkey_ok k → keeps (nwkey_status k) (λ _, True).
Proof.
  intros (Hn & Hw & Hd & _). unfold nwkey_status. keeps_step. eapply keeps_bind; [apply keeps_ioctl|intros [??] _; keeps].
  split_and!; try done. apply (Forall_replicate _ 4). split; [done|by right].
Qed.

Lemma keeps_ieee80211_lines name nwid nwkey psk power channel bssid txpower wpa :
  nwkey_ok nwkey.2 → bssid_ok bssid.2 →
  keeps (ieee80211_lines name nwid nwkey psk power channel bssid txpower wpa) (λ _, True).
Proof.
  intros Hk [_ Hb]. unfold ieee80211_lines. do 2 part.
  eapply keeps_bind; [by apply keeps_when, keeps_bssid_status|intros _ _].
  eapply keeps_bind; [by apply keeps_when, keeps_nwkey_status|intros _ _]. do 3 part. keeps.
Qed.

Lemma keeps_ieee80211_status : keeps ieee80211_status (λ _, True).
Proof.
  unfold ieee80211_status. keeps_step.
  eapply keeps_bind; [apply keeps_modify; glob_fit|intros _ _]. keeps_step.
  eapply keeps_bind; [apply keeps_ioctl|intros nwkey Hnwkey].
  { split_and!; [apply ifname_is_name|done..|]. apply (Forall_replicate _ 4). split; [done|by left]. }
  do 2 (eapply keeps_bind; [apply keeps_ioctl; fit|intros ? _]).
  eapply keeps_bind; [apply keeps_ioctl; fit|intros ? _].
  eapply keeps_bind; [apply keeps_ioctl; fit|intros bssid Hbssid].
  do 2 (eapply keeps_bind; [apply keeps_ioctl; fit|intros ? _]).
  case_match; [by apply keeps_ret|]. part.
  eapply keeps_bind; [by apply keeps_ieee80211_lines|intros _ _]. keeps_step. part. part.
  keeps.
Qed.

#[local] Hint Resolve keeps_ieee80211_status : fits.

Lemma keeps_timeslot_status : keeps timeslot_status (λ _, True).
Proof. unfold timeslot_status. keeps. Qed.
Lemma keeps_mpe_status : keeps mpe_status (λ _, True).
Proof. unfold mpe_status. keeps. Qed.
Lemma keeps_vlan_status : keeps vlan_status (λ _, True).
Proof. unfold vlan_status. keeps. Qed.
Lemma keeps_carp_status : keeps carp_status (λ _, True).
Proof.
  unfold carp_status. eapply keeps_bind; [eapply (keeps_ioctl_data SIOCGVH carpreq_ok), carp_zero_ok; intros; reflexivity|].
  intros [z c] _. keeps.
Qed.
Lemma keeps_pfsync_status : keeps pfsync_status (λ _, True).
Proof. unfold pfsync_status. keeps. Qed.
Lemma keeps_pflow_status : keeps pflow_status (λ _, True).
Proof. unfold pflow_status. keeps. Qed.
Lemma keeps_pppoe_status : keeps pppoe_status (λ _, True).
Proof. unfold pppoe_status. keeps. Qed.
Lemma keeps_sppp_status : keeps sppp_status (λ _, True).
Proof. unfold sppp_status. keeps. Qed.
Lemma keeps_trunk_status : keeps trunk_status (λ _, True).
Proof. unfold trunk_status. keeps. Qed.
#[local] Hint Resolve keeps_timeslot_status keeps_mpe_status keeps_vlan_status keeps_carp_status : fits.
#[local] Hint Resolve keeps_pfsync_status keeps_pflow_status keeps_pppoe_status keeps_sppp_status keeps_trunk_status : fits.

(** *** Addresses *)

Lemma keeps_set_sa sa : Zlen sa = 16 → keeps (set_ifr_sa sa) (λ _, True).
Proof.
  intros Hs. apply keeps_modify. intros g (? & [Hn ?] & ?). split; [done|]. split; [by split|done].
Qed.
Lemma keeps_ifr_sa : keeps ifr_sa (λ sa, Zlen sa = 16).
Proof.
  unfold ifr_sa. keeps_step. eapply keeps_mono; [apply keeps_need|]. intros sa Hsa. cbn in Hsa.
  destruct H0 as [_ Hb]. by rewrite Hsa in Hb.
Qed.
#[local] Hint Resolve keeps_ifr_sa : fits.
#[local] Hint Extern 2 (keeps (set_ifr_sa _) _) => apply keeps_set_sa; done : fits.

Lemma keeps_address_ioctl c what : (∀ r, fits c r ↔ ifreq_ok r) → keeps (address_ioctl c what) (λ _, True).
Proof.
  intros Hc. unfold address_ioctl. eapply keeps_bind; [by apply keeps_ioctl_ifr; intros; apply Hc|intros z _]. keeps.
Qed.
#[local] Hint Extern 2 (keeps (address_ioctl _ _) _) => apply keeps_address_ioctl; done : fits.

Lemma keeps_status_socket af : keeps (status_socket af) (λ _, True).
Proof. unfold status_socket. keeps. Qed.
#[local] Hint Resolve keeps_status_socket : fits.

Lemma keeps_in_status force : keeps (in_status force) (λ _, True).
Proof. unfold in_status. keeps. Qed.
Lemma keeps_at_status force : keeps (at_status force) (λ _, True).
Proof. unfold at_status. keeps. Qed.

(** A request of in6_alias() for an address. *)
Lemma keeps_in6_ask c what sa :
  (∀ r, fits c r ↔ ifreq6_ok r) → (length sa ≤ 28)%nat →
  keeps (in6_ask c what sa) (λ _, True).
Proof.
  intros Hc Hs. unfold in6_ask. keeps_step. eapply keeps_bind; [apply keeps_ioctl, Hc, set_addr6_ok; [|done]|].
  { split; [apply ifname_is_name|reflexivity]. }
  intros [z r] _. keeps.
Qed.

Lemma fillscopeid_length sa : length (in6_fillscopeid sa) = length sa ∨ (length sa < 28)%nat.
Proof.
  destruct (decide (length sa < 28)%nat); [by right|]. left. unfold in6_fillscopeid. case_match; [|done].
  set (sa' := poke 24 _ sa). assert (length sa' = length sa) as H'.
  { unfold sa'. rewrite length_poke; [done|]. rewrite length_le_split. lia. }
  rewrite length_poke; [done|]. rewrite H'. unfold zeros. rewrite length_replicate. lia.
Qed.

Lemma keeps_in6_status force : keeps (in6_status force) (λ _, True).
Proof.
  unfold in6_status. keeps_step. keeps_step; [keeps|].
  eapply keeps_bind; [apply keeps_gets|intros creq (g & (_ & _ & _ & _ & _ & Hr & _) & ->)]. cbv zeta.
  set (sin6 := in6_fillscopeid _).
  assert (length sin6 = 28%nat) as Hs.
  { assert (length (ifr6_addr (g_ifr6 (g_in6 g))) = 28%nat) as Hl.
    { unfold ifr6_addr. destruct Hr as [_ Hu]. by rewrite length_take, Hu. }
    unfold sin6. destruct (fillscopeid_length (ifr6_addr (g_ifr6 (g_in6 g)))); lia. }
  clearbody sin6. eapply keeps_bind; [apply keeps_modify; intros; apply set_ifr6_ok, set_addr6_ok; [done..|lia]|].
  intros _ _. assert (∀ c what, (∀ r, fits c r ↔ ifreq6_ok r) → keeps (in6_ask c what sin6) (λ _, True)) as Ha.
  { intros c what Hc. apply keeps_in6_ask; [done|lia]. }
  do 2 keeps_step.
  eapply keeps_bind; [apply keeps_when|intros _ _].
  { unfold in6_dst_line. eapply keeps_bind; [by apply Ha|intros r _]. keeps. }
  eapply keeps_bind; [by apply Ha|intros r1 _]. part. eapply keeps_bind; [by apply Ha|intros r2 _]. part. part.
  eapply keeps_bind; [apply keeps_when|intros _ _; keeps].
  unfold in6_lifetime_line. eapply keeps_bind; [by apply Ha|intros r _]. keeps.
Qed.

Lemma keeps_af_status p force : keeps (af_status p force) (λ _, True).
Proof. destruct p; [apply keeps_in_status|apply keeps_in6_status|apply keeps_at_status]. Qed.
Lemma keeps_phys_status force : keeps (phys_status force) (λ _, True).
Proof. unfold phys_status. keeps. Qed.
#[local] Hint Resolve keeps_af_status keeps_phys_status : fits.

Lemma keeps_checkatrange : keeps checkatrange (λ _, True).
Proof.
  unfold checkatrange. keeps_step. cbv zeta.
  eapply keeps_bind; [apply keeps_modify; glob_fit|intros _ _]. do 2 keeps_step. keeps_step; [keeps|].
  apply keeps_sat_poke. rewrite !Zlen_cons, Zlen_app. unfold Zlen, be16. rewrite !length_rev, !length_le_split. lia.
Qed.
#[local] Hint Resolve keeps_checkatrange : fits.

Lemma keeps_head_lines sdl : keeps (head_lines sdl) (λ _, True).
Proof. unfold head_lines. do 6 part. keeps. Qed.
Lemma keeps_info_lines : keeps info_lines (λ _, True).
Proof.
  unfold info_lines. keeps_step. eapply keeps_bind; [apply keeps_ioctl|].
  { split; [|done]. split; [apply ifname_is_name|done]. }
  intros [z [r d]] [Hr _]. part. keeps_step. eapply (keeps_bind _ _ (λ _, True)); [|intros _ _; keeps].
  keeps_step; [keeps|]. ifreq_step. keeps.
Qed.
Lemma keeps_media_lines type ls : keeps (media_lines type ls) (λ _, True).
Proof.
  unfold media_lines. do 2 keeps_step. keeps_step; [keeps|]. keeps_step; [keeps|]. keeps_step.
  keeps_step; [keeps|]. eapply keeps_bind; [apply keeps_ioctl|intros [??] _].
  { destruct H5 as (? & ? & ? & ? & ? & ?). split_and!; try done. by apply Forall_replicate. }
  keeps_step; [keeps|]. keeps.
Qed.

#[local] Hint Resolve keeps_head_lines keeps_info_lines keeps_media_lines : fits.

Lemma keeps_print_member d r : keeps (print_member d r) (λ _, True).
Proof. unfold print_member, member_name. keeps. Qed.
Lemma keeps_bridge_cfg d : keeps (bridge_cfg d) (λ _, True).
Proof. unfold bridge_cfg. keeps. Qed.
Lemma keeps_bridge_list d : keeps (bridge_list d) (λ _, True).
Proof.
  unfold bridge_list. keeps_step. eapply keeps_bind; [apply keeps_grow; [|by vm_compute]|].
  { intros n Hn. assert (in_u32 n) by (change INT_MAX with 2147483647 in Hn; unfold in_u32; lia). keeps. }
  intros [[??]|] _; [|keeps]. keeps_step. apply keeps_each. intros. apply keeps_print_member.
Qed.
#[local] Hint Resolve keeps_bridge_cfg keeps_bridge_list : fits.

Lemma keeps_bridge_status : keeps bridge_status (λ _, True).
Proof. unfold bridge_status. keeps. Qed.
#[local] Hint Resolve keeps_bridge_status : fits.

Lemma keeps_status link sdl ls : keeps (status link sdl ls) (λ _, True).
Proof.
  unfold status. do 12 keeps_step. eapply (keeps_bind _ _ (λ _, True)); [|intros _ _; keeps].
  keeps_step; [|keeps]. keeps_step. keeps_step; [keeps|]. apply keeps_each. intros p.
  eapply keeps_bind; [apply keeps_ifr_sa|intros sa Hsa].
  eapply keeps_bind; [by apply keeps_set_sa, poke_len|intros _ _]. keeps.
Qed.
#[local] Hint Resolve keeps_status : fits.

(** ** Groups, interfaces and main *)

Lemma keeps_printgroup pr n al :
  (∀ m, keeps (pr m al) (λ _, True)) → keeps (printgroup pr n al) (λ _, True).
Proof.
  intros Hp. unfold printgroup. part. keeps_step. keeps_step; [keeps|]. keeps_step. keeps_step; [keeps|]. cbv zeta.
  eapply keeps_bind; [apply keeps_ioctl|intros [??] _].
  { open_fits. split_and!; try done. by apply Forall_replicate. }
  keeps_step; [keeps|]. eapply keeps_bind; [by apply keeps_each|intros _ _]. keeps.
Qed.

Lemma keeps_printgroupattribs n : keeps (printgroupattribs n) (λ _, True).
Proof. unfold printgroupattribs. keeps. Qed.
Lemma keeps_setgroupattribs n argv : keeps (setgroupattribs n argv) (λ _, True).
Proof.
  unfold setgroupattribs. part. keeps_step. eapply (keeps_bind _ _ (λ v, 0 ≤ v ≤ 128)); [keeps|intros v Hv].
  destruct (match bytes a0 with [] => _ | _ :: _ => _ end) as [neg p] eqn:E.
  assert (in_int neg) by (unfold in_int; repeat case_match; simplify_eq; lia). keeps.
Qed.
Lemma keeps_list_cloners : keeps list_cloners (λ _, True).
Proof.
  unfold list_cloners. part. keeps_step. keeps_step; [keeps|]. keeps_step. keeps_step; [keeps|]. cbv zeta.
  eapply keeps_bind; [apply keeps_ioctl|intros [??] _].
  { open_fits. split_and!; try done. by apply Forall_replicate. }
  keeps.
Qed.
Lemma keeps_address_status family : keeps (address_status family) (λ _, True).
Proof. unfold address_status. keeps. Qed.

Lemma keeps_printif_loop oname al l : ∀ namep count noinet,
  keeps (printif_loop oname al l namep count noinet) (λ _, True).
Proof.
  induction l as [|ifa l IH]; intros namep count noinet; cbn [printif_loop]; [keeps|]. cbv zeta.
  case_match; [apply IH|].
  keeps_step. eapply (keeps_bind _ _ (λ _, True)); [|intros _ _; keeps_step].
  { assert (∀ n, (length (Ztake n (ifa_addr ifa)) ≤ Z.to_nat n)%nat) as Hl.
    { intros n. unfold Ztake. rewrite length_take. lia. }
    case_match; apply keeps_modify; intros g Hg.
    - apply set_ifr6_ok; [done|]. apply set_addr6_ok.
      + split; [apply ifname_is_name|reflexivity].
      + pose proof (Hl (Z.min SIZEOF_SIN6 (sa_len (ifa_addr ifa)))). unfold SIZEOF_SIN6 in *. lia.
    - destruct Hg as (? & ? & ?). split; [done|]. split; [|done]. apply ifreq_set_ok, ifr_store_ok.
      + split; [apply ifname_is_name|done].
      + pose proof (Hl (Z.min 16 (sa_len (ifa_addr ifa)))). unfold Zlen. lia. }
  - keeps_step. keeps_step; [apply IH|]. keeps_step. apply IH.
  - keeps_step; [|apply IH]. keeps_step; [apply IH|]. eapply keeps_bind; [apply keeps_address_status|intros _ _]. apply IH.
Qed.

#[local] Hint Resolve keeps_printif_loop keeps_printgroupattribs keeps_setgroupattribs keeps_list_cloners : fits.

Lemma keeps_printif fuel ifn al : keeps (printif fuel ifn al) (λ _, True).
Proof.
  revert ifn al. induction fuel as [|fuel IH]; intros ifn al; cbn [printif]; [keeps|]. keeps_step. cbv zeta.
  eapply (keeps_bind _ _ (λ _, True)).
  - keeps_step; [|keeps]. keeps_step. keeps_step; [keeps|]. keeps_step; [by apply keeps_printgroup|keeps].
  - intros group _. keeps.
Qed.

Lemma keeps_set_lifetime (f : glob → in6_addrlifetime) :
  (∀ g, glob_ok g → lifetime_ok (f g)) → keeps (modify (λ g, set_lifetime (f g) g)) (λ _, True).
Proof.
  intros Hf. apply keeps_modify. intros g Hg. apply set_in6_addreq_ok; [done|]. pose proof (Hf g Hg).
  by destruct (in6_addreq_ok g Hg) as (? & ? & ? & ? & ? & _).
Qed.

Lemma keeps_setia6flags a v : keeps (setia6flags a v) (λ _, True).
Proof.
  apply keeps_modify. intros g Hg. apply set_in6_addreq_ok; [done|].
  destruct (in6_addreq_ok g Hg) as (? & ? & ? & ? & ? & ?). refine (conj _ (conj _ (conj _ (conj _ (conj _ _))))); try done.
  cbn. unfold in_int, i32, sx. pose proof (Z.mod_pos_bound (sets v (ifra6_flags (g_in6_addreq (g_in6 g))) + 2 ^ (32 - 1))
    (2 ^ 32)). change (2 ^ (32 - 1)) with (2 ^ 31) in *. lia.
Qed.

Lemma keeps_setia6lifetime cmd val : keeps (setia6lifetime cmd val) (λ _, True).
Proof.
  unfold setia6lifetime. keeps_step. eapply keeps_bind; [apply keeps_strtonum|intros n Hn]. do 3 keeps_step.
  keeps_step; [keeps|]. eapply keeps_bind; [apply keeps_need|intros e He].
  eapply keeps_bind; [apply keeps_gets|intros l (g & Hg & ->)].
  destruct (in6_addreq_ok g Hg) as (_ & _ & _ & _ & _ & (L1 & L2 & L3 & L4)).
  assert (in_int e) as Hi by (unfold in_int; case_match; simplify_eq; lia).
  assert (in_u32 n) as Hu by (unfold in_u32; lia). clear He.
  repeat case_match; [| |keeps]; apply (keeps_set_lifetime (λ _, mk_lt6 _ _ _ _)); intros _ _; by split_and!.
Qed.

Lemma keeps_setia6eui64 a v : keeps (setia6eui64 a v) (λ _, True).
Proof.
  unfold setia6eui64. do 2 keeps_step. keeps_step; [keeps|]. keeps_step. keeps_step; [keeps|]. do 2 keeps_step.
  destruct (k_getifaddrs _) as [l|]; [|keeps]. destruct (List.find _ l) as [ifa|]; [|keeps].
  eapply keeps_bind; [apply keeps_need|intros ll Hll]. apply keeps_sin6_poke. unfold elements in Hll.
  case_match; [|done]. simplify_eq. unfold Ztake. rewrite length_take. lia.
Qed.

Lemma inet6_rows : Forall row_ok inet6_cmds.
Proof.
  unfold inet6_cmds. repeat (apply list.Forall_cons; split); try done.
  all: first [ apply row1; [done|intros; first [apply keeps_setia6flags | apply keeps_setia6lifetime
             | apply keeps_setia6eui64 | keeps; fail]] | apply row2; intros; keeps ].
Qed.

Lemma ifconfig_rows : Forall row_ok ifconfig_cmds.
Proof using TL.
  pose proof rows_ok as Hr. pose proof inet6_rows. unfold ifconfig_cmds.
  repeat (apply list.Forall_app; split); auto using list.Forall_take, list.Forall_drop.
  unfold wpapsk_cmds.
  repeat (apply list.Forall_cons; split; [apply row1; [done|intros; apply keeps_setifwpakey]|]). done.
Qed.

Lemma keeps_ifconfig_round tab argv : Forall row_ok tab → keeps (ifconfig_round tab argv) (λ _, True).
Proof.
  intros Ht. unfold ifconfig_round. do 2 keeps_step. keeps_step; [keeps|]. keeps_step.
  eapply keeps_bind; [apply keeps_need|]. intros [p|] Hp; [|keeps].
  apply (addr_row_Forall row_ok) in Hp; [|by apply find_cmd_Forall]. pose proof Hp as (Hi & _). apply keeps_fmap.
  unfold nextarg. keeps.
Qed.

Lemma keeps_ifconfig_loop tab fuel argc argv :
  Forall row_ok tab → keeps (ifconfig_loop tab fuel argc argv) (λ _, True).
Proof.
  intros Ht. revert argc argv. induction fuel as [|fuel IH]; intros argc argv; cbn [ifconfig_loop]; [keeps|].
  case_match; [keeps|]. eapply keeps_bind; [by apply keeps_ifconfig_round|]. intros [n|code] _; [apply IH|keeps].
Qed.

Lemma keeps_clone_create a p : keeps (clone_create a p) (λ _, True).
Proof. unfold clone_create. keeps. Qed.
#[local] Hint Resolve keeps_printif keeps_clone_create : fits.

Lemma keeps_main_options words : keeps (main_options words) (λ _, True).
Proof. unfold main_options, take_name. keeps. Qed.

Lemma keeps_ifconfig_end rafp : keeps (ifconfig_end rafp) (λ _, True).
Proof.
  unfold ifconfig_end, exit. keeps.
Qed.
#[local] Hint Resolve keeps_ifconfig_end : fits.

Lemma keeps_main_command words gflag Cflag : keeps (main_command words gflag Cflag) (λ _, True).
Proof using TL.
  unfold main_command. keeps_step. eapply keeps_bind; [apply keeps_select_af|]. intros [[rafp argc] argv] _.
  cbv zeta. keeps_step. keeps_step; [unfold exit; keeps|]. keeps_step; [part; unfold exit; keeps|]. part.
  eapply keeps_bind; [apply (keeps_set_lifetime (λ g, mk_lt6 _ _ _ _))|intros _ _].
  { intros g Hg. by destruct (in6_addreq_ok g Hg) as (_ & _ & _ & _ & _ & (? & ? & _ & _)). }
  eapply (keeps_bind _ _ (λ _, True)); [unfold exit; keeps|intros ws _].
  eapply (keeps_bind _ _ (λ _, True)); [keeps|intros _ _]. keeps_step.
  eapply (keeps_bind _ _ (λ _, True)); [keeps|intros _ _].
  eapply keeps_bind; [apply keeps_ifconfig_loop, ifconfig_rows|]. intros r _. unfold exit. keeps.
Qed.

Lemma keeps_main words : keeps (ifconfig_main words) (λ _, True).
Proof using TL.
  unfold ifconfig_main. destruct words as [|w words]; [unfold exit; keeps|].
  eapply keeps_bind; [apply keeps_main_options|]. intros [[ws gflag] Cflag] _. apply keeps_main_command.
Qed.

End gate_types.
