(* ===== verification/IfKernel.v ===== *)
(** * IfKernel: what the interface code may rely on in the kernel

    [IfLaws] states what the handlers rely on in the interface requests of
    the kernel: reading the flags of an interface gives what was last
    written to the bits a user may change, and the requests of getinfo() change no
    flags.  [ifnet_kernel] is a kernel translated from ifunit() and
    ifioctl() of src/usr/src/sys/net/if.c and satisfies the laws; the part
    of a request that a driver or a protocol handles is an argument [drv],
    which WlanProps takes from the driver of Net80211.
    Addresses are those in_control() of src/usr/src/sys/netinet/in.c keeps
    for an interface. *)
From coqutil Require Import Byte Word.LittleEndianList.
From stdpp Require Import base list strings functions.
From S2P Require Import Prelude CString CNum NetAddr IfData IfNet.

Definition ENXIO : Z := 6.
Definition ENAMETOOLONG : Z := 63.
Definition IFDESCRSIZE : Z := 64.

(** The flags only the kernel changes, and the others. *)
Definition IFF_CANTCHANGE : Z :=
  Z.lor IFF_BROADCAST (Z.lor IFF_POINTOPOINT (Z.lor IFF_RUNNING (Z.lor IFF_OACTIVE
    (Z.lor IFF_SIMPLEX (Z.lor IFF_MULTICAST IFF_ALLMULTI))))).
Definition IFF_CHANGEABLE : Z := Z.ldiff 0xffff IFF_CANTCHANGE.

(** ** Addresses of an interface *)

(** in_control() for SIOCAIFADDR with an address of family AF_INET: a known
    address keeps its place and, unless a mask is given, its mask. *)
Fixpoint put_addr (a : Z) (mask : option Z) (l : list inaddr) : list inaddr :=
  match l with
  | [] => [mk_ia a mask]
  | ia :: l =>
      if ia_addr ia =? a then mk_ia a (match mask with Some _ => mask | None => ia_netmask ia end) :: l
      else ia :: put_addr a mask l
  end.

Definition addr_add (q : aliasreq) (l : list inaddr) : list inaddr :=
  put_addr (sin_addr (ifra_addr q))
    (if negb (sa_len (ifra_mask q) =? 0) then Some (sin_addr (ifra_mask q)) else None) l.

(** in_control() for SIOCDIFADDR; [None] is EADDRNOTAVAIL.  Without a family
    the first address is deleted. *)
Fixpoint addr_remove (a : Z) (l : list inaddr) : option (list inaddr) :=
  match l with
  | [] => None
  | ia :: l => if ia_addr ia =? a then Some l else cons ia <$> addr_remove a l
  end.

Definition addr_del (sa : sockaddr) (l : list inaddr) : option (list inaddr) :=
  if sa_family sa =? AF_INET then addr_remove (sin_addr sa) l
  else match l with [] => None | _ :: l => Some l end.

(** ** Laws *)

(** The requests getinfo() makes after SIOCGIFFLAGS. *)
Inductive getinfo_req : iocmd ifreq → Prop :=
| GI_xflags : getinfo_req SIOCGIFXFLAGS
| GI_metric : getinfo_req SIOCGIFMETRIC
| GI_mtu : getinfo_req SIOCGIFMTU
| GI_rdomain : getinfo_req SIOCGIFRDOMAIN.

Class IfLaws `(K : Kernel) := {
  (** the flags of the interface of a name, if there is one *)
  k_if : kstate → string → option Z;
  (** the Internet addresses of an interface *)
  k_addrs : kstate → string → list inaddr;
  (** the wireless part of an interface *)
  k_wlan : kstate → string → option ieee80211com;
  k_if_short k n f : k_if k n = Some f → SHRT_MIN ≤ f ≤ SHRT_MAX;
  k_getflags fd r k :
    k_ioctl fd SIOCGIFFLAGS r k =
      match k_if k (ifr_name r) with
      | Some f => (0, set_ifr_flags r f, k)
      | None => (ENXIO, r, k)
      end;
  k_setflags fd r k f old :
    ifr_flags r = Some f → k_if k (ifr_name r) = Some old →
    ∃ r' k' new,
      k_ioctl fd SIOCSIFFLAGS r k = (0, r', k')
      ∧ k_if k' (ifr_name r) = Some new
      ∧ Z.land new IFF_CHANGEABLE = Z.land f IFF_CHANGEABLE
      ∧ (∀ n, n ≠ ifr_name r → k_if k' n = k_if k n)
      ∧ ∀ n, k_addrs k' n = k_addrs k n;
  k_setflags_none fd r k :
    k_if k (ifr_name r) = None → k_ioctl fd SIOCSIFFLAGS r k = (ENXIO, r, k);
  k_getinfo c fd r k :
    getinfo_req c → is_Some (ifr_bytes r) →
    ∃ e r' k', k_ioctl fd c r k = (e, r', k') ∧ k_if k' = k_if k ∧ k_addrs k' = k_addrs k
               ∧ k_wlan k' = k_wlan k ∧ ifr_name r' = ifr_name r ∧ is_Some (ifr_bytes r');
  k_bridge fd x k :
    ∃ e x' k', k_ioctl fd SIOCBRDGRTS x k = (e, x', k') ∧ k_if k' = k_if k ∧ k_addrs k' = k_addrs k
               ∧ k_wlan k' = k_wlan k;
  k_socket_if naf k :
    k_if (k_socket naf k).2 = k_if k ∧ k_addrs (k_socket naf k).2 = k_addrs k
    ∧ k_wlan (k_socket naf k).2 = k_wlan k;
  k_difaddr fd r k sa :
    ifr_bytes r = Some sa → is_Some (k_if k (ifr_name r)) →
    ∃ e k',
      k_ioctl fd SIOCDIFADDR r k = (e, r, k')
      ∧ (∀ n, is_Some (k_if k' n) ↔ is_Some (k_if k n))
      ∧ match addr_del sa (k_addrs k (ifr_name r)) with
        | Some l => e = 0 ∧ ∀ n, k_addrs k' n = (<[ifr_name r := l]> (k_addrs k)) n
        | None => e = EADDRNOTAVAIL ∧ ∀ n, k_addrs k' n = k_addrs k n
        end;
  k_aifaddr fd q k :
    sa_family (ifra_addr q) = AF_INET → sa_len (ifra_addr q) ≠ 0 → is_Some (k_if k (ifra_name q)) →
    ∃ e k',
      k_ioctl fd SIOCAIFADDR q k = (e, q, k')
      ∧ (e = 0 → ∀ n,
           k_addrs k' n = (<[ifra_name q := addr_add q (k_addrs k (ifra_name q))]> (k_addrs k)) n);
}.

(** ** The interface list of the kernel *)

(** The name at the start of every argument. *)
Definition req_name {A} (c : iocmd A) : A → string :=
  match c with
  | SIOCGIFFLAGS | SIOCSIFFLAGS | SIOCGIFXFLAGS | SIOCSIFXFLAGS | SIOCGIFMETRIC |
  SIOCSIFMETRIC | SIOCGIFPRIORITY | SIOCGIFADDR | SIOCGIFNETMASK | SIOCGIFDSTADDR | SIOCGIFBRDADDR
  | SIOCGLIFPHYRTABLE | SIOCGIFMTU | SIOCSIFMTU | SIOCGIFRDOMAIN | SIOCSIFRDOMAIN | SIOCSIFPRIORITY |
  SIOCSIFLLADDR | SIOCIFCREATE | SIOCIFDESTROY | SIOCDIFADDR | SIOCG80211FLAGS | SIOCS80211FLAGS
  | SIOCS80211SCAN | SIOCSIFMEDIA | SIOCDIFPHYADDR | SIOCSLIFPHYRTABLE => ifr_name
  | SIOCGETKALIVE | SIOCSETKALIVE => ikar_name
  | SIOCIFGCLONERS => λ _, ""
  | SIOCGIFGMEMB => ifgm_name
  | SIOCGIFDESCR | SIOCSIFDESCR | SIOCSIFRTLABEL => λ x, ifr_name x.1
  | SIOCAIFADDR => ifra_name
  | SIOCDIFADDR_IN6 | SIOCGIFDSTADDR_IN6 | SIOCGIFNETMASK_IN6 | SIOCGIFAFLAG_IN6 | SIOCGIFALIFETIME_IN6 => ifr6_name
  | SIOCAIFADDR_IN6 => ifra6_name
  | SIOCAIFGROUP | SIOCDIFGROUP | SIOCGIFGATTR | SIOCSIFGATTR => ifgr_name
  | SIOCG80211NWID | SIOCS80211NWID => λ x, ifr_name x.1
  | SIOCG80211BSSID | SIOCS80211BSSID => bss_name
  | SIOCG80211NWKEY | SIOCS80211NWKEY => nk_name
  | SIOCG80211WPAPARMS | SIOCS80211WPAPARMS => wpa_name
  | SIOCG80211WPAPSK | SIOCS80211WPAPSK => psk_name
  | SIOCG80211WMMPARMS | SIOCS80211WMMPARMS => wmm_name
  | SIOCG80211CHANNEL | SIOCS80211CHANNEL => ch_name
  | SIOCG80211ALLCHANS => ca_name
  | SIOCG80211TXPOWER | SIOCS80211TXPOWER => tx_name
  | SIOCG80211POWER | SIOCS80211POWER => pw_name
  | SIOCG80211NODE => λ x, default "" (nr_ifname x)
  | SIOCG80211ALLNODES => na_ifname
  | SIOCGIFMEDIA => ifm_name
  | SIOCGIFTIMESLOT | SIOCSIFTIMESLOT | SIOCGETLABEL | SIOCSETLABEL => λ x, ifr_name x.1
  | SIOCGETVLAN | SIOCSETVLAN | SIOCGETVLANPRIO | SIOCSETVLANPRIO => λ x, ifr_name x.1
  | SIOCGVH | SIOCSVH => λ x, ifr_name x.1
  | SIOCGETPFSYNC | SIOCSETPFSYNC => λ x, ifr_name x.1
  | SIOCGETPFLOW | SIOCSETPFLOW => λ x, ifr_name x.1
  | PPPOEGETPARMS | PPPOESETPARMS => pp_ifname
  | PPPOEGETSESSION => ses_ifname
  | SIOCGIFGENERIC_DEFS => λ x, ifr_name x.1
  | SIOCGIFGENERIC | SIOCSIFGENERIC => λ x, ifr_name x.1
  | SIOCGTRUNKPORT | SIOCSTRUNKPORT | SIOCSTRUNKDELPORT => rp_ifname
  | SIOCGTRUNK | SIOCSTRUNK => ra_ifname
  | SIOCGLIFPHYADDR | SIOCSLIFPHYADDR => iflr_name
  | SIOCBRDGGPARAM => ifbop_name
  | SIOCBRDGIFS => ifbic_name
  | SIOCBRDGGIFFLGS | SIOCBRDGSIFFLGS | SIOCBRDGADD | SIOCBRDGDEL | SIOCBRDGADDS |
  SIOCBRDGDELS | SIOCBRDGFLUSH | SIOCBRDGSIFPRIO | SIOCBRDGSIFCOST => ifbr_name
  | SIOCBRDGGCACHE | SIOCBRDGGTO | SIOCBRDGSTO | SIOCBRDGSMA | SIOCBRDGSPRI | SIOCBRDGSPROTO | SIOCBRDGSFD | SIOCBRDGSHT |
  SIOCBRDGSCACHE | SIOCBRDGSTXHC => ifbrp_name
  | SIOCBRDGDADDR | SIOCBRDGSADDR => ifba_name
  | SIOCBRDGRTS => ifbac_name
  | SIOCBRDGFRL => rln_name
  | SIOCBRDGGRL => ifbrl_name
  | SIOCBRDGARL => rl_name
  end.

Fixpoint ifunit (l : list ifnet) (name : string) : option ifnet :=
  match l with
  | [] => None
  | ifp :: l => if bool_decide (if_xname ifp = name) then Some ifp else ifunit l name
  end.

(** Store through the pointer ifunit() returned. *)
Fixpoint if_update (l : list ifnet) (name : string) (i : ifnet) : list ifnet :=
  match l with
  | [] => []
  | ifp :: l => if bool_decide (if_xname ifp = name) then i :: l else ifp :: if_update l name i
  end.

(** if_down() and if_up(): the flag they change. *)
Definition if_down (i : ifnet) : ifnet := with_if_flags (Z.ldiff (if_flags i) IFF_UP) i.
Definition if_up (i : ifnet) : ifnet := with_if_flags (i16 (Z.lor (if_flags i) IFF_UP)) i.

(** Their calls in ifioctl(), before the flags [f] are stored. *)
Definition up_down (f : Z) (i : ifnet) : ifnet :=
  let i := if has_bits (if_flags i) IFF_UP && negb (has_bits f IFF_UP) then if_down i else i in
  if has_bits f IFF_UP && negb (has_bits (if_flags i) IFF_UP) then if_up i else i.

(** ** Lemmas *)

Lemma ifunit_name l n i : ifunit l n = Some i → if_xname i = n.
Proof.
  induction l as [|j l IH]; [done|]. simpl. case_bool_decide; [|done]. by intros [= <-].
Qed.

Lemma if_update_same l n i : ifunit l n = Some i → if_update l n i = l.
Proof.
  induction l as [|j l IH]; [done|]. simpl. case_bool_decide.
  - by intros [= <-].
  - intros E. by rewrite IH.
Qed.

Lemma ifunit_update l n i i' m :
  ifunit l n = Some i → if_xname i' = n →
  ifunit (if_update l n i') m = if decide (m = n) then Some i' else ifunit l m.
Proof.
  intros E Hi. induction l as [|j l IH]; [done|]. simpl in *.
  repeat case_bool_decide; simplify_eq; simpl; repeat case_decide; simplify_eq;
    rewrite ?bool_decide_true, ?bool_decide_false by congruence; try done; auto.
Qed.

Lemma i16_range z : -32768 ≤ i16 z ≤ 32767.
Proof. unfold i16, sx. change (16 - 1) with 15. pose proof (Z.mod_pos_bound (z + 2 ^ 15) (2 ^ 16)). lia. Qed.

Lemma i16_mod z : i16 z `mod` 2 ^ 16 = z `mod` 2 ^ 16.
Proof.
  unfold i16, sx. rewrite Zminus_mod_idemp_l. f_equal. change (16 - 1) with 15. lia.
Qed.

Lemma set_ifr_flags_i16 r f : set_ifr_flags r (i16 f) = set_ifr_flags r f.
Proof.
  unfold set_ifr_flags. f_equal. apply le_combine_inj; [by rewrite !length_le_split|].
  rewrite !le_combine_split. apply i16_mod.
Qed.

Lemma land_mod a m k : 0 ≤ k → 0 ≤ m < 2 ^ k → Z.land (a `mod` 2 ^ k) m = Z.land a m.
Proof.
  intros Hk Hm. rewrite <- (Z.land_ones a k), <- Z.land_assoc, (Z.land_comm (Z.ones k)) by done.
  by rewrite Z.land_ones, (Z.mod_small m).
Qed.

Lemma land_i16 a m : 0 ≤ m < 2 ^ 16 → Z.land (i16 a) m = Z.land a m.
Proof.
  intros Hm. rewrite <- (land_mod (i16 a) m 16), <- (land_mod a m 16) by lia.
  by rewrite i16_mod.
Qed.

Lemma land_changeable a f :
  Z.land (Z.lor (Z.land a IFF_CANTCHANGE) (Z.ldiff f IFF_CANTCHANGE)) IFF_CHANGEABLE
  = Z.land f IFF_CHANGEABLE.
Proof.
  apply Z.bits_inj'. intros n Hn. unfold IFF_CHANGEABLE.
  rewrite !Z.land_spec, Z.lor_spec, Z.land_spec, !Z.ldiff_spec.
  destruct (Z.testbit a n), (Z.testbit f n), (Z.testbit IFF_CANTCHANGE n), (Z.testbit 0xffff n); done.
Qed.

Section ifnet.
(** What the driver or the protocol of an interface does with a request. *)
Variable drv : ∀ {A}, iocmd A → A → ifnet → Z * A * ifnet.
(** Interface cloning, and the requests on groups and on the cloners. *)
Variable clone : iocmd ifreq → string → list ifnet → Z * list ifnet.
Variable grp : ∀ {A}, iocmd A → A → list ifnet → Z * A.

Definition set_flags (r : ifreq) (i : ifnet) : Z * ifreq * ifnet :=
  match ifr_flags r with
  | None => (EINVAL, r, i)
  | Some f =>
      let i := up_down f i in
      let new := i16 (Z.lor (Z.land (if_flags i) IFF_CANTCHANGE) (Z.ldiff f IFF_CANTCHANGE)) in
      let '(_, r', i') := drv SIOCSIFFLAGS r (with_if_flags new i) in (0, r', i')
  end.

(** in_control() for SIOCAIFADDR; in_ifinit() asks the driver unless the
    address and its mask are there already and no address of the other end is
    given, and when it fails a new address is removed again. *)
Definition mask_is_new (q : aliasreq) (i : ifnet) : bool :=
  negb (sa_len (ifra_mask q) =? 0)
  || has_bits (if_flags i) IFF_POINTOPOINT && (sa_family (ifra_dstaddr q) =? AF_INET).

Definition add_address (q : aliasreq) (i : ifnet) : Z * aliasreq * ifnet :=
  if (sa_family (ifra_addr q) =? AF_INET) && negb (sa_len (ifra_addr q) =? 0) then
    let old := if_addrlist i in
    let known := existsb (λ ia, ia_addr ia =? sin_addr (ifra_addr q)) old in
    if known && negb (mask_is_new q i) then (0, q, with_if_addrs (addr_add q old) i)
    else
      let '(e, _, i') := drv SIOCAIFADDR q i in
      (e, q, with_if_addrs (if (e =? 0) || known then addr_add q old else old) i')
  else drv SIOCAIFADDR q i.

Definition set_metric (r : ifreq) (i : ifnet) : Z * ifreq * ifnet :=
  match ifr_metric r with Some m => (0, r, with_if_metric m i) | None => (EINVAL, r, i) end.

Definition set_priority (r : ifreq) (i : ifnet) : Z * ifreq * ifnet :=
  match ifr_metric r with
  | Some m => if (m <? 0) || (15 <? m) then (EINVAL, r, i) else (0, r, with_if_priority m i)
  | None => (EINVAL, r, i)
  end.

(** copyinstr() refuses a description that does not fit with its terminator. *)
Definition set_descr (x : ifreq * string) (i : ifnet) : Z * (ifreq * string) * ifnet :=
  if slen x.2 <? IFDESCRSIZE then (0, x, with_if_description x.2 i) else (ENAMETOOLONG, x, i).

(** The second switch of ifioctl(), for the superuser. *)
Definition if_request {A} (c : iocmd A) : A → ifnet → Z * A * ifnet :=
  match c in iocmd A return A → ifnet → Z * A * ifnet with
  | SIOCGIFFLAGS => λ r i, (0, set_ifr_flags r (if_flags i), i)
  | SIOCGIFXFLAGS => λ r i, (0, set_ifr_flags r (if_xflags i), i)
  | SIOCGIFMETRIC => λ r i, (0, set_ifr_metric r (if_metric i), i)
  | SIOCGIFMTU => λ r i, (0, set_ifr_metric r (if_mtu i), i)
  | SIOCGIFRDOMAIN => λ r i, (0, set_ifr_metric r (if_rdomain i), i)
  | SIOCSIFFLAGS => set_flags
  | SIOCSIFMETRIC => set_metric
  | SIOCSIFPRIORITY => set_priority
  | SIOCGIFPRIORITY => λ r i, (0, set_ifr_metric r (if_priority i), i)
  | SIOCGIFDESCR => λ x i, (0, (x.1, if_description i), i)
  | SIOCSIFDESCR => set_descr
  | SIOCDIFADDR => λ r i,
      match ifr_bytes r with
      | None => (EINVAL, r, i)
      | Some sa =>
          match addr_del sa (if_addrlist i) with
          | Some l => (0, r, with_if_addrs l i)
          | None => (EADDRNOTAVAIL, r, i)
          end
      end
  | SIOCAIFADDR => add_address
  | c => drv c
  end.

(** The requests of the first switch name no existing interface. *)
Definition ifioctl {A} (c : iocmd A) (x : A) (l : list ifnet) : Z * A * list ifnet :=
  let on_ifp c x :=
    match ifunit l (req_name c x) with
    | None => (ENXIO, x, l)
    | Some ifp =>
        let '(e, x', ifp') := if_request c x ifp in (e, x', if_update l (req_name c x) ifp')
    end in
  match c in iocmd A return (iocmd A → A → Z * A * list ifnet) → A → Z * A * list ifnet with
  | SIOCIFCREATE => λ _ r, let '(e, l') := clone SIOCIFCREATE (ifr_name r) l in (e, r, l')
  | SIOCIFDESTROY => λ _ r, let '(e, l') := clone SIOCIFDESTROY (ifr_name r) l in (e, r, l')
  | SIOCGIFGATTR => λ _ g, let '(e, g') := grp SIOCGIFGATTR g l in (e, g', l)
  | SIOCSIFGATTR => λ _ g, let '(e, g') := grp SIOCSIFGATTR g l in (e, g', l)
  | SIOCGIFGMEMB => λ _ m, let '(e, m') := grp SIOCGIFGMEMB m l in (e, m', l)
  | SIOCIFGCLONERS => λ _ r, let '(e, r') := grp SIOCIFGCLONERS r l in (e, r', l)
  | c => λ k, k c
  end on_ifp x.

#[local] Instance ifnet_kernel : Kernel := {|
  kstate := list ifnet;
  k_ioctl := λ A _ c x l, ifioctl c x l;
  k_socket := λ _ l, (inl 3, l);
  k_getifaddrs := λ _, Some [];
  k_arc4random_buf := λ n l, (zeros n, l);
  k_file := λ _ _, None;
  k_gettimeofday := λ _, 0;
|}.

(** A driver keeps the name and the addresses of its interface, and, when it is
    told of new flags, those a user sets; the bridge driver does not change the interface when it is
    asked for its addresses. *)
Hypothesis drv_name : ∀ A (c : iocmd A) x i, if_xname (drv c x i).2 = if_xname i.
Hypothesis drv_addrs : ∀ A (c : iocmd A) x i, if_addrlist (drv c x i).2 = if_addrlist i.
Hypothesis drv_flags : ∀ x i,
  Z.land (if_flags (drv SIOCSIFFLAGS x i).2) IFF_CHANGEABLE = Z.land (if_flags i) IFF_CHANGEABLE.
Hypothesis drv_rts : ∀ x i, (drv SIOCBRDGRTS x i).2 = i.

Definition flags_of (l : list ifnet) (n : string) : option Z :=
  (λ i, i16 (if_flags i)) <$> ifunit l n.
Definition addrs_of (l : list ifnet) (n : string) : list inaddr :=
  from_option if_addrlist [] (ifunit l n).

Definition wlan_of (l : list ifnet) (n : string) : option ieee80211com := ifunit l n ≫= if_ic.

Lemma flags_of_short l n f : flags_of l n = Some f → SHRT_MIN ≤ f ≤ SHRT_MAX.
Proof.
  unfold flags_of. destruct (ifunit l n) as [i|]; [|done]. intros [= <-].
  pose proof (i16_range (if_flags i)). unfold SHRT_MIN, SHRT_MAX. lia.
Qed.

(** What storing an interface changes. *)
Lemma update_others l n i i' m :
  ifunit l n = Some i → if_xname i' = n →
  (m ≠ n → flags_of (if_update l n i') m = flags_of l m)
  ∧ addrs_of (if_update l n i') m = (<[n := if_addrlist i']> (addrs_of l)) m
  ∧ (is_Some (flags_of (if_update l n i') m) ↔ is_Some (flags_of l m)).
Proof.
  intros E Hi. unfold flags_of, addrs_of. rewrite (ifunit_update _ _ _ _ m E Hi).
  case_decide as Hm; [subst m; rewrite fn_lookup_insert|rewrite fn_lookup_insert_ne by congruence; done].
  split_and!; [done|done|]. rewrite E. split; by eexists.
Qed.

Lemma insert_addrs_same l n i m :
  ifunit l n = Some i → (<[n := if_addrlist i]> (addrs_of l)) m = addrs_of l m.
Proof.
  intros E. destruct (decide (m = n)) as [->|]; [|by rewrite fn_lookup_insert_ne].
  rewrite fn_lookup_insert. unfold addrs_of. by rewrite E.
Qed.

Lemma getflags_law r l :
  ifioctl SIOCGIFFLAGS r l =
    match flags_of l (ifr_name r) with
    | Some f => (0, set_ifr_flags r f, l)
    | None => (ENXIO, r, l)
    end.
Proof.
  unfold flags_of, ifioctl. cbn [req_name].
  destruct (ifunit l (ifr_name r)) as [i|] eqn:E; [|done].
  cbn [if_request fmap option_fmap option_map]. by rewrite (if_update_same _ _ _ E), set_ifr_flags_i16.
Qed.

Lemma set_flags_spec r f i :
  ifr_flags r = Some f →
  ∃ r' i', set_flags r i = (0, r', i') ∧ if_xname i' = if_xname i ∧ if_addrlist i' = if_addrlist i
           ∧ Z.land (i16 (if_flags i')) IFF_CHANGEABLE = Z.land f IFF_CHANGEABLE.
Proof using drv_name drv_flags drv_addrs.
  intros Hf. unfold set_flags. rewrite Hf.
  assert (if_xname (up_down f i) = if_xname i ∧ if_addrlist (up_down f i) = if_addrlist i) as [E2 E3]
    by (unfold up_down; repeat case_match; done).
  set (j := with_if_flags _ (up_down f i)).
  pose proof (drv_name _ SIOCSIFFLAGS r j) as Hn. pose proof (drv_flags r j) as Hl.
  pose proof (drv_addrs _ SIOCSIFFLAGS r j) as Ha.
  destruct (drv SIOCSIFFLAGS r j) as [[e r'] i']. eexists _, _. split; [done|].
  cbn [snd] in *. split; [by rewrite Hn|]. split; [by rewrite Ha|].
  rewrite land_i16, Hl by done. subst j. cbn [with_if_flags if_flags].
  by rewrite land_i16, land_changeable by done.
Qed.

Lemma setflags_law r l f old :
  ifr_flags r = Some f → flags_of l (ifr_name r) = Some old →
  ∃ r' l' new,
    ifioctl SIOCSIFFLAGS r l = (0, r', l')
    ∧ flags_of l' (ifr_name r) = Some new
    ∧ Z.land new IFF_CHANGEABLE = Z.land f IFF_CHANGEABLE
    ∧ (∀ n, n ≠ ifr_name r → flags_of l' n = flags_of l n)
    ∧ ∀ n, addrs_of l' n = addrs_of l n.
Proof using drv_name drv_flags drv_addrs.
  intros Hf Ho. destruct (ifunit l (ifr_name r)) as [i|] eqn:E; [|by unfold flags_of in Ho; rewrite E in Ho].
  destruct (set_flags_spec r f i Hf) as (r' & i' & Es & En & Ea & Ef).
  pose proof (ifunit_name _ _ _ E) as Hname.
  unfold ifioctl. cbn [req_name if_request]. rewrite E, Es. eexists _, _, _. split; [done|].
  split_and!; [|done|..].
  - unfold flags_of. rewrite (ifunit_update _ _ i) by congruence. by rewrite decide_True.
  - intros n Hn. by apply (update_others l (ifr_name r) i); [|congruence|].
  - intros n. destruct (update_others l (ifr_name r) i i' n) as (_ & -> & _); [done|congruence|].
    rewrite Ea. by apply insert_addrs_same.
Qed.

Lemma setflags_none_law r l :
  flags_of l (ifr_name r) = None → ifioctl SIOCSIFFLAGS r l = (ENXIO, r, l).
Proof.
  unfold flags_of, ifioctl. cbn [req_name]. by destruct (ifunit l (ifr_name r)).
Qed.

Lemma getinfo_law c r l :
  getinfo_req c → is_Some (ifr_bytes r) →
  ∃ e r' l', ifioctl c r l = (e, r', l') ∧ flags_of l' = flags_of l ∧ addrs_of l' = addrs_of l
             ∧ wlan_of l' = wlan_of l ∧ ifr_name r' = ifr_name r ∧ is_Some (ifr_bytes r').
Proof.
  intros Hc Hb. destruct Hc; unfold ifioctl; cbn [req_name if_request];
    destruct (ifunit l (ifr_name r)) as [i|] eqn:E;
    try (rewrite (if_update_same _ _ _ E)); by eexists _, _, _.
Qed.

Lemma bridge_law x l :
  ∃ e x' l', ifioctl SIOCBRDGRTS x l = (e, x', l') ∧ flags_of l' = flags_of l ∧ addrs_of l' = addrs_of l
             ∧ wlan_of l' = wlan_of l.
Proof using drv_rts.
  unfold ifioctl. cbn [req_name if_request].
  destruct (ifunit l (ifbac_name x)) as [i|] eqn:E; [|by eexists _, _, _].
  pose proof (drv_rts x i) as Hi. destruct (drv SIOCBRDGRTS x i) as [[e x'] i'].
  cbn [snd] in Hi. subst i'. rewrite (if_update_same _ _ _ E). by eexists _, _, _.
Qed.

Lemma flags_of_ifunit l n : is_Some (flags_of l n) → ∃ i, ifunit l n = Some i ∧ if_xname i = n.
Proof.
  unfold flags_of. intros [f Hf]. destruct (ifunit l n) as [i|] eqn:E; [|done].
  exists i. split; [done|]. by eapply ifunit_name.
Qed.

Lemma addrs_of_ifunit l n i : ifunit l n = Some i → addrs_of l n = if_addrlist i.
Proof. unfold addrs_of. by intros ->. Qed.

Lemma difaddr_law r l sa :
  ifr_bytes r = Some sa → is_Some (flags_of l (ifr_name r)) →
  ∃ e l',
    ifioctl SIOCDIFADDR r l = (e, r, l')
    ∧ (∀ n, is_Some (flags_of l' n) ↔ is_Some (flags_of l n))
    ∧ match addr_del sa (addrs_of l (ifr_name r)) with
      | Some a => e = 0 ∧ ∀ n, addrs_of l' n = (<[ifr_name r := a]> (addrs_of l)) n
      | None => e = EADDRNOTAVAIL ∧ ∀ n, addrs_of l' n = addrs_of l n
      end.
Proof.
  intros Hb (i & E & Hn)%flags_of_ifunit. rewrite (addrs_of_ifunit _ _ _ E).
  unfold ifioctl. cbn [req_name if_request]. rewrite E, Hb.
  destruct (addr_del sa (if_addrlist i)) as [a|]; eexists _, _; (split; [done|]).
  - assert (∀ n, _) as H by (intros n; exact (update_others l (ifr_name r) i (with_if_addrs a i) n E Hn)).
    split_and!; [intros n; apply (H n)|done|intros n; apply (H n)].
  - by rewrite (if_update_same _ _ _ E).
Qed.

Lemma aifaddr_law q l :
  sa_family (ifra_addr q) = AF_INET → sa_len (ifra_addr q) ≠ 0 → is_Some (flags_of l (ifra_name q)) →
  ∃ e l',
    ifioctl SIOCAIFADDR q l = (e, q, l')
    ∧ (e = 0 → ∀ n,
         addrs_of l' n = (<[ifra_name q := addr_add q (addrs_of l (ifra_name q))]> (addrs_of l)) n).
Proof using drv_name.
  intros Hfam Hlen (i & E & Hn)%flags_of_ifunit. rewrite (addrs_of_ifunit _ _ _ E).
  unfold ifioctl. cbn [req_name if_request]. rewrite E. unfold add_address.
  rewrite (proj2 (Z.eqb_eq _ _) Hfam), (proj2 (Z.eqb_neq _ _) Hlen). cbn [negb andb].
  set (known := existsb _ _). destruct (known && negb (mask_is_new q i)).
  { eexists _, _. split; [done|]. intros _ n. by apply (update_others l _ i). }
  pose proof (drv_name _ SIOCAIFADDR q i) as Hi. destruct (drv SIOCAIFADDR q i) as [[e x] i'].
  eexists _, _. split; [done|]. intros -> n. cbn [Z.eqb orb] in *.
  destruct (update_others l (ifra_name q) i (with_if_addrs (addr_add q (if_addrlist i)) i') n E)
    as (_ & -> & _); [|done]. cbn [if_xname with_if_addrs]. simpl in Hi. congruence.
Qed.

#[local] Instance ifnet_laws : IfLaws ifnet_kernel.
Proof using drv_name drv_flags drv_rts drv_addrs.
  refine (Build_IfLaws ifnet_kernel flags_of addrs_of wlan_of _ _ _ _ _ _ _ _ _).
  - intros k n f. apply flags_of_short.
  - intros. apply getflags_law.
  - intros. by eapply setflags_law.
  - intros. by apply setflags_none_law.
  - intros. by apply getinfo_law.
  - intros. by apply bridge_law.
  - done.
  - intros. by apply difaddr_law.
  - intros. by apply aifaddr_law.
Defined.
End ifnet.

(** ** A kernel to evaluate

    Its drivers accept addresses and refuse every other request. *)
Definition plain_drv {A} (c : iocmd A) (x : A) (i : ifnet) : Z * A * ifnet :=
  match c with
  | SIOCAIFADDR | SIOCDIFADDR => (0, x, i)
  | _ => (ENOTTY, x, i)
  end.

Definition plain_kernel : Kernel :=
  ifnet_kernel (@plain_drv) (λ _ _ l, (EINVAL, l)) (λ _ _ x _, (0, x)).

Lemma plain_drv_same A (c : iocmd A) x i : (plain_drv c x i).2 = i.
Proof. by destruct c. Qed.

Definition plain_laws : IfLaws plain_kernel.
Proof.
  refine (ifnet_laws (@plain_drv) _ _ _ _ _ _); intros; by rewrite plain_drv_same.
Defined.
