(* ===== verification/WlanProps.v ===== *)
(** * WlanProps: the wireless requests on a well-formed interface

    [ic_wf] is the invariant of a struct ieee80211com: the sizes of its arrays
    and the ranges of what the requests copy out.  A request that fits (Fits)
    is defined on such an interface, its answer fits, and the interface stays
    well-formed; the kernel with an iwn interface is therefore one the
    theorems of GateTypes apply to. *)
From coqutil Require Import Byte Word.LittleEndianList.
From stdpp Require Import base list strings functions.
From S2P Require Import Prelude IfData Fits IfNet Net80211 IfCore IfWireless TypeProps IfKernel.

(** ** The invariant *)

Definition node_wf (ni : ieee80211_node) : Prop :=
  Zlen (ni_macaddr ni) = 6 ∧ Zlen (ni_bssid ni) = 6 ∧ 0 ≤ ni_esslen ni ≤ 32 ∧ Zlen (ni_essid ni) = 32
  ∧ Zlen (ni_rates ni) = 15 ∧ in_u8 (ni_rssi ni).

(** A node of the tree is on a channel of the array. *)
Definition on_channel (ni : ieee80211_node) : Prop := ∃ n, ni_chan ni = CH_idx n ∧ 0 ≤ n < 256.

Definition wkey_wf (k : ieee80211_key) : Prop := Zlen (k_key k) = 32 ∧ 0 ≤ k_len k ≤ 32.

Definition scalars_wf (v : icvar → Z) : Prop :=
  0 ≤ v IC_des_esslen ≤ 32 ∧ 0 ≤ v IC_def_txkey < 4 ∧ in_u16 (v IC_lintval) ∧ in_i16 (v IC_txpower)
  ∧ in_u8 (v IC_max_rssi).

Record ic_wf (ic : ieee80211com) : Prop := mk_ic_wf {
  wf_v : scalars_wf (ic_v ic);
  wf_myaddr : Zlen (ic_myaddr ic) = 6;
  wf_channels : length (ic_channels ic) = 256%nat
                ∧ Forall (λ ch, in_u16 (ic_freq ch) ∧ in_u16 (ch_flags ch)) (ic_channels ic);
  wf_active : length (ic_chan_active ic) = 32%nat;
  wf_bss : node_wf (ic_bss ic);
  wf_tree : Forall (λ ni, node_wf ni ∧ on_channel ni) (ic_tree ic) ∧ Zlen (ic_tree ic) < 2 ^ 31;
  wf_essid : Zlen (ic_des_essid ic) = 32;
  wf_bssid : Zlen (ic_des_bssid ic) = 6;
  wf_keys : length (ic_nw_keys ic) = 6%nat ∧ Forall wkey_wf (ic_nw_keys ic);
  wf_psk : Zlen (ic_psk ic) = 32;
}.

Definition if_wf (i : ifnet) : Prop := if_set ic_wf (if_ic i).
Definition wlan_wf (i : ifnet) : Prop := ∃ ic, if_ic i = Some ic ∧ ic_wf ic.

(** What the driver leaves as it is. *)
Definition same_if (i i' : ifnet) : Prop := if_xname i' = if_xname i ∧ if_addrlist i' = if_addrlist i.

(** What the requests rely on in the hardware, the protocol and the rest of
    the network code: they keep the invariant. *)
Class WlanLaws (E : WlanEnv) := {
  wl_newstate s ic : ic_wf ic → ic_wf (w_newstate s ic);
  wl_scan ic : ic_wf ic → ic_wf (w_scan ic);
  wl_hardware ic : ic_wf ic → ic_wf (w_hardware ic).2;
  wl_other {A} (c : iocmd A) x i :
    if_wf i → fits c x →
    ∀ e x' i', w_other c x i = (e, x', i') →
      if_wf i' ∧ (is_Some (if_ic i) → is_Some (if_ic i')) ∧ same_if i i' ∧ fits c x';
}.

(** ** Stores *)

Lemma set_v_wf v x ic : scalars_wf (<[v := x]> (ic_v ic)) → ic_wf ic → ic_wf (ic_set v x ic).
Proof. intros Hv []. by split. Qed.

(** A scalar the invariant does not bound. *)
Definition bounded (v : icvar) : bool :=
  match v with IC_des_esslen | IC_def_txkey | IC_lintval | IC_txpower | IC_max_rssi => true | _ => false end.

Lemma set_free_wf v x ic : bounded v = false → ic_wf ic → ic_wf (ic_set v x ic).
Proof.
  intros Hb Hic. apply set_v_wf; [|done]. unfold scalars_wf.
  rewrite !fn_lookup_insert_ne by (by intros ->). apply (wf_v _ Hic).
Qed.

Lemma set_essid_wf e ic : Zlen e = 32 → ic_wf ic → ic_wf (set_ic_des_essid e ic).
Proof. intros He []. by split. Qed.
Lemma set_bssid_wf b ic : Zlen b = 6 → ic_wf ic → ic_wf (set_ic_des_bssid b ic).
Proof. intros Hb []. by split. Qed.
Lemma set_psk_wf p ic : Zlen p = 32 → ic_wf ic → ic_wf (set_ic_psk p ic).
Proof. intros Hp []. by split. Qed.
Lemma set_chan_wf c ic : ic_wf ic → ic_wf (set_ic_des_chan c ic) ∧ ic_wf (set_ic_ibss_chan c ic).
Proof. intros []. split; by split. Qed.
Lemma set_tree_wf ic : ic_wf ic → ic_wf (set_ic_tree [] ic).
Proof. intros []. by split. Qed.
Lemma set_key_wf i k ic : wkey_wf k → ic_wf ic → ic_wf (set_ic_nw_keys (<[i := k]> (ic_nw_keys ic)) ic).
Proof.
  intros Hk [? ? ? ? ? ? ? ? [Hl Hf] ?]. split; try done. cbn. rewrite length_insert. split; [done|].
  by apply Forall_insert.
Qed.

Lemma memcpy_some dst src n :
  0 ≤ n ≤ Zlen dst → n ≤ Zlen src → ∃ r, memcpy dst src n = Some r ∧ Zlen r = Zlen dst.
Proof.
  intros Hd Hs. unfold memcpy. rewrite (proj2 (Z.leb_le 0 n)), (proj2 (Z.leb_le n (Zlen dst))),
    (proj2 (Z.leb_le n (Zlen src))) by lia. cbn [andb]. eexists. split; [done|].
  rewrite Zlen_app, Zlen_Ztake, Zlen_Zdrop by lia. lia.
Qed.

(** ** Computations that are defined and keep it *)

Section nok.
Context {E : WlanEnv} {WL : WlanLaws E}.

Definition nok {A} (m : NM A) (Q : A → Prop) : Prop :=
  ∀ i, wlan_wf i → ∃ a i', m i = (Ok a, i') ∧ wlan_wf i' ∧ same_if i i' ∧ Q a.

Lemma nok_ret {A} (a : A) (Q : A → Prop) : Q a → nok (mret a) Q.
Proof. intros HQ i Hi. by exists a, i. Qed.

Lemma nok_bind {A B} (m : NM A) (f : A → NM B) P Q :
  nok m P → (∀ a, P a → nok (f a) Q) → nok (m ≫= f) Q.
Proof.
  intros Hm Hf i Hi. destruct (Hm i Hi) as (a & i1 & E1 & H1 & [S1 S1'] & HP).
  destruct (Hf a HP i1 H1) as (b & i2 & E2 & H2 & [S2 S2'] & HQ). exists b, i2. unfold mbind, CM_bind.
  rewrite E1. split; [done|]. split; [done|]. split; [split; congruence|done].
Qed.

Lemma nok_mono {A} (m : NM A) (P Q : A → Prop) : nok m P → (∀ a, P a → Q a) → nok m Q.
Proof. intros Hm H i Hi. destruct (Hm i Hi) as (a & i' & ? & ? & ? & ?). exists a, i'. eauto. Qed.

Lemma nok_need {A} (o : option A) (Q : A → Prop) : (∃ a, o = Some a ∧ Q a) → nok (nneed o) Q.
Proof. intros (a & -> & HQ). by apply nok_ret. Qed.

Lemma nok_get : nok ic_get ic_wf.
Proof.
  intros i (ic & Hic & Hwf). exists ic, i. unfold ic_get, mbind, CM_bind, get, gets, nneed. rewrite Hic.
  split_and!; [done| |done..]. by exists ic.
Qed.

Lemma nok_mod f : (∀ ic, ic_wf ic → ic_wf (f ic)) → nok (ic_mod f) (λ _, True).
Proof.
  intros Hf i (ic & Hic & Hwf). eexists _, _. split; [reflexivity|]. split_and!; [|done..].
  exists (f ic). cbn. rewrite Hic. split; [done|by apply Hf].
Qed.

Lemma nok_rd v : nok (ic_rd v) (λ z, ∃ ic, ic_wf ic ∧ z = ic_v ic v).
Proof. eapply nok_bind; [apply nok_get|]. intros ic Hic. apply nok_ret. by exists ic. Qed.

Lemma nok_flags (f : ifnet → Z) : nok (modify (λ i, with_if_flags (f i) i)) (λ _, True).
Proof. intros i Hi. eexists _, _. split; [reflexivity|]. by split_and!. Qed.

Lemma nok_wr_free v x : bounded v = false → nok (ic_wr v x) (λ _, True).
Proof. intros Hb. apply nok_mod. intros ic Hic. by apply set_free_wf. Qed.

Lemma nok_flag_on m : nok (flag_on m) (λ _, True).
Proof. eapply nok_bind; [apply nok_rd|]. intros f _. by apply nok_wr_free. Qed.
Lemma nok_flag_off m : nok (flag_off m) (λ _, True).
Proof. eapply nok_bind; [apply nok_rd|]. intros f _. by apply nok_wr_free. Qed.

Lemma nok_setting {A} (x : A) m : nok m (λ _, True) → nok (setting x m) (λ r, r.2 = x).
Proof.
  intros Hm. unfold setting. case_match; [by apply nok_ret|].
  eapply nok_bind; [apply Hm|]. intros e _. by apply nok_ret.
Qed.

Lemma nok_newstate s : nok (ic_mod (w_newstate s)) (λ _, True).
Proof using WL. apply nok_mod, wl_newstate. Qed.
End nok.

Create HintDb wlan.
#[export] Hint Resolve nok_flag_on nok_flag_off nok_newstate nok_rd nok_get : wlan.
#[export] Hint Resolve set_essid_wf set_bssid_wf set_psk_wf set_tree_wf : wlan.
#[export] Hint Extern 2 (nok (ic_wr _ _) _) => apply nok_wr_free; done : wlan.

(** One step of a request. *)
Ltac nok_step :=
  lazymatch goal with
  | |- nok (mbind _ ?m) _ =>
      lazymatch m with
      | if ?b then _ else _ => eapply (nok_bind _ _ (λ _, True)); [|intros ? _]
      | _ => eapply nok_bind; [solve [eauto with wlan nocore]|intros ? ?]
      end
  | |- nok (if ?b then _ else _) _ => destruct b eqn:?
  | |- nok (mret _) _ => apply nok_ret
  | |- nok (let x := _ in _) _ => cbv zeta
  | |- nok _ _ => solve [eapply nok_mono; [solve [eauto with wlan nocore]|done]]
  end; cbv beta in *.
Ltac noks := repeat nok_step; try done.

Section requests.
Context {E : WlanEnv} {WL : WlanLaws E}.

(** ** Settings *)

Lemma nok_set_nwid n : nwid_ok n → nok (set_nwid n) (λ _, True).
Proof.
  intros [Hn He]. unfold set_nwid. destruct (Z.ltb_spec IEEE80211_NWID_LEN (i_len n)) as [|Hl]; [noks|].
  change IEEE80211_NWID_LEN with 32 in Hl. unfold in_u8 in Hn.
  eapply nok_bind; [apply nok_mod; intros; by apply set_essid_wf|intros _ _].
  eapply nok_bind; [apply nok_mod; intros ic Hic; apply set_v_wf; [|done]|intros _ _].
  { destruct (wf_v _ Hic) as (? & Hr). unfold scalars_wf. rewrite fn_lookup_insert, !fn_lookup_insert_ne by done.
    split; [lia|done]. }
  nok_step. destruct (memcpy_some (ic_des_essid a) (i_nwid n) (i_len n)) as (r & Er & Hr);
    [rewrite (wf_essid _ H); lia|lia|]. rewrite (wf_essid _ H) in Hr.
  eapply (nok_bind _ _ (λ x, x = r)); [apply nok_need; by exists r|]. intros e ->.
  eapply nok_bind; [apply nok_mod; intros; by apply set_essid_wf|]. intros _ _. noks.
Qed.

Lemma nok_set_wpapsk p : wpapsk_ok p → nok (set_wpapsk p) (λ _, True).
Proof.
  intros (_ & _ & Hp). unfold set_wpapsk. eapply (nok_bind _ _ (λ _, True)); [|intros; noks].
  nok_step.
  - nok_step. destruct (memcpy_some (zeros 32) (i_psk p) 32) as (r & Er & Hr); [done|lia|].
    eapply (nok_bind _ _ (λ x, x = r)); [apply nok_need; by exists r|]. intros e ->. apply nok_mod. intros; by apply set_psk_wf.
  - nok_step. apply nok_mod. intros; by apply set_psk_wf.
Qed.

Lemma nok_set_wmm w : nok (set_wmm w) (λ _, True).
Proof. unfold set_wmm. noks. Qed.

Lemma nok_set_power p : nok (set_power p) (λ _, True).
Proof.
  unfold set_power. cbv zeta.
  eapply nok_bind; [apply nok_mod; intros ic Hic; apply set_v_wf; [|done]|intros _ _; noks].
  destruct (wf_v _ Hic) as (? & ? & ? & ?). unfold scalars_wf. rewrite fn_lookup_insert, !fn_lookup_insert_ne by done.
  split; [done|]. split; [done|]. split; [apply u16_fits|done].
Qed.

Lemma nok_set_bssid b : Zlen b = 6 → nok (set_bssid b) (λ _, True).
Proof.
  intros Hb. unfold set_bssid. eapply (nok_bind _ _ (λ _, True)); [|intros; noks].
  nok_step; [noks|]. nok_step. apply nok_mod. intros; by apply set_bssid_wf.
Qed.

Lemma nok_chan_reset : nok chan_reset (λ _, True).
Proof. unfold chan_reset. noks. Qed.
#[local] Hint Resolve nok_chan_reset : wlan.

Lemma nok_set_channel n : in_u16 n → nok (set_channel n) (λ _, True).
Proof.
  intros Hn. assert (∀ c, nok (ic_mod (set_ic_des_chan c)) (λ _, True)) as H1
    by (intros; apply nok_mod; intros; by apply set_chan_wf).
  assert (∀ c, nok (ic_mod (set_ic_ibss_chan c)) (λ _, True)) as H2
    by (intros; apply nok_mod; intros; by apply set_chan_wf).
  unfold set_channel. nok_step; [eapply nok_bind; [apply H1|intros; noks]|].
  destruct (Z.ltb_spec IEEE80211_CHAN_MAX n) as [|Hm]; [noks|]. change IEEE80211_CHAN_MAX with 255 in Hm.
  nok_step. unfold in_u16 in Hn. eapply (nok_bind _ _ (λ _, True)).
  - apply nok_need. unfold isset. destruct (lookup_lt_is_Some_2 (ic_chan_active a) (Z.to_nat (n / 8))) as [b Eb].
    { rewrite (wf_active _ H). pose proof (Z.div_lt_upper_bound n 8 32). lia. }
    rewrite Eb. by eexists.
  - intros act _. nok_step; [noks|]. eapply nok_bind; [apply H1|intros _ _].
    eapply nok_bind; [apply H2|intros _ _]. noks.
Qed.

Lemma nok_set_txpower v : nok (set_txpower v) (λ _, True).
Proof.
  unfold set_txpower. nok_step. nok_step; [noks|]. cbv zeta.
  destruct (Z.leb_spec IEEE80211_TXPOWER_MIN (default (i16 w_stack) v)); cbn [andb negb]; [|noks].
  destruct (Z.leb_spec (default (i16 w_stack) v) IEEE80211_TXPOWER_MAX); cbn [negb]; [|noks].
  eapply nok_bind; [apply nok_mod; intros ic Hic; apply set_v_wf; [|done]|intros _ _; noks].
  destruct (wf_v _ Hic) as (? & ? & ? & ? & ?). unfold scalars_wf. rewrite fn_lookup_insert, !fn_lookup_insert_ne by done.
  split; [done|]. split; [done|]. split; [done|]. split; [|done]. unfold in_i16. change IEEE80211_TXPOWER_MIN with (-50) in *.
  change IEEE80211_TXPOWER_MAX with 100 in *. lia.
Qed.

Lemma nok_setwpa w : nok (ieee80211_ioctl_setwpaparms w) (λ _, True).
Proof. unfold ieee80211_ioctl_setwpaparms. noks. Qed.

(** ** Keys *)

Lemma keylen_range c : 0 ≤ ieee80211_cipher_keylen c ≤ 32.
Proof. unfold ieee80211_cipher_keylen. repeat case_match; lia. Qed.

Lemma nok_put_key i k : wkey_wf k → nok (put_key i k) (λ _, True).
Proof. intros Hk. apply nok_mod. intros; by apply set_key_wf. Qed.

Lemma nok_setnwkeys_loop ks : ∀ i,
  (i + length ks ≤ 6)%nat → Forall key_ok ks → nok (setnwkeys_loop i ks) (λ _, True).
Proof.
  induction ks as [|[keylen keydat] ks IH]; intros i Hi Hk; cbn [setnwkeys_loop]; [noks|].
  apply list.Forall_cons in Hk as [[Hlen Hdat] Hk]. cbn [length] in Hi. cbn [fst snd] in *.
  nok_step; [apply IH; [lia|done]|]. nok_step; [noks|]. nok_step. cbv zeta.
  set (cipher := if keylen <=? 5 then _ else _). pose proof (keylen_range cipher) as Hr.
  assert (∀ d, Zlen d = 32 → wkey_wf (mk_key 0 cipher (Z.lor IEEE80211_KEY_GROUP IEEE80211_KEY_TX)
    (ieee80211_cipher_keylen cipher) d)) as Hw by (by intros d Hd).
  eapply (nok_bind _ _ (λ _, True)).
  { apply nok_need. destruct (lookup_lt_is_Some_2 (ic_nw_keys a) i) as [k Ek]; [|by exists k].
    destruct (wf_keys _ H) as [-> _]. lia. }
  intros _ _. eapply nok_bind; [by apply nok_put_key, Hw|intros _ _].
  unfold copyin. destruct (Z.leb_spec (ieee80211_cipher_keylen cipher) (Zlen keydat)) as [Hc|]; [|noks].
  destruct (memcpy_some (zeros 32) (Ztake (ieee80211_cipher_keylen cipher) keydat) (ieee80211_cipher_keylen cipher))
    as (r & Er & Hz); [done|rewrite Zlen_Ztake; lia|].
  eapply (nok_bind _ _ (λ x, x = r)); [apply nok_need; by exists r|]. intros e ->.
  eapply nok_bind; [by apply nok_put_key, Hw|intros _ _]. nok_step; [noks|]. apply IH; [lia|done].
Qed.

Lemma nok_setnwkeys k : nwkey_ok k → nok (ieee80211_ioctl_setnwkeys k) (λ _, True).
Proof.
  intros (_ & _ & Hd & Hl & Hk). unfold ieee80211_ioctl_setnwkeys. do 2 nok_step. nok_step; [noks|].
  nok_step; [noks|]. destruct (Z.ltb_spec (i_defkid k) 1); [noks|].
  destruct (Z.ltb_spec (Z.of_nat IEEE80211_WEP_NKID) (i_defkid k)) as [|Hn]; [noks|]. cbn [orb].
  eapply nok_bind.
  { apply nok_setnwkeys_loop; [rewrite length_take; unfold IEEE80211_WEP_NKID; lia|by apply list.Forall_take]. }
  intros e _. nok_step; [noks|]. change (Z.of_nat IEEE80211_WEP_NKID) with 4 in Hn.
  eapply nok_bind; [apply nok_mod; intros ic Hic; apply set_v_wf; [|done]|intros _ _; noks].
  destruct (wf_v _ Hic) as (? & ? & ?). unfold scalars_wf. rewrite fn_lookup_insert, !fn_lookup_insert_ne by done.
  split; [done|]. split; [lia|done].
Qed.

Lemma nok_getnwkeys_loop ks : ∀ i,
  (i + length ks ≤ 6)%nat → Forall key_ok ks →
  nok (getnwkeys_loop i ks) (λ r, length r.2 = length ks ∧ Forall key_ok r.2).
Proof.
  induction ks as [|[keylen keydat] ks IH]; intros i Hi Hk; cbn [getnwkeys_loop]; [noks|].
  pose proof Hk as Hk'. apply list.Forall_cons in Hk as [[Hlen Hdat] Hk]. cbn [length] in Hi. cbn [fst snd] in *.
  nok_step.
  { eapply nok_bind; [apply IH; [lia|done]|]. intros [e r] [Hr Hf]. apply nok_ret. cbn in *. split; [lia|].
    by constructor. }
  nok_step; [by apply nok_ret|]. nok_step.
  destruct (lookup_lt_is_Some_2 (ic_nw_keys a) i) as [k Ek]; [destruct (wf_keys _ H) as [-> _]; lia|].
  assert (wkey_wf k) as [Hkk Hkl].
  { destruct (wf_keys _ H) as [_ Hf]. by eapply list.Forall_lookup_1 in Hf. }
  eapply (nok_bind _ _ (λ x, x = k)); [apply nok_need; by exists k|]. intros k' ->. cbv zeta.
  set (len := if _ || _ then k_len k else 0). assert (0 ≤ len ≤ 32) as Hl by (subst len; case_match; lia).
  eapply (nok_bind _ _ (λ _, True)).
  { apply nok_need. unfold copyin. rewrite (proj2 (Z.leb_le _ _)) by lia. by eexists. }
  intros bs _. assert (∀ d, (d = [] ∨ Zlen d = 16) → key_ok (len, d)) as Hok by (intros; split; [cbn; unfold in_int; lia|done]).
  destruct (memcpy keydat bs len) as [dat|] eqn:Em.
  - eapply nok_bind; [apply IH; [lia|done]|]. intros [e r] [Hr Hf]. apply nok_ret. cbn in *. split; [lia|].
    constructor; [|done]. apply Hok. destruct Hdat as [->|Hd]; [done|]. right. revert Em. unfold memcpy.
    case_match eqn:Eb; [|done]. intros [= <-]. apply andb_prop in Eb as [[]%andb_prop].
    rewrite Zlen_app, Zlen_Ztake, Zlen_Zdrop by lia. lia.
  - apply nok_ret. split; [done|]. constructor; [by apply Hok|done].
Qed.

Lemma nok_getnwkeys k : nwkey_ok k → nok (ieee80211_ioctl_getnwkeys k) (λ r, nwkey_ok r.2).
Proof.
  intros (Hn & _ & _ & Hl & Hk). unfold ieee80211_ioctl_getnwkeys. do 2 nok_step. cbv zeta.
  eapply nok_bind.
  { apply nok_getnwkeys_loop; [rewrite length_take; unfold IEEE80211_WEP_NKID; lia|by apply list.Forall_take]. }
  intros [e ks] [Hs Hf]. cbn [snd] in Hs. apply nok_ret. destruct H0 as (ic & Hic & ->). destruct (wf_v _ Hic) as (_ & Ht & _).
  split_and!; cbn; try done; [by case_match|unfold in_int; lia|]. rewrite Hs, length_take, Hl. done.
Qed.

(** ** Answers *)

Lemma nok_get_nwid : nok get_nwid nwid_ok.
Proof.
  unfold get_nwid. nok_step. destruct (wf_v _ H) as (Hl & _). destruct (wf_bss _ H) as (_ & _ & Hbl & Hbe & _).
  pose proof (wf_essid _ H) as He.
  set (r := if unjoined a then _ else _). assert (0 ≤ r.1 ≤ 32 ∧ Zlen r.2 = 32) as [Hr1 Hr2].
  { subst r. case_match; cbn; [|done]. split; [|done]. unfold u8. rewrite Z.mod_small; lia. }
  destruct r as [len essid]. cbn [fst snd] in *.
  destruct (memcpy_some (zeros 32) essid len) as (r & Er & Hz); [done|lia|].
  eapply (nok_bind _ _ (λ x, x = r)); [apply nok_need; by exists r|]. intros e ->. apply nok_ret.
  split; cbn; [unfold in_u8; lia|done].
Qed.

Lemma nok_get_wpapsk p : wpapsk_ok p → nok (get_wpapsk p) wpapsk_ok.
Proof.
  intros (Hn & He & Hp). unfold get_wpapsk. nok_step. pose proof (wf_psk _ H). noks; by split_and!.
Qed.

Lemma translate_range f t v n : 0 ≤ t < 2 ^ n → 0 ≤ n → 0 ≤ translate f t v < 2 ^ n.
Proof. intros Ht Hn. unfold translate. case_match; [done|]. split; [done|]. by apply Z.pow_pos_nonneg. Qed.

Lemma nok_getwpa w : wpaparams_ok w → nok (ieee80211_ioctl_getwpaparms w) wpaparams_ok.
Proof.
  intros (Hn & _). unfold ieee80211_ioctl_getwpaparms. nok_step. apply nok_ret. split_and!; cbn; try done.
  - unfold cbool. by case_match.
  - unfold get_protos. apply (lor_range 32); [by apply translate_range..|done].
  - unfold get_akms. repeat apply (lor_range 32); try done; by apply translate_range.
  - unfold get_ciphers. case_match; [done|]. apply (lor_range 32); [by apply translate_range..|done].
  - unfold get_groupcipher. by repeat case_match.
Qed.

Lemma nok_get_bssid : nok get_bssid (λ b, Zlen b = 6).
Proof.
  unfold get_bssid. nok_step. apply nok_ret. pose proof (wf_myaddr _ H). pose proof (wf_bssid _ H).
  destruct (wf_bss _ H) as (_ & ? & _). by repeat case_match.
Qed.

Lemma nok_get_channel : nok get_channel in_u16.
Proof. unfold get_channel. nok_step. apply nok_ret, u16_fits. Qed.

Lemma node2req_some ic ni nr :
  ic_wf ic → node_wf ni → on_channel ni → if_set is_name (nr_ifname nr) →
  ∃ r, ieee80211_node2req ic ni nr = Some r ∧ nodereq_ok r.
Proof.
  intros Hic (Hm & Hb & Hl & He & Hr & Hs) (n & Hn & Hr') Hname. unfold ieee80211_node2req, chan_of. rewrite Hn.
  destruct (lookup_lt_is_Some_2 (ic_channels ic) (Z.to_nat n)) as [ch Ech].
  { destruct (wf_channels _ Hic) as [-> _]. lia. }
  rewrite Ech. cbn [mbind option_bind]. eexists. split; [done|].
  destruct (wf_v _ Hic) as (_ & _ & _ & _ & Hmax).
  split_and!; cbn; try done; [unfold in_u8; lia|apply u16_fits|].
  unfold in_u8, u8. apply Z.mod_pos_bound. done.
Qed.

Lemma all_nodes_some ic l size i :
  ic_wf ic → Forall (λ ni, node_wf ni ∧ on_channel ni) l →
  ∃ nrs, all_nodes ic l size i = Some nrs ∧ Forall nodereq_ok nrs ∧ Zlen nrs ≤ Zlen l.
Proof.
  intros Hic Hl. revert i. induction Hl as [|ni l [Hn Hc] _ IH]; intros i; cbn [all_nodes].
  { exists []. split_and!; done. }
  rewrite Zlen_cons. pose proof (Zlen_nonneg l). case_match; [|exists []; split_and!; [done..|rewrite Zlen_nil; lia]].
  destruct (node2req_some ic ni nrbuf Hic Hn Hc) as (r & -> & Hr); [done|]. cbn [mbind option_bind].
  destruct (IH (i + SIZEOF_NODEREQ)) as (nrs & -> & Hf & Hz). cbn [mbind option_bind]. eexists. split; [done|].
  split; [by constructor|]. rewrite Zlen_cons. lia.
Qed.

Lemma nok_get_allnodes na : nodereq_all_ok na → nok (get_allnodes na) nodereq_all_ok.
Proof.
  intros (Hn & Hs & _). unfold get_allnodes. nok_step. destruct (wf_tree _ H) as [Hf Hl].
  destruct (all_nodes_some a (ic_tree a) (na_size na) 0 H Hf) as (nrs & En & Hok & Hz).
  eapply (nok_bind _ _ (λ x, x = nrs)); [apply nok_need; by exists nrs|]. intros x ->. apply nok_ret.
  split_and!; cbn; try done. unfold in_int. pose proof (Zlen_nonneg nrs). lia.
Qed.

Lemma nok_get_node nr : nodereq_ok nr → nok (get_node nr) (λ r, nodereq_ok r.2).
Proof.
  intros Hr. unfold get_node. nok_step. unfold ieee80211_find_node.
  destruct (list_find _ (ic_tree a)) as [[k ni]|] eqn:Ef; cbn [fmap option_fmap option_map]; [|by apply nok_ret].
  apply list_find_Some in Ef as (Ek & _ & _). destruct (wf_tree _ H) as [Hf _].
  eapply list.Forall_lookup_1 in Hf as [Hn Hc]; [|done].
  destruct (node2req_some a ni nr H Hn Hc) as (r & Er & Hok); [by destruct Hr|].
  eapply (nok_bind _ _ (λ x, x = r)); [apply nok_need; by exists r|]. intros x ->. by apply nok_ret.
Qed.

Lemma nok_get_allchans ca : chans_ok ca → nok (get_allchans ca) (λ r, chans_ok r.2).
Proof.
  intros (Hn & Hl & Hf). unfold get_allchans. nok_step. apply nok_ret. case_match; [by split_and!|].
  destruct (wf_channels _ H) as [Hc Hcf]. split_and!; cbn [snd ca_name i_chans]; [done| |].
  - rewrite length_app, length_drop. lia.
  - apply list.Forall_app. split; [done|]. by apply list.Forall_drop.
Qed.

Lemma nok_get_txpower tx : txpower_ok tx → nok (get_txpower tx) (λ r, txpower_ok r.2).
Proof.
  intros (Hn & Hm & Hv). unfold get_txpower. nok_step. apply nok_ret. destruct (wf_v _ H) as (_ & _ & _ & Ht & _).
  case_match; by split_and!.
Qed.

Lemma nok_get_flags r : ifreq_ok r → nok (get_flags r) ifreq_ok.
Proof. intros Hr. unfold get_flags. noks. by apply ifreq_set_ok, set_flags_ok. Qed.

(** ** The request as a whole *)

Lemma nok_interface : nok (get : NM ifnet) (λ _, True).
Proof. intros i Hi. by exists i, i. Qed.
#[local] Hint Resolve nok_interface : wlan.

Lemma nok_scan_request : nok scan_request (λ _, True).
Proof using WL.
  unfold scan_request. do 2 nok_step. cbv zeta. nok_step; [noks|]. nok_step; [noks|].
  eapply (nok_bind _ _ (λ _, True)); [|intros; noks]. noks.
Qed.

Lemma ifreq_set_some r : ifreq_set r → is_Some (ifr_flags r) ∧ is_Some (ifr_metric r).
Proof. intros (_ & b & Hb & _). unfold ifr_flags, ifr_metric. rewrite Hb. by split; eexists. Qed.

Lemma nok_set_flags r : ifreq_set r → nok (set_flags80211 r) (λ _, True).
Proof.
  intros [[f Hf] _]%ifreq_set_some. unfold set_flags80211.
  eapply (nok_bind _ _ (λ _, True)); [apply nok_need; by exists f|]. intros f' _. cbv zeta. noks.
Qed.

Lemma nok_set_mtu r : ifreq_set r → nok (set_mtu r) (λ _, True).
Proof.
  intros [_ [m Hm]]%ifreq_set_some. unfold set_mtu.
  eapply (nok_bind _ _ (λ _, True)); [apply nok_need; by exists m|]. intros m' _. nok_step; [noks|].
  eapply (nok_bind _ _ (λ _, True)); [|intros; noks].
  intros i Hi. eexists _, _. split; [reflexivity|]. by split_and!.
Qed.

Lemma nok_other {A} (c : iocmd A) x : fits c x → nok (other c x) (λ r, fits c r.2).
Proof using WL.
  intros Hx i (ic & Hic & Hwf). unfold other. destruct (w_other c x i) as [[e x'] i'] eqn:Eo.
  assert (if_wf i) as Hi by (unfold if_wf; by rewrite Hic).
  destruct (wl_other c x i Hi Hx _ _ _ Eo) as (Hi' & Hs & Hsame & Hf). exists (e, x'), i'.
  split; [done|]. split; [|by split]. destruct Hs as [ic' Hic']; [by rewrite Hic|].
  exists ic'. split; [done|]. unfold if_wf in Hi'. by rewrite Hic' in Hi'.
Qed.

Lemma nok_set {A} (c : iocmd A) x m :
  fits c x → nok m (λ _, True) → nok (setting x m) (λ r, fits c r.2).
Proof. intros Hx Hm. eapply nok_mono; [by apply nok_setting|]. by intros r ->. Qed.

Lemma nok_ieee80211_ioctl {A} (c : iocmd A) x :
  fits c x → nok (ieee80211_ioctl c x) (λ r, fits c r.2).
Proof using WL.
  intros Hx. destruct c; cbn [ieee80211_ioctl]; try by apply nok_other.
  all: try (apply (nok_set _ _ _ Hx); cbn [fits] in Hx; eauto using nok_set_wmm, nok_set_power, nok_setwpa,
    nok_set_txpower, nok_scan_request, nok_set_wpapsk, nok_setnwkeys, nok_set_flags; fail).
  - eapply nok_bind; [by apply nok_set_mtu|]. intros e _. by apply nok_ret.
  - eapply nok_bind; [apply nok_get_nwid|]. intros n Hn. apply nok_ret. destruct Hx. by split.
  - apply (nok_set _ _ _ Hx). by apply nok_set_nwid; destruct Hx.
  - eapply nok_bind; [apply nok_get_bssid|]. intros b Hb. apply nok_ret. destruct Hx. by split.
  - apply (nok_set _ _ _ Hx). by apply nok_set_bssid; destruct Hx.
  - eapply nok_mono; [by apply nok_getnwkeys|done].
  - eapply nok_bind; [by apply nok_getwpa|]. intros w Hw. by apply nok_ret.
  - eapply nok_bind; [by apply nok_get_wpapsk|]. intros w Hw. by apply nok_ret.
  - nok_step. apply nok_ret. destruct Hx. split; [done|]. cbn. unfold cbool. by case_match.
  - eapply nok_bind; [apply nok_get_channel|]. intros n Hn. apply nok_ret. destruct Hx. by split.
  - apply (nok_set _ _ _ Hx). by apply nok_set_channel; destruct Hx.
  - eapply nok_mono; [by apply nok_get_allchans|done].
  - eapply nok_mono; [by apply nok_get_txpower|done].
  - eapply nok_bind; [by apply nok_get_flags|]. intros r Hr. by apply nok_ret.
  - nok_step. apply nok_ret. destruct Hx. destruct (wf_v _ H) as (_ & _ & Hl & _).
    split_and!; [done|cbn; unfold cbool; by case_match|]. cbn. unfold in_u16, in_int in *. lia.
  - eapply nok_mono; [by apply nok_get_node|done].
  - eapply nok_bind; [by apply nok_get_allnodes|]. intros na Hna. by apply nok_ret.
Qed.

(** ** iwn *)

Lemma nok_iwn_stop : nok iwn_stop (λ _, True).
Proof using WL. unfold iwn_stop. eapply nok_bind; [apply nok_flags|intros _ _]. noks. Qed.
#[local] Hint Resolve nok_iwn_stop : wlan.

Lemma nok_begin_scan : nok ieee80211_begin_scan (λ _, True).
Proof using WL.
  unfold ieee80211_begin_scan. do 2 nok_step. nok_step; [noks|]. nok_step. nok_step; [noks|].
  eapply nok_bind; [apply nok_mod; intros; by apply set_tree_wf|intros _ _]. apply nok_mod. intros; by apply wl_scan.
Qed.
#[local] Hint Resolve nok_begin_scan : wlan.

Lemma nok_iwn_init : nok iwn_init (λ _, True).
Proof using WL.
  unfold iwn_init. nok_step. pose proof (wl_hardware a H) as Hw. destruct (w_hardware a) as [e ic].
  eapply nok_bind; [by apply nok_mod; intros|intros _ _]. nok_step; [noks|].
  eapply nok_bind; [apply nok_flags|intros _ _]. nok_step. eapply (nok_bind _ _ (λ _, True)); [noks|]. intros; noks.
Qed.
#[local] Hint Resolve nok_iwn_init : wlan.

Lemma nok_iwn_reset e : nok (iwn_reset e) (λ _, True).
Proof using WL.
  unfold iwn_reset, iwn_running. nok_step; [|noks]. eapply (nok_bind _ _ (λ _, True)); [noks|].
  intros b _. noks.
Qed.

Lemma nok_iwn_flags : nok iwn_flags (λ _, True).
Proof using WL. unfold iwn_flags. noks. Qed.

Lemma nok_iwn_ioctl {A} (c : iocmd A) x :
  fits c x → nok (iwn_ioctl c x) (λ r, fits c r.2).
Proof using WL.
  intros Hx. assert (nok ('(e, x) ← ieee80211_ioctl c x; e ← iwn_reset e; mret (e, x)) (λ r, fits c r.2))
    as Hd.
  { eapply nok_bind; [by apply nok_ieee80211_ioctl|]. intros [e x'] Hf. eapply nok_bind; [apply nok_iwn_reset|].
    intros e' _. by apply nok_ret. }
  destruct c; try exact Hd.
  - eapply nok_bind; [apply nok_iwn_flags|]. intros e _. eapply nok_bind; [apply nok_iwn_reset|]. intros e' _.
    by apply nok_ret.
  - eapply nok_bind; [apply nok_flags|intros _ _]. eapply nok_bind; [apply nok_iwn_flags|]. intros e _.
    eapply nok_bind; [apply nok_iwn_reset|]. intros e' _. by apply nok_ret.
  - clear Hd. cbn [iwn_ioctl ieee80211_ioctl]. eapply nok_bind; [apply nok_setting, nok_set_power|].
    intros [e x'] [= ->]. nok_step; [by apply nok_ret|]. nok_step. eapply nok_bind; [apply nok_iwn_reset|].
    intros e' _. by apply nok_ret.
Qed.
End requests.

(** ** The kernel with such interfaces *)

(** The driver of an interface: iwn for a wireless one. *)
Definition wlan_drv `{!WlanEnv} {A} (c : iocmd A) (x : A) (i : ifnet) : Z * A * ifnet :=
  match if_ic i with Some _ => iwn_drv c x i | None => w_other c x i end.

Section kernel.
Context {E : WlanEnv} {WL : WlanLaws E}.
Context (clone : iocmd ifreq → string → list ifnet → Z * list ifnet).
Context (grp : ∀ A, iocmd A → A → list ifnet → Z * A).
Hypothesis clone_wf : ∀ c n l, Forall if_wf l → Forall if_wf (clone c n l).2.
Hypothesis grp_fits : ∀ A (c : iocmd A) x l, fits c x → fits c (grp A c x l).2.

Lemma wlan_drv_wf {A} (c : iocmd A) x i :
  if_wf i → fits c x → if_wf (wlan_drv c x i).2 ∧ fits c (wlan_drv c x i).1.2.
Proof using WL.
  intros Hi Hx. unfold wlan_drv. destruct (if_ic i) as [ic|] eqn:Eic.
  - assert (wlan_wf i) as Hw by (exists ic; split; [done|]; unfold if_wf in Hi; by rewrite Eic in Hi).
    destruct (nok_iwn_ioctl c x Hx i Hw) as ([e x'] & i' & Er & (ic' & Ei & Hic) & _ & Hf).
    unfold iwn_drv. rewrite Er. split; [|done]. unfold if_wf. cbn. by rewrite Ei.
  - destruct (w_other c x i) as [[e x'] i'] eqn:Eo. by destruct (wl_other c x i Hi Hx _ _ _ Eo) as (? & _ & _ & ?).
Qed.

Lemma up_down_ic f i : if_ic (up_down f i) = if_ic i.
Proof. unfold up_down. by repeat case_match. Qed.

Lemma if_request_wf {A} (c : iocmd A) x i :
  if_wf i → fits c x →
  if_wf (if_request (@wlan_drv E) c x i).2 ∧ fits c (if_request (@wlan_drv E) c x i).1.2.
Proof using WL.
  intros Hi Hx. destruct c; cbn [if_request]; try by apply wlan_drv_wf.
  all: try (split; [done|]; cbn [fst snd fits] in *; eauto using set_flags_ok, set_metric_ok, ifreq_set_ok; fail).
  - unfold set_flags. destruct (ifr_flags x) as [f|]; [|done]. cbv zeta.
    set (j := with_if_flags _ _). assert (if_wf j) as Hj by (unfold if_wf, j; cbn; by rewrite up_down_ic).
    destruct (wlan_drv_wf SIOCSIFFLAGS x j Hj Hx) as [H1 H2].
    by destruct (wlan_drv SIOCSIFFLAGS x j) as [[e r'] i'].
  - unfold set_metric. by destruct (ifr_metric x).
  - unfold set_priority. destruct (ifr_metric x); [|done]. by case_match.
  - unfold set_descr. by case_match.
  - destruct (ifr_bytes x) as [sa|]; [|done]. by destruct (addr_del sa _).
  - unfold add_address. case_match; [|by apply wlan_drv_wf]. cbv zeta. case_match; [done|].
    destruct (wlan_drv_wf SIOCAIFADDR x i Hi Hx) as [H1 H2].
    by destruct (wlan_drv SIOCAIFADDR x i) as [[e r'] i'].
Qed.

Lemma ifunit_wf l n i : Forall if_wf l → ifunit l n = Some i → if_wf i.
Proof.
  induction 1 as [|j l Hj _ IH]; [done|]. cbn [ifunit]. case_match; [by intros [= <-]|done].
Qed.
Lemma if_update_wf l n i : Forall if_wf l → if_wf i → Forall if_wf (if_update l n i).
Proof.
  intros Hl Hi. induction Hl as [|j l Hj Hl IH]; [done|]. cbn [if_update]. case_match; by constructor.
Qed.

Definition wlan_kernel : Kernel := ifnet_kernel (@wlan_drv E) clone grp.

Lemma ifioctl_wf {A} (c : iocmd A) x l :
  Forall if_wf l → fits c x →
  Forall if_wf (ifioctl (@wlan_drv E) clone grp c x l).2 ∧ fits c (ifioctl (@wlan_drv E) clone grp c x l).1.2.
Proof using WL clone_wf grp_fits.
  intros Hl Hx.
  assert (Forall if_wf (match ifunit l (req_name c x) with
      | None => (ENXIO, x, l)
      | Some ifp => let '(e, x', ifp') := if_request (@wlan_drv E) c x ifp in (e, x', if_update l (req_name c x) ifp')
      end).2 ∧ fits c (match ifunit l (req_name c x) with
      | None => (ENXIO, x, l)
      | Some ifp => let '(e, x', ifp') := if_request (@wlan_drv E) c x ifp in (e, x', if_update l (req_name c x) ifp')
      end).1.2) as Hon.
  { destruct (ifunit l (req_name c x)) as [i|] eqn:Ei; [|done]. pose proof (ifunit_wf _ _ _ Hl Ei) as Hi.
    destruct (if_request_wf c x i Hi Hx) as [H1 H2].
    destruct (if_request (@wlan_drv E) c x i) as [[e x'] i']. split; [by apply if_update_wf|done]. }
  destruct c; try exact Hon; clear Hon; cbn [ifioctl];
    match goal with
    | |- context [clone ?c ?n ?l] => pose proof (clone_wf c n l Hl) as Hc; by destruct (clone c n l)
    | |- context [grp _ ?c ?x ?l] => pose proof (grp_fits _ c x l Hx) as Hg; by destruct (grp _ c x l)
    end.
Qed.

#[local] Existing Instance wlan_kernel.

Lemma wlan_typed : TypedKernel wlan_kernel.
Proof using WL clone_wf grp_fits.
  refine {| k_ok := Forall if_wf : @kstate wlan_kernel → Prop |}.
  - intros A fd c x k Hk Hx e x' k' Er. destruct (ifioctl_wf c x k Hk Hx) as [H1 H2].
    cbn [k_ioctl wlan_kernel ifnet_kernel] in Er. rewrite Er in H1, H2. by split.
  - done.
  - intros n k Hk. split; [done|]. apply length_replicate.
Defined.
End kernel.
