(* ===== verification/Requests.v ===== *)
(** * Requests: what the programs send the kernel, and what a kernel does with it

    [traced K] is the kernel K with a record of the requests it was sent; the
    theorems are about that record.  The kernel of WlanProps, with an iwn
    interface, is an instance of what they assume. *)
From coqutil Require Import Byte Word.LittleEndianList.
From stdpp Require Import base list strings functions.
From S2P Require Import Prelude CString IfData Fits IfNet Net80211 IfCore Gate TypeProps Ifconfig GateTypes.
From S2P Require Import IfKernel WlanProps.

(** ** A record of requests *)

Record request := mk_request { rq_type : Type; rq_cmd : iocmd rq_type; rq_arg : rq_type }.

Definition request_fits (r : request) : Prop := fits (rq_cmd r) (rq_arg r).

Definition traced (K : Kernel) : Kernel := {|
  kstate := @kstate K * list request;
  k_ioctl := λ A fd c x k,
    let '(e, x', k') := k_ioctl fd c x k.1 in (e, x', (k', k.2 ++ [mk_request A c x]));
  k_socket := λ naf k, let '(r, k') := k_socket naf k.1 in (r, (k', k.2));
  k_getifaddrs := λ k, k_getifaddrs k.1;
  k_arc4random_buf := λ n k, let '(bs, k') := k_arc4random_buf n k.1 in (bs, (k', k.2));
  k_file := λ f k, k_file f k.1;
  k_gettimeofday := λ k, k_gettimeofday k.1;
|}.

Definition requests {K : Kernel} (g : @glob (traced K)) : list request := snd (@g_k (traced K) g).

(** The kernel below is in a good state and every request recorded fits. *)
#[export] Instance traced_typed {K : Kernel} (TK : TypedKernel K) : TypedKernel (traced K).
Proof.
  refine {| k_ok := (λ k, k_ok k.1 ∧ Forall request_fits k.2) : @kstate (traced K) → Prop |}.
  - intros A fd c x [k t] [Hk Ht] Hx e x' [k' t'] Er. cbn in *.
    destruct (k_ioctl fd c x k) as [[e1 x1] k1] eqn:E1. injection Er as <- <- <- <-.
    destruct (k_ok_ioctl fd c x k Hk Hx _ _ _ E1) as [Hk' Hf]. split; [|done]. split; [done|].
    apply list.Forall_app. split; [done|]. by constructor.
  - intros naf [k t] [Hk Ht]. cbn in *. pose proof (k_ok_socket naf k Hk). by destruct (k_socket naf k).
  - intros n [k t] [Hk Ht]. cbn in *. destruct (k_ok_random n k Hk) as [H1 H2].
    by destruct (k_arc4random_buf n k).
Defined.

Lemma fits_record {K : Kernel} {TK : TypedKernel K} (g : @glob (traced K)) :
  glob_ok g → k_ok (g_k g).1 ∧ Forall request_fits (requests g).
Proof. by intros [Hk _]. Qed.

(** ** Theorems *)

Section programs.
Context {K : Kernel} {LB : Libs} {TK : TypedKernel K} {TL : TypedLibs LB}.
#[local] Existing Instance traced.

(** C6. Whatever words the daemon applies to an interface, every request
    ifconfig_gate() sends fits the structure the kernel takes it for: names end within
    IFNAMSIZ, arrays have their sizes and integers are in the range of their
    type; the globals are left fit for the next call. *)
Theorem gate_requests_fit argc argv iface (g : @glob (traced K)) :
  glob_ok g →
  let g' := (ifconfig_gate argc argv iface g).2 in
  glob_ok g' ∧ Forall request_fits (requests g').
Proof using TL.
  intros Hg. destruct (keeps_gate argc argv iface g Hg) as [H _]. split; [done|]. by apply fits_record.
Qed.

(** C20. So does every request of ifconfig(8), whatever its arguments: those of
    its commands, for IPv4, IPv6 and AppleTalk, and those of its status output.
    The structure for SIOCG80211ALLNODES, which lists the access points, is the
    one ieee80211_ioctl() reads, not the larger one the request is declared
    with. *)
Theorem ifconfig_requests_fit words (g : @glob (traced K)) :
  glob_ok g → Forall request_fits (requests (ifconfig_main words g).2).
Proof using TL. intros Hg. by apply fits_record, keeps_main. Qed.
End programs.

(** C7. A request that fits is defined on a well-formed wireless interface:
    iwn_ioctl() and the code of net80211 it calls stay within the arrays of
    the interface and of the request.  The interface is well-formed after it,
    has the name and the addresses it had, and the answer fits. *)
Theorem iwn_ioctl_defined {E : WlanEnv} {WL : WlanLaws E} {A} (c : iocmd A) x i :
  wlan_wf i → fits c x →
  ∃ e x' i', iwn_ioctl c x i = (Ok (e, x'), i') ∧ wlan_wf i' ∧ same_if i i' ∧ fits c x'.
Proof.
  intros Hi Hx. destruct (nok_iwn_ioctl c x Hx i Hi) as ([e x'] & i' & ? & ? & ? & ?). by exists e, x', i'.
Qed.

(** ** Witnesses *)

(** Hardware that does what it is told at once, and no other requests. *)
Definition still_env : WlanEnv := {|
  w_suser := 0;
  w_set_key := λ _, 0;
  w_newstate := ic_set IC_state;
  w_scan := ic_set IC_state IEEE80211_S_SCAN;
  w_tsleep := 0;
  w_hardware := λ ic, (0, ic);
  w_pslevel := None;
  w_stack := 0;
  w_other := λ A _ x i, (EINVAL, x, i);
|}.

Definition still_laws : WlanLaws still_env.
Proof.
  split; cbn; eauto using set_free_wf. intros A c x i Hi Hx e x' i' [= <- <- <-]. by split_and!.
Defined.

Definition still_bss : ieee80211_node :=
  mk_ni 1 (zeros 6) (zeros 6) 0 (zeros 32) CH_anyc 0 (zeros 15) 0 (zeros 8) 0 0 0 0 0 0 0 0 0 0 0.

Definition still_ic : ieee80211com :=
  mk_ic (<[IC_caps := Z.lor IEEE80211_C_RSN IEEE80211_C_WEP]> (<[IC_opmode := IEEE80211_M_STA]> (λ _, 0))) (zeros 6)
    (replicate 256 (mk_chan80211 2412 0)) (replicate 32 Byte.xff) still_bss [] (CH_idx 1) CH_anyc (zeros 32)
    (zeros 6) (replicate 6 key_zero) (zeros 32).

Definition iwn0 : ifnet := mk_ifnet "iwn0" (i16 (Z.lor IFF_UP IFF_RUNNING)) 0 0 1500 0 0 "" [] (Some still_ic).

Lemma still_ic_wf : ic_wf still_ic.
Proof.
  split; cbn [still_ic ic_v ic_myaddr ic_channels ic_chan_active ic_bss ic_tree ic_des_essid ic_des_bssid
              ic_nw_keys ic_psk]; try done.
  - split; [done|]. by apply Forall_replicate.
  - split; [done|]. by apply Forall_replicate.
Qed.

Lemma iwn0_wf : if_wf iwn0.
Proof. apply still_ic_wf. Qed.

Definition no_names : Libs := {|
  gethostbyname := λ _, None; getnetbyname := λ _, None; getaddrinfo := λ _ _ _, None; getnameinfo := λ _, None;
|}.
Definition no_names_typed : TypedLibs no_names.
Proof. by split. Defined.

Definition iwn_kernel : Kernel := @wlan_kernel still_env (λ _ _ l, (EINVAL, l)) (λ _ _ x _, (EINVAL, x)).
Definition iwn_typed : TypedKernel iwn_kernel :=
  @wlan_typed still_env still_laws (λ _ _ l, (EINVAL, l)) (λ _ _ x _, (EINVAL, x)) (λ _ _ _ H, H) (λ _ _ _ _ H, H).

Definition iwn_glob : @glob (traced iwn_kernel) := @glob_init (traced iwn_kernel) (mk_cenv [] 0 []) ([iwn0], []).

Lemma iwn_glob_ok : @glob_ok (traced iwn_kernel) (traced_typed iwn_typed) iwn_glob.
Proof.
  split.
  - split; [|done]. constructor; [apply iwn0_wf|done].
  - split; [done|]. split; [|done]. split; [done|]. by eexists.
Qed.

(** The words nwid home wpakey secret-key on iwn0. *)
Definition join_words : list cptr :=
  [Some "nwid"; Some "home"; Some "wpakey"; Some "secret-key"; None].

Lemma gate_requests_fit_witness :
  let g' := (@ifconfig_gate (traced iwn_kernel) no_names 4 join_words "iwn0" iwn_glob).2 in
  @glob_ok (traced iwn_kernel) (traced_typed iwn_typed) g' ∧ Forall request_fits (requests g').
Proof.
  apply (@gate_requests_fit iwn_kernel no_names iwn_typed no_names_typed 4 join_words "iwn0" iwn_glob), iwn_glob_ok.
Defined.

Lemma ifconfig_requests_fit_witness :
  Forall request_fits (requests (@ifconfig_main (traced iwn_kernel) no_names ["iwn0"; "scan"] iwn_glob).2).
Proof.
  apply (@ifconfig_requests_fit iwn_kernel no_names iwn_typed no_names_typed ["iwn0"; "scan"] iwn_glob), iwn_glob_ok.
Defined.

Lemma iwn_ioctl_defined_witness :
  ∃ e x' i',
    @iwn_ioctl still_env _ SIOCS80211CHANNEL (mk_chanreq "iwn0" 11) iwn0 = (Ok (e, x'), i')
    ∧ wlan_wf i' ∧ same_if iwn0 i' ∧ fits SIOCS80211CHANNEL x'.
Proof.
  apply (@iwn_ioctl_defined still_env still_laws _ SIOCS80211CHANNEL (mk_chanreq "iwn0" 11) iwn0).
  - exists still_ic. split; [reflexivity|apply still_ic_wf].
  - by split.
Defined.
