(* ===== verification/FlagProps.v ===== *)
(** * FlagProps: setting the flags of an interface

    What setifflags() and, through it, ifconfig_gate() do to the flags of
    the interfaces of a kernel that obeys the laws of IfKernel. *)
From coqutil Require Import Byte Word.LittleEndianList.
From stdpp Require Import base list strings functions.
From S2P Require Import Prelude CString CNum NetAddr IfData IfCore IfMedia Gate IfNet IfKernel.

Lemma ifr_flags_set r f : ifr_flags (set_ifr_flags r f) = Some (i16 f).
Proof.
  unfold ifr_flags, set_ifr_flags, ifr_store, ifr_bytes. cbn [ifr_u mbind option_bind].
  rewrite take_app_length' by (by rewrite length_le_split). rewrite le_combine_split.
  f_equal. unfold i16, sx. change (2 ^ (8 * Z.of_nat 2)) with (2 ^ 16).
  by rewrite Zplus_mod_idemp_l.
Qed.

Lemma ifr_bytes_set r f : is_Some (ifr_bytes (set_ifr_flags r f)).
Proof. by eexists. Qed.

Lemma i16_small z : SHRT_MIN ≤ z ≤ SHRT_MAX → i16 z = z.
Proof.
  unfold SHRT_MIN, SHRT_MAX, i16, sx. intros. change (16 - 1) with 15.
  rewrite Z.mod_small; lia.
Qed.

Lemma stake_nonempty s n : s ≠ "" → stake (S n) s ≠ "".
Proof. by destruct s. Qed.

Lemma stake_all n s : slen s ≤ Z.of_nat n → stake n s = s.
Proof.
  intros H. unfold stake, slen, Zlen, bytes in *. rewrite take_ge by lia.
  apply String.string_of_list_ascii_of_string.
Qed.

Lemma slen_stake n s : slen (stake n s) ≤ Z.of_nat n.
Proof.
  unfold slen, stake, Zlen, bytes. rewrite String.list_ascii_of_string_of_list_ascii, length_take. lia.
Qed.

Lemma ifname_short s : slen s < IFNAMSIZ → ifname s = s.
Proof. unfold ifname, strlcpy_s, IFNAMSIZ. intros. cbn [fst]. apply stake_all. lia. Qed.

Section flags.
Context {K : Kernel} {LB : Libs} {L : IfLaws K}.

(** ** getinfo() changes no flags *)

(** The part of the globals getinfo() leaves alone, with the flags of the
    interfaces. *)
Definition kept : list gvar :=
  [G_setaddr; G_doalias; G_clearaddr; G_newaddr; G_actions; G_media_current; G_mediaopt_set;
   G_mediaopt_clear].

Record info_frame (g g' : glob) : Prop := {
  fr_name : g_name g' = g_name g;
  fr_if : k_if (g_k g') = k_if (g_k g);
  fr_addrs : k_addrs (g_k g') = k_addrs (g_k g);
  fr_wlan : k_wlan (g_k g') = k_wlan (g_k g);
  fr_alloc : ce_alloc (g_env g') = ce_alloc (g_env g);
  fr_afp : g_afp g' = g_afp g;
  fr_ridreq : g_ridreq g' = g_ridreq g;
  fr_addreq : g_in_addreq g' = g_in_addreq g;
  fr_v : ∀ v, v ∈ kept → g_v g' v = g_v g v;
  fr_sock : 0 ≤ g_v g G_s → 0 ≤ g_v g' G_s;
}.

#[local] Instance info_frame_refl : Reflexive info_frame.
Proof. by split. Qed.
#[local] Instance info_frame_trans : Transitive info_frame.
Proof.
  intros g1 g2 g3 [] []. split; try congruence; [|auto].
  intros v Hv. rewrite fr_v1, fr_v0 by done. done.
Qed.

Lemma frame_wr v x g : v ∉ G_s :: kept → info_frame g (set_v (<[v := x]> (g_v g)) g).
Proof.
  intros [Hs Hv]%not_elem_of_cons. split; try done; cbn [g_v set_v].
  - intros u Hu. rewrite fn_lookup_insert_ne; [done|]. by intros ->.
  - by rewrite fn_lookup_insert_ne.
Qed.

Lemma frame_sock fd g : 0 ≤ fd → info_frame g (set_v (<[G_s := fd]> (g_v g)) g).
Proof.
  intros Hfd. split; try done; cbn [g_v set_v].
  intros u Hu. rewrite fn_lookup_insert_ne; [done|]. intros <-. revert Hu. compute_done.
Qed.

Lemma frame_set_k k g :
  k_if k = k_if (g_k g) → k_addrs k = k_addrs (g_k g) → k_wlan k = k_wlan (g_k g) → info_frame g (set_k k g).
Proof. by split. Qed.

Lemma frame_set_env e g : ce_alloc e = ce_alloc (g_env g) → info_frame g (set_env e g).
Proof. by split. Qed.

(** Close the frame of a state built by assignments. *)
Ltac frame :=
  first
    [ done
    | apply frame_wr; compute_done
    | eapply transitivity; [eassumption|]; frame
    | apply frame_set_k; done
    | by apply frame_set_env ].

Lemma wp_ioctl_info c r g (Q : Z * ifreq → glob → Prop) :
  getinfo_req c → is_Some (ifr_bytes r) →
  (∀ z r' g', info_frame g g' → ifr_name r' = ifr_name r → is_Some (ifr_bytes r') → Q (z, r') g') →
  wp (ioctl c r) Q g.
Proof.
  intros Hc Hr HQ.
  destruct (k_getinfo c (g_v g G_s) r (g_k g) Hc Hr) as (e & r' & k' & E & Hk & Hka & Hkw & Hn & Hb).
  eapply wp_ioctl; [done|..]; intros _; apply HQ; done.
Qed.

Lemma wp_getflags r g (Q : Z * ifreq → glob → Prop) :
  match k_if (g_k g) (ifr_name r) with
  | Some f => Q (0, set_ifr_flags r f) g
  | None => Q (-1, r) (set_env (mk_cenv (ce_alloc (g_env g)) ENXIO (ce_closed (g_env g))) g)
  end → wp (ioctl SIOCGIFFLAGS r) Q g.
Proof.
  intros HQ. pose proof (k_getflags (g_v g G_s) r (g_k g)) as E.
  destruct (k_if (g_k g) (ifr_name r)); (eapply wp_ioctl; [exact E|..]);
    intros ?; destruct g; done.
Qed.

Lemma wp_is_bridge n g (Q : bool → glob → Prop) :
  (∀ b g', info_frame g g' → Q b g') → wp (is_bridge n) Q g.
Proof.
  intros HQ. unfold is_bridge. apply wp_bind, wp_getflags.
  destruct (k_if (g_k g) _) as [f|] eqn:E; [|apply HQ; by split]. apply wp_bind.
  destruct (k_bridge (g_v g G_s) (mk_ifbac (ifname n) 0 []) (g_k g)) as (e & x' & k' & Eb & Hk & Hka & Hkw).
  eapply wp_ioctl; [exact Eb|..]; intros _; [apply HQ; by split|].
  apply wp_bind, wp_gets, wp_ret, HQ. by split.
Qed.

Lemma ifr_flags_some r : is_Some (ifr_bytes r) → ∃ f, ifr_flags r = Some f.
Proof. intros [bs E]. unfold ifr_flags. rewrite E. by eexists. Qed.
Lemma ifr_metric_some r : is_Some (ifr_bytes r) → ∃ f, ifr_metric r = Some f.
Proof. intros [bs E]. unfold ifr_metric. rewrite E. by eexists. Qed.

Definition info_post (r : ifreq) (g : glob) (a : Z * ifreq) (g' : glob) : Prop :=
  info_frame g g' ∧ ifr_name a.2 = ifr_name r ∧ is_Some (ifr_bytes a.2).

(** Store a number read from [r], or 0 after a failed request. *)
Lemma wp_store v (z : Z) (r : ifreq) (h : Z → Z) g (Q : unit → glob → Prop) :
  is_Some (ifr_bytes r) →
  (∀ x, Q tt (set_v (<[v := x]> (g_v g)) g)) →
  wp (if z <? 0 then wr v 0 else m ← need (ifr_metric r); wr v (h m)) Q g.
Proof.
  intros Hr HQ. destruct (ifr_metric_some r Hr) as [m Em].
  case_match; [by apply wp_wr|]. apply wp_bind. eapply wp_need; [done|]. by apply wp_wr.
Qed.

Lemma wp_getinfo_rest r g :
  is_Some (ifr_bytes r) → wp (getinfo_rest r) (info_post r g) g.
Proof.
  intros Hr. unfold getinfo_rest. destruct (ifr_flags_some r Hr) as [f Ef].
  apply wp_bind. eapply wp_need; [done|]. apply wp_bind, wp_wr, wp_bind.
  eapply wp_ioctl_info; [constructor|done|]. intros z r1 g1 F1 N1 B1.
  set (r1' := if z <? 0 then _ else _).
  assert (is_Some (ifr_bytes r1') ∧ ifr_name r1' = ifr_name r) as [B1' N1'].
  { subst r1'. case_match; [|done]. split; [apply ifr_bytes_set|done]. }
  destruct (ifr_flags_some r1' B1') as [f1 Ef1].
  apply wp_bind. eapply wp_need; [done|]. apply wp_bind, wp_wr, wp_bind.
  eapply wp_ioctl_info; [constructor|done|]. intros z2 r2 g2 F2 N2 B2.
  apply wp_bind, wp_store; [done|]. intros m. apply wp_bind, wp_gets, wp_bind, wp_is_bridge.
  intros b g3 F3. apply wp_bind.
  apply (wp_mono _ (λ r' g', info_post r2 g3 (0, r') g')).
  { destruct b; [apply wp_bind, wp_wr, wp_ret; split_and!; try done; frame|].
    apply wp_bind. eapply wp_ioctl_info; [constructor|done|]. intros z4 r4 g4 F4 N4 B4.
    apply wp_bind, wp_store; [done|]. intros m4. apply wp_ret. split_and!; try done. frame. }
  intros r4 g4 (F4 & N4 & B4). apply wp_bind.
  eapply wp_ioctl_info; [constructor|done|]. intros z5 r5 g5 F5 N5 B5.
  apply wp_bind, (wp_store _ _ _ id); [done|]. intros m5. apply wp_ret.
  split_and!; [|simpl in *; congruence|done].
  trans (set_v (<[G_flags:=Z.land f 65535]> (g_v g)) g); [frame|]. trans g1; [done|].
  trans (set_v (<[G_xflags:=f1]> (g_v g1)) g1); [frame|]. trans g2; [done|].
  trans (set_v (<[G_metric:=m]> (g_v g2)) g2); [frame|]. trans g3; [done|]. trans g4; [done|].
  trans g5; [done|]. frame.
Qed.

(** A socket of a family is open or can be opened. *)
Definition sock_ok (naf : Z) (g : glob) : Prop :=
  if g_v g G_oaf =? naf then 0 ≤ g_v g G_s
  else ∃ fd k, k_socket naf (g_k g) = (inl fd, k) ∧ 0 ≤ fd.

Lemma wp_getsock naf g :
  sock_ok naf g → wp (getsock naf) (λ _ g', info_frame g g' ∧ 0 ≤ g_v g' G_s ∧ g_ifr g' = g_ifr g) g.
Proof.
  unfold sock_ok, getsock. intros H. apply wp_bind, wp_rd. case_match; [by apply wp_ret|].
  destruct H as (fd & k & Ek & Hfd). apply wp_bind.
  apply (wp_mono _ (λ _ g', info_frame g g' ∧ g_ifr g' = g_ifr g ∧ g_k g' = g_k g)).
  { case_match; [|done]. apply wp_bind, wp_rd. split_and!; [|done..]. split; done. }
  intros _ g1 (F1 & R1 & K1). apply wp_bind.
  apply (wp_intro _ _ _ fd (set_k k g1)); [unfold socket; by rewrite K1, Ek|].
  apply wp_bind, wp_wr. rewrite (proj2 (Z.ltb_ge fd 0)) by done. apply wp_wr. split_and!; [|done..].
  trans g1; [done|]. destruct (k_socket_if naf (g_k g)) as (Hk & Hka & Hkw). rewrite Ek in Hk, Hka, Hkw.
  trans (set_k k g1); [apply frame_set_k; by rewrite K1|].
  trans (set_v (<[G_s:=fd]> (g_v (set_k k g1))) (set_k k g1)); [by apply frame_sock|frame].
Qed.

Lemma wp_getinfo r g :
  sock_ok (g_v g G_af) g → g_name g ≠ "" → is_Some (ifr_bytes r) →
  wp (getinfo r false) (λ a g', info_post r g a g' ∧ 0 ≤ g_v g' G_s) g.
Proof.
  intros Hs Hn Hb.
  unfold getinfo. apply wp_bind, wp_rd, wp_bind. eapply wp_mono; [by apply wp_getsock|].
  intros _ g1 (F1 & S1 & R1). apply wp_bind, wp_rd. rewrite (proj2 (Z.ltb_ge _ 0)) by done.
  apply wp_bind, wp_gets, wp_bind. rewrite (fr_name _ _ F1).
  destruct (last_char (g_name g)) as [c|] eqn:E.
  2:{ destruct Hn. unfold last_char in E. apply last_None in E.
      by destruct (g_name g). }
  eapply wp_need; [done|]. case_match; [by apply wp_ret|].
  apply wp_bind, wp_getflags. rewrite (fr_if _ _ F1).
  destruct (k_if (g_k g) (ifr_name r)) as [f|].
  - eapply wp_mono; [apply wp_getinfo_rest, ifr_bytes_set|].
    intros [z r'] g' (F & N & B). split; [|by apply (fr_sock _ _ F)]. split_and!; [by trans g1|done..].
  - cbn [Z.ltb Z.compare negb]. apply wp_bind, wp_gets, wp_ret. split; [|done]. split_and!; [|done..].
    trans g1; [done|]. by apply frame_set_env.
Qed.

Lemma wp_getinfo_ifr g :
  sock_ok (g_v g G_af) g → g_name g ≠ "" → is_Some (ifr_bytes (g_ifr g)) →
  wp (getinfo_ifr false)
    (λ _ g', info_frame g g' ∧ ifr_name (g_ifr g') = ifr_name (g_ifr g) ∧ 0 ≤ g_v g' G_s) g.
Proof.
  intros Hs Hn Hb. unfold getinfo_ifr. apply wp_bind, wp_gets, wp_bind.
  eapply wp_mono; [by apply wp_getinfo|].
  intros [z r] g' ((F & N & B) & S). apply wp_bind, wp_modify, wp_ret. split; [|done].
  trans g'; [done|]. by split.
Qed.

(** ** setifflags() *)

Definition with_flags (flags : Z) (k : kstate) (g : glob) : glob :=
  set_k k (set_v (<[G_flags := flags]> (g_v g)) g).

Lemma getflags_run r g f :
  k_if (g_k g) (ifr_name r) = Some f → ioctl SIOCGIFFLAGS r g = (Ok (0, set_ifr_flags r f), g).
Proof. intros E. unfold ioctl. rewrite k_getflags, E. by destruct g. Qed.

Lemma setifflags_run v value g f old :
  k_if (g_k g) (ifr_name (g_ifr g)) = Some f →
  k_if (g_k g) (ifname (g_name g)) = Some old →
  ∃ k' new,
    setifflags v value g = (Ok tt, with_flags (sets value f) k' g)
    ∧ k_if k' (ifname (g_name g)) = Some new
    ∧ Z.land new IFF_CHANGEABLE = Z.land (sets value f) IFF_CHANGEABLE
    ∧ (∀ n, n ≠ ifname (g_name g) → k_if k' n = k_if (g_k g) n)
    ∧ ∀ n, k_addrs k' n = k_addrs (g_k g) n.
Proof.
  intros Hf Ho.
  set (r := set_ifr_name (set_ifr_flags (g_ifr g) f) (ifname (g_name g))).
  destruct (k_setflags (g_v g G_s) (set_ifr_flags r (sets value f)) (g_k g) _ old
              (ifr_flags_set r _) Ho) as (r' & k' & new & Ek & Hn & Hl & Hrest & Ha).
  exists k', new. split_and!; [|done| |done|done].
  - unfold setifflags. rewrite (bind_ok _ _ _ (g_ifr g) g) by done.
    rewrite (bind_ok _ _ _ _ _ (getflags_run _ _ _ Hf)). cbn [Z.ltb Z.compare].
    rewrite (bind_ok _ _ _ (g_name g) g) by done. fold r.
    assert (ifr_flags r = Some f) as Er.
    { subst r. change (ifr_flags (set_ifr_flags (g_ifr g) f) = Some f).
      rewrite ifr_flags_set, i16_small; [done|]. by eapply k_if_short. }
    rewrite Er. run_unfold. cbn [need]. run_unfold. unfold wr. run_unfold.
    unfold ioctl. cbn [g_v g_k set_v]. rewrite fn_lookup_insert_ne by done. rewrite Ek. done.
  - rewrite Hl. rewrite land_i16 by done. done.
Qed.

Lemma setifflags_none v value g :
  k_if (g_k g) (ifr_name (g_ifr g)) = None ∨
  k_if (g_k g) (ifname (g_name g)) = None →
  ∃ g', setifflags v value g = (Stop (SExit 1), g') ∧ g_k g' = g_k g.
Proof.
  intros Hk. unfold setifflags. rewrite (bind_ok _ _ _ (g_ifr g) g) by done.
  destruct (k_if (g_k g) (ifr_name (g_ifr g))) as [f|] eqn:Hf.
  - destruct Hk as [?|Hk]; [done|].
    rewrite (bind_ok _ _ _ _ _ (getflags_run _ _ _ Hf)). cbn [Z.ltb Z.compare].
    rewrite (bind_ok _ _ _ (g_name g) g) by done.
    change (ifr_flags (set_ifr_name (set_ifr_flags (g_ifr g) f) (ifname (g_name g))))
      with (ifr_flags (set_ifr_flags (g_ifr g) f)).
    rewrite ifr_flags_set. run_unfold. cbn [need]. run_unfold. unfold wr. run_unfold.
    unfold ioctl. rewrite k_setflags_none by done. by eexists.
  - run_unfold. unfold ioctl. rewrite k_getflags, Hf. by eexists.
Qed.

(** ** ifconfig_gate() with one word that sets flags *)

Definition flag_words : list (string * Z) :=
  [("up", IFF_UP); ("down", - IFF_UP); ("arp", - IFF_NOARP); ("-arp", IFF_NOARP);
   ("debug", IFF_DEBUG); ("-debug", - IFF_DEBUG); ("link0", IFF_LINK0); ("-link0", - IFF_LINK0);
   ("link1", IFF_LINK1); ("-link1", - IFF_LINK1); ("link2", IFF_LINK2); ("-link2", - IFF_LINK2)].

Lemma flag_row w value :
  (w, value) ∈ flag_words →
  head (find_cmd w cmds) = Some (cmd1 w value 0 setifflags) ∧ find_af w (afs false) = None
  ∧ value ≠ NEXTARG ∧ value ≠ NEXTARG2.
Proof.
  unfold flag_words. rewrite !elem_of_cons, elem_of_nil.
  intros H. repeat destruct H as [[= -> ->]|H]; done.
Qed.

(** Nothing is left to do from an earlier call. *)
Definition quiet (g : glob) : Prop :=
  g_v g G_clearaddr = 0 ∧ g_v g G_newaddr = 0
  ∧ has_bits (g_v g G_actions) (Z.lor A_MEDIA A_MEDIAOPT) = false.

(** What remains of ifconfig_gate() after its loop. *)
Lemma gate_tail_quiet rafp g :
  quiet g → (process_media_commands ≫= λ _, apply_addresses rafp) g = (Ok tt, g).
Proof.
  intros (Hc & Hn & Ha). rewrite (bind_ok _ _ _ tt g).
  - unfold apply_addresses, rd. run_unfold. rewrite Hc. cbn. by rewrite Hn.
  - unfold process_media_commands, rd. run_unfold. by rewrite Ha.
Qed.

Lemma quiet_act p g :
  c_action p = 0 → quiet g → ∃ g', act p g = (Ok tt, g') ∧ quiet g' ∧ g_k g' = g_k g.
Proof.
  intros Hp (Hc & Hn & Ha). unfold act, rd, wr. run_unfold. eexists. split; [done|].
  split; [|done]. unfold quiet. cbn [g_v set_v]. rewrite !fn_lookup_insert_ne by done.
  rewrite fn_lookup_insert. split_and!; try done.
  unfold has_bits in *. rewrite Hp, Z.lor_0_r.
  apply negb_false_iff, Z.eqb_eq in Ha. rewrite Z.land_lor_distr_l, Ha. done.
Qed.

(** The state in which the loop starts, when the first word names no address
    family. *)
Record prologue_post (iface : string) (g g' : glob) : Prop := {
  pp_name : g_name g' = stake 7 iface;
  pp_ifr : ifr_name (g_ifr g') = iface;
  pp_if : k_if (g_k g') = k_if (g_k g);
  pp_addrs : k_addrs (g_k g') = k_addrs (g_k g);
  pp_wlan : k_wlan (g_k g') = k_wlan (g_k g);
  pp_alloc : ce_alloc (g_env g') = ce_alloc (g_env g);
  pp_afp : g_afp g' = Some AFS_inet;
  pp_ridreq : g_ridreq g' = g_ridreq g;
  pp_addreq : g_in_addreq g' = g_in_addreq g;
  pp_v : ∀ v, v ∈ kept → g_v g' v = g_v g v;
  pp_sock : 0 ≤ g_v g' G_s;
}.

Lemma select_af_inet argc w argv g :
  0 < argc → find_af w (afs false) = None →
  select_af false argc (Some w :: argv) g =
    (Ok (Some AFS_inet, argc, Some w :: argv),
     set_ifr (set_ifr_family (g_ifr g) AF_INET)
       (set_v (<[G_af := AF_INET]> (g_v g)) (set_afp (Some AFS_inet) g))).
Proof.
  intros Hc Hw. unfold select_af, arg, deref, wr. rewrite (proj2 (Z.ltb_lt 0 argc) Hc).
  run_unfold. cbn -[find_af]. by rewrite Hw.
Qed.

Lemma gate_prologue argc w argv iface g :
  0 < argc → find_af w (afs false) = None → iface ≠ "" → slen iface < IFNAMSIZ → sock_ok AF_INET g →
  ∃ g', prologue_post iface g g'
        ∧ ifconfig_gate argc (Some w :: argv) iface g =
          (gate_loop (Z.to_nat argc) argc (Some w :: argv)
           ≫= λ _, process_media_commands ≫= λ _, apply_addresses (Some AFS_inet)) g'.
Proof.
  intros Hc Hw Hne Hlen Hs.
  set (g1 := set_ifr (set_ifr_name (set_ifr_family (g_ifr g) AF_INET) (ifname iface))
               (set_v (<[G_af := AF_INET]> (g_v g)) (set_afp (Some AFS_inet) (set_name (stake 7 iface) g)))).
  destruct (wp_elim _ _ g1 (wp_getinfo_ifr g1 ltac:(exact Hs) ltac:(by apply stake_nonempty) ltac:(by eexists)))
    as (z & g' & E & F & N & S).
  exists g'. split.
  - destruct F as [Fn Fi Fa Fw Fc Fp Fr Fq Fv _]. split; try done.
    + rewrite N. by apply ifname_short.
    + intros v Hv. rewrite (Fv v Hv). subst g1. cbn [g_v set_v set_ifr].
      rewrite fn_lookup_insert_ne; [done|]. intros <-. revert Hv. compute_done.
  - unfold ifconfig_gate, strlcpy_s. rewrite (bind_ok _ _ _ tt (set_name (stake 7 iface) g)) by done.
    rewrite (proj2 (Z.leb_gt IFNAMSIZ (slen iface))) by done. cbv beta iota.
    rewrite (bind_ok _ _ _ _ _ (select_af_inet argc w argv _ Hc Hw)). cbv beta iota.
    rewrite (bind_ok _ _ _ tt g1) by done. rewrite (bind_ok _ _ _ _ _ E). done.
Qed.

Lemma quiet_prologue iface g g' : prologue_post iface g g' → quiet g → quiet g'.
Proof.
  intros F (Hc & Hn & Ha). unfold quiet.
  by rewrite (pp_v _ _ _ F G_clearaddr), (pp_v _ _ _ F G_newaddr), (pp_v _ _ _ F G_actions) by compute_done.
Qed.

Lemma gate_loop_flag w value g :
  (w, value) ∈ flag_words →
  gate_loop 1 1 [Some w] g = (setifflags (Some w) value ≫= λ _, act (cmd1 w value 0 setifflags)) g.
Proof.
  intros Hw. destruct (flag_row w value Hw) as (Hrow & _ & Hv1 & Hv2).
  change (gate_loop 1 1 [Some w] g)
    with ((gate_round [Some w] ≫= λ n, gate_loop 0 (1 - Z.of_nat n) (drop n [Some w])) g).
  unfold mbind at 1, CM_bind at 1. rewrite (gate_round_word _ _ _ _ Hrow) by done.
  unfold call1. cbn [c_func cmd1 need c_parameter]. run_unfold.
  destruct (setifflags (Some w) value g) as [[u|?] ?]; [|done].
  by destruct (act _ _) as [[[]|?] ?].
Qed.

Lemma gate_flag_run w value iface g f :
  (w, value) ∈ flag_words → iface ≠ "" → slen iface < IFNAMSIZ → sock_ok AF_INET g → quiet g →
  k_if (g_k g) iface = Some f →
  match k_if (g_k g) (stake 7 iface) with
  | Some _ => ∃ g' new,
      ifconfig_gate 1 [Some w] iface g = (Ok tt, g')
      ∧ k_if (g_k g') (stake 7 iface) = Some new
      ∧ Z.land new IFF_CHANGEABLE = Z.land (sets value f) IFF_CHANGEABLE
      ∧ (∀ n, n ≠ stake 7 iface → k_if (g_k g') n = k_if (g_k g) n)
      ∧ (∀ n, k_addrs (g_k g') n = k_addrs (g_k g) n)
  | None => ∃ g', ifconfig_gate 1 [Some w] iface g = (Stop (SExit 1), g') ∧ k_if (g_k g') = k_if (g_k g)
  end.
Proof.
  intros Hw Hne Hlen Hs Hq Hf. destruct (flag_row w value Hw) as (Hrow & Haf & Hv1 & Hv2).
  destruct (gate_prologue 1 w [] iface g ltac:(done) Haf Hne Hlen Hs) as (g1 & P & ->).
  pose proof (quiet_prologue _ _ _ P Hq) as Q1. destruct P as [N1 R1 K1 A1 _ _ _ _ _ _ _].
  assert (ifname (g_name g1) = stake 7 iface) as En.
  { rewrite N1. apply ifname_short. unfold IFNAMSIZ. pose proof (slen_stake 7 iface). lia. }
  destruct (k_if (g_k g) (stake 7 iface)) as [old|] eqn:Eold.
  - destruct (setifflags_run (Some w) value g1 f old) as (k' & new & Er & Hn & Hl & Ho & Ha).
    { by rewrite R1, K1. } { by rewrite En, K1. }
    destruct (quiet_act (cmd1 w value 0 setifflags) (with_flags (sets value f) k' g1)) as (g2 & Ea & Q2 & K2);
      [done|exact Q1|].
    exists g2, new. rewrite K2, En in *. split_and!; [|done|done| |].
    + rewrite (bind_ok _ _ _ tt g2); [by apply gate_tail_quiet|].
      rewrite (gate_loop_flag _ _ _ Hw). by rewrite (bind_ok _ _ _ _ _ Er).
    + intros n Hnn. rewrite <- K1. by apply Ho.
    + intros n. rewrite <- A1. apply Ha.
  - destruct (setifflags_none (Some w) value g1) as (g2 & Er & K2); [right; by rewrite En, K1|].
    exists g2. rewrite K2. split; [|done]. apply bind_stop.
    rewrite (gate_loop_flag _ _ _ Hw). by rewrite (bind_stop _ _ _ _ _ Er).
Qed.

Lemma changeable_bit a b n :
  Z.land a IFF_CHANGEABLE = Z.land b IFF_CHANGEABLE → Z.testbit IFF_CHANGEABLE n = true →
  Z.testbit a n = Z.testbit b n.
Proof.
  intros E Hn. apply (f_equal (λ z, Z.testbit z n)) in E. rewrite !Z.land_spec, Hn, !andb_true_r in E. done.
Qed.

(** ** Theorems *)

(** setifflags on an existing interface succeeds; of the flags a user may
    change it sets those in a positive value and clears those in a negative
    one, leaves the others as they are, and touches neither the flags of
    another interface nor any address. *)
Theorem setifflags_effect v value g f :
  ifr_name (g_ifr g) = ifname (g_name g) →
  k_if (g_k g) (ifname (g_name g)) = Some f →
  ∃ g' new,
    setifflags v value g = (Ok tt, g')
    ∧ k_if (g_k g') (ifname (g_name g)) = Some new
    ∧ (∀ n, Z.testbit IFF_CHANGEABLE n = true →
         Z.testbit new n = if value <? 0 then Z.testbit f n && negb (Z.testbit (- value) n)
                           else Z.testbit f n || Z.testbit value n)
    ∧ (∀ m, m ≠ ifname (g_name g) → k_if (g_k g') m = k_if (g_k g) m)
    ∧ (∀ m, k_addrs (g_k g') m = k_addrs (g_k g) m).
Proof.
  intros Hn Hf. destruct (setifflags_run v value g f f) as (k' & new & E & Hnew & Hl & Ho & Ha);
    [by rewrite Hn|done|].
  eexists _, new. split_and!; [done..| |done|done].
  intros n Hb. rewrite (changeable_bit _ _ _ Hl Hb). unfold sets.
  case_match; [apply Z.ldiff_spec|apply Z.lor_spec].
Qed.

(** C8. ifconfig_gate, called with one of the words that set or clear a flag
    and an interface whose name has at most seven characters, changes that
    flag of that interface, and changes no other interface and no address. *)
Theorem gate_flag w value iface g f :
  (w, value) ∈ flag_words → iface ≠ "" → slen iface ≤ 7 → sock_ok AF_INET g → quiet g →
  k_if (g_k g) iface = Some f →
  ∃ g' new,
    ifconfig_gate 1 [Some w] iface g = (Ok tt, g')
    ∧ k_if (g_k g') iface = Some new
    ∧ Z.land new IFF_CHANGEABLE
      = Z.land (if value <? 0 then Z.ldiff f (- value) else Z.lor f value) IFF_CHANGEABLE
    ∧ (∀ n, n ≠ iface → k_if (g_k g') n = k_if (g_k g) n)
    ∧ (∀ n, k_addrs (g_k g') n = k_addrs (g_k g) n).
Proof.
  intros Hw Hne Hlen Hs Hq Hf.
  pose proof (gate_flag_run w value iface g f Hw Hne ltac:(unfold IFNAMSIZ; lia) Hs Hq Hf) as H.
  rewrite (stake_all 7 iface), Hf in H by done. done.
Qed.

(** C39. For a name of eight to fifteen characters ifconfig_gate reads the
    flags of that interface but writes them to the interface named by its
    first seven characters: if there is such an interface its flags are
    overwritten and the one that was named keeps its own; if there is none
    the process exits. *)
Theorem gate_flag_truncated w value iface g f :
  (w, value) ∈ flag_words → 7 < slen iface < IFNAMSIZ → sock_ok AF_INET g → quiet g →
  k_if (g_k g) iface = Some f →
  match k_if (g_k g) (stake 7 iface) with
  | Some _ => ∃ g' new,
      ifconfig_gate 1 [Some w] iface g = (Ok tt, g')
      ∧ k_if (g_k g') iface = Some f
      ∧ k_if (g_k g') (stake 7 iface) = Some new
      ∧ Z.land new IFF_CHANGEABLE
        = Z.land (if value <? 0 then Z.ldiff f (- value) else Z.lor f value) IFF_CHANGEABLE
  | None => ∃ g', ifconfig_gate 1 [Some w] iface g = (Stop (SExit 1), g') ∧ k_if (g_k g') = k_if (g_k g)
  end.
Proof.
  intros Hw Hlen Hs Hq Hf. assert (iface ≠ "") as Hne by (intros ->; change (slen "") with 0 in Hlen; lia).
  assert (iface ≠ stake 7 iface) as Hd.
  { intros E. pose proof (slen_stake 7 iface) as Hs7. rewrite <- E in Hs7. lia. }
  pose proof (gate_flag_run w value iface g f Hw Hne ltac:(lia) Hs Hq Hf) as H.
  destruct (k_if (g_k g) (stake 7 iface)); [|done].
  destruct H as (g' & new & E & Hnew & Hl & Ho & _). exists g', new. split_and!; try done.
  by rewrite Ho.
Qed.
End flags.

(** ** The theorems on concrete interfaces *)

Definition no_libs : Libs := {|
  getnameinfo := λ _, None;
  gethostbyname := λ _, None; getnetbyname := λ _, None; getaddrinfo := λ _ _ _, None |}.

Definition some_ifnet (n : string) (flags : Z) : ifnet := mk_ifnet n flags 0 0 1500 0 0 "" [] None.

Definition two_ifs : @glob plain_kernel :=
  @glob_init plain_kernel (mk_cenv [] 0 []) [some_ifnet "em0" 0x8802; some_ifnet "bridge10" 0x41; some_ifnet "bridge1" 0].

Lemma setifflags_effect_witness :
  ∃ g' new,
    @setifflags plain_kernel (Some "up") IFF_UP
      (set_name "em0" (set_ifr (mk_ifreq "em0" (U_bytes (zeros 16))) two_ifs)) = (Ok tt, g')
    ∧ @k_if _ plain_laws (@g_k plain_kernel g') "em0" = Some new
    ∧ Z.testbit new 0 = true.
Proof.
  destruct (@setifflags_effect plain_kernel plain_laws (Some "up") IFF_UP
    (set_name "em0" (set_ifr (mk_ifreq "em0" (U_bytes (zeros 16))) two_ifs)) (i16 0x8802))
    as (g' & new & E & Hn & Hb & _); [reflexivity..|].
  exists g', new. split_and!; [exact E|exact Hn|]. rewrite Hb by reflexivity. reflexivity.
Defined.

Lemma gate_flag_witness :
  ∃ g' new,
    @ifconfig_gate plain_kernel no_libs 1 [Some "up"] "em0" two_ifs = (Ok tt, g')
    ∧ @k_if _ plain_laws (@g_k plain_kernel g') "em0" = Some new
    ∧ Z.land new IFF_CHANGEABLE = IFF_UP.
Proof.
  destruct (@gate_flag plain_kernel no_libs plain_laws "up" IFF_UP "em0" two_ifs (i16 0x8802))
    as (g' & new & E & Hn & Hb & _); [compute_done|done|done| |by vm_compute|reflexivity|].
  - exists 3, (@g_k plain_kernel two_ifs). split; [reflexivity|lia].
  - exists g', new. split_and!; [exact E|exact Hn|]. rewrite Hb. reflexivity.
Defined.

Lemma gate_flag_truncated_witness :
  ∃ g' new,
    @ifconfig_gate plain_kernel no_libs 1 [Some "down"] "bridge10" two_ifs = (Ok tt, g')
    ∧ @k_if _ plain_laws (@g_k plain_kernel g') "bridge10" = Some 0x41
    ∧ @k_if _ plain_laws (@g_k plain_kernel g') "bridge1" = Some new.
Proof.
  pose proof (@gate_flag_truncated plain_kernel no_libs plain_laws "down" (- IFF_UP) "bridge10" two_ifs 0x41) as H.
  destruct H as (g' & new & E & Hf & Hn & _); [compute_done|by vm_compute| |by vm_compute|reflexivity|].
  - exists 3, (@g_k plain_kernel two_ifs). split; [reflexivity|lia].
  - exists g', new. split_and!; [exact E|exact Hf|exact Hn].
Defined.
