(* ===== verification/AddrProps.v ===== *)
(** * AddrProps: Internet addresses and masks

    What in_getprefix(), in_getaddr() and setifaddr() store for the text of
    an address, and what ifconfig_gate() then does to the addresses of an
    interface of a kernel that obeys the laws of IfKernel. *)
From coqutil Require Import Byte Word.LittleEndianList.
From Stdlib Require Import Ascii.
From stdpp Require Import base list strings functions.
From S2P Require Import Prelude CString CNum NetAddr InetNet Scan IfData IfCore IfMedia Gate IfNet IfKernel FlagProps.

(** ** Bytes of a socket address *)

Lemma poke_lookup off bs sa i :
  (off + length bs ≤ length sa)%nat →
  poke off bs sa !! i = if decide (off ≤ i < off + length bs)%nat then bs !! (i - off)%nat else sa !! i.
Proof.
  intros H. unfold poke. case_decide as Hi.
  - rewrite lookup_app_r by (rewrite length_take; lia). rewrite length_take.
    rewrite lookup_app_l by lia. f_equal. lia.
  - destruct (decide (i < off)%nat).
    + by rewrite lookup_app_l, lookup_take_lt by (rewrite ?length_take; lia).
    + rewrite lookup_app_r, length_take, lookup_app_r, lookup_drop by (rewrite ?length_take; lia).
      f_equal. lia.
Qed.

Lemma nth_poke off bs sa i d :
  (off + length bs ≤ length sa)%nat →
  nth i (poke off bs sa) d
  = if decide (off ≤ i < off + length bs)%nat then nth (i - off) bs d else nth i sa d.
Proof.
  intros H. rewrite !(nth_lookup _ _ d), poke_lookup by done. case_decide; by rewrite ?nth_lookup.
Qed.

Lemma sin_addr_poke bs sa :
  length sa = 16%nat → length bs = 4%nat → sin_addr (poke 4 bs sa) = le_combine (rev bs).
Proof.
  intros Hs Hb. unfold sin_addr, poke. rewrite drop_app_length' by (rewrite length_take; lia).
  rewrite take_app_length' by done. done.
Qed.

Lemma sin_addr_header off b sa :
  length sa = 16%nat → (off < 4)%nat → sin_addr (poke off [b] sa) = sin_addr sa.
Proof.
  intros Hs Ho. unfold sin_addr. do 2 f_equal. apply list_eq. intros i.
  destruct (decide (i < 4)%nat); [|by rewrite !lookup_take_ge by lia].
  rewrite !lookup_take_lt, !lookup_drop, poke_lookup by (simpl; lia).
  rewrite decide_False by (simpl; lia). done.
Qed.

(** ** Prefix lengths *)

(** The mask of [n] one bits. *)
Definition netmask (n : Z) : Z := 2 ^ 32 - 2 ^ (32 - n).

(** [P] holds of the numbers from 0 to 32. *)
Lemma below33 (P : Z → bool) :
  forallb P (map Z.of_nat (seq 0 33)) = true → ∀ n, 0 ≤ n ≤ 32 → P n = true.
Proof. intros H n Hn. apply (decide_below P 33 H). lia. Qed.

Lemma prefix_mask_value n :
  0 ≤ n ≤ 32 → le_combine (rev (prefix_mask 4 n)) = if n =? 0 then 2 ^ 32 - 1 else netmask n.
Proof.
  intros Hn. apply Z.eqb_eq.
  apply (below33 (λ n, le_combine (rev (prefix_mask 4 n)) =? if n =? 0 then 2 ^ 32 - 1 else netmask n));
    [by vm_compute|done].
Qed.

Lemma length_prefix_mask n : length (prefix_mask 4 n) = 4%nat.
Proof. unfold prefix_mask. case_match; [done|]. simpl. repeat case_match; done. Qed.

Lemma bits_text_value n : 0 ≤ n ≤ 32 → strtonum_s (bits_text n) 0 32 = inl n.
Proof.
  intros Hn.
  assert (match strtonum_s (bits_text n) 0 32 with inl m => m =? n | inr _ => false end = true) as H.
  { apply (below33 (λ n, match strtonum_s (bits_text n) 0 32 with inl m => m =? n | inr _ => false end));
      [by vm_compute|done]. }
  destruct (strtonum_s _ _ _); [|done]. apply Z.eqb_eq in H. by subst.
Qed.

(** ** The texts of addresses *)

Definition cidr (a b c d n : Z) : string :=
  String.string_of_list_ascii (dotted_quad a b c d ++ "/"%char :: dec_octet n).

Definition octets (l : list Z) : Prop := Forall (λ o, 0 ≤ o < 256) l.

Lemma bytes_cidr a b c d n : bytes (cidr a b c d n) = dotted_quad a b c d ++ "/"%char :: dec_octet n.
Proof. apply bytes_of_list. Qed.

(** Every character of an address is a digit, a dot or a slash. *)
Definition addr_char (c : ascii) : bool := isdigit c || Ascii.eqb c "." || Ascii.eqb c "/".

Lemma dec_octet_isdigit o : 0 ≤ o < 256 → Forall (λ c, isdigit c = true) (dec_octet o) ∧ dec_octet o ≠ [].
Proof.
  intros Ho.
  assert (forallb isdigit (dec_octet o) && negb (Nat.eqb (length (dec_octet o)) 0) = true) as H.
  { apply (decide_below (λ o, forallb isdigit (dec_octet o) && negb (Nat.eqb (length (dec_octet o)) 0)) 256);
      [by vm_compute|lia]. }
  apply andb_prop in H as [H1 H2]. split.
  - apply List.Forall_forall. by rewrite forallb_forall in H1.
  - by destruct (dec_octet o).
Qed.

Lemma dec_octet_chars o : 0 ≤ o < 256 → Forall (λ c, addr_char c = true) (dec_octet o).
Proof.
  intros Ho. eapply list.Forall_impl; [exact (proj1 (dec_octet_isdigit o Ho))|].
  intros x Hx. unfold addr_char. by rewrite Hx.
Qed.

Lemma cidr_chars a b c d n :
  octets [a; b; c; d] → 0 ≤ n ≤ 32 → Forall (λ c, addr_char c = true) (bytes (cidr a b c d n)).
Proof.
  intros Ho Hn. unfold octets in Ho. rewrite !list.Forall_cons in Ho.
  destruct Ho as (Ha & Hb & Hc & Hd & _). rewrite bytes_cidr. unfold dotted_quad.
  rewrite <- !app_assoc. cbn [app]. rewrite <- !app_assoc. cbn [app]. rewrite <- !app_assoc. cbn [app].
  repeat first [apply list.Forall_app; split; [by apply dec_octet_chars|] | apply list.Forall_cons; split; [done|]].
  apply dec_octet_chars. lia.
Qed.

Lemma cidr_no_nul a b c d n : octets [a; b; c; d] → 0 ≤ n ≤ 32 → no_nul (cidr a b c d n).
Proof.
  intros Ho Hn. unfold no_nul. eapply list.Forall_impl; [by apply (cidr_chars a b c d n)|].
  intros x Hx. destruct (is_nul x) eqn:E; [|done]. apply is_nul_spec in E. by subst x.
Qed.

Lemma cidr_head a b c d n : octets [a; b; c; d] → ∃ x s, cidr a b c d n = String x s ∧ isdigit x = true.
Proof.
  intros Ho. apply Forall_inv in Ho. destruct (dec_octet_isdigit a Ho) as [H1 H2].
  unfold cidr, dotted_quad. destruct (dec_octet a) as [|x l]; [done|]. apply Forall_inv in H1.
  cbn [app String.string_of_list_ascii]. eauto.
Qed.

Section addr.
Context {K : Kernel} {LB : Libs}.

(** ** in_getprefix() and in_getaddr() *)

Definition mask_sa (n : Z) (sa : sockaddr) : sockaddr :=
  poke 4 (prefix_mask 4 n) (poke 0 [byte.of_Z 16] sa).
Definition addr_sa (bs : list byte) (sa : sockaddr) : sockaddr :=
  poke 4 bs (poke 1 [byte.of_Z AF_INET] (poke 0 [byte.of_Z 16] sa)).

Lemma in_getprefix_run t n g :
  strtonum_s t 0 32 = inl n →
  in_getprefix t MASK g =
    (Ok tt, let q := g_in_addreq g in
            set_in_addreq (mk_alias (ifra_name q) (ifra_addr q) (ifra_dstaddr q) (mask_sa n (ifra_mask q))) g).
Proof. intros E. unfold in_getprefix, strtonum_or_err. rewrite E. reflexivity. Qed.

Lemma in_getaddr_cidr_run a b c d n g :
  octets [a; b; c; d] → 0 ≤ n ≤ 32 →
  in_getaddr (cidr a b c d n) ADDR g =
    (Ok tt, let q := g_in_addreq g in
            set_in_addreq (mk_alias (ifra_name q) (addr_sa (to_bytes [a; b; c; d]) (ifra_addr q))
                             (ifra_dstaddr q) (mask_sa n (ifra_mask q))) g).
Proof.
  intros Ho Hn. unfold in_getaddr. rewrite (bind_ok _ _ _ tt
    (let q := g_in_addreq g in
     set_in_addreq (mk_alias (ifra_name q) (poke 1 [byte.of_Z AF_INET] (poke 0 [byte.of_Z 16] (ifra_addr q)))
                      (ifra_dstaddr q) (ifra_mask q)) g)) by reflexivity.
  assert (∃ i, strrchr (cmem (cidr a b c d n)) "/" = Some (Some i)) as [i Ei].
  { unfold strrchr, cmem.
    destruct (strrchr_loop_string (bytes (cidr a b c d n) ++ [NUL]) (cidr a b c d n) "/" 0 None)
      as (r & E & Hr); [split; [by apply cidr_no_nul|by exists []]|done|].
    destruct Hr as [[-> Hni]|(i & -> & _)]; [|eauto].
    destruct Hni. rewrite bytes_cidr. apply elem_of_app. right. apply elem_of_cons. by left. }
  rewrite (bind_need _ _ _ _ Ei), (bool_decide_true (is_Some (Some i))) by (by eexists).
  change (ADDR =? ADDR) with true. cbn [andb].
  unfold cmem. rewrite bytes_cidr, <- app_assoc. cbn [app].
  rewrite (bind_need _ _ _ _ (inet_net_pton_spec a b c d n [0; 0; 0; 0] [] Ho Hn eq_refl)).
  rewrite (bind_ok _ _ _ _ _ (in_getprefix_run _ n _ (bits_text_value n Hn))). reflexivity.
Qed.

(** ** setifaddr() *)

Lemma setifaddr_cidr_run a b c d n g :
  octets [a; b; c; d] → 0 ≤ n ≤ 32 → g_v g G_doalias = 0 → g_afp g = Some AFS_inet →
  setifaddr (Some (cidr a b c d n)) 0 g =
    (Ok tt, let q := g_in_addreq g in
            set_in_addreq (mk_alias (ifra_name q) (addr_sa (to_bytes [a; b; c; d]) (ifra_addr q))
                             (ifra_dstaddr q) (mask_sa n (ifra_mask q)))
              (set_v (<[G_clearaddr := 1]> (<[G_newaddr := 1]> (<[G_setaddr := g_v g G_setaddr + 1]> (g_v g)))) g)).
Proof.
  intros Ho Hn Hd Hafp. unfold setifaddr. rewrite bind_rd, bind_wr, bind_rd.
  cbn [g_v set_v]. rewrite fn_lookup_insert_ne, Hd by done. cbn [Z.leb Z.compare Z.eqb].
  rewrite !bind_wr. unfold afp_getaddr, deref.
  rewrite bind_get. cbn [g_afp set_v].
  rewrite (bind_need _ _ _ _ Hafp), (bind_need _ (cidr a b c d n) _ _ eq_refl). unfold af_getaddr.
  by rewrite in_getaddr_cidr_run.
Qed.

(** A word that starts with a digit is no command and no address family. *)
Lemma find_cmd_digit x s :
  isdigit x = true →
  head (find_cmd (String x s) cmds) = Some (cmd0 (Some setifaddr)) ∧ find_af (String x s) (afs false) = None.
Proof.
  intros Hx. split.
  - unfold cmds.
    assert (forallb (λ p, match c_name p with Some (String y _) => negb (isdigit y) | _ => false end)
              named_cmds = true) as H by (by vm_compute).
    induction named_cmds as [|p l IH]; [done|]. cbn [forallb] in H. apply andb_prop in H as [Hp Hl].
    cbn [app find_cmd]. destruct (c_name p) as [[|y n]|]; [done| |done].
    rewrite bool_decide_false; [by apply IH|]. intros [= -> _]. by rewrite Hx in Hp.
  - cbn. by rewrite !bool_decide_false by (by intros [= <-]).
Qed.
End addr.

Section gate_addr.
Context {K : Kernel} {LB : Libs} {L : IfLaws K}.

(** The kernel adds an address to every interface it has. *)
Definition accepts : Prop := ∀ fd q k,
  is_Some (k_if k (ifra_name q)) → (k_ioctl fd SIOCAIFADDR q k).1.1 = 0.

(** An address is waiting to replace the first one of an interface. *)
Record pending (g : glob) (A M : Z) : Prop := {
  pe_clear : g_v g G_clearaddr = 1;
  pe_new : g_v g G_newaddr = 1;
  pe_alias : g_v g G_doalias = 0;
  pe_media : has_bits (g_v g G_actions) (Z.lor A_MEDIA A_MEDIAOPT) = false;
  pe_rid : ∃ sa, ifr_bytes (g_ridreq g) = Some sa ∧ sa_family sa ≠ AF_INET;
  pe_family : sa_family (ifra_addr (g_in_addreq g)) = AF_INET;
  pe_len : sa_len (ifra_addr (g_in_addreq g)) ≠ 0;
  pe_mlen : sa_len (ifra_mask (g_in_addreq g)) ≠ 0;
  pe_addr : sin_addr (ifra_addr (g_in_addreq g)) = A;
  pe_mask : sin_addr (ifra_mask (g_in_addreq g)) = M;
}.

Lemma clear_address_run g sa n :
  ifr_bytes (g_ridreq g) = Some sa → sa_family sa ≠ AF_INET → g_v g G_doalias = 0 →
  ifname (g_name g) = n → is_Some (k_if (g_k g) n) →
  ∃ g', clear_address (Some AFS_inet) g = (Ok tt, g')
        ∧ g_v g' = g_v g ∧ g_name g' = g_name g ∧ g_in_addreq g' = g_in_addreq g
        ∧ ifr_bytes (g_ridreq g') = Some sa
        ∧ (∀ m, is_Some (k_if (g_k g') m) ↔ is_Some (k_if (g_k g) m))
        ∧ ∀ m, k_addrs (g_k g') m = (<[n := tail (k_addrs (g_k g) n)]> (k_addrs (g_k g))) m.
Proof.
  intros Hb Hf Hd Hn Hi. unfold clear_address. rewrite (bind_need _ AFS_inet _ _ eq_refl), bind_get.
  set (r := set_ifr_name (g_ridreq g) n).
  destruct (k_difaddr (g_v g G_s) r (g_k g) sa Hb Hi) as (e & k' & Ek & Hs & Hm).
  unfold addr_del in Hm. rewrite (proj2 (Z.eqb_neq _ _) Hf) in Hm. cbn [r set_ifr_name ifr_name] in Hm.
  assert (∀ m, k_addrs k' m = (<[n := tail (k_addrs (g_k g) n)]> (k_addrs (g_k g))) m) as Ha.
  { intros m. destruct (k_addrs (g_k g) n) as [|ia l] eqn:El; destruct Hm as [_ Hm]; rewrite Hm; [|done].
    destruct (decide (m = n)) as [->|]; [|by rewrite fn_lookup_insert_ne].
    by rewrite fn_lookup_insert, El. }
  destruct (Z.eqb_spec e 0) as [->|He].
  - rewrite (bind_ok _ _ _ 0 (set_ridreq r (set_k k' (set_ridreq r g)))).
    2:{ unfold delete_address. cbv iota. rewrite bind_modify, bind_gets, Hn. unfold ioctl.
        cbn [g_ridreq g_v g_k set_ridreq]. fold r. rewrite (bind_ok _ _ _ (0, r) (set_k k' (set_ridreq r g))); [done|].
        cbn [g_v g_k set_ridreq]. by rewrite Ek. }
    eexists. split; [reflexivity|]. done.
  - destruct (k_addrs (g_k g) n) as [|ia l] eqn:El; [|by destruct Hm]. destruct Hm as [-> _].
    set (g2 := set_k k' (set_env (mk_cenv (ce_alloc (g_env g)) EADDRNOTAVAIL (ce_closed (g_env g))) (set_ridreq r g))).
    rewrite (bind_ok _ _ _ (-1) (set_ridreq r g2)).
    2:{ unfold delete_address. cbv iota. rewrite bind_modify, bind_gets, Hn. unfold ioctl.
        cbn [g_ridreq g_v g_k set_ridreq]. fold r. rewrite (bind_ok _ _ _ (-1, r) g2); [done|].
        cbn [g_v g_k set_ridreq]. by rewrite Ek. }
    cbn [Z.ltb Z.compare]. unfold errno. rewrite bind_get, bind_rd.
    cbn [g2 g_v set_ridreq set_k set_env g_env ce_errno]. rewrite Hd.
    eexists. split; [reflexivity|]. done.
Qed.

Lemma new_address_run g n :
  accepts → sa_family (ifra_addr (g_in_addreq g)) = AF_INET → sa_len (ifra_addr (g_in_addreq g)) ≠ 0 →
  ifname (g_name g) = n → is_Some (k_if (g_k g) n) →
  ∃ k', let q := g_in_addreq g in
        let q' := mk_alias n (ifra_addr q) (ifra_dstaddr q) (ifra_mask q) in
        new_address (Some AFS_inet) g = (Ok tt, set_in_addreq q' (set_k k' g))
        ∧ ∀ m, k_addrs k' m = (<[n := addr_add q (k_addrs (g_k g) n)]> (k_addrs (g_k g))) m.
Proof.
  intros Hacc Hf Hl Hn Hi. unfold new_address. cbv zeta.
  rewrite (bind_need _ AFS_inet _ _ eq_refl), bind_get.
  set (q' := mk_alias n (ifra_addr (g_in_addreq g)) (ifra_dstaddr (g_in_addreq g)) (ifra_mask (g_in_addreq g))).
  destruct (k_aifaddr (g_v g G_s) q' (g_k g) Hf Hl Hi) as (e & k' & Ek & Ha).
  assert (e = 0) as -> by (pose proof (Hacc (g_v g G_s) q' (g_k g) Hi) as H; by rewrite Ek in H).
  exists k'. split; [|by apply Ha].
  rewrite (bind_ok _ _ _ 0 (set_in_addreq q' (set_k k' g))); [done|].
  unfold add_address_of. cbv iota zeta. rewrite bind_modify, bind_gets, Hn. cbn [g_in_addreq set_in_addreq]. fold q'.
  rewrite (bind_ok _ _ _ (0, q') (set_k k' (set_in_addreq q' g))); [done|].
  unfold ioctl. cbn [g_v g_k set_in_addreq]. by rewrite Ek.
Qed.

Lemma apply_addresses_run g n A M :
  accepts → pending g A M → ifname (g_name g) = n → is_Some (k_if (g_k g) n) →
  ∃ g', apply_addresses (Some AFS_inet) g = (Ok tt, g') ∧ pending g' A M
        ∧ ∀ m, k_addrs (g_k g') m
               = (<[n := put_addr A (Some M) (tail (k_addrs (g_k g) n))]> (k_addrs (g_k g))) m.
Proof.
  intros Hacc P Hn Hi. pose proof P as [Pc Pn Pd Pm (sa & Pr & Pf) Pfam Plen Pml Pa Pk].
  destruct (clear_address_run g sa n Pr Pf Pd Hn Hi) as (g1 & E1 & V1 & N1 & Q1 & R1 & I1 & A1).
  destruct (new_address_run g1 n) as (k' & E2 & A2); [done|by rewrite Q1|by rewrite Q1|by rewrite N1|by apply I1|].
  unfold apply_addresses. rewrite bind_rd, Pc. cbn [Z.eqb negb]. rewrite (bind_ok _ _ _ _ _ E1), bind_rd, V1, Pn.
  cbn [Z.eqb negb]. rewrite E2. eexists. split; [reflexivity|]. split.
  - split; cbn [g_v set_in_addreq set_k g_ridreq g_in_addreq ifra_addr ifra_mask]; rewrite ?V1, ?Q1; eauto.
  - intros m. cbn [g_k set_in_addreq set_k]. rewrite A2. unfold addr_add.
    rewrite Q1, (proj2 (Z.eqb_neq _ _) Pml), Pa, Pk. cbn [negb].
    destruct (decide (m = n)) as [->|]; [|by rewrite !fn_lookup_insert_ne, A1, fn_lookup_insert_ne].
    by rewrite !fn_lookup_insert, A1, fn_lookup_insert.
Qed.

(** The globals before any address has been given. *)
Record fresh (g : glob) : Prop := {
  fh_alias : g_v g G_doalias = 0;
  fh_media : has_bits (g_v g G_actions) (Z.lor A_MEDIA A_MEDIAOPT) = false;
  fh_rid : ∃ sa, ifr_bytes (g_ridreq g) = Some sa ∧ sa_family sa ≠ AF_INET;
  fh_addr : length (ifra_addr (g_in_addreq g)) = 16%nat;
  fh_mask : length (ifra_mask (g_in_addreq g)) = 16%nat;
}.

Lemma process_media_none g :
  has_bits (g_v g G_actions) (Z.lor A_MEDIA A_MEDIAOPT) = false → process_media_commands g = (Ok tt, g).
Proof. intros E. unfold process_media_commands. rewrite bind_rd, E. done. Qed.

Definition ipv4 (a b c d : Z) : Z := a * 2 ^ 24 + b * 2 ^ 16 + c * 2 ^ 8 + d.

Lemma ipv4_bytes a b c d :
  octets [a; b; c; d] → le_combine (rev (to_bytes [a; b; c; d])) = ipv4 a b c d.
Proof.
  intros Ho. unfold octets in Ho. rewrite !list.Forall_cons in Ho. destruct Ho as (Ha & Hb & Hc & Hd & _).
  unfold to_bytes. cbn [map rev app]. rewrite !le_combine_cons, le_combine_nil, !byte.unsigned_of_Z.
  unfold byte.wrap, ipv4. rewrite !Z.mod_small by lia. lia.
Qed.

Definition act_v (a : Z) (g : glob) : glob :=
  set_v (<[G_actions := Z.lor (Z.lor (g_v g G_actions) A_SILENT) a]> (g_v g)) g.

Lemma act_run p g : act p g = (Ok tt, act_v (c_action p) g).
Proof. reflexivity. Qed.

Lemma silent_no_media a :
  has_bits a (Z.lor A_MEDIA A_MEDIAOPT) = false →
  has_bits (Z.lor (Z.lor a A_SILENT) 0) (Z.lor A_MEDIA A_MEDIAOPT) = false.
Proof.
  unfold has_bits. rewrite Z.lor_0_r. intros H%negb_false_iff%Z.eqb_eq.
  by rewrite Z.land_lor_distr_l, H.
Qed.

(** The loop for one address. *)
Lemma gate_loop_cidr a b c d n g :
  octets [a; b; c; d] → 0 ≤ n ≤ 32 → g_v g G_doalias = 0 → g_afp g = Some AFS_inet →
  gate_loop 1 1 [Some (cidr a b c d n)] g =
    (Ok tt, act_v 0
      (let q := g_in_addreq g in
       set_in_addreq (mk_alias (ifra_name q) (addr_sa (to_bytes [a; b; c; d]) (ifra_addr q))
                        (ifra_dstaddr q) (mask_sa n (ifra_mask q)))
         (set_v (<[G_clearaddr := 1]> (<[G_newaddr := 1]> (<[G_setaddr := g_v g G_setaddr + 1]> (g_v g)))) g))).
Proof.
  intros Ho Hn Hd Hafp. destruct (cidr_head a b c d n Ho) as (x & s & Es & Hx).
  destruct (find_cmd_digit x s Hx) as [Hrow _]. rewrite <- Es in Hrow.
  change (gate_loop 1 1 [Some (cidr a b c d n)] g)
    with ((gate_round [Some (cidr a b c d n)] ≫= λ m, gate_loop 0 (1 - Z.of_nat m) (drop m [Some (cidr a b c d n)])) g).
  erewrite bind_run; last first.
  { rewrite (gate_round_word _ _ _ _ Hrow) by done. cbn [c_parameter cmd0].
    rewrite (bind_run (call1 (cmd0 (Some setifaddr)) _ 0) _ g tt _ (setifaddr_cidr_run a b c d n g Ho Hn Hd Hafp)).
    reflexivity. }
  reflexivity.
Qed.

Lemma pending_cidr a b c d n g :
  octets [a; b; c; d] → 1 ≤ n ≤ 32 → fresh g →
  pending (act_v 0
      (let q := g_in_addreq g in
       set_in_addreq (mk_alias (ifra_name q) (addr_sa (to_bytes [a; b; c; d]) (ifra_addr q))
                        (ifra_dstaddr q) (mask_sa n (ifra_mask q)))
         (set_v (<[G_clearaddr := 1]> (<[G_newaddr := 1]> (<[G_setaddr := g_v g G_setaddr + 1]> (g_v g)))) g)))
    (ipv4 a b c d) (netmask n).
Proof.
  intros Ho Hn [Fd Fm Fr Fa Fk].
  assert (length (poke 0 [byte.of_Z 16] (ifra_addr (g_in_addreq g))) = 16%nat) as L1 by (rewrite length_poke; simpl; lia).
  assert (length (poke 1 [byte.of_Z AF_INET] (poke 0 [byte.of_Z 16] (ifra_addr (g_in_addreq g)))) = 16%nat) as L2
    by (rewrite length_poke; rewrite L1; cbn [length]; lia).
  assert (length (poke 0 [byte.of_Z 16] (ifra_mask (g_in_addreq g))) = 16%nat) as L3 by (rewrite length_poke; simpl; lia).
  split; cbn [act_v g_v set_v set_in_addreq g_ridreq g_in_addreq ifra_addr ifra_mask].
  - by rewrite fn_lookup_insert_ne, fn_lookup_insert by done.
  - by rewrite !fn_lookup_insert_ne, fn_lookup_insert by done.
  - by rewrite !fn_lookup_insert_ne by done.
  - rewrite fn_lookup_insert, !fn_lookup_insert_ne by done. by apply silent_no_media.
  - done.
  - unfold addr_sa, sa_family. rewrite !nth_poke by (rewrite ?L2, ?L1, ?Fa; cbn [length to_bytes map]; lia). done.
  - unfold addr_sa, sa_len. rewrite !nth_poke by (rewrite ?L2, ?L1, ?Fa; cbn [length to_bytes map]; lia). done.
  - unfold mask_sa, sa_len. rewrite !nth_poke by (rewrite ?L3, ?Fk, ?length_prefix_mask; cbn [length]; lia). done.
  - unfold addr_sa. rewrite sin_addr_poke by done. by apply ipv4_bytes.
  - unfold mask_sa. rewrite sin_addr_poke by (done || apply length_prefix_mask).
    rewrite prefix_mask_value by lia. case_match; [lia|done].
Qed.

Lemma fresh_prologue iface g g' : prologue_post iface g g' → fresh g → fresh g'.
Proof.
  intros P [Fd Fm Fr Fa Fk]. split.
  - by rewrite (pp_v _ _ _ P G_doalias) by compute_done.
  - by rewrite (pp_v _ _ _ P G_actions) by compute_done.
  - by rewrite (pp_ridreq _ _ _ P).
  - by rewrite (pp_addreq _ _ _ P).
  - by rewrite (pp_addreq _ _ _ P).
Qed.

Lemma pending_prologue iface g g' A M : prologue_post iface g g' → pending g A M → pending g' A M.
Proof.
  intros P [Pc Pn Pd Pm Pr Pf Pl Pml Pa Pk].
  split; rewrite ?(pp_ridreq _ _ _ P), ?(pp_addreq _ _ _ P), ?(pp_v _ _ _ P) by compute_done; done.
Qed.

(** What follows the loop when an address is pending. *)
Lemma gate_tail_pending g n A M :
  accepts → pending g A M → ifname (g_name g) = n → is_Some (k_if (g_k g) n) →
  ∃ g', (process_media_commands ≫= λ _, apply_addresses (Some AFS_inet)) g = (Ok tt, g') ∧ pending g' A M
        ∧ ∀ m, k_addrs (g_k g') m
               = (<[n := put_addr A (Some M) (tail (k_addrs (g_k g) n))]> (k_addrs (g_k g))) m.
Proof.
  intros Hacc P Hn Hi. rewrite (bind_run _ _ _ _ _ (process_media_none g (pe_media _ _ _ P))).
  by apply apply_addresses_run.
Qed.

Lemma gate_cidr_run a b c d n iface g :
  accepts → octets [a; b; c; d] → 1 ≤ n ≤ 32 → iface ≠ "" → slen iface ≤ 7 → sock_ok AF_INET g → fresh g →
  is_Some (k_if (g_k g) iface) →
  ∃ g', ifconfig_gate 1 [Some (cidr a b c d n)] iface g = (Ok tt, g')
        ∧ pending g' (ipv4 a b c d) (netmask n)
        ∧ ∀ m, k_addrs (g_k g') m
               = (<[iface := put_addr (ipv4 a b c d) (Some (netmask n)) (tail (k_addrs (g_k g) iface))]>
                    (k_addrs (g_k g))) m.
Proof.
  intros Hacc Ho Hn Hne Hlen Hs Hf Hi.
  destruct (cidr_head a b c d n Ho) as (x & s & Es & Hx).
  destruct (find_cmd_digit x s Hx) as [_ Haf]. rewrite <- Es in Haf.
  destruct (gate_prologue 1 _ [] iface g ltac:(done) Haf Hne ltac:(unfold IFNAMSIZ; lia) Hs) as (g1 & P & ->).
  pose proof (fresh_prologue _ _ _ P Hf) as F1.
  rewrite (bind_run _ _ _ _ _ (gate_loop_cidr a b c d n g1 Ho ltac:(lia) (fh_alias _ F1) (pp_afp _ _ _ P))).
  destruct (gate_tail_pending _ iface _ _ Hacc (pending_cidr a b c d n g1 Ho Hn F1)) as (g2 & E & P2 & A2).
  - cbn [act_v g_name set_in_addreq set_v]. rewrite (pp_name _ _ _ P), stake_all by done.
    apply ifname_short. unfold IFNAMSIZ. lia.
  - cbn [act_v g_k set_in_addreq set_v]. by rewrite (pp_if _ _ _ P).
  - exists g2. split_and!; [done..|]. cbn [act_v g_k set_in_addreq set_v] in A2. by rewrite (pp_addrs _ _ _ P) in A2.
Qed.

Lemma gate_pending_flag_run w value iface g f A M :
  accepts → (w, value) ∈ flag_words → iface ≠ "" → slen iface ≤ 7 → sock_ok AF_INET g → pending g A M →
  k_if (g_k g) iface = Some f →
  ∃ g', ifconfig_gate 1 [Some w] iface g = (Ok tt, g')
        ∧ ∀ m, k_addrs (g_k g') m
               = (<[iface := put_addr A (Some M) (tail (k_addrs (g_k g) iface))]> (k_addrs (g_k g))) m.
Proof.
  intros Hacc Hw Hne Hlen Hs Hp Hf. destruct (flag_row w value Hw) as (_ & Haf & _ & _).
  destruct (gate_prologue 1 w [] iface g ltac:(done) Haf Hne ltac:(unfold IFNAMSIZ; lia) Hs) as (g1 & P & ->).
  pose proof (pending_prologue _ _ _ _ _ P Hp) as P1.
  assert (ifname (g_name g1) = iface) as En.
  { rewrite (pp_name _ _ _ P), stake_all by done. apply ifname_short. unfold IFNAMSIZ. lia. }
  destruct (setifflags_run (Some w) value g1 f f) as (k' & new & Er & Hnew & _ & _ & Ha).
  { by rewrite (pp_ifr _ _ _ P), (pp_if _ _ _ P). } { by rewrite En, (pp_if _ _ _ P). }
  erewrite bind_run; last first.
  { rewrite (gate_loop_flag _ _ _ Hw), (bind_run _ _ _ _ _ Er). apply act_run. }
  set (g2 := act_v _ _).
  assert (pending g2 A M) as P2.
  { destruct P1 as [Pc Pn Pd Pm Pr Pf Pl Pml Pa Pk].
    split; cbn [g2 act_v with_flags g_v set_v set_k g_ridreq g_in_addreq];
      rewrite ?fn_lookup_insert, ?fn_lookup_insert_ne by done; try done. by apply silent_no_media. }
  destruct (gate_tail_pending g2 iface A M Hacc P2) as (g3 & E & _ & A3);
    [done|exists new; by rewrite <- En|].
  exists g3. split; [done|]. intros m. rewrite A3.
  cbn [g2 act_v with_flags g_k set_v set_k]. rewrite <- (pp_addrs _ _ _ P).
  destruct (decide (m = iface)) as [->|]; [by rewrite !fn_lookup_insert, Ha|by rewrite !fn_lookup_insert_ne, Ha].
Qed.

(** ** Theorems *)

(** C30. in_getprefix stores, as the mask of the address to be added, as many
    leading one bits as the text says, except that for a length of 0 it
    stores 255.255.255.255. *)
Theorem in_getprefix_mask t n g :
  strtonum_s t 0 32 = inl n → length (ifra_mask (g_in_addreq g)) = 16%nat →
  ∃ g', in_getprefix t MASK g = (Ok tt, g')
        ∧ sa_len (ifra_mask (g_in_addreq g')) = 16
        ∧ sin_addr (ifra_mask (g_in_addreq g')) = (if n =? 0 then 2 ^ 32 - 1 else 2 ^ 32 - 2 ^ (32 - n))
        ∧ ifra_addr (g_in_addreq g') = ifra_addr (g_in_addreq g).
Proof.
  intros E Hl. eexists. split; [by apply in_getprefix_run|].
  cbn [g_in_addreq set_in_addreq ifra_mask ifra_addr]. unfold mask_sa.
  pose proof (length_poke 0 [byte.of_Z 16] (ifra_mask (g_in_addreq g)) ltac:(rewrite Hl; cbn [length]; lia)) as Hp.
  rewrite Hl in Hp. split_and!; [| |done].
  - unfold sa_len. by rewrite !nth_poke by (rewrite ?Hp, ?Hl, ?length_prefix_mask; cbn [length]; lia).
  - rewrite sin_addr_poke by (done || apply length_prefix_mask).
    apply prefix_mask_value. by eapply strtonum_s_range.
Qed.

(** C9. ifconfig_gate, called with an address and a prefix length on an
    interface whose name has at most seven characters, replaces the first
    address of that interface by it, with the mask of that length, and
    changes no address of any other interface. *)
Theorem gate_address a b c d n iface g :
  accepts → octets [a; b; c; d] → 1 ≤ n ≤ 32 → iface ≠ "" → slen iface ≤ 7 → sock_ok AF_INET g → fresh g →
  is_Some (k_if (g_k g) iface) →
  ∃ g', ifconfig_gate 1 [Some (cidr a b c d n)] iface g = (Ok tt, g')
        ∧ k_addrs (g_k g') iface
          = put_addr (ipv4 a b c d) (Some (2 ^ 32 - 2 ^ (32 - n))) (tail (k_addrs (g_k g) iface))
        ∧ ∀ m, m ≠ iface → k_addrs (g_k g') m = k_addrs (g_k g) m.
Proof.
  intros. destruct (gate_cidr_run a b c d n iface g) as (g' & E & _ & A); try done.
  exists g'. split_and!; [done|by rewrite A, fn_lookup_insert|].
  intros m Hm. by rewrite A, fn_lookup_insert_ne.
Qed.

(** C40. ifconfig_gate does not forget an address: after it has been called
    with one for an interface, a call that only sets a flag of another
    interface replaces the first address of that other interface by it. *)
Theorem gate_stale_address a b c d n iface1 w value iface2 g g1 f :
  accepts → octets [a; b; c; d] → 1 ≤ n ≤ 32 → iface1 ≠ "" → slen iface1 ≤ 7 → sock_ok AF_INET g → fresh g →
  is_Some (k_if (g_k g) iface1) →
  ifconfig_gate 1 [Some (cidr a b c d n)] iface1 g = (Ok tt, g1) →
  (w, value) ∈ flag_words → iface2 ≠ "" → slen iface2 ≤ 7 → iface2 ≠ iface1 → sock_ok AF_INET g1 →
  k_if (g_k g1) iface2 = Some f →
  ∃ g2, ifconfig_gate 1 [Some w] iface2 g1 = (Ok tt, g2)
        ∧ k_addrs (g_k g2) iface2
          = put_addr (ipv4 a b c d) (Some (2 ^ 32 - 2 ^ (32 - n))) (tail (k_addrs (g_k g) iface2)).
Proof.
  intros Hacc Ho Hn Hne1 Hl1 Hs Hf Hi E1 Hw Hne2 Hl2 Hd Hs1 Hf2.
  destruct (gate_cidr_run a b c d n iface1 g) as (g1' & E1' & P1 & A1); try done.
  rewrite E1 in E1'. injection E1' as <-.
  destruct (gate_pending_flag_run w value iface2 g1 f _ _ Hacc Hw Hne2 Hl2 Hs1 P1 Hf2) as (g2 & E2 & A2).
  exists g2. split; [done|]. by rewrite A2, fn_lookup_insert, A1, fn_lookup_insert_ne.
Qed.
End gate_addr.

(** ** The theorems on concrete interfaces *)

Definition with_addrs : @glob plain_kernel :=
  @glob_init plain_kernel (mk_cenv [] 0 [])
    [mk_ifnet "em0" 0x8802 0 0 1500 0 0 "" [mk_ia (ipv4 10 0 0 1) None] None;
     mk_ifnet "em1" 0x8802 0 0 1500 0 0 "" [mk_ia (ipv4 10 0 0 2) None] None].

Lemma plain_accepts : @accepts plain_kernel plain_laws.
Proof.
  intros fd q k Hi. cbn [k_ioctl plain_kernel ifnet_kernel]. unfold ifioctl. cbn [req_name].
  destruct (ifunit k (ifra_name q)) as [i|] eqn:E.
  - cbn [if_request]. unfold add_address, plain_drv. cbv iota beta zeta.
    destruct ((sa_family _ =? _) && _); [|reflexivity]. by destruct (existsb _ _ && _).
  - destruct Hi as [f Hf]. change (flags_of k (ifra_name q) = Some f) in Hf. unfold flags_of in Hf.
    by rewrite E in Hf.
Qed.

Lemma fresh_init c k : @fresh plain_kernel (@glob_init plain_kernel c k).
Proof. split; try done. eexists. split; [reflexivity|done]. Qed.

Lemma in_getprefix_mask_witness :
  ∃ g', @in_getprefix plain_kernel "24" MASK with_addrs = (Ok tt, g')
        ∧ sin_addr (ifra_mask (@g_in_addreq plain_kernel g')) = 0xffffff00.
Proof.
  destruct (@in_getprefix_mask plain_kernel "24" 24 with_addrs) as (g' & E & _ & H & _);
    [by vm_compute|reflexivity|]. exists g'. split; [exact E|exact H].
Defined.

Lemma gate_address_witness :
  ∃ g', @ifconfig_gate plain_kernel no_libs 1 [Some (cidr 192 168 7 9 24)] "em0" with_addrs = (Ok tt, g')
        ∧ @k_addrs _ plain_laws (@g_k plain_kernel g') "em0" = [mk_ia (ipv4 192 168 7 9) (Some 0xffffff00)].
Proof.
  destruct (@gate_address plain_kernel no_libs plain_laws 192 168 7 9 24 "em0" with_addrs)
    as (g' & E & H & _); [exact plain_accepts|repeat (constructor; [lia|]); constructor|lia|done|by vm_compute| |apply fresh_init|by eexists|].
  - exists 3, (@g_k plain_kernel with_addrs). split; [reflexivity|lia].
  - exists g'. split; [exact E|]. rewrite H. reflexivity.
Defined.

Lemma gate_stale_address_witness :
  ∃ g1 g2,
    @ifconfig_gate plain_kernel no_libs 1 [Some (cidr 192 168 7 9 24)] "em0" with_addrs = (Ok tt, g1)
    ∧ @ifconfig_gate plain_kernel no_libs 1 [Some "up"] "em1" g1 = (Ok tt, g2)
    ∧ @k_addrs _ plain_laws (@g_k plain_kernel g2) "em1" = [mk_ia (ipv4 192 168 7 9) (Some 0xffffff00)].
Proof.
  set (g1 := (@ifconfig_gate plain_kernel no_libs 1 [Some (cidr 192 168 7 9 24)] "em0" with_addrs).2).
  assert (@ifconfig_gate plain_kernel no_libs 1 [Some (cidr 192 168 7 9 24)] "em0" with_addrs = (Ok tt, g1)) as E1.
  { rewrite (surjective_pairing (ifconfig_gate _ _ _ _)). by f_equal. }
  destruct (@gate_stale_address plain_kernel no_libs plain_laws 192 168 7 9 24 "em0" "up" IFF_UP "em1" with_addrs g1 (i16 0x8802))
    as (g2 & E2 & H); [exact plain_accepts|repeat (constructor; [lia|]); constructor|lia|done|by vm_compute
      |..].
  - exists 3, (@g_k plain_kernel with_addrs). split; [reflexivity|lia].
  - apply fresh_init.
  - by eexists.
  - exact E1.
  - compute_done.
  - done.
  - by vm_compute.
  - done.
  - vm_compute. done.
  - by vm_compute.
  - exists g1, g2. split; [exact E1|]. split; [exact E2|]. rewrite H. reflexivity.
Defined.
