(* ===== verification/GateProps.v ===== *)
(** * GateProps: the loop of ifconfig_gate() terminates and agrees with ifconfig

    [ifconfig_gate_terminates] goes through every row of the command table:
    no handler and no loop of ifconfig_gate() runs out of the fuel its
    definition has.  [gate_loop_ifconfig] compares the loop with that of
    ifconfig(8). *)
From coqutil Require Import Byte Word.LittleEndianList.
From stdpp Require Import base list strings functions.
From Stdlib Require Import Ascii.
From S2P Require Import Prelude CString CNum NetAddr InetNet Scan Pbkdf2 IfData IfCore IfWireless.
From S2P Require Import IfMedia IfProto Brconfig Gate IfNet IfKernel FlagProps.

Create HintDb nofuel.

Section nofuel.
Context {K : Kernel} {LB : Libs}.

Definition nofuel {A} (m : GM A) : Prop := ∀ g, (m g).1 ≠ Stop SFuel.

Lemma nofuel_ret {A} (a : A) : nofuel (mret a).
Proof. by intros g. Qed.
Lemma nofuel_bind {A B} (m : GM A) (f : A → GM B) : nofuel m → (∀ a, nofuel (f a)) → nofuel (m ≫= f).
Proof.
  intros Hm Hf g. specialize (Hm g). unfold mbind, CM_bind. destruct (m g) as [[a|w] g'].
  - apply Hf.
  - intros [= ->]. by destruct Hm.
Qed.
Lemma nofuel_fmap {A B} (m : GM A) (f : A → B) : nofuel m → nofuel (f <$> m).
Proof.
  intros Hm g. specialize (Hm g). unfold fmap, CM_fmap. destruct (m g) as [[a|w] g']; [done|].
  intros [= ->]. by destruct Hm.
Qed.
Lemma nofuel_gets {A} (f : glob → A) : nofuel (gets f).
Proof. by intros g. Qed.
Lemma nofuel_modify f : nofuel (modify f).
Proof. by intros g. Qed.
Lemma nofuel_err {A} : nofuel (@err _ A).
Proof. by intros g. Qed.
Lemma nofuel_undef {A} : nofuel (@undef _ A).
Proof. by intros g. Qed.
Lemma nofuel_need {A} (o : option A) : nofuel (need o).
Proof. by destruct o; intros g. Qed.
Lemma nofuel_ioctl {A} (c : iocmd A) x : nofuel (ioctl c x).
Proof. intros g. unfold ioctl. destruct (k_ioctl _ _ _ _) as [[e ?] ?]. by destruct (e =? 0). Qed.
Lemma nofuel_env {A} (m : CM cenv A) : (∀ c, (m c).1 ≠ Stop SFuel) → nofuel (in_env m).
Proof. intros H g. specialize (H (g_env g)). unfold in_env, zoom. by destruct (m (g_env g)). Qed.
Lemma nofuel_alloc : nofuel (in_env alloc_ok).
Proof. apply nofuel_env. intros c. unfold alloc_ok. by destruct (ce_alloc c) as [|[] ?]. Qed.
Lemma nofuel_close fd : nofuel (in_env (close fd)).
Proof. by apply nofuel_env. Qed.
Lemma nofuel_errno e : nofuel (errno_set e).
Proof. by apply nofuel_env. Qed.
Lemma nofuel_socket naf : nofuel (socket naf).
Proof. intros g. unfold socket. by destruct (k_socket naf (g_k g)) as [[?|?] ?]. Qed.
Lemma nofuel_random n : nofuel (arc4random_buf n).
Proof. intros g. unfold arc4random_buf. by destruct (k_arc4random_buf n (g_k g)). Qed.

Lemma nofuel_each {A} (f : A → GM unit) l : (∀ x, nofuel (f x)) → nofuel (each f l).
Proof.
  intros Hf. induction l as [|x l IH]; cbn [each]; [apply nofuel_ret|by apply nofuel_bind].
Qed.
End nofuel.

#[export] Hint Resolve nofuel_ret nofuel_gets nofuel_modify nofuel_err nofuel_undef nofuel_need : nofuel.
#[export] Hint Resolve nofuel_ioctl nofuel_alloc nofuel_close nofuel_errno nofuel_socket nofuel_random : nofuel.

Ltac head_of t := lazymatch t with ?f _ => head_of f | _ => t end.

(** Take a computation apart; unfold what has no rule. *)
Ltac nofuel_step :=
  lazymatch goal with
  | |- nofuel (mbind _ _) => apply nofuel_bind; [|intros ?]
  | |- nofuel (fmap _ _) => apply nofuel_fmap
  | |- nofuel (if ?b then _ else _) => destruct b
  | |- nofuel (match ?x with _ => _ end) => destruct x
  | |- nofuel (let x := _ in _) => cbv zeta
  | |- nofuel (each _ _) => apply nofuel_each; intros ?
  | |- nofuel ?m =>
      first [ solve [auto with nofuel nocore]
            | let h := head_of m in unfold h; cbv beta ]
  end.
Ltac nofuel := repeat nofuel_step.

Section gate_ends.
Context {K : Kernel} {LB : Libs}.

(** The buffer of bridge_addrs() and bridge_rules() doubles at most eighteen
    times. *)
Lemma nofuel_grow {A} fuel size len (ask : Z → GM (option (Z * list A))) :
  (∀ l, nofuel (ask l)) → 0 < len → INT_MAX < len * 2 ^ Z.of_nat fuel → fuel ≠ O →
  nofuel (grow_loop fuel size len ask).
Proof.
  intros Ha. revert len. induction fuel as [|fuel IH]; intros len Hl Hf H0; [done|]. cbn [grow_loop].
  apply nofuel_bind; [auto with nofuel|intros ok]. destruct (negb ok); [auto with nofuel|].
  apply nofuel_bind; [apply Ha|intros [[got l]|]]; [|auto with nofuel].
  destruct (got + size <? len); [auto with nofuel|]. destruct (Z.ltb_spec INT_MAX (len * 2)); [auto with nofuel|].
  apply IH; [lia| |].
  - rewrite Nat2Z.inj_succ, Z.pow_succ_r in Hf by lia. lia.
  - intros ->. simpl in Hf. lia.
Qed.

Lemma nofuel_lines lines : nofuel (rule_lines lines).
Proof. induction lines as [|l lines IH]; cbn [rule_lines]; nofuel; done. Qed.

#[local] Opaque grow_loop.

Lemma nofuel_addrs d v : nofuel (bridge_addrs d v).
Proof.
  unfold bridge_addrs. apply nofuel_bind; [nofuel|intros]. cbv zeta.
  apply nofuel_bind; [nofuel|intros].
  apply nofuel_bind; [apply nofuel_grow; [intros; nofuel|lia|done|done]|intros [[]|]; [|nofuel]].
  apply nofuel_bind; [nofuel|intros]. apply nofuel_each. intros. nofuel.
Qed.

Lemma nofuel_rules d v : nofuel (bridge_rules d v).
Proof.
  unfold bridge_rules. apply nofuel_bind; [nofuel|intros]. apply nofuel_bind; [nofuel|intros].
  apply nofuel_bind; [apply nofuel_grow; [intros; nofuel|lia|done|done]|intros [[]|]; [|nofuel]].
  apply nofuel_bind; [nofuel|intros]. apply nofuel_each. intros. nofuel.
Qed.

Lemma nofuel_pbkdf2 pass salt :
  nofuel (in_env (pkcs5_pbkdf2 (zeros 64) pass salt (Z.to_nat WPA_PSK_LEN) 4096)).
Proof. apply nofuel_env. intros c. by apply pbkdf2_terminates. Qed.

#[local] Opaque pkcs5_pbkdf2.

Lemma nofuel_keys n val : nofuel (nwkey_keys n val).
Proof.
  revert val. induction n as [|n IH]; intros val; cbn [nwkey_keys]; [auto with nofuel|].
  apply nofuel_bind; [nofuel|intros [[]|]]; [|auto with nofuel]. apply nofuel_bind; auto with nofuel.
Qed.

#[local] Hint Resolve nofuel_pbkdf2 nofuel_keys nofuel_lines : nofuel.

Definition row_nofuel (p : cmd) : Prop :=
  match c_func p with Some f => ∀ a v, nofuel (f a v) | None => True end
  ∧ match c_func2 p with Some f => ∀ a b, nofuel (f a b) | None => True end.

Lemma cmds_nofuel : Forall row_nofuel cmds.
Proof.
  unfold cmds, named_cmds. cbn [app].
  repeat (apply list.Forall_cons; split;
          [unfold row_nofuel; cbn [c_func c_func2 cmd1 cmd2 cmd0]; split;
          intros;
          lazymatch goal with
          | |- True => exact I
          | |- nofuel (bridge_addrs _ _) => apply nofuel_addrs
          | |- nofuel (bridge_rules _ _) => apply nofuel_rules
          | |- _ => nofuel
          end|]).
  apply list.Forall_nil. done.
Qed.

(** ** The loop of ifconfig_gate() *)

Lemma find_cmd_sub w tab p : head (find_cmd w tab) = Some p → p ∈ tab.
Proof.
  induction tab as [|q tab IH]; [done|]. cbn [find_cmd].
  destruct (c_name q); [case_bool_decide|]; cbn [head]; rewrite elem_of_cons;
    intros Hq; simplify_eq; auto.
Qed.

Lemma nofuel_call1 p a v : p ∈ cmds → nofuel (call1 p a v).
Proof.
  intros Hp. destruct (proj1 (list.Forall_forall _ _) cmds_nofuel p Hp) as [H _]. unfold call1.
  destruct (c_func p); [|intros g; done]. apply H.
Qed.

Lemma nofuel_call2 p a b : p ∈ cmds → nofuel (call2 p a b).
Proof.
  intros Hp. destruct (proj1 (list.Forall_forall _ _) cmds_nofuel p Hp) as [_ H]. unfold call2.
  destruct (c_func2 p); [|intros g; done]. apply H.
Qed.

(** Bind, with what is known of the intermediate result. *)
Lemma nofuel_bind_post {A B} (m : GM A) (f : A → GM B) (P : A → Prop) :
  nofuel m → (∀ g a g', m g = (Ok a, g') → P a) → (∀ a, P a → nofuel (f a)) → nofuel (m ≫= f).
Proof.
  intros Hm HP Hf g. specialize (Hm g). specialize (HP g). unfold mbind, CM_bind.
  destruct (m g) as [[a|w] g']; [by eapply Hf, HP|]. intros [= ->]. by destruct Hm.
Qed.

Lemma nofuel_need_bind {A B} (o : option A) (f : A → GM B) :
  (∀ a, o = Some a → nofuel (f a)) → nofuel (need o ≫= f).
Proof. destruct o as [a|]; intros H g; [by apply H|done]. Qed.

Lemma nofuel_round argv : nofuel (gate_round argv).
Proof.
  unfold gate_round, arg, deref.
  apply nofuel_bind; [auto with nofuel|intros w]. apply nofuel_bind; [auto with nofuel|intros w'].
  apply nofuel_need_bind. intros p E. pose proof (find_cmd_sub _ _ _ E) as Hp.
  assert (nofuel (act p)) as Hact by (by intros g).
  repeat match goal with
  | |- nofuel (need _ ≫= _) => apply nofuel_bind; [auto with nofuel|intros ?]
  | |- nofuel (call1 _ _ _ ≫= _) => apply nofuel_bind; [by apply nofuel_call1|intros ?]
  | |- nofuel (call2 _ _ _ ≫= _) => apply nofuel_bind; [by apply nofuel_call2|intros ?]
  | |- nofuel (act _ ≫= _) => apply nofuel_bind; [done|intros ?]
  | |- nofuel (if ?b then _ else _) => destruct b
  | |- nofuel (match ?x with _ => _ end) => destruct x
  end; auto with nofuel.
Qed.

Lemma gate_round_consumes argv g n g' : gate_round argv g = (Ok n, g') → (1 ≤ n)%nat.
Proof.
  unfold gate_round. intros (w & g1 & _ & H)%bind_inv. apply bind_inv in H as (w' & g2 & _ & H).
  apply bind_inv in H as (p & g3 & _ & H). case_match.
  - apply bind_inv in H as (a & g4 & _ & H). destruct a; [|done].
    apply bind_inv in H as (? & g5 & _ & H). apply bind_inv in H as (? & g6 & _ & H). injection H as <- _. lia.
  - case_match.
    + apply bind_inv in H as (a & g4 & _ & H). destruct a; [|done].
      apply bind_inv in H as (b & g5 & _ & H). destruct b; [|done].
      apply bind_inv in H as (? & g6 & _ & H). injection H as <- _. lia.
    + apply bind_inv in H as (? & g5 & _ & H). apply bind_inv in H as (? & g6 & _ & H). injection H as <- _. lia.
Qed.

Lemma nofuel_loop fuel argc argv : argc ≤ Z.of_nat fuel → nofuel (gate_loop fuel argc argv).
Proof.
  revert argc argv. induction fuel as [|fuel IH]; intros argc argv Hf; cbn [gate_loop];
    (destruct (Z.leb_spec argc 0); [auto with nofuel|]); [lia|].
  apply (nofuel_bind_post _ _ (λ n, (1 ≤ n)%nat)); [apply nofuel_round|by apply gate_round_consumes|].
  intros n Hn. apply IH. lia.
Qed.

Lemma nofuel_getinfo_ifr create : nofuel (getinfo_ifr create).
Proof. nofuel. Qed.

Lemma nofuel_gate argc argv iface : nofuel (ifconfig_gate argc argv iface).
Proof.
  unfold ifconfig_gate, strlcpy_s.
  apply nofuel_bind; [auto with nofuel|intros _]. destruct (IFNAMSIZ <=? _); [auto with nofuel|].
  apply nofuel_bind; [nofuel|intros [[rafp c] v]]. apply nofuel_bind; [auto with nofuel|intros _].
  apply nofuel_bind; [nofuel|intros _]. apply nofuel_bind; [apply nofuel_loop; lia|intros _].
  apply nofuel_bind; [nofuel|intros _]. nofuel.
Qed.

(** C18. ifconfig_gate always comes to an end, whatever words it is given,
    whatever the kernel and the resolver answer, and whatever state the
    globals are in: neither its loop nor the loop of any handler of the
    command table runs out of fuel. *)
Theorem ifconfig_gate_terminates argc argv iface g :
  (ifconfig_gate argc argv iface g).1 ≠ Stop SFuel.
Proof. apply nofuel_gate. Qed.
End gate_ends.

(** ** Comparison with ifconfig(8) *)

Section compare.
Context {K : Kernel} {LB : Libs}.

(** The words of a sequence of commands, each of which takes no argument or
    always takes one. *)
Inductive simple_line : list string → Prop :=
| SL_nil : simple_line []
| SL_word w p ws :
    head (find_cmd w cmds) = Some p → is_Some (c_name p) →
    c_parameter p ≠ NEXTARG0 → c_parameter p ≠ NEXTARG → c_parameter p ≠ NEXTARG2 →
    simple_line ws → simple_line (w :: ws)
| SL_arg w a p ws :
    head (find_cmd w cmds) = Some p → is_Some (c_name p) → c_parameter p = NEXTARG →
    simple_line ws → simple_line (w :: a :: ws).

(** An argument vector: the words and the null pointer after them. *)
Definition argv_of (ws : list string) : list cptr := (Some <$> ws) ++ [None].

(** A named row that does not take two arguments has a function, and no row
    is named rule. *)
Definition row_ok (p : cmd) : bool :=
  match c_name p with
  | Some n => negb (bool_decide (n = "rule"))
              && ((c_parameter p =? NEXTARG2) || match c_func p with Some _ => true | None => false end)
  | None => true
  end.

Lemma cmds_ok : forallb row_ok cmds = true.
Proof. by vm_compute. Qed.

Lemma find_cmd_name w tab p : head (find_cmd w tab) = Some p → is_Some (c_name p) → c_name p = Some w.
Proof.
  induction tab as [|q tab IH]; [done|]. cbn [find_cmd].
  destruct (c_name q) as [n|] eqn:En; [case_bool_decide; subst|]; cbn [head].
  - intros [= <-] _. done.
  - done.
  - intros [= <-]. rewrite En. by intros [].
Qed.

Lemma named_row w p :
  head (find_cmd w cmds) = Some p → is_Some (c_name p) → c_parameter p ≠ NEXTARG2 →
  bool_decide (w = "rule") = false ∧ is_Some (c_func p)
  ∧ ∀ n, addr_row w (find_cmd w cmds) n = Some (Some p).
Proof.
  intros Hh Hn Hp. pose proof (find_cmd_name _ _ _ Hh Hn) as Ew.
  pose proof cmds_ok as H. rewrite forallb_forall in H.
  specialize (H p (proj1 (list_elem_of_In _ _) (find_cmd_sub _ _ _ Hh))). unfold row_ok in H. rewrite Ew in H.
  apply andb_prop in H as [H1 H2]. rewrite (proj2 (Z.eqb_neq _ _) Hp) in H2. split_and!.
  - by apply negb_true_iff.
  - by destruct (c_func p).
  - intros n. destruct (find_cmd w cmds) as [|q t]; [done|]. injection Hh as ->. cbn [addr_row]. by rewrite Ew.
Qed.

Lemma ifconfig_round_named w p argv g :
  head (find_cmd w cmds) = Some p → is_Some (c_name p) → c_parameter p ≠ NEXTARG0 → c_parameter p ≠ NEXTARG2 →
  ifconfig_round cmds (Some w :: argv) g =
    (inl <$> if c_parameter p =? NEXTARG then nextarg p (Some w :: argv)
             else call1 p (Some w) (c_parameter p) ≫= λ _, act p ≫= λ _, mret 1%nat) g.
Proof.
  intros Hh Hn H0 H2. destruct (named_row w p Hh Hn H2) as (Hr & [f Hf] & Hrow). unfold ifconfig_round.
  unfold arg, deref. rewrite (bind_need ((Some w :: argv) !! 0%nat) (Some w) _ _ eq_refl).
  rewrite (bind_need (Some w) w _ _ eq_refl), Hr, bind_rd.
  rewrite (bind_need _ _ _ _ (Hrow _)), Hf. cbv iota beta.
  by rewrite (proj2 (Z.eqb_neq _ _) H0), (proj2 (Z.eqb_neq _ _) H2).
Qed.

(** What the two loops have to do with one round. *)
Lemma loop_round {fuel argc argv g} (m : GM nat) n :
  0 < argc → ifconfig_round cmds argv g = (inl <$> m) g → gate_round argv g = m g →
  (∀ g', ifconfig_loop cmds fuel (argc - Z.of_nat n) (drop n argv) g'
         = ((λ _, None) <$> gate_loop fuel (argc - Z.of_nat n) (drop n argv)) g') →
  (∀ g' n', m g = (Ok n', g') → n' = n) →
  ifconfig_loop cmds (S fuel) argc argv g = ((λ _, None) <$> gate_loop (S fuel) argc argv) g.
Proof.
  intros Ha Hi Hg IH Hm. cbn [ifconfig_loop gate_loop]. rewrite (proj2 (Z.leb_gt argc 0)) by done.
  unfold mbind, CM_bind, fmap, CM_fmap in *. rewrite Hi, Hg.
  destruct (m g) as [[n'|w] g'] eqn:E; [|done]. rewrite (Hm _ _ eq_refl). apply IH.
Qed.

Lemma gate_loop_same ws : simple_line ws → ∀ fuel g, (length ws ≤ fuel)%nat →
  ifconfig_loop cmds fuel (Zlen ws) (argv_of ws) g
  = ((λ _, None) <$> gate_loop fuel (Zlen ws) (argv_of ws)) g.
Proof.
  assert (∀ (m : GM unit) p n g n' g',
    (m ≫= λ _, act p ≫= λ _, mret n) g = (Ok n', g') → n' = (n : nat)) as Hret.
  { intros m p n g n' g' (? & ? & _ & H)%bind_inv. apply bind_inv in H as (? & ? & _ & H). by injection H. }
  induction 1 as [|w p ws Hh Hn H0 H1 H2 Hws IH|w a p ws Hh Hn H1 Hws IH]; intros fuel g Hf.
  - by destruct fuel.
  - destruct fuel as [|fuel]; [simpl in Hf; lia|].
    apply (loop_round (call1 p (Some w) (c_parameter p) ≫= λ _, act p ≫= λ _, mret 1%nat) 1).
    + unfold Zlen. simpl. lia.
    + change (argv_of (w :: ws)) with (Some w :: argv_of ws). rewrite (ifconfig_round_named w p) by done.
      by rewrite (proj2 (Z.eqb_neq _ _) H1).
    + by apply gate_round_word.
    + intros g'. replace (Zlen (w :: ws) - Z.of_nat 1) with (Zlen ws) by (unfold Zlen; simpl; lia).
      apply IH. simpl in Hf. lia.
    + intros g' n'. apply Hret.
  - destruct fuel as [|fuel]; [simpl in Hf; lia|].
    apply (loop_round (call1 p (Some a) 0 ≫= λ _, act p ≫= λ _, mret 2%nat) 2).
    + unfold Zlen. simpl. lia.
    + change (argv_of (w :: a :: ws)) with (Some w :: Some a :: argv_of ws).
      rewrite (ifconfig_round_named w p) by (done || by rewrite H1). by rewrite (proj2 (Z.eqb_eq _ _) H1).
    + by apply gate_round_arg.
    + intros g'. replace (Zlen (w :: a :: ws) - Z.of_nat 2) with (Zlen ws) by (unfold Zlen; simpl; lia).
      apply IH. simpl in Hf. lia.
    + intros g' n'. apply Hret.
Qed.

(** C10. On words that are commands without an argument or with exactly one,
    the loop of ifconfig_gate does what the loop of ifconfig does with the
    same table: the same requests, the same globals and the same exit. *)
Theorem gate_loop_ifconfig ws g :
  simple_line ws →
  ifconfig_loop cmds (length ws) (Zlen ws) (argv_of ws) g
  = ((λ _, None) <$> gate_loop (length ws) (Zlen ws) (argv_of ws)) g.
Proof. intros H. by apply gate_loop_same. Qed.

(** In ifconfig_gate the word chan, whatever words follow it, does exactly
    what -chan does: it asks for any channel and leaves the channel number
    to be read as an address. *)
Theorem gate_chan_ignores_argument argv g :
  gate_round (Some "chan" :: argv) g = gate_round (Some "-chan" :: argv) g.
Proof. reflexivity. Qed.
End compare.

Lemma gate_loop_ifconfig_witness :
  @ifconfig_loop plain_kernel (@cmds plain_kernel no_libs) 3 3 (argv_of ["mtu"; "1500"; "up"]) two_ifs
  = ((λ _, None) <$> @gate_loop plain_kernel no_libs 3 3 (argv_of ["mtu"; "1500"; "up"])) two_ifs.
Proof.
  apply (@gate_loop_ifconfig plain_kernel no_libs ["mtu"; "1500"; "up"]).
  eapply SL_arg; [reflexivity|by eexists|reflexivity|].
  eapply SL_word; [reflexivity|by eexists|done|done|done|constructor].
Defined.
