(* ===== verification/IfconfigProps.v ===== *)
(** * IfconfigProps: ifconfig(8) comes to an end

    [ifconfig_main_terminates] goes through the options, the commands, the
    status functions and the listing of interfaces and groups of Ifconfig.v
    and IfStatus.v. *)
From coqutil Require Import Byte.
From stdpp Require Import base list strings functions.
From Stdlib Require Import Ascii.
From S2P Require Import Prelude CString CNum NetAddr Printf Scan IfData IfCore IfWireless.
From S2P Require Import IfMedia IfProto Brconfig IfStatus Gate Ifconfig IfNet IfKernel GateProps WlanProps Requests.

(** The members of an interface group are interfaces, and the name of an
    interface ends in the number of its unit. *)
Class GroupMembers (K : Kernel) :=
  members_numbered fd x k x' k' :
    k_ioctl fd SIOCGIFGMEMB x k = (0, x', k') →
    Forall (λ n, n = "" ∨ ends_in_digit n = true) (ifgr_groups x').

Section ends.
Context {K : Kernel} {LB : Libs}.

(** ** The lines of the status *)

Lemma nofuel_when b (m : GM unit) : nofuel m → nofuel (when b m).
Proof. intros H. destruct b; [done|apply nofuel_ret]. Qed.

Lemma nofuel_chans l : ∀ i, nofuel (list_chans i l).
Proof. induction l as [|c l IH]; intros i; cbn [list_chans]; [apply nofuel_ret|]. apply nofuel_bind; [nofuel|auto]. Qed.

Lemma nofuel_nodes na todo : ∀ i, nofuel (list_nodes na todo i).
Proof.
  induction todo as [|todo IH]; intros i; cbn [list_nodes]; [apply nofuel_ret|].
  repeat (apply nofuel_bind; [nofuel|intros ?]). auto.
Qed.
#[local] Hint Resolve nofuel_chans nofuel_nodes : nofuel.

Lemma nofuel_ieee80211_lines name nwid nwkey psk power channel bssid txpower wpa :
  nofuel (ieee80211_lines name nwid nwkey psk power channel bssid txpower wpa).
Proof. unfold ieee80211_lines. repeat (apply nofuel_bind; [nofuel|intros ?]). nofuel. Qed.
Lemma nofuel_listnodes : nofuel ieee80211_listnodes.
Proof. unfold ieee80211_listnodes. nofuel. Qed.
#[local] Hint Resolve nofuel_ieee80211_lines nofuel_listnodes : nofuel.
Lemma nofuel_ieee80211 : nofuel ieee80211_status.
Proof. unfold ieee80211_status. nofuel. Qed.

Lemma nofuel_member delim r : nofuel (print_member delim r).
Proof.
  unfold print_member. pose proof nofuel_rules. nofuel.
Qed.

Lemma nofuel_bridge : nofuel bridge_status.
Proof.
  unfold bridge_status. pose proof nofuel_addrs as Ha. pose proof nofuel_member as Hm.
  assert (∀ d, nofuel (bridge_list d)) as Hl.
  { intros d. unfold bridge_list. apply nofuel_bind; [nofuel|intros n].
    apply nofuel_bind; [apply nofuel_grow; [intros; nofuel|lia|done|done]|intros [[]|]; [|nofuel]].
    apply nofuel_bind; [nofuel|intros]. apply nofuel_each. auto. }
  assert (∀ d, nofuel (bridge_cfg d)) as Hc by (intros d; unfold bridge_cfg; nofuel).
  nofuel.
Qed.
#[local] Hint Resolve nofuel_ieee80211 nofuel_bridge : nofuel.

Lemma nofuel_timeslot : nofuel timeslot_status.
Proof. unfold timeslot_status. nofuel. Qed.
Lemma nofuel_vlan : nofuel vlan_status.
Proof. unfold vlan_status. nofuel. Qed.
Lemma nofuel_carp : nofuel carp_status.
Proof. unfold carp_status. nofuel. Qed.
Lemma nofuel_pfsync : nofuel pfsync_status.
Proof. unfold pfsync_status. nofuel. Qed.
Lemma nofuel_pflow : nofuel pflow_status.
Proof. unfold pflow_status. nofuel. Qed.
Lemma nofuel_pppoe : nofuel pppoe_status.
Proof. unfold pppoe_status. nofuel. Qed.
Lemma nofuel_sppp : nofuel sppp_status.
Proof. unfold sppp_status. nofuel. Qed.
Lemma nofuel_trunk : nofuel trunk_status.
Proof. unfold trunk_status. nofuel. Qed.
Lemma nofuel_mpe : nofuel mpe_status.
Proof. unfold mpe_status. nofuel. Qed.
#[local] Hint Resolve nofuel_timeslot nofuel_vlan nofuel_carp nofuel_pfsync nofuel_pflow nofuel_pppoe nofuel_sppp
  nofuel_trunk nofuel_mpe : nofuel.

Lemma nofuel_in force : nofuel (in_status force).
Proof. unfold in_status. nofuel. Qed.
Lemma nofuel_at force : nofuel (at_status force).
Proof. unfold at_status. nofuel. Qed.
#[local] Hint Resolve nofuel_in nofuel_at : nofuel.
Lemma nofuel_af p force : nofuel (af_status p force).
Proof. unfold af_status. nofuel. Qed.
Lemma nofuel_phys force : nofuel (phys_status force).
Proof. unfold phys_status. nofuel. Qed.
Lemma nofuel_head sdl : nofuel (head_lines sdl).
Proof. unfold head_lines. nofuel. Qed.
Lemma nofuel_info : nofuel info_lines.
Proof. unfold info_lines. nofuel. Qed.
Lemma nofuel_media type ls : nofuel (media_lines type ls).
Proof. unfold media_lines. nofuel. Qed.
#[local] Hint Resolve nofuel_af nofuel_phys nofuel_head nofuel_info nofuel_media : nofuel.
Lemma nofuel_status link sdl ls : nofuel (status link sdl ls).
Proof. unfold status. nofuel. Qed.
#[local] Hint Resolve nofuel_status nofuel_getinfo_ifr : nofuel.

(** ** Listing interfaces and groups *)

Lemma nofuel_printif_loop oname al l : ∀ namep count noinet, nofuel (printif_loop oname al l namep count noinet).
Proof.
  induction l as [|ifa l IH]; intros namep count noinet; cbn [printif_loop]; [nofuel|]. cbv zeta.
  repeat first [apply IH | apply nofuel_bind; [nofuel|intros ?] | case_match].
Qed.
#[local] Hint Resolve nofuel_printif_loop : nofuel.

Lemma nofuel_each_in {A} (f : A → GM unit) l : Forall (λ x, nofuel (f x)) l → nofuel (each f l).
Proof. induction 1 as [|x l Hx _ IH]; cbn [each]; [apply nofuel_ret|by apply nofuel_bind]. Qed.

Definition numbered (n : string) : Prop := n = "" ∨ ends_in_digit n = true.

Lemma nofuel_printgroup `{!GroupMembers K} pr n al :
  (∀ m, numbered m → nofuel (pr (Some m) al)) → nofuel (printgroup pr n al).
Proof.
  intros Hpr. unfold printgroup. apply nofuel_bind; [nofuel|intros _].
  apply nofuel_bind; [nofuel|intros [z x]]. case_match; [nofuel|].
  apply nofuel_bind; [nofuel|intros ok]. case_match; [nofuel|]. cbv zeta.
  apply (nofuel_bind_post _ _ (λ r, r.1 = -1 ∨ Forall numbered (ifgr_groups r.2))).
  - nofuel.
  - intros g [z' x'] g'. unfold ioctl. destruct (k_ioctl _ _ _ _) as [[e y] k'] eqn:E.
    case_match eqn:Ee; intros [= <- <- _]; [right|by left]. apply Z.eqb_eq in Ee as ->.
    by eapply members_numbered.
  - intros [z' x'] Hx. cbn in Hx. case_match eqn:Ez; [nofuel|]. apply Z.eqb_neq in Ez.
    destruct Hx as [|Hx]; [done|]. apply nofuel_bind; [|intros _; nofuel]. apply nofuel_each_in.
    apply (list.Forall_impl numbered); [|exact Hpr].
    apply list.Forall_take, list.Forall_app. split; [done|]. apply Forall_replicate. by left.
Qed.

Lemma nofuel_printif fuel ifn al :
  (∀ n, ifn = Some n → numbered n ∨ nofuel (printgroup (printif fuel) n al)) → nofuel (printif (S fuel) ifn al).
Proof.
  intros Hn. cbn [printif]. apply nofuel_bind; [nofuel|intros aflag]. cbv zeta.
  apply nofuel_bind; [|intros [|]; nofuel].
  destruct (negb (aflag =? 0)); [nofuel|]. destruct ifn as [n|]; [|nofuel].
  apply nofuel_bind; [nofuel|intros ok]. destruct (negb ok); [nofuel|].
  destruct (Hn n eq_refl) as [[-> | ->]|Hg]; [apply nofuel_ret| |destruct (negb _ && _); [done|nofuel]].
  rewrite andb_false_r. nofuel.
Qed.

Lemma nofuel_printif2 `{!GroupMembers K} ifn al : nofuel (printif 2 ifn al).
Proof.
  apply nofuel_printif. intros n _. right. apply nofuel_printgroup. intros m Hm.
  apply nofuel_printif. intros m' [= <-]. by left.
Qed.

(** ** The loop and main *)

Lemma nofuel_wpakey a d : nofuel (setifwpakey a d).
Proof. pose proof nofuel_pbkdf2. unfold setifwpakey. nofuel. Qed.

Lemma inet6_nofuel : Forall row_nofuel inet6_cmds.
Proof.
  unfold inet6_cmds.
  repeat (apply list.Forall_cons; split; [unfold row_nofuel; cbn [c_func c_func2 cmd1 cmd2]; split; intros; nofuel; done|]).
  by apply list.Forall_nil.
Qed.

Lemma ifconfig_nofuel : Forall row_nofuel ifconfig_cmds.
Proof.
  pose proof cmds_nofuel as Hr. pose proof inet6_nofuel. unfold ifconfig_cmds.
  repeat (apply list.Forall_app; split); auto using list.Forall_take, list.Forall_drop. unfold wpapsk_cmds.
  repeat (apply list.Forall_cons; split;
    [unfold row_nofuel; cbn [c_func c_func2 cmd1]; split; [intros; apply nofuel_wpakey|done]|]).
  by apply list.Forall_nil.
Qed.

Lemma nofuel_ifconfig_round tab argv : Forall row_nofuel tab → nofuel (ifconfig_round tab argv).
Proof.
  intros Ht. unfold ifconfig_round, arg, deref. apply nofuel_bind; [nofuel|intros w].
  apply nofuel_bind; [nofuel|intros w']. case_bool_decide; [nofuel|].
  apply nofuel_bind; [nofuel|intros n]. apply nofuel_need_bind. intros [p|] Hp; [|nofuel].
  apply (addr_row_Forall row_nofuel) in Hp as [H1 H2]; [|by apply find_cmd_Forall].
  assert (∀ a v, nofuel (call1 p a v)) as C1 by (intros; unfold call1; destruct (c_func p); [apply H1|by intros g]).
  assert (∀ a b, nofuel (call2 p a b)) as C2 by (intros; unfold call2; destruct (c_func2 p); [apply H2|by intros g]).
  unfold nextarg. nofuel.
Qed.

(** What a computation returns, when it returns. *)
Definition gives {A} (m : GM A) (P : A → Prop) : Prop := ∀ g a g', m g = (Ok a, g') → P a.
Lemma gives_ret {A} (a : A) (P : A → Prop) : P a → gives (mret a) P.
Proof. intros H g b g' [= <- _]. done. Qed.
Lemma gives_bind {A B} (m : GM A) (f : A → GM B) (P : B → Prop) : (∀ a, gives (f a) P) → gives (m ≫= f) P.
Proof. intros H g b g' (a & g1 & _ & E)%bind_inv. by eapply H. Qed.
Lemma gives_fmap {A B} (m : GM A) (f : A → B) (P : B → Prop) : gives m (λ a, P (f a)) → gives (f <$> m) P.
Proof.
  intros H g b g'. unfold fmap, CM_fmap. destruct (m g) as [[a|w] g1] eqn:E; [|done]. intros [= <- _]. by eapply H.
Qed.
Lemma gives_err {A} (P : A → Prop) : gives err P.
Proof. done. Qed.

Definition consumes (r : nat + Z) : Prop := match r with inl n => (1 ≤ n)%nat | inr _ => True end.

Lemma ifconfig_round_consumes tab argv : gives (ifconfig_round tab argv) consumes.
Proof.
  unfold ifconfig_round, nextarg.
  repeat lazymatch goal with
  | |- gives (fmap _ _) _ => apply gives_fmap
  | |- gives (mbind _ _) _ => apply gives_bind; intros ?
  | |- gives err _ => apply gives_err
  | |- gives (mret _) _ => apply gives_ret; cbn; (lia || exact I)
  | |- _ => case_match
  end.
Qed.

Lemma nofuel_ifconfig_loop tab fuel argc argv :
  Forall row_nofuel tab → argc ≤ Z.of_nat fuel → nofuel (ifconfig_loop tab fuel argc argv).
Proof.
  intros Ht. revert argc argv. induction fuel as [|fuel IH]; intros argc argv Hf; cbn [ifconfig_loop];
    (destruct (Z.leb_spec argc 0); [nofuel|]); [lia|].
  apply (nofuel_bind_post _ _ consumes); [by apply nofuel_ifconfig_round|apply ifconfig_round_consumes|].
  intros [n|code] Hn; [|nofuel]. apply IH. cbn in Hn. lia.
Qed.

Lemma nofuel_exit {A} code : nofuel (@exit _ A code).
Proof. by intros g. Qed.
#[local] Hint Resolve nofuel_exit : nofuel.

Lemma nofuel_cloners : nofuel list_cloners.
Proof. unfold list_cloners. nofuel. Qed.
Lemma nofuel_groupattribs n : nofuel (printgroupattribs n).
Proof. unfold printgroupattribs. nofuel. Qed.
Lemma nofuel_setattribs n argv : nofuel (setgroupattribs n argv).
Proof. unfold setgroupattribs. nofuel. Qed.
Lemma nofuel_ifconfig_end rafp : nofuel (ifconfig_end rafp).
Proof. unfold ifconfig_end. nofuel. Qed.
Lemma nofuel_options words : nofuel (main_options words).
Proof. unfold main_options. nofuel. Qed.
#[local] Hint Resolve nofuel_cloners nofuel_groupattribs nofuel_setattribs nofuel_ifconfig_end nofuel_options : nofuel.

Context {GN : GroupMembers K}.

Lemma nofuel_main_command words gflag Cflag : nofuel (main_command words gflag Cflag).
Proof using GN.
  unfold main_command. pose proof nofuel_printif2 as Hp. apply nofuel_bind; [nofuel|intros name].
  apply nofuel_bind; [nofuel|intros [[rafp argc] argv]]. cbv zeta. apply nofuel_bind; [nofuel|intros aflag].
  case_match; [nofuel|]. case_match; [nofuel|]. do 2 (apply nofuel_bind; [nofuel|intros _]).
  apply nofuel_bind; [nofuel|intros ws]. apply nofuel_bind; [nofuel|intros _].
  apply nofuel_bind; [nofuel|intros af]. apply nofuel_bind; [nofuel|intros _].
  apply nofuel_bind; [apply nofuel_ifconfig_loop; [apply ifconfig_nofuel|unfold Zlen; lia]|intros r]. nofuel.
Qed.

Lemma nofuel_main words : nofuel (ifconfig_main words).
Proof using GN.
  unfold ifconfig_main. pose proof nofuel_printif2 as Hp. pose proof nofuel_main_command as Hc.
  destruct words; nofuel.
Qed.

(** C19. ifconfig(8), built with INET6, always comes to an end: for any words on
    its command line, whatever the resolver and the kernel answer, as long as the members of an
    interface group have names with a unit number.  It parses its options,
    executes the commands, and lists interfaces and groups; no loop runs out
    of fuel, and printif() and printgroup() do not call each other deeper than
    twice. *)
Theorem ifconfig_main_terminates words g : (ifconfig_main words g).1 ≠ Stop SFuel.
Proof using GN. apply nofuel_main. Qed.
End ends.

(** The kernel with iwn0, alone in the group wlan. *)
Definition wlan_group {A} (c : iocmd A) : A → list ifnet → Z * A :=
  match c in iocmd A return A → list ifnet → Z * A with
  | SIOCGIFGMEMB => λ x _, (0, mk_gmemb (ifgm_name x) SIZEOF_IFG_REQ ["iwn0"])
  | _ => λ x _, (EINVAL, x)
  end.
Definition grouped : Kernel := @wlan_kernel still_env (λ _ _ l, (EINVAL, l)) (@wlan_group).

#[local] Instance grouped_members : GroupMembers grouped.
Proof.
  intros fd x k x' k' [= <- _]. constructor; [by right|done].
Qed.

Lemma ifconfig_main_terminates_witness :
  (@ifconfig_main grouped no_names ["wlan"] (@glob_init grouped (mk_cenv [] 0 []) [iwn0])).1 ≠ Stop SFuel.
Proof. apply (@ifconfig_main_terminates grouped no_names grouped_members). Defined.
