(* ===== verification/WirelessProps.v ===== *)
(** * WirelessProps: network names and keys

    Theorems on IfWireless.v: what print_string writes get_string reads back,
    what get_string does with a string that is too long, and which key
    setifwpakey derives. *)
From coqutil Require Import Byte.
From stdpp Require Import base list strings.
From Stdlib Require Import Ascii.
From S2P Require Import Prelude CString CNum NetAddr Printf Scan Pbkdf2 IfData IfCore IfWireless IfNet IfKernel FlagProps.

(** ** Bytes and characters *)

Lemma byte_hex b :
  ∃ c1 c2, byte_x02 b = [c1; c2] ∧ isxdigit c1 = true ∧ isxdigit c2 = true
    ∧ is_nul c1 = false
    ∧ byte.of_Z (Z.lor (Z.shiftl (tohex c1) 4) (tohex c2)) = b.
Proof. destruct b; eexists _, _; repeat split. Qed.

Lemma byte_char b : byte.of_Z (uch (ascii_of_byte b)) = b.
Proof. by destruct b. Qed.

Lemma print_not_nul c : isprint c = true → is_nul c = false.
Proof. by destruct c as [[] [] [] [] [] [] [] []]. Qed.

(** ** The loop of get_string without separators *)

(** Any run of digits or characters: the bytes it stands for are stored when
    there is room. *)
Lemma get_string_hex len n bs :
  n + Zlen bs ≤ len →
  get_string_loop true None len n (concat (map byte_x02 bs) ++ [NUL]) = GS_ok [NUL] bs.
Proof.
  revert n. induction bs as [|b bs IH]; intros n Hn; [done|]. rewrite Zlen_cons in Hn.
  pose proof (Zlen_nonneg bs). cbn [map concat]. rewrite <- app_assoc.
  destruct (byte_hex b) as (c1 & c2 & -> & H1 & H2 & H3 & E). cbn [app get_string_loop].
  rewrite H3, H1, H2. cbn [negb sep_has].
  rewrite (proj2 (Z.ltb_ge len n)), (proj2 (Z.eqb_neq len n)), IH, E by lia. done.
Qed.

(** Two hexadecimal digits, in either case, and the byte they write. *)
Lemma xdigit_pair c1 c2 :
  isxdigit c1 = true → isxdigit c2 = true →
  byte_x02 (byte.of_Z (Z.lor (Z.shiftl (tohex c1) 4) (tohex c2))) = [tolower c1; tolower c2].
Proof.
  intros H1 H2. destruct c1 as [[] [] [] [] [] [] [] []]; try discriminate H1; clear H1;
    destruct c2 as [[] [] [] [] [] [] [] []]; try discriminate H2; reflexivity.
Qed.

Lemma xdigit_not_nul c : isxdigit c = true → is_nul c = false.
Proof. by destruct c as [[] [] [] [] [] [] [] []]. Qed.

(** What the loop makes of any text of [2 * k] characters. *)
Lemma get_string_digits len k n ds :
  length ds = (2 * k)%nat → n + Z.of_nat k ≤ len →
  if forallb isxdigit ds then
    ∃ key, get_string_loop true None len n (ds ++ [NUL]) = GS_ok [NUL] key
           ∧ length key = k ∧ concat (map byte_x02 key) = map tolower ds
  else
    get_string_loop true None len n (ds ++ [NUL]) = GS_bad_hex
    ∨ ∃ v bs, get_string_loop true None len n (ds ++ [NUL]) = GS_ok v bs ∧ (length bs < k)%nat.
Proof.
  revert n ds. induction k as [|k IH]; intros n ds Hd Hn.
  { destruct ds; [|done]. by exists []. }
  destruct ds as [|c1 [|c2 ds]]; cbn [length] in Hd; [lia..|]. cbn [app forallb get_string_loop].
  destruct (isxdigit c1) eqn:H1; [|cbn [andb negb sep_has]; destruct (is_nul c1); [right; eexists _, []; simpl; split; [done|lia]|by left]].
  rewrite (xdigit_not_nul c1 H1). cbn [andb negb sep_has].
  destruct (isxdigit c2) eqn:H2; [|by left]. cbn [andb negb].
  rewrite (proj2 (Z.ltb_ge len n)), (proj2 (Z.eqb_neq len n)) by lia.
  specialize (IH (n + 1) ds). destruct (forallb isxdigit ds).
  - destruct IH as (key & -> & Hk & E); [lia..|]. eexists. split; [done|]. cbn [length map concat].
    by rewrite xdigit_pair, E, Hk.
  - destruct IH as [-> | (v & bs & -> & Hb)]; [lia..|by left|right]. eexists _, _. split; [done|]. cbn [length]. lia.
Qed.

Lemma get_string_raw len n bs :
  Forall (λ b, is_nul (ascii_of_byte b) = false) bs → n + Zlen bs ≤ len →
  get_string_loop false None len n (map ascii_of_byte bs ++ [NUL]) = GS_ok [NUL] bs.
Proof.
  revert n. induction bs as [|b bs IH]; intros n Hf Hn; [done|]. rewrite Zlen_cons in Hn.
  pose proof (Zlen_nonneg bs). apply list.Forall_cons_1 in Hf as [Hb Hf].
  cbn [map app get_string_loop]. rewrite Hb. cbn [sep_has].
  rewrite andb_false_r, (proj2 (Z.ltb_ge len n)), (proj2 (Z.eqb_neq len n)), IH, byte_char
    by (done || lia). done.
Qed.

(** A byte for which there is no room: the test lets it through, and what
    comes after it is never looked at. *)
Lemma get_string_raw_over len n bs :
  Forall (λ b, is_nul (ascii_of_byte b) = false) bs → n ≤ len → len < n + Zlen bs →
  get_string_loop false None len n (map ascii_of_byte bs ++ [NUL]) = GS_undef.
Proof.
  revert n. induction bs as [|b bs IH]; intros n Hf Hn Hl; [change (Zlen []) with 0 in Hl; lia|].
  rewrite Zlen_cons in Hl. apply list.Forall_cons_1 in Hf as [Hb Hf].
  cbn [map app get_string_loop]. rewrite Hb. cbn [sep_has].
  rewrite andb_false_r, (proj2 (Z.ltb_ge len n)) by lia.
  destruct (Z.eqb_spec len n); [done|]. by rewrite IH by (done || lia).
Qed.

Lemma get_string_hex_over len n bs :
  n ≤ len → len < n + Zlen bs →
  get_string_loop true None len n (concat (map byte_x02 bs) ++ [NUL]) = GS_undef.
Proof.
  revert n. induction bs as [|b bs IH]; intros n Hn Hl; [change (Zlen []) with 0 in Hl; lia|].
  rewrite Zlen_cons in Hl. cbn [map concat]. rewrite <- app_assoc.
  destruct (byte_hex b) as (c1 & c2 & -> & H1 & H2 & H3 & E). cbn [app get_string_loop].
  rewrite H3, H1, H2. cbn [negb sep_has]. rewrite (proj2 (Z.ltb_ge len n)) by lia.
  destruct (Z.eqb_spec len n); [done|]. by rewrite IH by lia.
Qed.

(** ** What print_string writes *)

(** The text of a buffer that holds no white space is the form get_string
    recognises: hexadecimal, or characters that do not begin with 0x. *)
Lemma print_string_cases buf len :
  existsb isspace (map ascii_of_byte buf) = false → buf ≠ [] →
  (∃ t, print_string buf = "0"%char :: "x"%char :: t ∧ t = concat (map byte_x02 buf)
     ∧ get_string_s (print_string buf ++ [NUL]) None len
       = get_string_loop true None len 0 (t ++ [NUL]))
  ∨ (Forall (λ b, is_nul (ascii_of_byte b) = false) buf
     ∧ print_string buf = map ascii_of_byte buf
     ∧ get_string_s (print_string buf ++ [NUL]) None len
       = get_string_loop false None len 0 (map ascii_of_byte buf ++ [NUL])).
Proof.
  intros Hs Hne. unfold print_string. rewrite Hs, bool_decide_false by done. cbn [orb].
  destruct (printable buf) eqn:Hp; [right|left; by eexists].
  unfold printable in Hp. apply andb_true_iff in Hp as [H0 Hf].
  split_and!; [|done|].
  - apply list.Forall_forall. intros b Hb. apply print_not_nul.
    apply forallb_forall with (x := b) in Hf; [done|]. by apply list_elem_of_In.
  - destruct buf as [|b0 [|b1 buf]]; [done| |]; cbn [map app get_string_s].
    + by destruct (Ascii.eqb _ _).
    + apply negb_true_iff in H0. destruct (Ascii.eqb _ "0"); [|done].
      cbn [andb] in H0. by rewrite H0.
Qed.

(** ** setifwpakey *)

Section wpa.
Context `{K : Kernel, LB : Libs}.

Lemma wpakey_hex stk val nwid g :
  slen val = 66 → stake 2 val = "0x" →
  if forallb isxdigit (drop 2 (bytes val)) then
    ∃ key, wpakey_psk stk val nwid g = (Ok key, g) ∧ length key = 32%nat
           ∧ concat (map byte_x02 key) = map tolower (drop 2 (bytes val))
  else (wpakey_psk stk val nwid g).1 = Stop (SExit 1).
Proof.
  intros Hl Hx. unfold wpakey_psk. rewrite Hl, bool_decide_true by done.
  change ((66 =? 2 + 2 * WPA_PSK_LEN) && true) with true. cbv iota.
  destruct val as [|c0 [|c1 val]]; [done..|]. unfold slen, Zlen in Hl. cbn in Hx. injection Hx as -> ->.
  assert (length (bytes val) = 64%nat) as Hb by (change (bytes (String "0" (String "x" val))) with
    ("0" :: "x" :: bytes val)%char in Hl; cbn [length] in Hl; lia). clear Hl. change (drop 2 (bytes (String "0" (String "x" val)))) with (bytes val).
  pose proof (get_string_digits 32 32 0 (bytes val) Hb ltac:(lia)) as Hd.
  unfold get_string. change (get_string_s (cmem (String "0" (String "x" val))) None WPA_PSK_LEN)
    with (get_string_loop true None 32 0 (bytes val ++ [NUL])).
  destruct (forallb isxdigit (bytes val)).
  - destruct Hd as (key & -> & Hk & E). exists key. split; [|done].
    unfold mbind, CM_bind, mret, CM_ret, Zlen. by rewrite Hk.
  - destruct Hd as [-> | (v & bs & -> & Hs)]; [done|].
    unfold mbind, CM_bind, mret, CM_ret, Zlen. by rewrite (proj2 (Z.eqb_neq (Z.of_nat (length bs)) WPA_PSK_LEN)) by (unfold WPA_PSK_LEN; lia).
Qed.

Lemma wpakey_pass stk val nwid g :
  length stk = 64%nat → alloc_never_fails (g_env g) → 8 ≤ slen val ≤ 63 →
  0 < i_len nwid ≤ Zlen (i_nwid nwid) → i_len nwid < 2 ^ 63 →
  ∃ c, wpakey_psk stk val nwid g
       = (Ok (PBKDF2 (str_bytes val) (Ztake (i_len nwid) (i_nwid nwid)) 4096 32), set_env c g)
       ∧ alloc_never_fails c.
Proof.
  intros Hs Ha Hl Hn Hb. unfold wpakey_psk. unfold WPA_PSK_LEN.
  rewrite (proj2 (Z.eqb_neq (slen val) _)), (proj2 (Z.ltb_ge (slen val) 8)) by lia.
  rewrite (proj2 (Z.ltb_ge 63 _)), (proj2 (Z.eqb_neq (i_len nwid) 0)), (proj2 (Z.ltb_ge _ _)) by lia.
  cbn [andb orb].
  destruct (pbkdf2_spec stk (str_bytes val) (Ztake (i_len nwid) (i_nwid nwid)) 32 4096 (g_env g))
    as (c & E & Hc); [done|done|lia|lia|lia|rewrite Zlen_Ztake by lia; lia|].
  exists c. split; [|done]. unfold in_env, zoom, mbind, CM_bind. change (Z.to_nat 32) with 32%nat. by rewrite E.
Qed.

Lemma wpakey_unset stk val nwid g :
  8 ≤ slen val ≤ 63 → i_len nwid = 0 → wpakey_psk stk val nwid g = (Stop (SExit 1), g).
Proof.
  intros Hl H0. unfold wpakey_psk, WPA_PSK_LEN.
  rewrite (proj2 (Z.eqb_neq (slen val) _)), (proj2 (Z.ltb_ge (slen val) 8)), (proj2 (Z.ltb_ge 63 _)) by lia.
  by rewrite H0.
Qed.

Lemma wpakey_reject stk val nwid g :
  slen val < 8 ∨ 63 < slen val → slen val ≠ 66 ∨ stake 2 val ≠ "0x" →
  wpakey_psk stk val nwid g = (Stop (SExit 1), g).
Proof.
  intros Hl Hx. unfold wpakey_psk.
  assert ((slen val =? 2 + 2 * WPA_PSK_LEN) && bool_decide (stake 2 val = "0x") = false) as ->.
  { destruct Hx; [by rewrite (proj2 (Z.eqb_neq (slen val) _))|].
    by rewrite bool_decide_false, andb_false_r. }
  destruct Hl; [rewrite (proj2 (Z.ltb_lt (slen val) 8)) by lia; done|].
  by rewrite (proj2 (Z.ltb_lt 63 (slen val))), orb_true_r by lia.
Qed.
End wpa.

(** ** The theorems *)

(** C27. What print_string writes for a network name or a key, get_string reads
    back: the bytes of any non-empty buffer without white space, printable or
    not, are stored again where there is room for them. *)
Theorem get_string_roundtrip buf len :
  existsb isspace (map ascii_of_byte buf) = false → buf ≠ [] → Zlen buf ≤ len →
  get_string_s (print_string buf ++ [NUL]) None len = GS_ok [NUL] buf.
Proof.
  intros Hs Hne Hl. destruct (print_string_cases buf len Hs Hne) as [(t & _ & -> & ->)|(Hf & _ & ->)].
  - apply get_string_hex. lia.
  - apply get_string_raw; [done|lia].
Qed.

(** C33. A text for more bytes than the buffer holds is never diagnosed: the
    test of get_string lets a byte be stored past the end of the buffer before
    it can answer that the string is too long. *)
Theorem get_string_overflow buf len :
  existsb isspace (map ascii_of_byte buf) = false → 0 ≤ len < Zlen buf →
  get_string_s (print_string buf ++ [NUL]) None len = GS_undef.
Proof.
  intros Hs Hl. assert (buf ≠ []) as Hne by (intros ->; change (Zlen []) with 0 in Hl; lia).
  destruct (print_string_cases buf len Hs Hne) as [(t & _ & -> & ->)|(Hf & _ & ->)].
  - apply get_string_hex_over; lia.
  - apply get_string_raw_over; [done|lia|lia].
Qed.

(** C13. The pre-shared key of setifwpakey, for every argument.  A passphrase of
    8 to 63 characters gives the 32 bytes PBKDF2 derives from it with the
    network name of the interface as salt and 4096 rounds, and ends the program
    when no network name is set.  After 0x, 64 hexadecimal digits of either
    case give the 32 bytes they write, whatever the network, and 64 characters
    of which one is not a hexadecimal digit end the program.  So does an
    argument of any other length. *)
Theorem wpakey_derives `{K : Kernel} stk val nwid g :
  length stk = 64%nat → alloc_never_fails (g_env g) →
  Zlen (i_nwid nwid) = 32 → 0 ≤ i_len nwid ≤ 32 →
  (8 ≤ slen val ≤ 63 →
   if i_len nwid =? 0 then wpakey_psk stk val nwid g = (Stop (SExit 1), g)
   else ∃ c, wpakey_psk stk val nwid g
             = (Ok (PBKDF2 (str_bytes val) (Ztake (i_len nwid) (i_nwid nwid)) 4096 32), set_env c g))
  ∧ (slen val = 66 → stake 2 val = "0x" →
     if forallb isxdigit (drop 2 (bytes val)) then
       ∃ key, wpakey_psk stk val nwid g = (Ok key, g) ∧ length key = 32%nat
              ∧ concat (map byte_x02 key) = map tolower (drop 2 (bytes val))
     else (wpakey_psk stk val nwid g).1 = Stop (SExit 1))
  ∧ (slen val < 8 ∨ 63 < slen val → slen val ≠ 66 ∨ stake 2 val ≠ "0x" →
     wpakey_psk stk val nwid g = (Stop (SExit 1), g)).
Proof.
  intros Hs Ha Hn Hl. split_and!; [|by apply wpakey_hex|by apply wpakey_reject].
  intros Hv. destruct (Z.eqb_spec (i_len nwid) 0) as [H0|H0]; [by apply wpakey_unset|].
  destruct (wpakey_pass stk val nwid g) as (c & E & _); [done|done|lia|lia|lia|]. by exists c.
Qed.

Lemma get_string_roundtrip_witness :
  get_string_s (print_string [Byte.x30; Byte.x78; Byte.xff] ++ [NUL]) None 32
  = GS_ok [NUL] [Byte.x30; Byte.x78; Byte.xff].
Proof. apply (get_string_roundtrip [Byte.x30; Byte.x78; Byte.xff] 32); done. Defined.

Lemma get_string_overflow_witness :
  get_string_s (bytes "abcde" ++ [NUL]) None 4 = GS_undef.
Proof.
  apply (get_string_overflow [Byte.x61; Byte.x62; Byte.x63; Byte.x64; Byte.x65] 4); done.
Defined.

(** The passphrase of IEEE 802.11i, annex H.4.1: "password" on "IEEE". *)
Lemma wpakey_derives_witness :
  ∃ g', @wpakey_psk plain_kernel (zeros 64) "password"
          (mk_nwid 4 ([Byte.x49; Byte.x45; Byte.x45; Byte.x45] ++ zeros 28)) two_ifs
        = (Ok (PBKDF2 (str_bytes "password") [Byte.x49; Byte.x45; Byte.x45; Byte.x45] 4096 32), g').
Proof.
  destruct (@wpakey_derives plain_kernel (zeros 64) "password"
    (mk_nwid 4 ([Byte.x49; Byte.x45; Byte.x45; Byte.x45] ++ zeros 28)) two_ifs) as [H _];
    [reflexivity|by vm_compute|reflexivity|simpl; lia|].
  destruct H as [c E]; [split; done|]. eexists. exact E.
Defined.
