(* ===== verification/BridgeProps.v ===== *)
(** * BridgeProps: the filter rules of a bridge

    Theorems on Brconfig.v: a rule written by bridge_showrule is the rule that
    bridge_rulefile reads, and what the limit on the words of a line leaves
    out. *)
From coqutil Require Import Byte.
From stdpp Require Import base list strings.
From Stdlib Require Import Ascii.
From S2P Require Import Prelude CString CNum NetAddr Printf Scan IfData IfCore Brconfig IfNet IfKernel FlagProps.

(** ** Words of a line *)

Definition rule_delim : list ascii := ["010"; "009"; "013"; " "]%char.

Definition no_delim (w : string) : Prop := forallb (λ c, negb (is_delim rule_delim c)) (bytes w) = true.

Definition a_word (w : string) : Prop := w ≠ "" ∧ no_delim w.

(** A text that begins with a separator. *)
Definition sep_first (s : string) : Prop :=
  match s with String c _ => is_delim rule_delim c = true | "" => False end.

Lemma rule_words_app w s : a_word w → sep_first s → rule_words (w +:+ s) = w :: rule_words s.
Proof.
  intros [Hw Hd] Hs. unfold rule_words, tokens. fold rule_delim. rewrite bytes_app.
  destruct s as [|c s]; [done|]. change (is_delim rule_delim c = true) in Hs.
  rewrite fields_word by done.
  assert (fields (is_delim rule_delim) (bytes (String c s))
          = [] :: fields (is_delim rule_delim) (bytes s)) as ->
    by (unfold bytes; cbn [String.list_ascii_of_string fields]; by rewrite Hs).
  rewrite filter_cons_True.
  - cbn [map tail]. f_equal. apply String.string_of_list_ascii_of_string.
  - intros E. apply Hw, bytes_inj. by rewrite E.
Qed.

Lemma rule_words_sep c s : is_delim rule_delim c = true → rule_words (String c s) = rule_words s.
Proof.
  intros Hc. unfold rule_words, tokens. fold rule_delim. unfold bytes.
  cbn [String.list_ascii_of_string fields]. by rewrite Hc.
Qed.

(** A separator, a word, and what follows. *)
Lemma rule_words_next w s : a_word w → sep_first s → rule_words (" " +:+ w +:+ s) = w :: rule_words s.
Proof.
  intros Hw Hs. change (" " +:+ w +:+ s) with (String " " (w +:+ s)).
  rewrite rule_words_sep by done. by apply rule_words_app.
Qed.

Lemma append_assoc s t u : (s +:+ t) +:+ u = s +:+ (t +:+ u).
Proof. apply bytes_inj. rewrite !bytes_app. by rewrite app_assoc. Qed.

(** ** Addresses *)

Lemma x02_no_delim o :
  0 ≤ o < 256 → forallb (λ c, negb (is_delim rule_delim c)) (x02 o) = true.
Proof.
  apply (decide_below (λ o, forallb (λ c, negb (is_delim rule_delim c)) (x02 o)) 256 eq_refl).
Qed.

Lemma ntoa_no_delim os :
  Forall (λ o, 0 ≤ o < 256) os →
  forallb (λ c, negb (is_delim rule_delim c)) (ether_ntoa_l os) = true.
Proof.
  induction 1 as [|o os Ho Hos IH]; [done|]. destruct os as [|o' os].
  - by apply x02_no_delim.
  - change (ether_ntoa_l (o :: o' :: os)) with (x02 o ++ ":"%char :: ether_ntoa_l (o' :: os)).
    rewrite forallb_app, x02_no_delim by done. exact IH.
Qed.

Definition ea_octets (ea : list byte) : list Z := map byte.unsigned ea.

Lemma ea_octets_range ea : Forall (λ o, 0 ≤ o < 256) (ea_octets ea).
Proof. unfold ea_octets. apply list.Forall_fmap, list.Forall_true. intros b. apply byte.unsigned_range. Qed.

Lemma ea_octets_bytes ea : to_bytes (ea_octets ea) = ea.
Proof.
  unfold to_bytes, ea_octets. rewrite map_map. rewrite <- (map_id ea) at 2.
  apply map_ext. intros b. apply byte.of_Z_unsigned.
Qed.

Lemma addr_word ea : ea ≠ [] → a_word (ether_ntoa (ea_octets ea)).
Proof.
  intros Hne. split.
  - destruct ea as [|b [|b' ea]]; done.
  - unfold no_delim, ether_ntoa. rewrite bytes_of_list. apply ntoa_no_delim, ea_octets_range.
Qed.

Lemma rule_addr_ntoa ea k :
  length ea = 6%nat → rule_addr (ether_ntoa (ea_octets ea)) k = k ea.
Proof.
  intros Hl. unfold rule_addr, cmem. rewrite ether_aton_ntoa.
  - by rewrite ea_octets_bytes.
  - unfold ea_octets. by rewrite length_map.
  - apply ea_octets_range.
Qed.

(** ** Rules that a text can hold *)

Definition addr_ok (valid : bool) (a : option (list byte)) : Prop :=
  if valid then ∃ ea, a = Some ea ∧ length ea = 6%nat else a = None.

(** The rules bridge_rule makes for the bridge [name]: an action, a
    direction, addresses where the flags say so, and names that are words. *)
Record rule_ok (name : string) (r : ifbrlreq) : Prop := {
  ok_name : rl_name r = ifname name;
  ok_action : rl_action r = BRL_ACTION_BLOCK ∨ rl_action r = BRL_ACTION_PASS;
  ok_flags : 4 ≤ rl_flags r < 16;
  ok_ifs : a_word (rl_ifsname r) ∧ slen (rl_ifsname r) < IFNAMSIZ;
  ok_src : addr_ok (has_bits (rl_flags r) BRL_FLAG_SRCVALID) (rl_src r);
  ok_dst : addr_ok (has_bits (rl_flags r) BRL_FLAG_DSTVALID) (rl_dst r);
  ok_tag : rl_tagname r = "" ∨ a_word (rl_tagname r) ∧ slen (rl_tagname r) < PF_TAG_NAME_SIZE
}.

Definition addr_words (valid : bool) (kw : string) (a : option (list byte)) : list string :=
  if valid then [kw; ether_ntoa (ea_octets (default [] a))] else [].

Definition tag_words (t : string) : list string := if bool_decide (t = "") then [] else ["tag"; t].

Definition act_word (action : Z) : string := if action =? BRL_ACTION_BLOCK then "block" else "pass".

Definition dir_word (flags : Z) : string :=
  if Z.land flags 12 =? 12 then "in/out" else if has_bits flags BRL_FLAG_IN then "in" else "out".

Definition opt_part (r : ifbrlreq) : list string :=
  addr_words (has_bits (rl_flags r) BRL_FLAG_SRCVALID) "src" (rl_src r)
  ++ addr_words (has_bits (rl_flags r) BRL_FLAG_DSTVALID) "dst" (rl_dst r)
  ++ tag_words (rl_tagname r).

Definition words_of_rule (r : ifbrlreq) : list string :=
  act_word (rl_action r) :: dir_word (rl_flags r) :: "on" :: rl_ifsname r :: opt_part r.

(** ** The words of the text *)

Lemma show_addr_words valid kw a s :
  addr_ok valid a → a_word kw → sep_first s →
  ∃ t, show_addr valid kw a = Some t
    ∧ rule_words (t +:+ s) = addr_words valid kw a ++ rule_words s ∧ sep_first (t +:+ s).
Proof.
  intros Ha Hk Hs. unfold show_addr, addr_words. destruct valid; [|by exists ""].
  destruct Ha as (ea & -> & Hl). cbn [mbind option_bind default]. eexists. split; [done|].
  split; [|done]. rewrite !append_assoc, !rule_words_next; [done|..]; try done.
  apply addr_word. by intros ->.
Qed.

Lemma tag_text_words t s :
  t = "" ∨ a_word t ∧ slen t < PF_TAG_NAME_SIZE → sep_first s →
  let text := (if bool_decide (t = "") then "" else " tag " +:+ t) +:+ s in
  rule_words text = tag_words t ++ rule_words s ∧ sep_first text.
Proof.
  intros Ht Hs text. subst text. unfold tag_words. case_bool_decide as E; [done|]. split; [|done].
  destruct Ht as [|[Ht _]]; [done|].
  change (" tag " +:+ t) with (" " +:+ "tag" +:+ " " +:+ t).
  by rewrite !append_assoc, !rule_words_next.
Qed.

Lemma dir_cases flags :
  4 ≤ flags < 16 →
  a_word (dir_word flags) ∧
  (if Z.land flags (Z.lor BRL_FLAG_IN BRL_FLAG_OUT) =? Z.lor BRL_FLAG_IN BRL_FLAG_OUT
   then "in/out "
   else if has_bits flags BRL_FLAG_IN then "in "
   else if has_bits flags BRL_FLAG_OUT then "out "
   else "[neither in nor out?]" +:+ newline) = dir_word flags +:+ " ".
Proof.
  intros Hf. assert (flags ∈ seqZ 4 12) as Hin by (apply elem_of_seqZ; lia).
  revert Hin. clear Hf. revert flags. apply list.Forall_forall.
  change (seqZ 4 12) with [4; 5; 6; 7; 8; 9; 10; 11; 12; 13; 14; 15].
  repeat (apply list.Forall_cons_2; [done|]). by apply list.Forall_nil_2.
Qed.

(** The line has the words of the rule, and begins with its action. *)
Lemma showrule_words name r :
  rule_ok name r →
  ∃ text, bridge_showrule r = Some text ∧ rule_words text = words_of_rule r
    ∧ ∃ rest, text = act_word (rl_action r) +:+ " " +:+ rest.
Proof.
  intros [_ Ha Hf [Hi _] Hs Hd Ht]. unfold bridge_showrule, words_of_rule, opt_part.
  assert (a_word "dst") as Hw1 by done. assert (a_word "src") as Hw2 by done.
  destruct (tag_text_words (rl_tagname r) newline Ht eq_refl) as [Etag Stag].
  destruct (show_addr_words _ "dst" _ _ Hd Hw1 Stag)
    as (td & -> & Ed & Sd).
  destruct (show_addr_words _ "src" _ _ Hs Hw2 Sd)
    as (ts & -> & Es & Ss).
  cbn [mbind option_bind]. destruct (dir_cases _ Hf) as [Hw ->].
  assert ((if rl_action r =? BRL_ACTION_BLOCK then "block "
           else if rl_action r =? BRL_ACTION_PASS then "pass "
           else "[neither block nor pass?]" +:+ newline) = act_word (rl_action r) +:+ " ") as ->
    by (destruct Ha as [->| ->]; done).
  assert (a_word (act_word (rl_action r))) as Hact by (destruct Ha as [->| ->]; done).
  eexists. split; [done|]. change ("on " +:+ ?x) with ("on" +:+ " " +:+ x).
  split; [|by eexists; rewrite append_assoc].
  rewrite !append_assoc. rewrite rule_words_app by done.
  change (" " +:+ ?x +:+ " " +:+ ?y) with (" " +:+ x +:+ (" " +:+ y)).
  rewrite rule_words_next, rule_words_next, rule_words_next by done.
  by rewrite Es, Ed, Etag, app_nil_r.
Qed.

(** ** Reading the words back *)

Lemma rule_opts_tag t nm ifs act flags src dst :
  t = "" ∨ a_word t ∧ slen t < PF_TAG_NAME_SIZE →
  rule_opts (tag_words t) (mk_ifbrl nm ifs act flags src dst "")
  = Rule (mk_ifbrl nm ifs act flags src dst t).
Proof.
  unfold tag_words. intros Ht. case_bool_decide as E; [by rewrite E|].
  destruct Ht as [|[_ Hl]]; [done|]. cbn [rule_opts]. unfold strlcpy_s.
  rewrite !bool_decide_false by done. rewrite !bool_decide_true by done. cbn [negb rl_tagname].
  rewrite (proj2 (Z.ltb_ge _ (slen t))) by lia.
  by rewrite stake_all by (unfold PF_TAG_NAME_SIZE in *; lia).
Qed.

Lemma rule_opts_dst valid a rest nm ifs act flags src :
  addr_ok valid a → has_bits flags BRL_FLAG_DSTVALID = false →
  rule_opts (addr_words valid "dst" a ++ rest) (mk_ifbrl nm ifs act flags src None "")
  = rule_opts rest (mk_ifbrl nm ifs act (if valid then Z.lor flags BRL_FLAG_DSTVALID else flags) src a "").
Proof.
  intros Ha Hf. unfold addr_words. destruct valid; [|by rewrite Ha].
  destruct Ha as (ea & -> & Hl). cbn [app rule_opts default rl_flags].
  by rewrite bool_decide_true, Hf, rule_addr_ntoa by done.
Qed.

Lemma rule_opts_src valid a rest nm ifs act flags :
  addr_ok valid a → has_bits flags BRL_FLAG_SRCVALID = false →
  rule_opts (addr_words valid "src" a ++ rest) (mk_ifbrl nm ifs act flags None None "")
  = rule_opts rest (mk_ifbrl nm ifs act (if valid then Z.lor flags BRL_FLAG_SRCVALID else flags) a None "").
Proof.
  intros Ha Hf. unfold addr_words. destruct valid; [|by rewrite Ha].
  destruct Ha as (ea & -> & Hl). cbn [app rule_opts default rl_flags].
  by rewrite bool_decide_false, bool_decide_true, Hf, rule_addr_ntoa by done.
Qed.

(** The flags from their direction and the two validity bits. *)
Lemma dir_flags flags rest :
  4 ≤ flags < 16 →
  rule_direction (dir_word flags :: rest) = Some (Z.land flags 12, rest)
  ∧ has_bits (Z.land flags 12) BRL_FLAG_SRCVALID = false
  ∧ (let f1 := if has_bits flags BRL_FLAG_SRCVALID then Z.lor (Z.land flags 12) BRL_FLAG_SRCVALID
               else Z.land flags 12 in
     has_bits f1 BRL_FLAG_DSTVALID = false
     ∧ (if has_bits flags BRL_FLAG_DSTVALID then Z.lor f1 BRL_FLAG_DSTVALID else f1) = flags).
Proof.
  intros Hf. assert (flags ∈ seqZ 4 12) as Hin by (apply elem_of_seqZ; lia).
  revert Hin. clear Hf. revert flags. apply list.Forall_forall.
  change (seqZ 4 12) with [4; 5; 6; 7; 8; 9; 10; 11; 12; 13; 14; 15].
  repeat (apply list.Forall_cons_2; [done|]). by apply list.Forall_nil_2.
Qed.

Lemma rule_parse_words name r : rule_ok name r → rule_parse name (words_of_rule r) = Rule r.
Proof.
  intros [Hn Ha Hf [Hi Hil] Hs Hd Ht]. unfold words_of_rule, rule_parse.
  destruct (dir_flags _ ("on" :: rl_ifsname r :: opt_part r) Hf) as (-> & Hsv & Hdv & Hfl).
  cbv zeta in *. rewrite (bool_decide_true ("on" = "on")) by done.
  assert (∀ act, act = rl_action r →
    rule_opts (opt_part r) (mk_ifbrl (ifname name) (ifname (rl_ifsname r)) act
      (Z.land (rl_flags r) 12) None None "") = Rule r) as Hgo.
  { intros act ->. unfold opt_part. rewrite rule_opts_src, rule_opts_dst, rule_opts_tag by done.
    rewrite Hfl, <- Hn. unfold ifname, strlcpy_s. cbn [fst].
    rewrite stake_all by (unfold IFNAMSIZ in *; lia). by destruct r. }
  unfold act_word. destruct Ha as [E|E]; rewrite E; cbn;
    rewrite ?bool_decide_false, ?bool_decide_true by done; by apply Hgo.
Qed.

(** ** The theorem *)

(** Adding a rule: the request, and a warning when it is refused. *)
Definition add_rule `{Kernel} (r : ifbrlreq) : GM Z :=
  name ← gets g_name;
  '(z, _) ← ioctl SIOCBRDGARL r;
  if z <? 0 then warn name;; mret 1 else mret 0.

(** A rule with both addresses and a tag. *)
Definition full_rule (r : ifbrlreq) : bool :=
  has_bits (rl_flags r) BRL_FLAG_SRCVALID && has_bits (rl_flags r) BRL_FLAG_DSTVALID
  && negb (bool_decide (rl_tagname r = "")).

Lemma length_words_of_rule r :
  (MAXRULEWORDS <? length (words_of_rule r))%nat = full_rule r.
Proof.
  unfold words_of_rule, opt_part, addr_words, tag_words, full_rule.
  destruct (has_bits _ BRL_FLAG_SRCVALID), (has_bits _ BRL_FLAG_DSTVALID);
    by case_bool_decide.
Qed.

Lemma bridge_rule_words `{K : Kernel} r g :
  rule_ok (g_name g) r → bridge_rule (words_of_rule r) g = add_rule r g.
Proof.
  intros Hr. unfold bridge_rule, add_rule. rewrite bool_decide_false by done.
  unfold mbind, CM_bind, gets. by rewrite rule_parse_words.
Qed.

(** C16. A rule file made of the lines bridge_showrule writes gives the rules
    back: reading the line of a rule sends the kernel exactly that rule, its
    action, direction, addresses, interface and tag; except that a rule with
    both addresses and a tag has ten words, more than a line may have, and is
    skipped with a warning. *)
Theorem bridge_rule_roundtrip `{K : Kernel} r g :
  rule_ok (g_name g) r →
  ∃ text, bridge_showrule r = Some text
    ∧ (full_rule r = false → rule_line text g = (add_rule r ≫= λ _, mret tt) g)
    ∧ (full_rule r = true → rule_line text g = warn "invalid rule: ..." g).
Proof.
  intros Hr. destruct (showrule_words _ _ Hr) as (text & Et & Ew & rest & Hfirst).
  exists text. split; [done|].
  assert (rule_line text g
          = (if full_rule r then warn "invalid rule: ..."
             else (bridge_rule (words_of_rule r) ≫= λ _, mret tt)) g) as E.
  { unfold rule_line. rewrite Ew, length_words_of_rule.
    rewrite Hfirst. by destruct (ok_action _ _ Hr) as [->| ->]. }
  split; intros Hf; rewrite E, Hf; [|done].
  unfold mbind, CM_bind. by rewrite bridge_rule_words.
Qed.

Definition sample_rule : ifbrlreq :=
  mk_ifbrl "bridge0" "em1" BRL_ACTION_PASS 0x0a
    (Some [Byte.x00; Byte.x1b; Byte.x21; Byte.x3c; Byte.x4d; Byte.xfe]) None "lan".

Definition bridge0 : @glob plain_kernel := set_name "bridge0" two_ifs.

Lemma bridge_rule_roundtrip_witness :
  ∃ text, bridge_showrule sample_rule = Some text
    ∧ @rule_line plain_kernel text bridge0
      = ((@add_rule plain_kernel sample_rule : @GM plain_kernel Z) ≫= λ _, mret tt) bridge0.
Proof.
  destruct (@bridge_rule_roundtrip plain_kernel sample_rule bridge0) as (text & Et & Hf & _).
  - split; try done; [by right|by eexists|by right].
  - exists text. split; [exact Et|]. by apply Hf.
Defined.
