(* ===== verification/MediaProps.v ===== *)
(** * MediaProps: media words and their names

    Theorems on IfMedia.v: the names print_media_word writes for the media
    type, the mode and the options of an interface are the names that media,
    mode and mediaopt read back. *)
From stdpp Require Import base list strings.
From Stdlib Require Import Ascii.
From S2P Require Import Prelude CString CNum NetAddr IfData IfMedia.

(** ** Bit fields *)

(** A field of three bits has eight values. *)
Lemma field_cases w i :
  0 ≤ i → ∃ k, 0 ≤ k < 8 ∧ Z.land w (Z.shiftl (Z.ones 3) i) = 2 ^ i * k.
Proof.
  intros Hi. exists (Z.shiftr w i `mod` 8). split; [apply Z.mod_pos_bound; lia|].
  change 8 with (2 ^ 3). rewrite <- Z.land_ones by lia.
  rewrite Z.mul_comm, <- Z.shiftl_mul_pow2 by lia.
  apply Z.bits_inj'. intros n Hn. rewrite Z.land_spec. destruct (decide (n < i)).
  - by rewrite !Z.shiftl_spec_low, andb_false_r by lia.
  - rewrite !Z.shiftl_spec_high, Z.land_spec, Z.shiftr_spec by lia.
    by replace (n - i + i) with n by lia.
Qed.

Lemma type_cases w : ∃ k, 0 ≤ k < 8 ∧ IFM_TYPE w = 32 * k.
Proof. apply (field_cases w 5). lia. Qed.

Lemma mode_cases w : ∃ k, 0 ≤ k < 8 ∧ IFM_MODE w = 65536 * k.
Proof. apply (field_cases w 16). lia. Qed.

Lemma subtype_range w : 0 ≤ IFM_SUBTYPE w < 32.
Proof.
  unfold IFM_SUBTYPE, IFM_TMASK. change 31 with (Z.ones 5). rewrite Z.land_ones by lia.
  apply Z.mod_pos_bound. lia.
Qed.

Lemma land_bit x k : 0 ≤ k → Z.land x (2 ^ k) = if Z.testbit x k then 2 ^ k else 0.
Proof.
  intros Hk. apply Z.bits_inj'. intros n Hn. rewrite Z.land_spec.
  destruct (decide (n = k)) as [->|].
  - rewrite Z.pow2_bits_true by lia. rewrite andb_true_r.
    destruct (Z.testbit x k); [by rewrite Z.pow2_bits_true|by rewrite Z.bits_0].
  - rewrite Z.pow2_bits_false by lia. rewrite andb_false_r.
    destruct (Z.testbit x k); [by rewrite Z.pow2_bits_false by lia|by rewrite Z.bits_0].
Qed.

Lemma lor_bit x k : 0 ≤ k → Z.testbit x k = true → Z.lor x (2 ^ k) = x.
Proof.
  intros Hk Hx. apply Z.bits_inj'. intros n Hn. rewrite Z.lor_spec.
  destruct (decide (n = k)) as [->|]; [by rewrite Hx|].
  by rewrite Z.pow2_bits_false, orb_false_r by lia.
Qed.

Lemma land_fields w a b : Z.land a b = 0 → Z.land (Z.land w a) (Z.land w b) = 0.
Proof.
  intros H. apply Z.bits_inj'. intros n _. rewrite !Z.land_spec, Z.bits_0.
  pose proof (f_equal (λ x, Z.testbit x n) H) as Hn. cbn beta in Hn.
  rewrite Z.land_spec, Z.bits_0 in Hn.
  by destruct (Z.testbit w n), (Z.testbit a n), (Z.testbit b n).
Qed.

Lemma match_type w t : IFM_TYPE_MATCH w (IFM_TYPE t) = IFM_TYPE_MATCH w t.
Proof.
  unfold IFM_TYPE_MATCH. f_equal. unfold IFM_TYPE. by rewrite <- Z.land_assoc, Z.land_diag.
Qed.

(** ** Options *)

(** The option bits that have a name for a type. *)
Definition described (type : Z) (desc : list (string * Z)) : Z :=
  foldr (λ e acc, if IFM_TYPE_MATCH e.2 type then Z.lor (IFM_OPTIONS e.2) acc else acc) 0 desc.

(** An entry that applies to a type has one option bit, and its name is found
    with that bit. *)
Definition entry_ok (type : Z) (e : string * Z) : bool :=
  negb (IFM_TYPE_MATCH e.2 type)
  || (let l := lookup_media_word ifm_option_descriptions type e.1 in
      negb (l =? -1) && (IFM_OPTIONS l =? IFM_OPTIONS e.2)
      && (IFM_OPTIONS e.2 =? 2 ^ Z.log2 (IFM_OPTIONS e.2))).

Lemma options_entries w : forallb (entry_ok (IFM_TYPE w)) ifm_option_descriptions = true.
Proof.
  destruct (type_cases w) as (k & Hk & ->).
  apply (decide_below (λ k, forallb (entry_ok (32 * k)) ifm_option_descriptions) 8 eq_refl k Hk).
Qed.

(** Reading the names printed for a suffix of the table adds the bits it
    describes to those already seen. *)
Lemma option_loop_options w desc seen :
  forallb (entry_ok (IFM_TYPE w)) desc = true →
  media_options_loop (IFM_TYPE w) (option_loop desc w seen) seen
  = Some (Z.lor seen (Z.land (IFM_OPTIONS w) (described w desc))).
Proof.
  revert seen. induction desc as [|[s e] desc IH]; intros seen He.
  - cbn. by rewrite Z.land_0_r, Z.lor_0_r.
  - cbn [forallb] in He. apply andb_true_iff in He as [He Hd]. unfold entry_ok in He.
    rewrite match_type in He. cbn [option_loop described foldr fst snd] in *. fold (described w desc).
    destruct (IFM_TYPE_MATCH e w); cbn [negb orb andb] in *; [|by apply IH].
    apply andb_true_iff in He as [[Hl Ho%Z.eqb_eq]%andb_true_iff Hb%Z.eqb_eq].
    pose proof (Z.log2_nonneg (IFM_OPTIONS e)) as Hk.
    set (k := Z.log2 (IFM_OPTIONS e)) in *. clearbody k. rewrite Hb in *.
    rewrite Z.land_lor_distr_r, !(land_bit _ k) by lia.
    destruct (Z.testbit (IFM_OPTIONS w) k); [|cbn; by rewrite IH].
    rewrite (proj2 (Z.eqb_neq (2 ^ k) 0)) by lia. cbn [negb andb].
    destruct (Z.testbit seen k) eqn:Hs.
    + rewrite (proj2 (Z.eqb_neq (2 ^ k) 0)), IH by (done || lia).
      by rewrite Z.lor_assoc, lor_bit by (done || lia).
    + cbn [Z.eqb media_options_loop]. apply negb_true_iff in Hl.
      by rewrite Hl, Ho, IH, Z.lor_assoc.
Qed.

(** ** The text of the options *)

Definition name_ok (s : string) : bool :=
  negb (bool_decide (s = "")) && forallb (λ c, negb (is_delim (bytes ",") c)) (bytes s).

Lemma tokens_word delim w : forallb (λ c, negb (is_delim delim c)) w = true → w ≠ [] → tokens delim w = [w].
Proof. intros Hw Hne. unfold tokens. rewrite fields_single by done. by rewrite filter_cons_True. Qed.

Lemma words_of_join l : forallb name_ok l = true → words_of (join_comma l) = l.
Proof.
  induction l as [|s l IH]; [done|]. cbn [forallb].
  intros [[Hne%negb_true_iff%bool_decide_eq_false Hs]%andb_true_iff Hl]%andb_true_iff.
  assert (bytes s ≠ []) as Hb by (intros E; by apply Hne, bytes_inj).
  specialize (IH Hl). unfold words_of in *. destruct l as [|s' l].
  - cbn [join_comma]. rewrite tokens_word by done. cbn [map]. f_equal.
    apply String.string_of_list_ascii_of_string.
  - change (join_comma (s :: s' :: l)) with (s +:+ "," +:+ join_comma (s' :: l)).
    rewrite !bytes_app. change (bytes "," ++ ?x) with (","%char :: x).
    unfold tokens in *. rewrite fields_word by done. rewrite filter_cons_True by done.
    cbn [map]. f_equal; [apply String.string_of_list_ascii_of_string|]. exact IH.
Qed.

Lemma option_loop_names w desc seen :
  forallb name_ok desc.*1 = true → forallb name_ok (option_loop desc w seen) = true.
Proof.
  revert seen. induction desc as [|[s e] desc IH]; intros seen; [done|].
  cbn [fmap list_fmap forallb fst option_loop]. intros [Hs Hd]%andb_true_iff.
  destruct (_ && _); cbn [forallb]; rewrite ?Hs; by apply IH.
Qed.

(** ** Subtypes and modes *)

Definition subtype_ok (type subtype : Z) : bool :=
  let s := get_media_subtype_string (type + subtype) in
  bool_decide (s = "<unknown subtype>")
  || (let l := lookup_media_word ifm_subtype_descriptions type s in
      negb (l =? -1) && (IFM_SUBTYPE l =? subtype) && IFM_TYPE_MATCH l type).

Lemma subtypes_ok k t : 0 ≤ k < 8 → 0 ≤ t < 32 → subtype_ok (32 * k) t = true.
Proof.
  intros Hk Ht.
  pose proof (decide_below (λ k, forallb (subtype_ok (32 * k)) (seqZ 0 32)) 8 eq_refl k Hk) as H.
  apply forallb_forall with (x := t) in H; [done|]. apply list_elem_of_In, elem_of_seqZ. lia.
Qed.

Definition mode_ok (type mode : Z) : bool :=
  match mode_loop ifm_mode_descriptions (type + mode) with
  | None => true
  | Some s => let l := lookup_media_word ifm_mode_descriptions type s in
              negb (l =? -1) && (IFM_MODE l =? mode) && IFM_TYPE_MATCH l type
  end.

Lemma modes_ok k m : 0 ≤ k < 8 → 0 ≤ m < 8 → mode_ok (32 * k) (65536 * m) = true.
Proof.
  intros Hk Hm.
  pose proof (decide_below (λ k, forallb (λ m, mode_ok (32 * k) (65536 * m)) (seqZ 0 8)) 8 eq_refl k Hk)
    as H.
  apply forallb_forall with (x := m) in H; [done|]. apply list_elem_of_In, elem_of_seqZ. lia.
Qed.

(** The fields of a word made of two disjoint fields of another. *)
Lemma two_fields w a b :
  Z.land a b = 0 →
  Z.land (Z.land w a + Z.land w b) a = Z.land w a ∧ Z.land (Z.land w a + Z.land w b) b = Z.land w b.
Proof.
  intros H. pose proof (land_fields w a b H) as E.
  rewrite Z.add_nocarry_lxor, Z.lxor_lor, !Z.land_lor_distr_l, <- !Z.land_assoc by done.
  by rewrite !Z.land_diag, (Z.land_comm b a), H, Z.land_0_r, Z.lor_0_r.
Qed.

(** The name of a subtype depends on the type and subtype fields alone, that
    of a mode on the type and mode fields. *)
Lemma subtype_string_fields w :
  get_media_subtype_string w = get_media_subtype_string (IFM_TYPE w + IFM_SUBTYPE w).
Proof.
  destruct (two_fields w IFM_NMASK IFM_TMASK eq_refl) as [E1 E2].
  unfold get_media_subtype_string. induction ifm_subtype_descriptions as [|[s e] l IH]; [done|].
  cbn [media_subtype_loop]. rewrite IH. clear IH.
  unfold IFM_TYPE_MATCH, IFM_TYPE, IFM_SUBTYPE in *. by rewrite E1, E2.
Qed.

Lemma mode_loop_fields w desc : mode_loop desc w = mode_loop desc (IFM_TYPE w + IFM_MODE w).
Proof.
  destruct (two_fields w IFM_NMASK IFM_MMASK eq_refl) as [E1 E2].
  induction desc as [|[s e] l IH]; [done|]. cbn [mode_loop]. rewrite IH. clear IH.
  unfold IFM_TYPE_MATCH, IFM_TYPE, IFM_MODE in *. by rewrite E1, E2.
Qed.

(** ** The theorem *)

(** C17. The names print_media_word writes can be given back.  For every media
    word, mediaopt on the printed list of options has all the option bits
    that have a name for the type of the word and no other; media on the
    printed subtype and mode on the printed mode find words of that type with
    the same subtype and the same mode, whenever these have a name. *)
Theorem media_names_roundtrip w :
  media_options_loop (IFM_TYPE w) (words_of (join_comma (print_options w))) 0
    = Some (Z.land (IFM_OPTIONS w) (described w ifm_option_descriptions))
  ∧ (get_media_subtype_string w ≠ "<unknown subtype>" →
     let l := lookup_media_word ifm_subtype_descriptions (IFM_TYPE w) (get_media_subtype_string w) in
     l ≠ -1 ∧ IFM_SUBTYPE l = IFM_SUBTYPE w ∧ IFM_TYPE_MATCH l w = true)
  ∧ (∀ s, mode_loop ifm_mode_descriptions w = Some s →
     let l := lookup_media_word ifm_mode_descriptions (IFM_TYPE w) s in
     l ≠ -1 ∧ IFM_MODE l = IFM_MODE w ∧ IFM_TYPE_MATCH l w = true).
Proof.
  destruct (type_cases w) as (k & Hk & Et). split_and!.
  - unfold print_options. rewrite words_of_join by by apply option_loop_names.
    rewrite option_loop_options by apply options_entries. by rewrite Z.lor_0_l.
  - intros Hs. pose proof (subtypes_ok k _ Hk (subtype_range w)) as H. unfold subtype_ok in H.
    rewrite <- Et, <- subtype_string_fields, bool_decide_false in H by done. cbn [orb] in H.
    rewrite match_type in H. cbv zeta.
    by apply andb_true_iff in H as [[?%negb_true_iff%Z.eqb_neq ?%Z.eqb_eq]%andb_true_iff ?].
  - intros s Hs. destruct (mode_cases w) as (m & Hm & Em).
    pose proof (modes_ok k m Hk Hm) as H. unfold mode_ok in H.
    rewrite <- Et, <- Em, <- mode_loop_fields, Hs, match_type in H. cbv zeta.
    by apply andb_true_iff in H as [[?%negb_true_iff%Z.eqb_neq ?%Z.eqb_eq]%andb_true_iff ?].
Qed.
