(* ===== verification/Daemon.v ===== *)
(** * Daemon: the privileged process

    Models src/ifconfigd/ifconfigd.c apart from ifconfig_gate(), which is in
    Gate.v: the handler of the pipe to the engine, the connection and
    monitoring routines it calls, and the signal handlers; and the
    configuration structures of src/ifconfigd/ifconfigd.h.

    The routines that configure interfaces run in the monad [GM] of the globals
    they share with the handlers of ifcutil.c.  What the log routines print is
    not modelled.  [None] stands for an indeterminate value where a routine
    may hand one on. *)
From coqutil Require Import Byte.
From stdpp Require Import base list strings relations.
From Stdlib Require Import Ascii.
From S2P Require Import Prelude CString CNum IfData IfNet IfCore IfStatus Gate ImsgBuffer Imsg Engine.

(** ** The configuration *)

Record static_cfg := mk_static {
  st_inet : cptr;
  st_netmask : cptr;
  st_domainname : cptr;
  st_domainserver : cptr;
}.

(** The members name and interface are arrays of pointers that the parser
    uses as arrays of characters: they hold the bytes of a string. *)
Record ethernet := mk_eth {
  eth_name : string;
  eth_interface : string;
  eth_priority : Z;
  eth_isdhcp : Z;
  eth_staticopts : option static_cfg;
  eth_lladdr : cptr;
  eth_run_up : cptr;
  eth_run_down : cptr;
}.

Record wpa_cfg := mk_wpacfg {
  wc_wpakey : cptr;
  wc_wpagroupcipher : cptr;
  wc_wpaciphers : cptr;
  wc_wpaakms : cptr;
}.

Record wireless := mk_wlan {
  wl_name : string;
  wl_interface : string;
  wl_priority : Z;
  wl_nwid : cptr;
  wl_bssid : cptr;
  wl_minsignal : Z;
  wl_channel : Z;
  wl_isdhcp : Z;
  wl_staticopts : option static_cfg;
  wl_wpa : option wpa_cfg;
  wl_wep_nwkex : cptr;
  wl_lladdr : cptr;
  wl_run_up : cptr;
  wl_run_down : cptr;
}.

Record network := mk_network {
  nw_name : string;
  nw_priority : Z;
  ethernet_list : list ethernet;
  wireless_list : list wireless;
}.

(** ** Scanning and connecting *)

(** The bytes of an object, as characters. *)
Definition mem_of (bs : list byte) : list ascii := map ascii_of_byte bs.

Section daemon.
Context `{!Kernel, !Libs}.

(** The loop over the addresses; [None] when it ends without a return. *)
Fixpoint active_check_loop (oname : option string) (l : list ifaddrs) : GM (option string) :=
  match l with
  | [] => mret None
  | ifa :: l =>
      if negb (from_option (λ o, name_matches o (ifa_name ifa)) true oname)
      then active_check_loop oname l
      else
        let sa := ifa_addr ifa in
        modify (set_ifr (ifr_store ifreq_zero (Ztake (Z.min 16 (sa_len sa)) sa)));;
        modify (set_name (ifname (ifa_name ifa)));;
        modify (λ g, set_ifr (set_ifr_name (g_ifr g) (ifname (ifa_name ifa))) g);;
        if sa_family sa =? AF_LINK then
          _ ← getinfo_ifr false;
          mret (Some (get_linkstate (ifa_type ifa) (ifa_link_state ifa)))
        else active_check_loop oname l
  end.

Definition active_check (ifname : cptr) : GM (option string) :=
  (match ifname with
   | None => mret tt
   | Some _ => ok ← in_env alloc_ok; if negb ok then err else mret tt
   end);;
  k ← gets g_k;
  match k_getifaddrs k with
  | None => err
  | Some l => active_check_loop ifname l
  end.

(** How often a node is recorded: once for every name it has. *)
Fixpoint scan_node (tnr : ieee80211_nodereq) (nwid : list cptr) : GM (list ieee80211_nodereq) :=
  match nwid with
  | [] => mret []
  | p :: nwid =>
      s ← deref p;
      c ← need (strcmp (mem_of (nr_nwid tnr)) (bytes s ++ [NUL]));
      l ← scan_node tnr nwid;
      mret (if c =? 0 then tnr :: l else l)
  end.

Fixpoint scan_nodes (na : ieee80211_nodereq_all) (nwid : list cptr) (todo : nat) (i : nat)
    : GM (list ieee80211_nodereq) :=
  match todo with
  | O => mret []
  | S todo =>
      tnr ← nr_at na i;
      l ← (if has_bits (nr_flags tnr) IEEE80211_NODEREQ_AP then scan_node tnr nwid else mret []);
      l' ← scan_nodes na nwid todo (S i);
      mret (l ++ l')
  end.

(** The result is the nodes that the pointers stored in resault[] point to;
    their number is the return value.  The structure ifr is a local one; no
    request reads what its union holds. *)
Definition ieee80211_scan (ifname0 : string) (nwid : list cptr) : GM (list ieee80211_nodereq) :=
  let '(n, len) := strlcpy_s ifname0 PTR_SIZE in
  modify (set_name n);;
  if IFNAMSIZ <=? len then err
  else
    let rafp := default AFS_inet (find_af ifname0 (afs false)) in
    modify (set_afp (Some rafp));;
    wr G_af (af_af rafp);;
    let r := set_ifr_name (set_ifr_family ifreq_zero (af_af rafp)) (ifname ifname0) in
    _ ← getinfo r false;
    name ← gets g_name;
    _ ← ioctl SIOCS80211SCAN (mk_ifreq (ifname name) (U_bytes (zeros 16)));
    '(_, na) ← ioctl SIOCG80211ALLNODES
                 (mk_nodes (ifname name) (NR_NODES * SIZEOF_NODEREQ) 0 []);
    if na_nodes na =? 0 then mret [] else scan_nodes na nwid (Z.to_nat (na_nodes na)) 0.

(** execl() and execle() without the null pointer that ends their arguments
    have no defined behaviour. *)
Definition exec_dhclient {A} : GM A := undef.

(** bzero(todo, sizeof(char)*11) wipes the first pointer of todo[] and a part of
    the second, which nothing reads before the first. *)
Definition bzero_todo (todo : list cptr) : list cptr := [None; None] ++ drop 2 todo.

(** The words for an address, as both connecting routines build them. *)
Definition static_words (st : static_cfg) : list cptr :=
  bzero_todo [Some "inet"; st_inet st] ++
  match st_netmask st with None => [] | Some m => [Some "netmask"; Some m] end.

(** eth->interface[0], the first eight characters of the name taken as a
    pointer: NULL when there are none, and no pointer to a string otherwise. *)
Definition interface0 (eth : ethernet) : GM cptr :=
  if bool_decide (eth_interface eth = "") then mret None else undef.

Definition connect_ethernet (eth : ethernet) : GM Z :=
  if eth_isdhcp eth =? 1 then exec_dhclient
  else match eth_staticopts eth with
  | Some st =>
      let todo := static_words st in
      p ← interface0 eth; iface ← deref p;
      ifconfig_gate (Zlen todo) todo iface;; mret 0
  | None => mret (-1)
  end.

Definition opt_words (w : string) (a : cptr) : list cptr :=
  match a with None => [] | Some a => [Some w; Some a] end.

Definition wpa_words (wlan : wireless) (wpa : wpa_cfg) : list cptr :=
  [Some "nwid"; wl_nwid wlan; Some "wpa"] ++ opt_words "wpaakms" (wc_wpaakms wpa)
  ++ opt_words "wpaciphers" (wc_wpaciphers wpa)
  ++ opt_words "wpagroupcipher" (wc_wpagroupcipher wpa)
  ++ [Some "wpakey"; wc_wpakey wpa].

Definition connect_wireless (wlan : wireless) : GM Z :=
  (match wl_lladdr wlan with
   | Some a => ifconfig_gate 2 [Some "lladdr"; Some a] (wl_interface wlan)
   | None => mret tt
   end);;
  (match wl_wpa wlan with
   | Some wpa =>
       ifconfig_gate 1 [Some "-bssid"] (wl_interface wlan);;
       let todo := wpa_words wlan wpa in
       ifconfig_gate (Zlen todo) todo (wl_interface wlan)
   | None => mret tt
   end);;
  if wl_isdhcp wlan =? 1 then exec_dhclient
  else match wl_staticopts wlan with
  | Some st =>
      let todo := static_words st in
      ifconfig_gate (Zlen todo) todo (wl_interface wlan);; mret 0
  | None => mret 0
  end.

(** ** Commands of the engine *)

(** The loops of use_ethernet(); [None] when the function ends without a
    return statement. *)
Fixpoint use_ethernet_in (name : string) (l : list ethernet) : GM (option Z) :=
  match l with
  | [] => mret None
  | eth :: l =>
      if bool_decide (eth_name eth = name) then Some <$> connect_ethernet eth
      else use_ethernet_in name l
  end.

Fixpoint use_ethernet (networks : list network) (name : string) : GM (option Z) :=
  match networks with
  | [] => mret None
  | nw :: networks =>
      r ← use_ethernet_in name (ethernet_list nw);
      match r with Some z => mret (Some z) | None => use_ethernet networks name end
  end.

(** The body of the loops of monitor_ethernet(): [inl] is a return, [inr] the
    new ifstat_n. *)
Definition check_ethernet (eth : ethernet) (ifstat_n : option cptr) : GM (Z + option cptr) :=
  let ifstat_o := ifstat_n in
  p ← interface0 eth;
  st ← active_check p;
  let ifstat_n := Some <$> st in
  o ← need ifstat_o;
  match o with
  | None => mret (inr ifstat_n)
  | Some old =>
      new ← need ifstat_n; new ← deref new;
      if negb (bool_decide (stake 8 new = stake 8 old)) && bool_decide (stake 6 new = "active") then
        inl <$> connect_ethernet eth
      else mret (inr ifstat_n)
  end.

Fixpoint monitor_ethernet_loop (l : list ethernet) (ifstat_n : option cptr) : GM Z :=
  match l with
  | [] => mret 1
  | eth :: l =>
      r ← check_ethernet eth ifstat_n;
      match r with inl z => mret z | inr st => monitor_ethernet_loop l st end
  end.

(** ifstat_n starts indeterminate. *)
Definition monitor_ethernet (networks : list network) : GM Z :=
  monitor_ethernet_loop (concat (map ethernet_list networks)) None.

(** What monitor_wireless() makes of a node found for a network; bssid is
    compared with a pointer to another object. *)
Inductive verdict := V_channel | V_signal | V_bssid | V_connect.

Definition judge (wlan : wireless) (node : ieee80211_nodereq) : verdict :=
  let rssi := Z.quot (nr_rssi node * 100) 255 in
  if negb (nr_channel node =? wl_channel wlan) then V_channel
  else if rssi <? wl_minsignal wlan then V_signal
  else match wl_bssid wlan with Some _ => V_bssid | None => V_connect end.

(** The pointers that ieee80211_scan() stores point into its own frame, which
    is gone when they are used.  [dead] is what a read through one gives:
    [None] where it is not defined, as for ISO C. *)
Section dead.
Context (dead : ieee80211_nodereq → option ieee80211_nodereq).

(** The wireless networks of one network; [None] when the inner loop ends or
    is left. *)
Fixpoint monitor_wlans (l : list wireless) : GM (option Z) :=
  match l with
  | [] => mret None
  | wlan :: l =>
      ifconfig_gate 1 [Some "up"] (wl_interface wlan);;
      found ← ieee80211_scan (wl_interface wlan) [wl_nwid wlan];
      match found with
      | node :: _ =>
          node ← need (dead node);
          match judge wlan node with
          | V_connect => Some <$> connect_wireless wlan
          | _ => mret None
          end
      | [] =>
          ifconfig_gate 1 [Some "down"] (wl_interface wlan);; monitor_wlans l
      end
  end.

Fixpoint monitor_wireless (networks : list network) : GM Z :=
  match networks with
  | [] => mret (-1)
  | nw :: networks =>
      r ← monitor_wlans (wireless_list nw);
      match r with Some z => mret z | None => monitor_wireless networks end
  end.

(** One round of __monitor(), which never returns. *)
Definition __monitor_round : GM unit :=
  ifconfig_gate 1 [Some "up"] "iwn0";;
  found ← ieee80211_scan "iwn0" [Some "OpenHTC"; Some "wir3"; Some "OpenHome"];
  mapM (λ node, need (dead node)) found;;
  ifconfig_gate 1 [Some "down"] "iwn0".
End dead.

(** The statement after the first if is unconditional, so that the loop is
    left in its first round. *)
Definition monitor (networks : list network) : GM Z :=
  r ← monitor_ethernet networks;
  (if negb (r =? 0) then mret tt else mret tt);;
  mret 0.

(** ** The process *)

Record daemon := mk_daemon {
  d_g : glob;
  d_iev : imsgev;
  d_pid : Z;
  d_killed : list Z;
  d_exit : bool;
}.

Definition set_dg g (d : daemon) := mk_daemon g (d_iev d) (d_pid d) (d_killed d) (d_exit d).
Definition set_diev i (d : daemon) := mk_daemon (d_g d) i (d_pid d) (d_killed d) (d_exit d).
Definition set_dpid p (d : daemon) := mk_daemon (d_g d) (d_iev d) p (d_killed d) (d_exit d).
Definition set_dkilled l (d : daemon) := mk_daemon (d_g d) (d_iev d) (d_pid d) l (d_exit d).
Definition set_dexit b (d : daemon) := mk_daemon (d_g d) (d_iev d) (d_pid d) (d_killed d) b.

Definition DM := CM daemon.

Definition gm {A} (m : GM A) : DM A := zoom d_g set_dg m.
Definition denv {A} (m : CM cenv A) : DM A := gm (in_env m).

(** The string at the start of an array of bytes. *)
Fixpoint array_string (bs : list byte) : option string :=
  match bs with
  | [] => None
  | b :: bs =>
      let a := ascii_of_byte b in
      if is_nul a then Some EmptyString else String a <$> array_string bs
  end.

(** The switch of main_dispatch_ifconfigde(): the memcpy() takes 64 bytes from
    the data whatever its size, and IMSG_USE_ETHERNET falls through. *)
Definition main_switch (networks : list network) (m : imsg) : GM unit :=
  let type := h_type (im_hdr m) in
  if type =? IMSG_USE_ETHERNET then
    if Zlen (im_data m) <? MAX_NETWORK_NAME_SIZE then undef
    else
      name ← need (array_string (Ztake MAX_NETWORK_NAME_SIZE (im_data m)));
      r ← use_ethernet networks name;
      _ ← need r;
      _ ← monitor networks; mret tt
  else if type =? IMSG_IFCONFIGD_MONITOR then _ ← monitor networks; mret tt
  else mret tt.

(** Every message has at least IMSG_HEADER_SIZE bytes, so that the number of
    bytes received is fuel enough. *)
Fixpoint main_loop (networks : list network) (fuel : nat) : DM unit :=
  match fuel with
  | O => stopM SFuel
  | S fuel =>
      iev ← gets d_iev;
      '(n, ib, m) ← denv (imsg_get (ie_ibuf iev));
      modify (set_diev (set_ibuf iev ib));;
      if n =? -1 then stopM (SExit 1)
      else if n =? 0 then mret tt
      else match m with
      | None => stopM SUndef
      | Some m => gm (main_switch networks m);; main_loop networks fuel
      end
  end.

Definition main_read (rcv : recvret) : DM bool :=
  iev ← gets d_iev;
  '(n, ib) ← denv (imsg_read rcv (ie_ibuf iev));
  modify (set_diev (set_ibuf iev ib));;
  if n =? -1 then stopM (SExit 1) else mret (n =? 0).

Definition main_write (snd : sysret) : DM unit :=
  iev ← gets d_iev;
  '(z, w) ← denv (msgbuf_write snd (i_w (ie_ibuf iev)));
  modify (set_diev (set_ibuf iev (set_w (ie_ibuf iev) w)));;
  if z =? -1 then stopM (SExit 1) else mret tt.

Definition main_dispatch_ifconfigde (networks : list network) (event : Z) (rcv : recvret)
    (snd : sysret) : DM unit :=
  shut ← (if has_bits event EV_READ then main_read rcv else mret false);
  (if has_bits event EV_WRITE then main_write snd else mret tt);;
  r ← gets (i_r ∘ ie_ibuf ∘ d_iev);
  main_loop networks (S (length r));;
  if negb shut then modify (λ d, set_diev (imsg_event_add (d_iev d)) d)
  else modify (λ d, set_diev (event_del (d_iev d)) d);; modify (set_dexit true).

(** ** Signals *)

Definition SIGHUP : Z := 1.
Definition SIGINT : Z := 2.
Definition SIGTERM : Z := 15.
Definition SIGCHLD : Z := 20.

(** How a child has changed its state. *)
Inductive wstatus := W_exited (code : Z) | W_signaled (sig : Z) | W_other.

(** [ans] is what waitpid(2) reports, [None] for a result that is not
    positive. *)
Definition check_child (ans : option wstatus) : bool :=
  match ans with Some (W_exited _) | Some (W_signaled _) => true | _ => false end.

(** [waits] are the answers to the successive calls of wait(2): a process, or
    an errno. *)
Fixpoint wait_loop (waits : list (Z + Z)) : DM unit :=
  match waits with
  | [] => stopM SFuel
  | inl _ :: waits => wait_loop waits
  | inr e :: waits =>
      if e =? EINTR then wait_loop waits
      else if e =? ECHILD then mret tt else stopM (SExit 1)
  end.

Definition ifconfigd_shutdown {A} (waits : list (Z + Z)) : DM A :=
  pid ← gets d_pid;
  (if negb (pid =? 0) then modify (λ d, set_dkilled (d_killed d ++ [pid]) d) else mret tt);;
  wait_loop waits;; stopM (SExit 0).

(** One of the three identical statements of the handler. *)
Definition reap (ans : option wstatus) (waits : list (Z + Z)) : DM unit :=
  if check_child ans then modify (set_dpid 0);; ifconfigd_shutdown waits else mret tt.

(** [a1], [a2] and [a3] are the answers to the calls of waitpid(2) the cases
    for SIGTERM, SIGINT and SIGCHLD make; each case falls through to the next. *)
Definition ifconfigd_sig_handler (sig : Z) (a1 a2 a3 : option wstatus) (waits : list (Z + Z)) : DM unit :=
  if sig =? SIGTERM then reap a1 waits;; reap a2 waits;; reap a3 waits
  else if sig =? SIGINT then reap a2 waits;; reap a3 waits
  else if sig =? SIGCHLD then reap a3 waits
  else mret tt.

(** The state in which main() enters event_dispatch(): [fd] is the end of the
    pipe it keeps and [cfd] the one it closes. *)
Definition daemon_init (fd cfd pid child : Z) (c : cenv) (k : kstate) : daemon :=
  mk_daemon (glob_init (mk_cenv (ce_alloc c) (ce_errno c) (ce_closed c ++ [cfd])) k)
    (mk_iev (imsg_init fd pid) EV_READ true) child [] false.

(** main() once event_dispatch() has returned. *)
Definition main_end {A} (waits : list (Z + Z)) : DM A := ifconfigd_shutdown waits.
End daemon.
