(* ===== verification/DaemonProps.v ===== *)
(** * DaemonProps: what the privileged process does

    Theorems on Daemon.v: which networks a scan finds, and what the signal
    handlers do; and the lemmas that no connection routine returns for a
    configured network, and that the loop over the messages of the engine
    ends. *)
From coqutil Require Import Byte.
From stdpp Require Import base list strings.
From Stdlib Require Import Ascii.
From S2P Require Import Prelude CString CNum ImsgBuffer Imsg Engine IfData IfCore IfStatus Gate IfNet IfKernel FlagProps GateProps Daemon.

(** ** Scanning *)

(** An access point with a network name. *)
Definition is_ap (s : string) (node : ieee80211_nodereq) : bool :=
  has_bits (nr_flags node) IEEE80211_NODEREQ_AP
  && bool_decide (array_string (nr_nwid node) = Some s).

Lemma array_string_cstring bs s : array_string bs = Some s → cstring_at (mem_of bs) s.
Proof.
  revert s. induction bs as [|b bs IH]; intros s; simpl; [done|].
  destruct (is_nul (ascii_of_byte b)) eqn:E.
  - intros [= <-]. split; [constructor|]. exists (mem_of bs). simpl.
    unfold is_nul in E. apply Ascii.eqb_eq in E. by rewrite E.
  - destruct (array_string bs) as [s'|]; [|done]. intros [= <-].
    destruct (IH s' eq_refl) as (Hn & rest & Hm). split; [by constructor|].
    exists rest. simpl. by rewrite <- Hm.
Qed.

Section scan.
Context `{!Kernel, !Libs}.

Lemma scan_node_one tnr s t g :
  array_string (nr_nwid tnr) = Some t → no_nul s →
  scan_node tnr [Some s] g = (Ok (if bool_decide (t = s) then [tnr] else []), g).
Proof.
  intros Ht Hs. apply array_string_cstring in Ht. simpl. run_unfold. cbn [need deref].
  rewrite (strcmp_string _ _ t s Ht) by (split; [done|by exists []]). simpl.
  pose proof (str_compare_eq t s (proj1 Ht) Hs) as Hc.
  destruct (Z.eqb_spec (str_compare t s) 0) as [Hz|Hz].
  - rewrite bool_decide_true by tauto. done.
  - rewrite bool_decide_false by tauto. done.
Qed.

Definition named (node : ieee80211_nodereq) : Prop := is_Some (array_string (nr_nwid node)).

Lemma scan_nodes_one na s post : ∀ pre g,
  na_node na = pre ++ post → Zlen (pre ++ post) ≤ NR_NODES → Forall named post → no_nul s →
  scan_nodes na [Some s] (length post) (length pre) g = (Ok (List.filter (is_ap s) post), g).
Proof.
  induction post as [|node post IH]; intros pre g Hna Hlen Hn Hs; [done|].
  apply list.Forall_cons in Hn as [[t Ht] Hn]. cbn [length scan_nodes].
  assert (nr_at na (length pre) g = (Ok node, g)) as E.
  { unfold nr_at. rewrite (proj2 (Z.ltb_lt _ _)).
    - rewrite Hna, list_lookup_middle; done.
    - rewrite Zlen_app, Zlen_cons in Hlen. pose proof (Zlen_nonneg post). unfold Zlen in Hlen. lia. }
  rewrite (bind_ok _ _ _ _ _ E).
  assert ((if has_bits (nr_flags node) IEEE80211_NODEREQ_AP then scan_node node [Some s] else mret []) g
          = (Ok (if is_ap s node then [node] else []), g)) as E2.
  { unfold is_ap. destruct (has_bits _ _); [|done]. rewrite (scan_node_one node s t) by done.
    rewrite Ht. cbn [andb]. do 2 f_equal.
    destruct (decide (t = s)); [rewrite !bool_decide_true|rewrite !bool_decide_false]; congruence. }
  rewrite (bind_ok _ _ _ _ _ E2).
  assert (scan_nodes na [Some s] (length post) (S (length pre)) g
          = (Ok (List.filter (is_ap s) post), g)) as E3.
  { replace (S (length pre)) with (length (pre ++ [node])) by (rewrite length_app; simpl; lia).
    apply IH; try done; by rewrite <- app_assoc. }
  rewrite (bind_ok _ _ _ _ _ E3). simpl. by destruct (is_ap s node).
Qed.
End scan.

Section scan_laws.
Context `{K : Kernel, HL : !IfLaws K, !Libs}.

(** The kernel knows the nodes around an interface. *)
Record radio (iface : string) (nodes : list ieee80211_nodereq) : Prop := {
  radio_scan fd r k : k_if (k_ioctl fd SIOCS80211SCAN r k).2 = k_if k;
  radio_nodes fd x k :
    na_ifname x = iface → is_Some (k_if k iface) →
    ∃ k', k_ioctl fd SIOCG80211ALLNODES x k = (0, mk_nodes iface (na_size x) (Zlen nodes) nodes, k');
}.

Lemma scan_run iface s nodes g :
  iface ≠ "" → slen iface < PTR_SIZE → find_af iface (afs false) = None → sock_ok AF_INET g → no_nul s →
  is_Some (k_if (g_k g) iface) → radio iface nodes → Zlen nodes ≤ NR_NODES → Forall named nodes →
  wp (ieee80211_scan iface [Some s]) (λ l _, l = List.filter (is_ap s) nodes) g.
Proof using HL.
  intros Hne Hlen Haf Hs Hnul Hif [Hscan Hk] Hmax Hn. unfold PTR_SIZE in Hlen.
  unfold ieee80211_scan, strlcpy_s. rewrite Haf. cbn [default].
  change (Z.to_nat (PTR_SIZE - 1)) with 7%nat. rewrite stake_all by lia.
  apply wp_bind, wp_modify. unfold IFNAMSIZ. rewrite (proj2 (Z.leb_gt 16 (slen iface))) by lia.
  apply wp_bind, wp_modify, wp_bind, wp_wr, wp_bind.
  eapply wp_mono; [apply wp_getinfo; [exact Hs|done|by eexists]|].
  intros [z r] g1 ((F & _ & _) & _). apply wp_bind, wp_gets. rewrite (fr_name _ _ F). cbn [g_name set_v set_afp set_name].
  rewrite ifname_short by (unfold IFNAMSIZ; lia). apply wp_bind. 
  assert (∀ g2, is_Some (k_if (g_k g2) iface) → wp ('(_, na) ← ioctl SIOCG80211ALLNODES
                 (mk_nodes iface (NR_NODES * SIZEOF_NODEREQ) 0 []);
    if na_nodes na =? 0 then mret [] else scan_nodes na [Some s] (Z.to_nat (na_nodes na)) 0)
    (λ l _, l = List.filter (is_ap s) nodes) g2) as Hrest.
  { intros g2 Hg2. destruct (Hk (g_v g2 G_s) (mk_nodes iface (NR_NODES * SIZEOF_NODEREQ) 0 []) (g_k g2))
      as [k' E]; [done..|].
    apply wp_bind. eapply wp_ioctl; [exact E|intros _|done]. cbn [na_nodes].
    destruct (Z.eqb_spec (Zlen nodes) 0) as [H0|H0].
    - apply wp_ret. by destruct nodes.
    - unfold Zlen. rewrite Nat2Z.id.
      eapply wp_intro; [by apply (scan_nodes_one _ s nodes [])|done]. }
  destruct (k_ioctl (g_v g1 G_s) SIOCS80211SCAN (mk_ifreq iface (U_bytes (zeros 16))) (g_k g1))
    as [[e x] k] eqn:E.
  assert (is_Some (k_if k iface)) as Hif'.
  { pose proof (Hscan (g_v g1 G_s) (mk_ifreq iface (U_bytes (zeros 16))) (g_k g1)) as Hk'.
    rewrite E in Hk'. simpl in Hk'. rewrite Hk', (fr_if _ _ F). exact Hif. }
  eapply wp_ioctl; [exact E|intros _; by apply Hrest|intros _; by apply Hrest].
Qed.
End scan_laws.

(** ** Connecting *)

Section connect.
Context `{K : Kernel, LB : Libs}.

(** [m] never returns: it ends the process or has no defined behaviour, and
    does so in finitely many steps. *)
Definition stops {A} (m : GM A) : Prop := ∀ g, ∃ w g', m g = (Stop w, g') ∧ w ≠ SFuel.

Lemma stops_bind {A B} (m : GM A) (f : A → GM B) : stops m → stops (m ≫= f).
Proof. intros Hm g. destruct (Hm g) as (w & g' & E & Hw). exists w, g'. split; [by apply bind_stop|done]. Qed.

Lemma stops_after {A B} (m : GM A) (f : A → GM B) : nofuel m → (∀ a, stops (f a)) → stops (m ≫= f).
Proof.
  intros Hm Hf g. specialize (Hm g). destruct (m g) as [[a|w] g1] eqn:E.
  - destruct (Hf a g1) as (w & g' & E' & Hw). exists w, g'. split; [|done]. by rewrite (bind_ok _ _ _ _ _ E).
  - exists w, g1. split; [by apply bind_stop|]. intros ->. done.
Qed.

Lemma stops_undef {A} : stops (@undef _ A).
Proof. intros g. by eexists _, _. Qed.

(** A null pointer in the place of the first word. *)
Lemma stops_gate_null argc argv iface : 0 < argc → stops (ifconfig_gate argc (None :: argv) iface).
Proof.
  intros Ha. unfold ifconfig_gate, strlcpy_s. apply stops_after; [apply nofuel_modify|]. intros _.
  destruct (IFNAMSIZ <=? _); [intros g; by eexists _, _|]. apply stops_bind.
  unfold select_af. rewrite (proj2 (Z.ltb_lt 0 argc)) by done. intros g. by eexists _, _.
Qed.

Lemma stops_static st iface : stops (ifconfig_gate (Zlen (static_words st)) (static_words st) iface).
Proof.
  unfold static_words. apply stops_gate_null. destruct (st_netmask st); done.
Qed.

Lemma stops_connect_wireless wlan :
  wl_isdhcp wlan = 1 ∨ is_Some (wl_staticopts wlan) → stops (connect_wireless wlan).
Proof.
  intros H. unfold connect_wireless.
  apply stops_after; [destruct (wl_lladdr wlan); [apply nofuel_gate|apply nofuel_ret]|intros _].
  apply stops_after; [destruct (wl_wpa wlan); [|apply nofuel_ret];
    apply nofuel_bind; [apply nofuel_gate|intros _; apply nofuel_gate]|intros _].
  destruct (Z.eqb_spec (wl_isdhcp wlan) 1) as [|Hd]; [apply stops_undef|].
  destruct H as [|[st ->]]; [done|]. apply stops_bind, stops_static.
Qed.

Lemma stops_connect_ethernet eth :
  eth_isdhcp eth = 1 ∨ is_Some (eth_staticopts eth) → stops (connect_ethernet eth).
Proof.
  intros H. unfold connect_ethernet.
  destruct (Z.eqb_spec (eth_isdhcp eth) 1) as [|Hd]; [apply stops_undef|].
  destruct H as [|[st ->]]; [done|]. unfold interface0. intros g.
  destruct (bool_decide _); by eexists _, _.
Qed.

(** ** Monitoring *)

Lemma nofuel_active_check p : nofuel (active_check p).
Proof.
  unfold active_check. apply nofuel_bind; [destruct p; [|apply nofuel_ret];
    apply nofuel_bind; [apply nofuel_alloc|intros ok; destruct (negb ok); [apply nofuel_err|apply nofuel_ret]]|].
  intros _. apply nofuel_bind; [apply nofuel_gets|intros k].
  destruct (k_getifaddrs k) as [l|]; [|apply nofuel_err].
  induction l as [|ifa l IH]; cbn [active_check_loop]; [apply nofuel_ret|].
  destruct (negb _); [done|]. do 3 (apply nofuel_bind; [apply nofuel_modify|intros _]).
  destruct (_ =? _); [|done]. apply nofuel_bind; [apply nofuel_getinfo_ifr|intros; apply nofuel_ret].
Qed.

Lemma stops_check_first eth : stops (check_ethernet eth None).
Proof.
  unfold check_ethernet, interface0. destruct (bool_decide _); [|apply stops_bind, stops_undef].
  apply stops_after; [apply nofuel_ret|intros p].
  apply stops_after; [apply nofuel_active_check|intros st]. apply stops_bind, stops_undef.
Qed.
(** ** Handling messages *)

Lemma nofuel_stops {A} (m : GM A) : stops m → nofuel m.
Proof. intros H g. destruct (H g) as (w & g' & -> & Hw). by intros [= ->]. Qed.

Lemma nofuel_connect_ethernet eth : nofuel (connect_ethernet eth).
Proof.
  destruct (decide (eth_isdhcp eth = 1 ∨ is_Some (eth_staticopts eth))) as [H|H].
  - by apply nofuel_stops, stops_connect_ethernet.
  - unfold connect_ethernet. destruct (Z.eqb_spec (eth_isdhcp eth) 1) as [|_]; [by destruct H; left|].
    destruct (eth_staticopts eth) as [st|]; [destruct H; right; by eexists|apply nofuel_ret].
Qed.

Lemma nofuel_use_ethernet networks name : nofuel (use_ethernet networks name).
Proof.
  induction networks as [|nw networks IH]; cbn [use_ethernet]; [apply nofuel_ret|].
  apply nofuel_bind; [|intros [z|]; [apply nofuel_ret|done]].
  induction (ethernet_list nw) as [|eth l IHl]; cbn [use_ethernet_in]; [apply nofuel_ret|].
  destruct (bool_decide _); [apply nofuel_fmap, nofuel_connect_ethernet|done].
Qed.

Lemma nofuel_monitor networks : nofuel (monitor networks).
Proof.
  unfold monitor, monitor_ethernet. destruct (concat _) as [|eth l]; [by intros g|].
  apply nofuel_stops, stops_bind, stops_bind, stops_check_first.
Qed.

Lemma nofuel_main_switch networks m : nofuel (main_switch networks m).
Proof.
  unfold main_switch. repeat case_match; try apply nofuel_undef; try apply nofuel_ret.
  - apply nofuel_bind; [apply nofuel_need|intros name].
    apply nofuel_bind; [apply nofuel_use_ethernet|intros r].
    apply nofuel_bind; [apply nofuel_need|intros _].
    apply nofuel_bind; [apply nofuel_monitor|intros _; apply nofuel_ret].
  - apply nofuel_bind; [apply nofuel_monitor|intros _; apply nofuel_ret].
Qed.

(** The bytes received are fuel enough for the loop over the messages. *)
Lemma main_loop_fuel networks fuel : ∀ d,
  (length (i_r (ie_ibuf (d_iev d))) < fuel)%nat → (main_loop networks fuel d).1 ≠ Stop SFuel.
Proof.
  induction fuel as [|fuel IH]; intros d Hf; [lia|]. cbn [main_loop]. rewrite bind_gets.
  destruct (imsg_get_cases (ie_ibuf (d_iev d)) (g_env (d_g d)))
    as [[_ E]|[(_ & _ & E)|(h & data & rest & c1 & Hok & Hr & _ & _ & [E|[E _]])]];
    unfold denv, gm, in_env, zoom, mbind, CM_bind in *; rewrite E; try done.
  pose proof (Zlen_frame h data Hok) as Hlen. pose proof Hok as [(_ & Hl & _) _].
  unfold IMSG_HEADER_SIZE in Hl. cbn [modify fst snd].
  rewrite (proj2 (Z.eqb_neq _ _)), (proj2 (Z.eqb_neq _ _)) by lia.
  match goal with |- context [main_switch networks ?m ?g] =>
    pose proof (nofuel_main_switch networks m g) as Hs; destruct (main_switch networks m g) as [[[]|w] g'] end.
  - apply IH. simpl. rewrite Hr, length_app in Hf. unfold Zlen in Hlen. lia.
  - intros [= ->]. by destruct Hs.
Qed.
End connect.

(** ** Claims *)

Section claims.
Context `{K : Kernel, LB : Libs}.

(** C36. While the engine runs no signal has an effect on the parent, SIGTERM
    and SIGINT included; when SIGCHLD reports its end, the parent waits for
    its children and exits successfully without killing anything. *)
Theorem signals_follow_engine d st pids :
  (∀ sig waits, ifconfigd_sig_handler sig None None None waits d = (Ok tt, d))
  ∧ (check_child (Some st) = true →
     ∀ a1 a2, ifconfigd_sig_handler SIGCHLD a1 a2 (Some st) (map inl pids ++ [inr ECHILD]) d
       = (Stop (SExit 0), set_dpid 0 d)).
Proof.
  split.
  - intros sig waits. unfold ifconfigd_sig_handler. by repeat case_match.
  - intros Hst a1 a2. change (ifconfigd_sig_handler SIGCHLD a1 a2 (Some st)) with (reap (Some st)).
    assert (∀ d, wait_loop (map inl pids ++ [inr ECHILD]) d = (Ok tt, d)) as E
      by (intros d'; induction pids; done).
    unfold reap, ifconfigd_shutdown. rewrite Hst. run_unfold. cbn -[wait_loop].
    rewrite E. done.
Qed.
End claims.

Section scan_claim.
Context `{K : Kernel, HL : !IfLaws K, !Libs}.

(** C24. ieee80211_scan() finds exactly the access points with the network
    name it is given, in the order the kernel reports them, for an interface
    whose name the eight bytes of a pointer can hold and nodes whose names end
    within their arrays. *)
Theorem ieee80211_scan_correct iface s nodes g :
  iface ≠ "" → slen iface < PTR_SIZE → find_af iface (afs false) = None → sock_ok AF_INET g → no_nul s →
  is_Some (k_if (g_k g) iface) → radio iface nodes → Zlen nodes ≤ NR_NODES → Forall named nodes →
  ∃ g', ieee80211_scan iface [Some s] g = (Ok (List.filter (is_ap s) nodes), g').
Proof using HL.
  intros Hne Hlen Haf Hs Hnul Hif Hr Hmax Hn.
  destruct (wp_elim _ _ _ (scan_run iface s nodes g Hne Hlen Haf Hs Hnul Hif Hr Hmax Hn))
    as (l & g' & E & ->). by exists g'.
Qed.
End scan_claim.

(** A kernel with a wireless driver. *)
Definition access_point (nwid : list Z) (chan rssi : Z) : ieee80211_nodereq :=
  mk_node None (zeros 6) (zeros 6) (Zlen nwid) (map byte.of_Z nwid ++ zeros (32 - length nwid)) chan 0
    0 (zeros 15) rssi 0 (zeros 8) 100 1 None None 0 0 0 0 0 0 0 0 0 IEEE80211_NODEREQ_AP.
Definition cafe : ieee80211_nodereq := access_point [99; 97; 102; 101] 11 100.
Definition home : ieee80211_nodereq := access_point [104; 111; 109; 101] 6 200.

Definition radio_drv {A} (c : iocmd A) : A → ifnet → Z * A * ifnet :=
  match c in iocmd A return A → ifnet → Z * A * ifnet with
  | SIOCG80211ALLNODES => λ x i, (0, mk_nodes (na_ifname x) (na_size x) 2 [cafe; home], i)
  | SIOCS80211SCAN => λ x i, (0, x, i)
  | _ => λ x i, (ENOTTY, x, i)
  end.

Definition radio_kernel : Kernel := ifnet_kernel (@radio_drv) (λ _ _ l, (EINVAL, l)) (λ _ _ x _, (0, x)).

Lemma radio_drv_same A (c : iocmd A) x i : (radio_drv c x i).2 = i.
Proof. by destruct c. Qed.

Definition radio_laws : IfLaws radio_kernel.
Proof.
  refine (ifnet_laws (@radio_drv) _ _ _ _ _ _); intros; by rewrite radio_drv_same.
Defined.

Definition one_radio : @glob radio_kernel :=
  @glob_init radio_kernel (mk_cenv [] 0 []) [some_ifnet "iwn0" 0x8802].

Lemma radio_ok : @radio radio_kernel radio_laws "iwn0" [cafe; home].
Proof.
  split.
  - intros fd r k. cbn. unfold ifioctl. cbn [req_name].
    destruct (ifunit k (ifr_name r)) as [i|] eqn:E; [|done]. cbn.
    by rewrite (if_update_same _ _ _ E).
  - intros fd x k Hx Hi. cbn in Hi |- *. unfold ifioctl. cbn [req_name]. rewrite Hx.
    unfold flags_of in Hi. destruct (ifunit k "iwn0") as [i|] eqn:E; [|by destruct Hi].
    cbn. rewrite (if_update_same _ _ _ E). by eexists.
Qed.

Lemma ieee80211_scan_correct_witness :
  ∃ g', @ieee80211_scan radio_kernel "iwn0" [Some "home"] one_radio = (Ok [home], g').
Proof.
  destruct (@ieee80211_scan_correct radio_kernel radio_laws "iwn0" "home" [cafe; home] one_radio)
    as [g' E]; [done|done|done| | |by eexists|apply radio_ok|done| |by exists g'].
  - exists 3, (@g_k radio_kernel one_radio). split; [reflexivity|lia].
  - repeat constructor.
  - repeat constructor; by eexists.
Defined.
