(* ===== verification/JoinProps.v ===== *)
(** * JoinProps: from the configuration of a network to the kernel

    connect_wireless() of the daemon (Daemon), through ifconfig_gate() and
    the wireless handlers, on the kernel with an iwn interface (IfKernel,
    Net80211): what the interface is set to afterwards. *)
From coqutil Require Import Byte Word.LittleEndianList.
From stdpp Require Import base list strings functions.
From S2P Require Import Prelude CString Scan Pbkdf2 IfData Fits IfNet Net80211 IfCore IfWireless IfMedia Gate.
From S2P Require Import TypeProps IfKernel WlanProps Requests FlagProps WirelessProps Daemon.

(** ** The interface requests of an iwn interface obey the laws of IfKernel *)

(** What the rest of the network code leaves alone. *)
Class WlanFrame (E : WlanEnv) := {
  wo_same {A} (c : iocmd A) x i : same_if i (w_other c x i).2;
  wo_flags x i :
    Z.land (if_flags (w_other SIOCSIFFLAGS x i).2) IFF_CHANGEABLE = Z.land (if_flags i) IFF_CHANGEABLE;
  wo_rts x i : (w_other SIOCBRDGRTS x i).2 = i ∧ (w_other SIOCBRDGRTS x i).1.1 ≠ ENETRESET;
}.

(** A relation between the interface before and after, for computations that
    only change its wireless part and the flags of the driver. *)
Class Inert (R : ifnet → ifnet → Prop) := {
  inert_refl i : R i i;
  inert_trans i j k : R i j → R j k → R i k;
  inert_ic ic i : R i (with_if_ic ic i);
  inert_mtu m i : R i (with_if_mtu m i);
  inert_stop i : R i (with_if_flags (Z.ldiff (if_flags i) (Z.lor IFF_RUNNING IFF_OACTIVE)) i);
  inert_init i : R i (with_if_flags (i16 (Z.lor (Z.ldiff (if_flags i) IFF_OACTIVE) IFF_RUNNING)) i);
}.

Definition same_flags (i i' : ifnet) : Prop :=
  same_if i i' ∧ Z.land (if_flags i') IFF_CHANGEABLE = Z.land (if_flags i) IFF_CHANGEABLE.

Lemma same_if_trans i j k : same_if i j → same_if j k → same_if i k.
Proof. intros [] []. split; congruence. Qed.

#[export] Instance inert_same_if : Inert same_if.
Proof. split; try done. apply same_if_trans. Qed.

Lemma land_ldiff_disjoint a b m : Z.land b m = 0 → Z.land (Z.ldiff a b) m = Z.land a m.
Proof.
  intros H. apply Z.bits_inj'. intros n Hn. apply (f_equal (λ z, Z.testbit z n)) in H.
  rewrite Z.land_spec, Z.bits_0 in H. rewrite !Z.land_spec, Z.ldiff_spec.
  by destruct (Z.testbit a n), (Z.testbit b n), (Z.testbit m n).
Qed.

Lemma land_lor_disjoint a b m : Z.land b m = 0 → Z.land (Z.lor a b) m = Z.land a m.
Proof. intros H. by rewrite Z.land_lor_distr_l, H, Z.lor_0_r. Qed.

#[export] Instance inert_same_flags : Inert same_flags.
Proof.
  split; try done.
  - intros i j k [] []. split; [by eapply same_if_trans|congruence].
  - intros i. split; [done|]. by apply land_ldiff_disjoint.
  - intros i. split; [done|]. cbn [with_if_flags if_flags].
    by rewrite land_i16, land_lor_disjoint, land_ldiff_disjoint.
Qed.

Section inert.
Context {E : WlanEnv} (R : ifnet → ifnet → Prop) {HR : Inert R}.

Definition inside {A} (m : NM A) : Prop := ∀ i, R i (m i).2.

Lemma inside_ret {A} (a : A) : inside (mret a).
Proof using HR. intros i. apply inert_refl. Qed.
Lemma inside_bind {A B} (m : NM A) (f : A → NM B) : inside m → (∀ a, inside (f a)) → inside (m ≫= f).
Proof using HR.
  intros Hm Hf i. unfold mbind, CM_bind. specialize (Hm i). destruct (m i) as [[a|w] j]; [|done].
  eapply inert_trans; [done|apply Hf].
Qed.
Lemma inside_need {A} (o : option A) : inside (nneed o).
Proof using HR. destruct o; intros i; apply inert_refl. Qed.
Lemma inside_get : inside ic_get.
Proof using HR. apply inside_bind; [intros i; apply inert_refl|intros; apply inside_need]. Qed.
Lemma inside_self : inside (get : NM ifnet).
Proof using HR. intros i. apply inert_refl. Qed.
Lemma inside_mod f : inside (ic_mod f).
Proof using HR. intros i. apply inert_ic. Qed.
Lemma inside_rd v : inside (ic_rd v).
Proof using HR. apply inside_bind; [apply inside_get|intros; apply inside_ret]. Qed.
Lemma inside_wr v x : inside (ic_wr v x).
Proof using HR. apply inside_mod. Qed.
End inert.

Create HintDb inert.
#[export] Hint Extern 1 (inside ?R _) =>
  first [ apply (inside_ret R) | apply (inside_need R) | apply (inside_get R) | apply (inside_self R)
        | apply (inside_rd R) | apply (inside_wr R) | apply (inside_mod R) ] : inert.

Ltac inside :=
  repeat (cbv beta zeta;
    lazymatch goal with
    | |- inside ?R (mbind _ _) => apply (inside_bind R); [|intros ?]
    | |- inside _ (if ?b then _ else _) => destruct b
    | |- inside _ (match ?x with _ => _ end) => destruct x
    | |- inside ?R (modify _) =>
        intros ?; first [apply (inert_stop (R := R)) | apply (inert_init (R := R)) | apply (inert_mtu (R := R))]
    | |- inside _ ?m => first [ solve [eauto with inert nocore] | let h := head_fn m in unfold h ]
    end).

Section frames.
Context {E : WlanEnv} {WF : WlanFrame E} (R : ifnet → ifnet → Prop) {HR : Inert R}.

Lemma inside_stop : inside R iwn_stop.
Proof using HR. unfold iwn_stop. inside.
Qed.
#[local] Hint Extern 1 (inside _ iwn_stop) => apply inside_stop : inert.
Lemma inside_init : inside R iwn_init.
Proof using HR. unfold iwn_init, ieee80211_begin_scan, flag_on. inside. Qed.
#[local] Hint Extern 1 (inside _ iwn_init) => apply inside_init : inert.
Lemma inside_reset e : inside R (iwn_reset e).
Proof using HR. unfold iwn_reset, iwn_running. inside. Qed.
Lemma inside_flags : inside R iwn_flags.
Proof using HR. unfold iwn_flags. inside. Qed.
End frames.

Section laws.
Context {E : WlanEnv} {WF : WlanFrame E}.
Context (clone : iocmd ifreq → string → list ifnet → Z * list ifnet).
Context (grp : ∀ A, iocmd A → A → list ifnet → Z * A).

#[local] Hint Extern 1 (inside ?R (iwn_reset _)) => apply (inside_reset R) : inert.
#[local] Hint Extern 1 (inside ?R iwn_flags) => apply (inside_flags R) : inert.

Lemma inside_setkeys ks : ∀ i, inside same_if (setnwkeys_loop i ks).
Proof. induction ks as [|[keylen keydat] ks IH]; intros i; cbn [setnwkeys_loop]; inside. Qed.
Lemma inside_getkeys ks : ∀ i, inside same_if (getnwkeys_loop i ks).
Proof. induction ks as [|[keylen keydat] ks IH]; intros i; cbn [getnwkeys_loop]; inside. Qed.

Lemma inside_other {A} (c : iocmd A) x : inside same_if (other c x).
Proof using WF. intros i. unfold other. pose proof (wo_same c x i). by destruct (w_other c x i) as [[e x'] i']. Qed.

#[local] Hint Resolve inside_setkeys inside_getkeys inside_other : inert.

Lemma inside_ieee80211_ioctl {A} (c : iocmd A) x : inside same_if (ieee80211_ioctl c x).
Proof using WF. destruct c; cbn [ieee80211_ioctl]; try (unfold setting); inside. Qed.
#[local] Hint Resolve inside_ieee80211_ioctl : inert.

Lemma inside_up : inside same_if (modify (λ i, with_if_flags (i16 (Z.lor (if_flags i) IFF_UP)) i)).
Proof. by intros i. Qed.

Lemma inside_iwn_ioctl {A} (c : iocmd A) x : inside same_if (iwn_ioctl c x).
Proof using WF.
  assert (inside same_if ('(e, x) ← ieee80211_ioctl c x; e ← iwn_reset e; mret (e, x))) as Hd.
  { apply (inside_bind same_if); [apply inside_ieee80211_ioctl|]. intros [e x']. inside. }
  destruct c; try exact Hd; clear Hd; cbn [iwn_ioctl].
  - inside.
  - apply (inside_bind same_if); [apply inside_up|intros _]. inside.
  - apply (inside_bind same_if); [apply inside_ieee80211_ioctl|]. intros [e x']. inside.
Qed.

Lemma wlan_drv_same {A} (c : iocmd A) x i : same_if i (wlan_drv c x i).2.
Proof using WF.
  unfold wlan_drv. destruct (if_ic i) as [ic|]; [|apply wo_same]. unfold iwn_drv.
  pose proof (inside_iwn_ioctl c x i) as H. by destruct (iwn_ioctl c x i) as [[[e x']|w] i'].
Qed.

Lemma wlan_drv_flags x i :
  Z.land (if_flags (wlan_drv SIOCSIFFLAGS x i).2) IFF_CHANGEABLE = Z.land (if_flags i) IFF_CHANGEABLE.
Proof using WF.
  unfold wlan_drv. destruct (if_ic i) as [ic|]; [|apply wo_flags]. unfold iwn_drv.
  assert (inside same_flags (iwn_ioctl SIOCSIFFLAGS x)) as H by (cbn [iwn_ioctl]; inside).
  specialize (H i). by destruct (iwn_ioctl SIOCSIFFLAGS x i) as [[[e x']|w] i']; [destruct H|].
Qed.

Lemma wlan_drv_rts x i : (wlan_drv SIOCBRDGRTS x i).2 = i.
Proof using WF.
  destruct (wo_rts x i) as [H1 H2]. unfold wlan_drv. destruct (if_ic i); [|done].
  unfold iwn_drv. cbn [iwn_ioctl ieee80211_ioctl]. unfold other, mbind, CM_bind.
  destruct (w_other SIOCBRDGRTS x i) as [[e x'] i']. cbn in H1, H2. subst i'. unfold iwn_reset.
  by rewrite (proj2 (Z.eqb_neq _ _) H2).
Qed.

Definition iwn_laws : IfLaws (wlan_kernel clone grp).
Proof using WF.
  refine (ifnet_laws (@wlan_drv E) clone grp _ _ _ _).
  - intros. apply wlan_drv_same.
  - intros. apply wlan_drv_same.
  - apply wlan_drv_flags.
  - apply wlan_drv_rts.
Defined.
End laws.

(** ** The configuration of a wireless interface *)

(** The flags of ic_flags that a request sets and that stay until another
    changes them. *)
Definition CONF_FLAGS : Z :=
  Z.lor IEEE80211_F_WEPON (Z.lor IEEE80211_F_DESBSSID (Z.lor IEEE80211_F_RSNON IEEE80211_F_PSK)).

Record wconf := mk_conf {
  cf_essid : list byte;
  cf_esslen : Z;
  cf_psk : list byte;
  cf_flags : Z;
  cf_protos : Z;
  cf_akms : Z;
  cf_ciphers : Z;
  cf_group : Z;
}.

Definition conf (ic : ieee80211com) : wconf :=
  mk_conf (ic_des_essid ic) (ic_v ic IC_des_esslen) (ic_psk ic) (Z.land (ic_v ic IC_flags) CONF_FLAGS)
    (ic_v ic IC_rsnprotos) (ic_v ic IC_rsnakms) (ic_v ic IC_rsnciphers) (ic_v ic IC_rsngroupcipher).

Definition same_conf (ic ic' : ieee80211com) : Prop :=
  conf ic' = conf ic ∧ ic_v ic' IC_caps = ic_v ic IC_caps ∧ ic_v ic' IC_opmode = ic_v ic IC_opmode.

(** The hardware works, the process is the superuser's, and what the driver
    and the protocol do leaves the configuration, the capabilities and the
    mode alone; a scan joins no network. *)
Class WlanConf (E : WlanEnv) := {
  wc_suser : w_suser = 0;
  wc_newstate s ic : same_conf ic (w_newstate s ic) ∧ ic_v (w_newstate s ic) IC_state = s;
  wc_scan ic : same_conf ic (w_scan ic) ∧ (unjoined ic = true → unjoined (w_scan ic) = true);
  wc_hardware ic :
    (w_hardware ic).1 = 0 ∧ same_conf ic (w_hardware ic).2
    ∧ (unjoined ic = true → unjoined (w_hardware ic).2 = true);
}.

Definition if_running (i : ifnet) : bool :=
  Z.land (if_flags i) (Z.lor IFF_UP IFF_RUNNING) =? Z.lor IFF_UP IFF_RUNNING.

(** A station that can do WPA; while it is not running it has joined no
    network. *)
Record station (i : ifnet) (ic : ieee80211com) : Prop := {
  sta_ic : if_ic i = Some ic;
  sta_mode : ic_v ic IC_opmode = IEEE80211_M_STA;
  sta_rsn : has_bits (ic_v ic IC_caps) IEEE80211_C_RSN = true;
  sta_joined : if_running i = true ∨ unjoined ic = true;
}.

Section station.
Context {E : WlanEnv} {WC : WlanConf E}.

Lemma bind_nmod {B} (h : ifnet → ifnet) (f : unit → NM B) i :
  ((modify h : NM unit) ≫= f) i = f tt (h i).
Proof. reflexivity. Qed.
Lemma nbind_ok {A B} (m : NM A) (f : A → NM B) i a i' : m i = (Ok a, i') → (m ≫= f) i = f a i'.
Proof. apply bind_ok. Qed.
Lemma ic_get_run i ic : if_ic i = Some ic → ic_get i = (Ok ic, i).
Proof. intros H. unfold ic_get, mbind, CM_bind, get, gets. by rewrite H. Qed.
Lemma ic_mod_run f i ic : if_ic i = Some ic → ic_mod f i = (Ok tt, with_if_ic (Some (f ic)) i).
Proof. intros H. unfold ic_mod, modify. by rewrite H. Qed.
Lemma ic_rd_run v i ic : if_ic i = Some ic → ic_rd v i = (Ok (ic_v ic v), i).
Proof. intros H. unfold ic_rd. by rewrite (bind_ok _ _ _ _ _ (ic_get_run _ _ H)). Qed.

(** A scalar that is no part of the configuration. *)
Lemma conf_set v x ic :
  v ∉ [IC_des_esslen; IC_flags; IC_rsnprotos; IC_rsnakms; IC_rsnciphers; IC_rsngroupcipher] →
  conf (ic_set v x ic) = conf ic.
Proof.
  intros Hv. unfold conf, ic_set. cbn [ic_v set_ic_v ic_des_essid ic_psk].
  rewrite !fn_lookup_insert_ne; [done|intros ->; apply Hv; compute_done..].
Qed.

Lemma flag_on_run m i ic :
  if_ic i = Some ic →
  flag_on m i = (Ok tt, with_if_ic (Some (ic_set IC_flags (Z.lor (ic_v ic IC_flags) m) ic)) i).
Proof.
  intros H. unfold flag_on, ic_wr. rewrite (bind_ok _ _ _ _ _ (ic_rd_run _ _ _ H)). by apply ic_mod_run.
Qed.
Lemma flag_off_run m i ic :
  if_ic i = Some ic →
  flag_off m i = (Ok tt, with_if_ic (Some (ic_set IC_flags (Z.ldiff (ic_v ic IC_flags) m) ic)) i).
Proof.
  intros H. unfold flag_off, ic_wr. rewrite (bind_ok _ _ _ _ _ (ic_rd_run _ _ _ H)). by apply ic_mod_run.
Qed.

#[local] Instance same_conf_trans : Transitive same_conf.
Proof. intros x y z (? & ? & ?) (? & ? & ?). split_and!; congruence. Qed.
#[local] Instance same_conf_refl : Reflexive same_conf.
Proof. done. Qed.

Lemma same_conf_lock x ic : same_conf ic (ic_set IC_scan_lock x ic).
Proof. split_and!; [by apply conf_set; compute_done|done..]. Qed.

Lemma same_conf_flag m ic :
  Z.land m CONF_FLAGS = 0 → same_conf ic (ic_set IC_flags (Z.lor (ic_v ic IC_flags) m) ic).
Proof.
  intros Hm. split_and!; [|done..]. unfold conf, ic_set. cbn [ic_v set_ic_v ic_des_essid ic_psk].
  rewrite fn_lookup_insert, !fn_lookup_insert_ne by done. by rewrite land_lor_disjoint.
Qed.

Lemma unjoined_set v x ic : v ≠ IC_state → unjoined (ic_set v x ic) = unjoined ic.
Proof. intros Hv. unfold unjoined. cbn. by rewrite !fn_lookup_insert_ne by congruence. Qed.

(** ** Restarting the interface *)

Lemma iwn_stop_run i ic :
  if_ic i = Some ic →
  ∃ ic', iwn_stop i = (Ok tt, with_if_ic (Some ic')
                         (with_if_flags (Z.ldiff (if_flags i) (Z.lor IFF_RUNNING IFF_OACTIVE)) i))
         ∧ same_conf ic ic' ∧ unjoined ic' = true.
Proof using WC.
  intros Hi. unfold iwn_stop. rewrite bind_nmod.
  unfold ic_wr. erewrite (bind_ok (ic_mod _)); [|by apply ic_mod_run].
  erewrite ic_mod_run; [|reflexivity]. destruct (wc_newstate IEEE80211_S_INIT (ic_set IC_scan_lock IEEE80211_SCAN_UNLOCKED ic))
    as [Hc Hs]. eexists. split; [reflexivity|]. split; [|unfold unjoined; by rewrite Hs].
  etrans; [apply (same_conf_lock IEEE80211_SCAN_UNLOCKED)|done].
Qed.

Lemma begin_scan_run i ic :
  if_ic i = Some ic → unjoined ic = true →
  ∃ ic', ieee80211_begin_scan i = (Ok tt, with_if_ic (Some ic') i) ∧ same_conf ic ic' ∧ unjoined ic' = true.
Proof using WC.
  intros Hi Hu. unfold ieee80211_begin_scan. rewrite !(bind_ok _ _ _ _ _ (ic_rd_run _ _ _ Hi)).
  case_match.
  { exists ic. split; [|done]. destruct i; cbn in *. by subst. }
  unfold ic_wr. erewrite (bind_ok (ic_mod _)); [|by apply ic_mod_run].
  set (ic1 := ic_set IC_scan_lock _ ic).
  assert (same_conf ic ic1 ∧ unjoined ic1 = true) as [C1 U1].
  { split; [apply same_conf_lock|]. unfold ic1. by rewrite unjoined_set. }
  assert (∃ ic2, (if negb (ic_v ic IC_opmode =? IEEE80211_M_HOSTAP) then flag_on IEEE80211_F_ASCAN else mret tt)
      (with_if_ic (Some ic1) i) = (Ok tt, with_if_ic (Some ic2) i) ∧ same_conf ic1 ic2 ∧ unjoined ic2 = true)
    as (ic2 & E2 & C2 & U2).
  { case_match; [|by exists ic1]. erewrite flag_on_run; [|reflexivity]. eexists. split; [reflexivity|].
    split; [by apply same_conf_flag|]. by rewrite unjoined_set. }
  rewrite (bind_ok _ _ _ _ _ E2). erewrite (bind_ok (ic_mod _)); [|by apply ic_mod_run].
  erewrite ic_mod_run; [|reflexivity]. eexists. split; [reflexivity|].
  destruct (wc_scan (set_ic_tree [] ic2)) as [Hc Hs]. split; [|by apply Hs].
  etrans; [exact C1|]. etrans; [exact C2|]. done.
Qed.

Lemma iwn_init_run i ic :
  if_ic i = Some ic → ic_v ic IC_opmode = IEEE80211_M_STA → unjoined ic = true →
  ∃ i' ic', iwn_init i = (Ok 0, i') ∧ if_ic i' = Some ic' ∧ same_conf ic ic' ∧ unjoined ic' = true.
Proof using WC.
  intros Hi Hm Hu. unfold iwn_init. rewrite (bind_ok _ _ _ _ _ (ic_get_run _ _ Hi)).
  destruct (wc_hardware ic) as (He & Hc & Hs). destruct (w_hardware ic) as [e ic1]. cbn in He, Hc, Hs. subst e.
  erewrite (bind_ok (ic_mod _)); [|by apply ic_mod_run]. cbn [Z.eqb negb]. rewrite bind_nmod.
  set (j := with_if_flags _ _). assert (if_ic j = Some ic1) as Hj by done.
  rewrite (bind_ok _ _ _ _ _ (ic_rd_run _ _ _ Hj)). destruct Hc as (Hc & Ha & Ho). rewrite Ho, Hm.
  cbn [Z.eqb IEEE80211_M_STA IEEE80211_M_MONITOR negb].
  destruct (begin_scan_run j ic1 Hj (Hs Hu)) as (ic2 & E2 & C2 & U2).
  rewrite (bind_ok _ _ _ _ _ E2). eexists _, ic2. split; [reflexivity|].
  split_and!; [done| |done]. by etrans; [|exact C2].
Qed.

(** A setting takes effect through a restart: whether the interface runs or
    not, it has then joined no network and has kept its configuration. *)
Lemma reset_run i ic :
  station i ic →
  ∃ i' ic', iwn_reset ENETRESET i = (Ok 0, i') ∧ station i' ic' ∧ same_conf ic ic' ∧ unjoined ic' = true.
Proof using WC.
  intros [Hi Hm Hr Hj]. unfold iwn_reset. cbn [Z.eqb Pos.eqb ENETRESET].
  erewrite (bind_ok iwn_running); [|reflexivity]. change (_ =? _) with (if_running i).
  destruct (if_running i) eqn:Er.
  - destruct (iwn_stop_run i ic Hi) as (ic1 & E1 & (C1 & A1 & O1) & U1). rewrite (bind_ok _ _ _ _ _ E1).
    destruct (iwn_init_run (with_if_ic (Some ic1)
      (with_if_flags (Z.ldiff (if_flags i) (Z.lor IFF_RUNNING IFF_OACTIVE)) i)) ic1) as (i2 & ic2 & E2 & H2 & (C2 & A2 & O2) & U2);
      [done|congruence|done|].
    exists i2, ic2. split; [done|]. split_and!; [|split_and!; congruence|done].
    constructor; [done|congruence| |by right]. by rewrite A2, A1.
  - destruct Hj as [|Hu]; [done|]. exists i, ic. split_and!; [done| |done|done]. constructor; try done. by right.
Qed.
End station.

(** ** The requests on the configuration *)

Definition with_cf_flags (f : Z) (c : wconf) : wconf :=
  mk_conf (cf_essid c) (cf_esslen c) (cf_psk c) f (cf_protos c) (cf_akms c) (cf_ciphers c) (cf_group c).
Definition any_bssid (c : wconf) : wconf := with_cf_flags (Z.ldiff (cf_flags c) IEEE80211_F_DESBSSID) c.
Definition with_nwid (bs : list byte) (c : wconf) : wconf :=
  mk_conf (padded IEEE80211_NWID_LEN bs) (Zlen bs) (cf_psk c) (cf_flags c) (cf_protos c) (cf_akms c)
    (cf_ciphers c) (cf_group c).
Definition with_psk (key : list byte) (c : wconf) : wconf :=
  mk_conf (cf_essid c) (cf_esslen c) key (Z.lor (cf_flags c) IEEE80211_F_PSK) (cf_protos c) (cf_akms c)
    (cf_ciphers c) (cf_group c).

Definition wpa_of (n : string) (c : wconf) : ieee80211_wpaparams :=
  mk_wpa n (cbool (has_bits (cf_flags c) IEEE80211_F_RSNON)) (get_protos (cf_protos c))
    (get_akms (cf_akms c)) (get_ciphers (cf_ciphers c)) (get_groupcipher (cf_group c)).
Definition with_wpaparms (w : ieee80211_wpaparams) (c : wconf) : wconf :=
  let protos := set_rsnprotos (i_protos w) in
  mk_conf (cf_essid c) (cf_esslen c) (cf_psk c) (Z.lor (cf_flags c) IEEE80211_F_RSNON) protos
    (set_rsnakms (i_akms w)) (set_rsnciphers (i_ciphers w)) (set_rsngroupcipher (i_groupcipher w) protos).

(** The parameters a word of the command line changes, sent with the others as
    they were read. *)
Definition wpa_word (n : string) (f : ieee80211_wpaparams → ieee80211_wpaparams) (cf : wconf) : wconf :=
  with_wpaparms (f (wpa_of n cf)) cf.

Definition wl_on (u : bool) (cf : wconf) (i : ifnet) : Prop :=
  ∃ ic, station i ic ∧ conf ic = cf ∧ (u = true → unjoined ic = true).

Section requests.
Context {E : WlanEnv} {WC : WlanConf E}.

Lemma wl_off u cf i : wl_on u cf i → wl_on false cf i.
Proof. intros (ic & ? & ? & _). by exists ic. Qed.

(** A request that answers ENETRESET after it has changed the wireless part. *)
Lemma setting_run {A} (x : A) m cf u i ic ic1 :
  station i ic → (u = true → unjoined ic = true) →
  m i = (Ok ENETRESET, with_if_ic (Some ic1) i) →
  conf ic1 = cf → ic_v ic1 IC_caps = ic_v ic IC_caps → ic_v ic1 IC_opmode = ic_v ic IC_opmode →
  unjoined ic1 = unjoined ic →
  ∃ i', ('(e, x) ← setting x m; e ← iwn_reset e; mret (e, x)) i = (Ok (0, x), i') ∧ wl_on true cf i'.
Proof using WC.
  intros [Hi Hm Hr Hj] Hu Em Hc Hcaps Hop Hun. unfold setting. rewrite wc_suser. cbn [Z.eqb negb].
  destruct (reset_run (with_if_ic (Some ic1) i) ic1) as (i' & ic' & Er & S' & (C' & _ & _) & U').
  { constructor; [done|congruence|congruence|]. destruct Hj; [by left|right; congruence]. }
  exists i'. split; [|exists ic'; split_and!; [done|congruence|done]].
  rewrite (bind_ok _ _ _ (ENETRESET, x) (with_if_ic (Some ic1) i)) by by rewrite (bind_ok _ _ _ _ _ Em).
  cbv beta iota. by rewrite (bind_ok _ _ _ _ _ Er).
Qed.

Lemma land_ldiff_in a b m : Z.land (Z.ldiff a b) m = Z.ldiff (Z.land a m) b.
Proof.
  apply Z.bits_inj'. intros k _. rewrite !Z.land_spec, !Z.ldiff_spec, Z.land_spec.
  by destruct (Z.testbit a k), (Z.testbit b k), (Z.testbit m k).
Qed.

Lemma land_lor_in a b m : Z.land b m = b → Z.land (Z.lor a b) m = Z.lor (Z.land a m) b.
Proof. intros H. by rewrite Z.land_lor_distr_l, H. Qed.

Lemma has_bits_conf ic m :
  Z.land m CONF_FLAGS = m → has_bits (cf_flags (conf ic)) m = has_bits (ic_v ic IC_flags) m.
Proof.
  intros H. unfold has_bits, conf. cbn [cf_flags]. rewrite <- Z.land_assoc, (Z.land_comm CONF_FLAGS), H. done.
Qed.

Lemma conf_flags f ic : conf (ic_set IC_flags f ic) = with_cf_flags (Z.land f CONF_FLAGS) (conf ic).
Proof.
  unfold conf, with_cf_flags, ic_set. cbn [ic_v set_ic_v ic_des_essid ic_psk].
  by rewrite fn_lookup_insert, !fn_lookup_insert_ne.
Qed.

Lemma bssid_run n cf u i :
  wl_on u cf i →
  ∃ i', iwn_ioctl SIOCS80211BSSID (mk_bssid n (zeros 6)) i = (Ok (0, mk_bssid n (zeros 6)), i')
        ∧ wl_on u (any_bssid cf) i'.
Proof using WC.
  intros (ic & S & <- & U). pose proof (sta_ic _ _ S) as Hi.
  set (ic1 := ic_set IC_flags (Z.ldiff (ic_v ic IC_flags) IEEE80211_F_DESBSSID) ic).
  assert (conf ic1 = any_bssid (conf ic)) as C1.
  { unfold ic1. by rewrite conf_flags, land_ldiff_in. }
  assert (has_bits (ic_v ic1 IC_flags) IEEE80211_F_DESBSSID = false) as B1.
  { unfold has_bits, ic1, ic_set. cbn [ic_v set_ic_v]. by rewrite fn_lookup_insert, Z.land_ldiff. }
  assert (set_bssid (zeros 6) i
          = (Ok (if unjoined ic1 then ENETRESET else 0), with_if_ic (Some ic1) i)) as Es.
  { unfold set_bssid. rewrite bool_decide_true by done.
    rewrite (bind_ok _ _ _ _ _ (flag_off_run _ _ _ Hi)). fold ic1.
    rewrite (bind_ok _ _ _ ic1 (with_if_ic (Some ic1) i)) by done.
    assert (ic_v ic1 IC_opmode = IEEE80211_M_STA) as -> by apply S. rewrite B1. by destruct (unjoined ic1). }
  cbn [iwn_ioctl ieee80211_ioctl i_bssid]. destruct (unjoined ic1) eqn:Eu.
  - destruct (setting_run (mk_bssid n (zeros 6)) (set_bssid (zeros 6)) _ u i ic ic1 S U Es C1)
      as (i' & Er & W); [done..|]. exists i'. split; [exact Er|]. by destruct u; [|eapply wl_off].
  - exists (with_if_ic (Some ic1) i). split.
    + unfold setting. rewrite wc_suser. cbn [Z.eqb negb].
      rewrite (bind_ok _ _ _ (0, mk_bssid n (zeros 6)) (with_if_ic (Some ic1) i)); [done|].
      by rewrite (bind_ok _ _ _ _ _ Es).
    + exists ic1. split_and!; [|done|exact U].
      destruct S as [_ Hm Hr Hj]. by constructor.
Qed.

Lemma memcpy_padded n bs :
  Zlen bs ≤ n → memcpy (zeros (Z.to_nat n)) (padded n bs) (Zlen bs) = Some (padded n bs).
Proof.
  intros Hl. pose proof (Zlen_nonneg bs). unfold memcpy. rewrite padded_len by done.
  assert (Zlen (zeros (Z.to_nat n)) = n) as -> by (unfold Zlen, zeros; rewrite length_replicate; lia).
  rewrite !(proj2 (Z.leb_le _ _)) by lia. cbn [andb]. do 2 f_equal.
  unfold padded at 1. rewrite Ztake_app_exact by done. unfold padded, Zdrop, zeros. rewrite drop_replicate.
  do 2 f_equal. lia.
Qed.

Lemma memcpy_all n (dst src : list byte) : Zlen dst = n → Zlen src = n → memcpy dst src n = Some src.
Proof.
  intros Hd Hs. pose proof (Zlen_nonneg src). unfold memcpy. rewrite Hd, Hs.
  rewrite !(proj2 (Z.leb_le _ _)) by lia. cbn [andb]. rewrite Zdrop_all, app_nil_r by lia.
  unfold Ztake. rewrite take_ge; [done|]. unfold Zlen in Hs. lia.
Qed.

(** The fields of the configuration after assignments. *)
Ltac conf_fields :=
  unfold conf, ic_set;
  cbn [cf_essid cf_esslen cf_psk cf_flags cf_protos cf_akms cf_ciphers cf_group
       ic_v set_ic_v ic_des_essid ic_psk set_ic_psk set_ic_des_essid];
  repeat first [rewrite fn_lookup_insert | rewrite fn_lookup_insert_ne by done].

Lemma nwid_run r bs cf u i :
  Zlen bs ≤ 32 → wl_on u cf i →
  let x := (r, mk_nwid (Zlen bs) (padded IEEE80211_NWID_LEN bs)) in
  ∃ i', iwn_ioctl SIOCS80211NWID x i = (Ok (0, x), i') ∧ wl_on true (with_nwid bs cf) i'.
Proof using WC.
  intros Hl (ic & S & <- & U) x. pose proof (sta_ic _ _ S) as Hi. cbn [iwn_ioctl ieee80211_ioctl].
  eapply (setting_run x (set_nwid x.2) _ u i ic
    (set_ic_des_essid (padded IEEE80211_NWID_LEN bs) (ic_set IC_des_esslen (Zlen bs) ic))); try done.
  unfold set_nwid, x, IEEE80211_NWID_LEN. cbn [snd i_len i_nwid].
  rewrite (proj2 (Z.ltb_ge 32 _)) by done. unfold ic_wr.
  rewrite (bind_ok _ _ _ _ _ (ic_mod_run _ _ _ Hi)).
  erewrite (bind_ok (ic_mod _)); [|by apply ic_mod_run].
  erewrite (bind_ok ic_get); [|by apply ic_get_run]. cbn [ic_des_essid ic_set set_ic_v set_ic_des_essid].
  rewrite (memcpy_padded 32 bs Hl : memcpy (zeros 32) _ _ = _).
  erewrite (nbind_ok (nneed _)); [|reflexivity].
  by erewrite nbind_ok; [|by apply ic_mod_run].
Qed.

Lemma psk_run n key cf u i :
  length key = 32%nat → wl_on u cf i →
  ∃ i', iwn_ioctl SIOCS80211WPAPSK (mk_psk n 1 key) i = (Ok (0, mk_psk n 1 key), i')
        ∧ wl_on true (with_psk key cf) i'.
Proof using WC.
  intros Hk (ic & S & <- & U). pose proof (sta_ic _ _ S) as Hi. cbn [iwn_ioctl ieee80211_ioctl].
  eapply (setting_run _ (set_wpapsk (mk_psk n 1 key)) _ u i ic
    (set_ic_psk key (ic_set IC_flags (Z.lor (ic_v ic IC_flags) IEEE80211_F_PSK) ic))); try done.
  - unfold set_wpapsk. cbn [psk_enabled i_psk Z.eqb negb].
    erewrite nbind_ok; [reflexivity|]. rewrite (nbind_ok _ _ _ _ _ (flag_on_run _ _ _ Hi)).
    rewrite memcpy_all by (done || unfold Zlen; by rewrite Hk).
    erewrite nbind_ok; [|reflexivity]. by erewrite ic_mod_run.
  - unfold with_psk. conf_fields. by rewrite land_lor_in.
Qed.

Lemma wpa_run w cf u i :
  wpa_enabled w ≠ 0 → wl_on u cf i →
  ∃ i', iwn_ioctl SIOCS80211WPAPARMS w i = (Ok (0, w), i') ∧ wl_on true (with_wpaparms w cf) i'.
Proof using WC.
  intros Hw (ic & S & <- & U). pose proof (sta_ic _ _ S) as Hi. cbn [iwn_ioctl ieee80211_ioctl].
  set (protos := set_rsnprotos (i_protos w)).
  set (ic1 := ic_set IC_rsnciphers (set_rsnciphers (i_ciphers w))
                (ic_set IC_rsngroupcipher (set_rsngroupcipher (i_groupcipher w) protos)
                   (ic_set IC_rsnakms (set_rsnakms (i_akms w)) (ic_set IC_rsnprotos protos ic)))).
  eapply (setting_run w (ieee80211_ioctl_setwpaparms w) _ u i ic
    (ic_set IC_flags (Z.lor (ic_v ic1 IC_flags) IEEE80211_F_RSNON) ic1)); try done.
  - unfold ieee80211_ioctl_setwpaparms. rewrite !(bind_ok _ _ _ _ _ (ic_rd_run _ _ _ Hi)).
    rewrite (sta_rsn _ _ S), (proj2 (Z.eqb_neq _ _) Hw). cbn [negb]. unfold ic_wr.
    do 4 (erewrite (bind_ok (ic_mod _)); [|by apply ic_mod_run]).
    by erewrite nbind_ok; [|by apply flag_on_run].
  - unfold with_wpaparms, ic1. conf_fields. by rewrite land_lor_in.
Qed.

(** What is read back: the parameters as they are, and the network name while
    no network is joined. *)
Lemma getwpa_run w cf u i :
  wl_on u cf i →
  ∃ i', iwn_ioctl SIOCG80211WPAPARMS w i = (Ok (0, wpa_of (wpa_name w) cf), i') ∧ wl_on u cf i'.
Proof.
  intros (ic & S & <- & U). exists i. split; [|by exists ic]. cbn [iwn_ioctl ieee80211_ioctl].
  unfold ieee80211_ioctl_getwpaparms. rewrite (nbind_ok _ _ i (0, wpa_of (wpa_name w) (conf ic)) i); [done|].
  erewrite nbind_ok; [reflexivity|]. rewrite (nbind_ok _ _ _ _ _ (ic_get_run _ _ (sta_ic _ _ S))).
  unfold wpa_of. by rewrite has_bits_conf.
Qed.

Lemma getnwid_run r d bs cf i :
  Zlen bs ≤ 32 → cf_essid cf = padded IEEE80211_NWID_LEN bs → cf_esslen cf = Zlen bs →
  wl_on true cf i →
  ∃ i', iwn_ioctl SIOCG80211NWID (r, d) i
        = (Ok (0, (r, mk_nwid (Zlen bs) (padded IEEE80211_NWID_LEN bs))), i') ∧ wl_on true cf i'.
Proof.
  unfold IEEE80211_NWID_LEN. intros Hl He Hn (ic & S & <- & U). exists i. split; [|by exists ic]. cbn [iwn_ioctl ieee80211_ioctl fst].
  assert (get_nwid i = (Ok (mk_nwid (Zlen bs) (padded 32 bs)), i)) as Eg.
  { unfold get_nwid. rewrite (nbind_ok _ _ _ _ _ (ic_get_run _ _ (sta_ic _ _ S))), (U eq_refl).
    cbn [conf cf_essid cf_esslen] in He, Hn. rewrite He, Hn. pose proof (Zlen_nonneg bs).
    assert (u8 (Zlen bs) = Zlen bs) as -> by (apply Z.mod_small; lia).
    by rewrite (memcpy_padded 32 bs Hl : memcpy (zeros 32) _ _ = _). }
  rewrite (nbind_ok _ _ i (0, (r, mk_nwid (Zlen bs) (padded 32 bs))) i); [done|].
  by rewrite (nbind_ok _ _ _ _ _ Eg).
Qed.
End requests.

(** ** The same on the kernel and in the program *)

(** The interface of a name is a station with this configuration. *)
Definition wl_at (u : bool) (cf : wconf) (l : list ifnet) (n : string) : Prop :=
  ∃ i, ifunit l n = Some i ∧ wl_on u cf i.

Lemma running_i16 f : Z.land (i16 f) (Z.lor IFF_UP IFF_RUNNING) = Z.land f (Z.lor IFF_UP IFF_RUNNING).
Proof. by apply land_i16. Qed.

Lemma wl_at_same u cf l l' n :
  flags_of l' = flags_of l → wlan_of l' = wlan_of l → wl_at u cf l n → wl_at u cf l' n.
Proof.
  intros Hf Hw (i & Ei & ic & [Hi Hm Hr Hj] & Hc & Hu).
  apply (f_equal (λ h, h n)) in Hf, Hw. unfold flags_of, wlan_of in *. rewrite Ei in Hf, Hw.
  destruct (ifunit l' n) as [i'|] eqn:Ei'; [|done]. cbn in Hf, Hw. exists i'. split; [done|].
  exists ic. split_and!; [constructor; try done; [congruence|]|done|done].
  destruct Hj as [Hj|]; [left|by right]. injection Hf as Hf. unfold if_running in *.
  by rewrite <- running_i16, Hf, running_i16.
Qed.

(** ** Parameters that are read and sent back *)

Lemma set_get_protos p : set_rsnprotos (get_protos (set_rsnprotos p)) = set_rsnprotos p.
Proof. unfold set_rsnprotos at 2 3, translate. by repeat case_match. Qed.
Lemma set_get_akms a : set_rsnakms (get_akms (set_rsnakms a)) = set_rsnakms a.
Proof. unfold set_rsnakms at 2 3, translate. by repeat case_match. Qed.
Lemma set_get_ciphers c : set_rsnciphers (get_ciphers (set_rsnciphers c)) = set_rsnciphers c.
Proof. unfold set_rsnciphers at 2 3, translate. by repeat case_match. Qed.
Lemma set_get_group c p p' :
  set_rsngroupcipher (get_groupcipher (set_rsngroupcipher c p)) p' = set_rsngroupcipher c p.
Proof. unfold set_rsngroupcipher at 2 3. by repeat case_match. Qed.

(** WPA is on and the parameters are values the kernel stores. *)
Record settled (cf : wconf) : Prop := {
  se_on : Z.lor (cf_flags cf) IEEE80211_F_RSNON = cf_flags cf;
  se_protos : set_rsnprotos (get_protos (cf_protos cf)) = cf_protos cf;
  se_akms : set_rsnakms (get_akms (cf_akms cf)) = cf_akms cf;
  se_ciphers : set_rsnciphers (get_ciphers (cf_ciphers cf)) = cf_ciphers cf;
  se_group p : set_rsngroupcipher (get_groupcipher (cf_group cf)) p = cf_group cf;
}.

Lemma settled_wpa w cf : settled (with_wpaparms w cf).
Proof.
  split; cbn [with_wpaparms cf_flags cf_protos cf_akms cf_ciphers cf_group].
  - by rewrite <- Z.lor_assoc, Z.lor_diag.
  - apply set_get_protos.
  - apply set_get_akms.
  - apply set_get_ciphers.
  - intros p. apply set_get_group.
Qed.

Lemma settled_enabled n cf : settled cf → wpa_enabled (wpa_of n cf) ≠ 0.
Proof.
  intros S. cbn [wpa_enabled wpa_of]. rewrite <- (se_on _ S). unfold has_bits.
  assert (Z.land (Z.lor (cf_flags cf) IEEE80211_F_RSNON) IEEE80211_F_RSNON = IEEE80211_F_RSNON) as ->; [|done].
  apply Z.bits_inj'. intros k _. rewrite Z.land_spec, Z.lor_spec. by destruct (Z.testbit (cf_flags cf) k), (Z.testbit IEEE80211_F_RSNON k).
Qed.

Definition with_akms (a : Z) (c : wconf) : wconf :=
  mk_conf (cf_essid c) (cf_esslen c) (cf_psk c) (cf_flags c) (cf_protos c) a (cf_ciphers c) (cf_group c).
Definition with_ciphers (v : Z) (c : wconf) : wconf :=
  mk_conf (cf_essid c) (cf_esslen c) (cf_psk c) (cf_flags c) (cf_protos c) (cf_akms c) v (cf_group c).
Definition with_group (v : Z) (c : wconf) : wconf :=
  mk_conf (cf_essid c) (cf_esslen c) (cf_psk c) (cf_flags c) (cf_protos c) (cf_akms c) (cf_ciphers c) v.

Lemma wpa_word_akms n a cf : settled cf → wpa_word n (set_akms a) cf = with_akms (set_rsnakms a) cf.
Proof.
  intros [? ? ? ? Hg]. unfold wpa_word, with_wpaparms, with_akms, wpa_of, set_akms.
  cbn [i_protos i_akms i_ciphers i_groupcipher]. rewrite Hg. by f_equal.
Qed.
Lemma wpa_word_ciphers n v cf : settled cf → wpa_word n (set_ciphers v) cf = with_ciphers (set_rsnciphers v) cf.
Proof.
  intros [? ? ? ? Hg]. unfold wpa_word, with_wpaparms, with_ciphers, wpa_of, set_ciphers.
  cbn [i_protos i_akms i_ciphers i_groupcipher]. rewrite Hg. by f_equal.
Qed.
Lemma wpa_word_group n v cf :
  settled cf → wpa_word n (set_groupcipher v) cf = with_group (set_rsngroupcipher v (cf_protos cf)) cf.
Proof.
  intros [? Hp ? ? Hg]. unfold wpa_word, with_wpaparms, with_group, wpa_of, set_groupcipher.
  cbn [i_protos i_akms i_ciphers i_groupcipher]. rewrite Hp. by f_equal.
Qed.
Lemma wpa_word_on n cf : settled cf → wpa_word n (set_enabled 1) cf = cf.
Proof.
  intros [? ? ? ? Hg]. unfold wpa_word, with_wpaparms, wpa_of, set_enabled.
  cbn [i_protos i_akms i_ciphers i_groupcipher]. rewrite Hg. destruct cf; cbn in *. by f_equal.
Qed.

Lemma settled_akms a cf : settled cf → settled (with_akms (set_rsnakms a) cf).
Proof. intros []. split; try done. apply set_get_akms. Qed.
Lemma settled_ciphers v cf : settled cf → settled (with_ciphers (set_rsnciphers v) cf).
Proof. intros []. split; try done. apply set_get_ciphers. Qed.
Lemma settled_group v p cf : settled cf → settled (with_group (set_rsngroupcipher v p) cf).
Proof. intros []. split; try done. intros p'. apply set_get_group. Qed.
Lemma settled_psk key cf : settled cf → settled (with_psk key cf).
Proof.
  intros []. split; try done. cbn [with_psk cf_flags]. rewrite <- Z.lor_assoc, (Z.lor_comm IEEE80211_F_PSK), Z.lor_assoc.
  congruence.
Qed.

(** What an optional word asks for, when it is one the program knows. *)
Definition asked (lookup : string → option Z) (a : cptr) : option Z := a ≫= lookup.
Definition known (lookup : string → option Z) (a : cptr) : Prop :=
  match a with None => True | Some a => is_Some (lookup a) end.

(** The configuration for a network: its name, the key of its passphrase, any
    access point, WPA on with a pre-shared key, and the parameters that are
    asked for, or else those the interface had, or else the defaults. *)
Definition wpa_conf (bs : list byte) (key : string) (akms ciphers group : option Z) (cf : wconf) : wconf :=
  let protos := set_rsnprotos (get_protos (cf_protos cf)) in
  mk_conf (padded IEEE80211_NWID_LEN bs) (Zlen bs) (PBKDF2 (str_bytes key) bs 4096 32)
    (Z.lor (Z.lor (Z.ldiff (cf_flags cf) IEEE80211_F_DESBSSID) IEEE80211_F_RSNON) IEEE80211_F_PSK)
    protos
    (set_rsnakms (default (get_akms (cf_akms cf)) akms))
    (set_rsnciphers (default (get_ciphers (cf_ciphers cf)) ciphers))
    (set_rsngroupcipher (default (get_groupcipher (cf_group cf)) group) protos).

Section program.
Context {E : WlanEnv} {WF : WlanFrame E} {WC : WlanConf E} {LB : Libs}.
Context (clone : iocmd ifreq → string → list ifnet → Z * list ifnet).
Context (grp : ∀ A, iocmd A → A → list ifnet → Z * A).
#[local] Instance the_kernel : Kernel := wlan_kernel clone grp.
#[local] Instance the_laws : IfLaws the_kernel := iwn_laws clone grp.

(** The interface, and what the others are. *)
Context (n : string) (others : string → option ieee80211com).
Hypothesis n_short : slen n ≤ 7.
Hypothesis n_some : n ≠ "".

Record joining (u : bool) (cf : wconf) (g : glob) : Prop := {
  jo_wl : wl_at u cf (g_k g) n;
  jo_others : ∀ m, m ≠ n → wlan_of (g_k g) m = others m;
  jo_name : g_name g = n;
  jo_quiet : quiet g;
  jo_sock : 0 ≤ g_v g G_s;
}.

(** A request that goes to the driver. *)
Definition for_driver {A} (c : iocmd A) : Prop :=
  ∀ x l, ifioctl (@wlan_drv E) clone grp c x l =
    match ifunit l (req_name c x) with
    | None => (ENXIO, x, l)
    | Some ifp => let '(e, x', ifp') := wlan_drv c x ifp in (e, x', if_update l (req_name c x) ifp')
    end.

Lemma wp_request {A} (c : iocmd A) x x' u cf u' cf' g (Q : Z * A → glob → Prop) :
  for_driver c → req_name c x = n →
  (∀ i, wl_on u cf i → ∃ i', iwn_ioctl c x i = (Ok (0, x'), i') ∧ wl_on u' cf' i') →
  joining u cf g →
  (∀ l', joining u' cf' (set_k l' g) → Q (0, x') (set_k l' g)) →
  wp (ioctl c x) Q g.
Proof using WF WC.
  intros Hd Hn Hr [(i & Ei & Hi) Ho Hm Hq Hs] HQ.
  destruct (Hr i Hi) as (i' & Er & Hi').
  assert (wlan_drv c x i = (0, x', i')) as Edrv.
  { destruct Hi as (ic & [Hic _ _ _] & _). unfold wlan_drv, iwn_drv. by rewrite Hic, Er. }
  assert (if_xname i' = n) as Hx.
  { pose proof (wlan_drv_same c x i) as [Hx _]. rewrite Edrv in Hx. cbn in Hx. rewrite Hx.
    by eapply ifunit_name. }
  eapply wp_ioctl; [|intros _; apply (HQ (if_update (g_k g) n i'))|done].
  - change (ifioctl (@wlan_drv E) clone grp c x (g_k g) = (0, x', if_update (g_k g) n i')).
    rewrite Hd, Hn, Ei, Edrv. done.
  - split; try done; cbn [g_k set_k].
    + exists i'. split; [|done]. rewrite (ifunit_update _ _ _ _ _ Ei Hx). by rewrite decide_True.
    + intros m Hmn. unfold wlan_of. rewrite (ifunit_update _ _ _ _ _ Ei Hx), decide_False by done. by apply Ho.
Qed.

Lemma ifname_n : ifname n = n.
Proof using n_short. apply ifname_short. unfold IFNAMSIZ. lia. Qed.

Lemma joining_frame u cf g g' :
  joining u cf g → g_k g' = g_k g → g_name g' = g_name g → g_v g' = g_v g → joining u cf g'.
Proof. intros [] Hk Hn Hv. split; unfold quiet in *; rewrite ?Hk, ?Hn, ?Hv; done. Qed.

(** ** The handlers *)

Definition joins (m : GM unit) (u : bool) (cf : wconf) (u' : bool) (cf' : wconf) : Prop :=
  ∀ g, alloc_never_fails (g_env g) → joining u cf g →
    wp m (λ _ g', joining u' cf' g' ∧ alloc_never_fails (g_env g')) g.

Lemma joins_bssid u cf : joins (setifbssid (Some "-bssid") (-1)) u cf u (any_bssid cf).
Proof using WF WC n_short.
  intros g Ha J. unfold setifbssid. cbn [Z.eqb negb]. apply wp_bind, wp_ret, wp_bind, wp_gets, wp_bind.
  rewrite (jo_name _ _ _ J), ifname_n.
  eapply (wp_request SIOCS80211BSSID _ _ u cf); [done|done| |done|].
  - intros i Hi. by eapply bssid_run.
  - intros l' J'. cbn. by apply wp_ret.
Qed.

Lemma wp_data {D} (c : iocmd (ifreq * D)) d d' u cf u' cf' g (Q : Z * D → glob → Prop) :
  for_driver c → (∀ r d, req_name c (r, d) = ifr_name r) →
  (∀ r i, wl_on u cf i → ∃ i', iwn_ioctl c (r, d) i = (Ok (0, (r, d')), i') ∧ wl_on u' cf' i') →
  joining u cf g → ifr_name (g_ifr g) = n →
  (∀ g', joining u' cf' g' → g_env g' = g_env g → Q (0, d') g') →
  wp (ioctl_data c d) Q g.
Proof using WF WC.
  intros Hd Hn Hr J Hi HQ. unfold ioctl_data. apply wp_bind, wp_gets, wp_bind.
  eapply (wp_request c _ (set_ifr_data (g_ifr g), d') u cf); [done|by rewrite Hn| |done|].
  { intros i Hw. by apply Hr. }
  intros l' J'. cbn beta iota. apply wp_bind, wp_modify, wp_ret, HQ; [|done].
  by apply (joining_frame _ _ (set_k l' g)).
Qed.

Lemma joins_nwid val v bs u cf :
  get_string_s (cmem val) None IEEE80211_NWID_LEN = GS_ok v bs → Zlen bs ≤ 32 →
  joins (setifnwid (Some val) 0) u cf true (with_nwid bs cf).
Proof using WF WC n_short.
  intros Hg Hl g Ha J. unfold setifnwid, get_string. cbn [Z.eqb negb deref].
  apply wp_bind, wp_bind. eapply wp_need; [done|]. rewrite Hg. apply wp_bind, wp_ret, wp_ret. cbn [fmap option_fmap option_map snd].
  apply wp_bind, wp_modify, wp_bind.
  eapply (wp_data SIOCS80211NWID _ _ u cf); [done|done| | | |].
  - intros r i Hi. by eapply nwid_run.
  - by apply (joining_frame _ _ g).
  - change (ifname (g_name g) = n). by rewrite (jo_name _ _ _ J), ifname_n.
  - intros g' J' Ee. cbn. apply wp_ret. split; [done|]. by rewrite Ee.
Qed.

Lemma wp_with_wpa f u cf g :
  wpa_name (f (wpa_of n cf)) = n → wpa_enabled (f (wpa_of n cf)) ≠ 0 → joining u cf g →
  wp (with_wpa f) (λ _ g', joining true (wpa_word n f cf) g' ∧ g_env g' = g_env g) g.
Proof using WF WC n_short.
  intros Hn He J. unfold with_wpa. apply wp_bind, wp_gets, wp_bind. rewrite (jo_name _ _ _ J), ifname_n.
  eapply (wp_request SIOCG80211WPAPARMS _ (wpa_of n cf) u cf); [done|done| |done|].
  { intros i Hi. by apply (getwpa_run (mk_wpa n 0 0 0 0 0)). }
  intros l' J'. cbn beta iota delta [Z.ltb Z.compare]. apply wp_bind.
  eapply (wp_request SIOCS80211WPAPARMS _ _ u cf); [done|done| |done|].
  { intros i Hi. by eapply wpa_run. }
  intros l'' J''. by apply wp_ret.
Qed.

Lemma joins_with_wpa f u cf :
  wpa_name (f (wpa_of n cf)) = n → wpa_enabled (f (wpa_of n cf)) ≠ 0 →
  joins (with_wpa f) u cf true (wpa_word n f cf).
Proof using WF WC n_short.
  intros Hn He g Ha J. eapply wp_mono; [by apply (wp_with_wpa f u cf)|]. intros _ g' [J' ->]. done.
Qed.

Lemma joins_opt_list lookup val b f u cf cf' u' :
  opt_bits lookup val = Some b → joins (f b) u cf u' cf' →
  joins (rval ← opt_list lookup (Some val); f rval) u cf u' cf'.
Proof.
  intros Hb Hf g Ha J. unfold opt_list. apply wp_bind, wp_bind. eapply wp_need; [done|]. apply wp_bind.
  destruct (alloc_ok_spec (g_env g)) as (o & c & Ec & _ & [-> Hc]); [done|].
  eapply (wp_intro _ _ _ true (set_env c g)); [unfold in_env, zoom; by rewrite Ec|]. cbn [negb]. rewrite Hb.
  apply wp_ret, Hf; [done|]. by apply (joining_frame _ _ g).
Qed.

Lemma psk_length P salt c : length (PBKDF2 P salt c 32) = 32%nat.
Proof. unfold PBKDF2. by rewrite length_take, length_T. Qed.

Lemma joins_key val bs cf :
  8 ≤ slen val ≤ 63 → 0 < Zlen bs ≤ 32 →
  cf_essid cf = padded IEEE80211_NWID_LEN bs → cf_esslen cf = Zlen bs →
  joins (setifwpakey (Some val) 0) true cf true
    (wpa_word n (set_enabled 1) (with_psk (PBKDF2 (str_bytes val) bs 4096 32) cf)).
Proof using WF WC n_short.
  intros Hv Hl He Hn g Ha J. unfold setifwpakey, setifwpakey_stk. cbn [Z.eqb negb].
  apply wp_bind, wp_bind, wp_modify, wp_bind, wp_modify, wp_bind.
  eapply (wp_data SIOCG80211NWID _ _ true cf); [done|done| | | |].
  { intros r i Hi. apply (getnwid_run r _ bs); [lia|done..]. }
  { by apply (joining_frame _ _ g). }
  { change (ifname (g_name g) = n). by rewrite (jo_name _ _ _ J), ifname_n. }
  intros g1 J1 E1. cbn [Z.eqb negb]. apply wp_bind. eapply wp_need; [done|]. apply wp_bind.
  assert (alloc_never_fails (g_env g1)) as Ha1 by by rewrite E1.
  destruct (wpakey_pass (zeros 64) val (mk_nwid (Zlen bs) (padded IEEE80211_NWID_LEN bs)) g1) as (c & Ec & Hc);
    [done|done|done|cbn [i_len i_nwid]; rewrite padded_len by (unfold IEEE80211_NWID_LEN; lia);
      unfold IEEE80211_NWID_LEN; lia|cbn [i_len]; lia|].
  assert (Ztake (Zlen bs) (padded IEEE80211_NWID_LEN bs) = bs) as Et by by apply Ztake_app_exact.
  cbn [i_len i_nwid] in Ec. rewrite Et in Ec. eapply wp_intro; [exact Ec|].
  set (key := PBKDF2 (str_bytes val) bs 4096 32). cbv beta. apply wp_ret. cbn [fst snd].
  apply wp_bind, wp_gets, wp_bind. assert (joining true cf (set_env c g1)) as J2 by by apply (joining_frame _ _ g1).
  rewrite (jo_name _ _ _ J2), ifname_n.
  eapply (wp_request SIOCS80211WPAPSK _ _ true cf); [done|done| |done|].
  { intros i Hi. eapply psk_run; [apply psk_length|done]. }
  intros l' J'. cbn beta iota delta [Z.ltb Z.compare].
  eapply wp_mono; [by apply (wp_with_wpa (set_enabled 1) true)|]. by intros _ g' [? ->].
Qed.

(** ** The words of a command line *)

Definition loops (argv : list cptr) (u : bool) (cf : wconf) (u' : bool) (cf' : wconf) : Prop :=
  ∀ fuel, (length argv ≤ fuel)%nat → joins (gate_loop fuel (Zlen argv) argv) u cf u' cf'.

Lemma joins_act p u cf : c_action p = 0 → joins (act p) u cf u cf.
Proof.
  intros Hp g Ha [? ? ? Hq Hs]. destruct (quiet_act p g Hp Hq) as (g' & Ea & Q & Ek).
  eapply wp_intro; [exact Ea|]. unfold act, rd, wr in Ea. revert Ea. run_unfold. intros [= <-]. done.
Qed.

Lemma loops_nil u cf : loops [] u cf u cf.
Proof. intros [|fuel] _ g Ha J; by apply wp_ret. Qed.

Lemma loops_round k argv (h : GM unit) u cf u1 cf1 u' cf' :
  (0 < k)%nat → (k ≤ length argv)%nat →
  (∀ g, gate_round argv g = ((h ≫= λ _, mret k) : GM nat) g) → joins h u cf u1 cf1 →
  loops (drop k argv) u1 cf1 u' cf' →
  loops argv u cf u' cf'.
Proof.
  intros Hk Hl Hr Hh Hrest fuel Hf g Ha J.
  destruct fuel as [|fuel]; [lia|]. cbn [gate_loop].
  assert ((Zlen argv <=? 0) = false) as -> by (apply Z.leb_gt; unfold Zlen; lia).
  apply wp_bind. unfold wp at 1. rewrite Hr. change (wp (h ≫= λ _, mret k)
    (λ n0, wp (gate_loop fuel (Zlen argv - Z.of_nat n0) (drop n0 argv))
             (λ _ g', joining u' cf' g' ∧ alloc_never_fails (g_env g'))) g).
  apply wp_bind. eapply wp_mono; [by apply Hh|]. intros _ g1 [J1 Ha1]. apply wp_ret.
  assert (Zlen argv - Z.of_nat k = Zlen (drop k argv)) as ->
    by (unfold Zlen; rewrite length_drop; lia).
  apply Hrest; [rewrite length_drop; lia|done|done].
Qed.

Lemma joins_bind (m m' : GM unit) u cf u1 cf1 u' cf' :
  joins m u cf u1 cf1 → joins m' u1 cf1 u' cf' → joins (m;; m') u cf u' cf'.
Proof.
  intros H H' g Ha J. apply wp_bind. eapply wp_mono; [by apply H|]. intros _ g' [J' Ha']. by apply H'.
Qed.

Lemma loops_word w v f argv u cf u1 cf1 u' cf' :
  head (find_cmd w cmds) = Some (cmd1 w v 0 f) → v ≠ NEXTARG → v ≠ NEXTARG2 →
  joins (f (Some w) v) u cf u1 cf1 → loops argv u1 cf1 u' cf' → loops (Some w :: argv) u cf u' cf'.
Proof.
  intros Hrow H1 H2 Hf Hr. eapply (loops_round 1 _ (call1 (cmd1 w v 0 f) (Some w) v;; act (cmd1 w v 0 f)));
    [lia|cbn; lia| |by eapply joins_bind, joins_act|exact Hr].
  intros g. rewrite (gate_round_word _ _ _ _ Hrow H1 H2). symmetry. apply bind_assoc.
Qed.

Lemma loops_arg w a f argv u cf u1 cf1 u' cf' :
  head (find_cmd w cmds) = Some (cmd1 w NEXTARG 0 f) →
  joins (f (Some a) 0) u cf u1 cf1 → loops argv u1 cf1 u' cf' → loops (Some w :: Some a :: argv) u cf u' cf'.
Proof.
  intros Hrow Hf Hr.
  eapply (loops_round 2 _ (call1 (cmd1 w NEXTARG 0 f) (Some a) 0;; act (cmd1 w NEXTARG 0 f)));
    [lia|cbn; lia| |by eapply joins_bind, joins_act|exact Hr].
  intros g. rewrite (gate_round_arg _ _ _ _ _ Hrow eq_refl). symmetry. apply bind_assoc.
Qed.

(** An option that is there or not. *)
Lemma loops_opt w a f argv cf cf1 u' cf' :
  head (find_cmd w cmds) = Some (cmd1 w NEXTARG 0 f) →
  match a with None => cf1 = cf | Some a => joins (f (Some a) 0) true cf true cf1 end →
  loops argv true cf1 u' cf' → loops (opt_words w a ++ argv) true cf u' cf'.
Proof. intros Hrow Ha Hr. destruct a as [a|]; [by eapply loops_arg|by subst]. Qed.

(** ** A call of ifconfig_gate() *)

Lemma joining_sock u cf g : joining u cf g → sock_ok AF_INET g.
Proof. intros J. unfold sock_ok. case_match; [apply J|]. by eexists 3, _. Qed.

Lemma wp_gate w argv u cf u' cf' g :
  find_af w (afs false) = None → loops (Some w :: argv) u cf u' cf' → alloc_never_fails (g_env g) →
  wl_at u cf (g_k g) n → (∀ m, m ≠ n → wlan_of (g_k g) m = others m) → quiet g → sock_ok AF_INET g →
  wp (ifconfig_gate (Zlen (Some w :: argv)) (Some w :: argv) n)
    (λ _ g', joining u' cf' g' ∧ alloc_never_fails (g_env g')) g.
Proof using WF n_short n_some.
  intros Haf Hl Ha Hw Ho Hq Hs.
  assert (0 < Zlen (Some w :: argv)) as Hpos by (rewrite Zlen_cons; pose proof (Zlen_nonneg argv); lia).
  destruct (gate_prologue _ w argv n g Hpos Haf n_some ltac:(unfold IFNAMSIZ; lia) Hs) as (g1 & P & Eg).
  unfold wp at 1. rewrite Eg. set (m := _ ≫= _).
  change (wp m (λ _ g', joining u' cf' g' ∧ alloc_never_fails (g_env g')) g1). subst m.
  apply wp_bind. eapply wp_mono.
  { apply Hl; [unfold Zlen; by rewrite Nat2Z.id|unfold alloc_never_fails; by rewrite (pp_alloc _ _ _ P)|].
    split; [|intros m Hm; by rewrite (pp_wlan _ _ _ P : wlan_of _ = wlan_of _), Ho| |by eapply quiet_prologue|apply P].
    - by apply (wl_at_same u cf (g_k g)); [exact (pp_if _ _ _ P)|exact (pp_wlan _ _ _ P)|].
    - rewrite (pp_name _ _ _ P). apply stake_all. lia. }
  intros ? g2 [J2 Ha2]. eapply wp_intro; [apply gate_tail_quiet, J2|done].
Qed.


(** The words of an optional parameter. *)
Definition opt_conf (upd : Z → wconf → wconf) (o : option Z) (cf : wconf) : wconf :=
  match o with None => cf | Some v => upd v cf end.

Lemma settled_opt upd o cf :
  (∀ v, settled cf → settled (upd v cf)) → settled cf → settled (opt_conf upd o cf).
Proof. intros Hu S. destruct o; [by apply Hu|done]. Qed.

Lemma joins_wpa cf u : joins (setifwpa (Some "wpa") 1) u cf true (wpa_word n (set_enabled 1) cf).
Proof using WF WC n_short. by apply joins_with_wpa. Qed.

Lemma opt_param lookup (h : cptr → Z → GM unit) f upd a cf :
  settled cf → known lookup a →
  (∀ v w, wpa_name (f v w) = wpa_name w ∧ wpa_enabled (f v w) = wpa_enabled w) →
  (∀ v, wpa_word n (f v) cf = upd v cf) →
  (∀ s v cf', lookup s = Some v → joins (with_wpa (f v)) true cf true cf' → joins (h (Some s) 0) true cf true cf') →
  match a with
  | None => opt_conf upd (asked lookup a) cf = cf
  | Some a' => joins (h (Some a') 0) true cf true (opt_conf upd (asked lookup a) cf)
  end.
Proof using WF WC n_short.
  intros S Hk Hf Hu Hh. destruct a as [a|]; [|done]. destruct Hk as [v Hv]. cbn [asked mbind option_bind].
  rewrite Hv. apply (Hh _ v); [done|]. cbn [opt_conf]. rewrite <- Hu. destruct (Hf v (wpa_of n cf)) as [H1 H2].
  apply joins_with_wpa; [done|]. rewrite H2. by apply settled_enabled.
Qed.

Lemma opt_akms a cf :
  settled cf → known (opt_bits wpaakm) a →
  match a with
  | None => opt_conf (λ v, with_akms (set_rsnakms v)) (asked (opt_bits wpaakm) a) cf = cf
  | Some a' => joins (setifwpaakms (Some a') 0) true cf true
                 (opt_conf (λ v, with_akms (set_rsnakms v)) (asked (opt_bits wpaakm) a) cf)
  end.
Proof using WF WC n_short.
  intros S Hk. apply (opt_param _ _ set_akms); [done..| |].
  - intros v. by apply wpa_word_akms.
  - intros s v cf' Hv Hj. by apply (joins_opt_list wpaakm s v (λ v, with_wpa (set_akms v))).
Qed.

Lemma opt_ciphers a cf :
  settled cf → known (opt_bits wpacipher) a →
  match a with
  | None => opt_conf (λ v, with_ciphers (set_rsnciphers v)) (asked (opt_bits wpacipher) a) cf = cf
  | Some a' => joins (setifwpaciphers (Some a') 0) true cf true
                 (opt_conf (λ v, with_ciphers (set_rsnciphers v)) (asked (opt_bits wpacipher) a) cf)
  end.
Proof using WF WC n_short.
  intros S Hk. apply (opt_param _ _ set_ciphers); [done..| |].
  - intros v. by apply wpa_word_ciphers.
  - intros s v cf' Hv Hj. by apply (joins_opt_list wpacipher s v (λ v, with_wpa (set_ciphers v))).
Qed.

Lemma joins_group s v u cf u' cf' :
  wpacipher s = Some v → joins (with_wpa (set_groupcipher v)) u cf u' cf' →
  joins (setifwpagroupcipher (Some s) 0) u cf u' cf'.
Proof.
  intros Hv Hj g Ha J. unfold setifwpagroupcipher. apply wp_bind. eapply wp_need; [done|].
  unfold wpacipher in Hv. cbv zeta in Hv. case_match; [done|]. injection Hv as ->. by apply Hj.
Qed.

Lemma opt_group a cf :
  settled cf → known wpacipher a →
  match a with
  | None => opt_conf (λ v, with_group (set_rsngroupcipher v (cf_protos cf))) (asked wpacipher a) cf = cf
  | Some a' => joins (setifwpagroupcipher (Some a') 0) true cf true
                 (opt_conf (λ v, with_group (set_rsngroupcipher v (cf_protos cf))) (asked wpacipher a) cf)
  end.
Proof using WF WC n_short.
  intros S Hk. apply (opt_param _ _ set_groupcipher); [done..| |].
  - intros v. by apply wpa_word_group.
  - intros s v cf' Hv Hj. by eapply joins_group.
Qed.

Lemma loops_wpa_words wlan wpa nwid v bs key u cf :
  wl_nwid wlan = Some nwid → get_string_s (cmem nwid) None IEEE80211_NWID_LEN = GS_ok v bs → bs ≠ [] →
  wc_wpakey wpa = Some key → 8 ≤ slen key ≤ 63 →
  known (opt_bits wpaakm) (wc_wpaakms wpa) → known (opt_bits wpacipher) (wc_wpaciphers wpa) →
  known wpacipher (wc_wpagroupcipher wpa) →
  loops (wpa_words wlan wpa) u (any_bssid cf) true
    (wpa_conf bs key (asked (opt_bits wpaakm) (wc_wpaakms wpa)) (asked (opt_bits wpacipher) (wc_wpaciphers wpa))
       (asked wpacipher (wc_wpagroupcipher wpa)) cf).
Proof using WF WC n_short.
  intros Hn Hg Hne Hkey Hl Ha Hc Hgr. unfold wpa_words. rewrite Hn, Hkey.
  assert (0 < Zlen bs ≤ 32) as Hbs.
  { split; [|by apply (get_string_len _ _ 32 _ _ ltac:(done) Hg)]. destruct bs; [done|]. unfold Zlen. cbn. lia. }
  set (cf1 := wpa_word n (set_enabled 1) (with_nwid bs (any_bssid cf))).
  assert (settled cf1) as S1 by apply settled_wpa.
  set (cf2 := opt_conf (λ v, with_akms (set_rsnakms v)) (asked (opt_bits wpaakm) (wc_wpaakms wpa)) cf1).
  assert (settled cf2) as S2 by (unfold cf2; apply settled_opt; [intros; by apply settled_akms|done]).
  set (cf3 := opt_conf (λ v, with_ciphers (set_rsnciphers v)) (asked (opt_bits wpacipher) (wc_wpaciphers wpa)) cf2).
  assert (settled cf3) as S3 by (unfold cf3; apply settled_opt; [intros; by apply settled_ciphers|done]).
  set (cf4 := opt_conf (λ v, with_group (set_rsngroupcipher v (cf_protos cf3))) (asked wpacipher (wc_wpagroupcipher wpa)) cf3).
  assert (settled cf4) as S4 by (unfold cf4; apply settled_opt; [intros; by apply settled_group|done]).
  cbn [app]. eapply loops_arg; [reflexivity|eapply joins_nwid; [exact Hg|lia]|].
  eapply loops_word; [reflexivity|done|done|apply joins_wpa|].
  eapply (loops_opt _ _ _ _ cf1 cf2); [reflexivity|exact (opt_akms _ _ S1 Ha)|].
  eapply (loops_opt _ _ _ _ cf2 cf3); [reflexivity|exact (opt_ciphers _ _ S2 Hc)|].
  eapply (loops_opt _ _ _ _ cf3 cf4); [reflexivity|exact (opt_group _ _ S3 Hgr)|].
  eapply loops_arg; [reflexivity|eapply (joins_key key bs)|]; [done|done| | |].
  - unfold cf4, cf3, cf2. by repeat destruct (asked _ _).
  - unfold cf4, cf3, cf2. by repeat destruct (asked _ _).
  - fold cf1 cf2 cf3 cf4. rewrite wpa_word_on by by apply settled_psk.
    enough (with_psk (PBKDF2 (str_bytes key) bs 4096 32) cf4 = wpa_conf bs key
      (asked (opt_bits wpaakm) (wc_wpaakms wpa)) (asked (opt_bits wpacipher) (wc_wpaciphers wpa))
      (asked wpacipher (wc_wpagroupcipher wpa)) cf) as -> by apply loops_nil.
    unfold cf4, cf3, cf2. by repeat destruct (asked _ _).
Qed.
End program.

(** ** The theorem *)

(** The network without what concerns the link: connect_wireless() then only
    sees to its address. *)
Definition address_only (wlan : wireless) : wireless :=
  mk_wlan (wl_name wlan) (wl_interface wlan) (wl_priority wlan) (wl_nwid wlan) (wl_bssid wlan) (wl_minsignal wlan)
    (wl_channel wlan) (wl_isdhcp wlan) (wl_staticopts wlan) None (wl_wep_nwkex wlan) None (wl_run_up wlan)
    (wl_run_down wlan).

(** C5. A network of the configuration file becomes the configuration of the
    interface in the kernel.  connect_wireless() for a network with a name, a
    passphrase of 8 to 63 characters and any of the options of WPA, on an iwn
    interface in station mode that may be up and joined to another network:
    both calls of ifconfig_gate() for the link succeed, and when it goes on to
    the address the interface has the name, the key PBKDF2 derives from the
    passphrase with the name as its salt, no access point it insists on, WPA
    on, and the parameters that were asked for, or else its own; it has left
    the network it was in, and the wireless part of no other interface has
    changed. *)
Theorem connect_wireless_configures `{E : WlanEnv, !WlanFrame E, !WlanConf E, !Libs} clone grp
    (g : @glob (wlan_kernel clone grp)) wlan wpa nwid v bs key cf :
  wl_lladdr wlan = None → wl_wpa wlan = Some wpa →
  wl_interface wlan ≠ "" → slen (wl_interface wlan) ≤ 7 →
  wl_nwid wlan = Some nwid → get_string_s (cmem nwid) None IEEE80211_NWID_LEN = GS_ok v bs → bs ≠ [] →
  wc_wpakey wpa = Some key → 8 ≤ slen key ≤ 63 →
  known (opt_bits wpaakm) (wc_wpaakms wpa) → known (opt_bits wpacipher) (wc_wpaciphers wpa) →
  known wpacipher (wc_wpagroupcipher wpa) →
  wl_at false cf (g_k g) (wl_interface wlan) → quiet g → sock_ok AF_INET g → alloc_never_fails (g_env g) →
  ∃ g',
    connect_wireless wlan g = connect_wireless (address_only wlan) g'
    ∧ wl_at true (wpa_conf bs key (asked (opt_bits wpaakm) (wc_wpaakms wpa))
                    (asked (opt_bits wpacipher) (wc_wpaciphers wpa)) (asked wpacipher (wc_wpagroupcipher wpa)) cf)
        (g_k g') (wl_interface wlan)
    ∧ ∀ m, m ≠ wl_interface wlan → wlan_of (g_k g') m = wlan_of (g_k g) m.
Proof.
  intros Hll Hwpa Hne Hlen Hn Hg Hbs Hkey Hkl Ha Hc Hgr Hw Hq Hs Hal.
  set (n := wl_interface wlan) in *. set (w0 := wlan_of (g_k g)).
  destruct (wp_elim _ _ _ (wp_gate clone grp n w0 Hlen Hne "-bssid" [] false cf false (any_bssid cf) g
    ltac:(done) ltac:(eapply loops_word; [reflexivity|done|done|by apply joins_bssid|apply loops_nil])
    Hal Hw ltac:(done) Hq Hs)) as ([] & g1 & E1 & J1 & Ha1).
  pose proof (loops_wpa_words clone grp n w0 Hlen wlan wpa nwid v bs key false cf Hn Hg Hbs Hkey Hkl Ha Hc Hgr) as Hl.
  destruct (wp_elim _ _ _ (wp_gate clone grp n w0 Hlen Hne "nwid" _ false _ true _ g1 ltac:(done) Hl
    Ha1 (jo_wl _ _ _ _ _ _ _ J1) (jo_others _ _ _ _ _ _ _ J1) (jo_quiet _ _ _ _ _ _ _ J1)
    (joining_sock _ _ _ _ _ _ _ J1))) as ([] & g2 & E2 & J2 & _).
  exists g2. split; [|split; apply J2].
  unfold connect_wireless. rewrite Hll, Hwpa. fold n.
  rewrite (bind_ok _ _ _ tt g) by done. rewrite (bind_ok _ _ _ tt g2); [done|].
  by rewrite (bind_ok _ _ _ _ _ E1).
Qed.

(** ** An instance *)

Definition still_frame : WlanFrame still_env.
Proof. by split. Defined.

Definition still_conf : WlanConf still_env.
Proof.
  split; cbn.
  - done.
  - intros s ic. split; [split_and!; [apply conf_set; compute_done|done..]|done].
  - intros ic. split; [split_and!; [apply conf_set; compute_done|done..]|done].
  - done.
Defined.

Definition home_wpa : wpa_cfg := mk_wpacfg (Some "secret-key") None (Some "tkip,ccmp") (Some "psk").
Definition home : wireless :=
  mk_wlan "home" "iwn0" 1 (Some "home") None 0 0 0 None (Some home_wpa) None None None None.
Definition iwn_start : @glob iwn_kernel := @glob_init iwn_kernel (mk_cenv [] 0 []) [iwn0].

(** The key stays as it is written: nothing below evaluates it. *)
Lemma home_stored (ic : ieee80211com) bs key a c gr cf :
  conf ic = wpa_conf bs key a c gr cf →
  ic_v ic IC_des_esslen = Zlen bs ∧ ic_psk ic = PBKDF2 (str_bytes key) bs 4096 32.
Proof. intros H. split; [exact (f_equal cf_esslen H)|exact (f_equal cf_psk H)]. Qed.

Lemma home_station : wl_at false (conf still_ic) [iwn0] "iwn0".
Proof. exists iwn0. split; [done|]. exists still_ic. split; [|done]. by split; [..|left]. Qed.

Lemma connect_wireless_configures_witness :
  ∃ g', @connect_wireless iwn_kernel no_names home iwn_start = (Ok 0, g')
    ∧ ∃ i ic, ifunit (g_k g') "iwn0" = Some i ∧ if_ic i = Some ic ∧ unjoined ic = true
        ∧ ic_v ic IC_des_esslen = 4 ∧ ic_psk ic = PBKDF2 (str_bytes "secret-key") (str_bytes "home") 4096 32.
Proof.
  destruct (@connect_wireless_configures still_env still_frame still_conf no_names
    (λ _ _ l, (EINVAL, l)) (λ _ _ x _, (EINVAL, x)) iwn_start home home_wpa "home" [NUL] (str_bytes "home")
    "secret-key" (conf still_ic) eq_refl eq_refl ltac:(done) ltac:(done) eq_refl
    ltac:(vm_compute; reflexivity) ltac:(done) eq_refl ltac:(done) ltac:(by eexists) ltac:(by eexists) I
    home_station ltac:(done) ltac:(by exists 3, [iwn0]) ltac:(by vm_compute))
    as (g' & E & (i & Ei & ic & S & C & U) & _).
  exists g'. split; [exact E|]. exists i, ic.
  exact (conj Ei (conj (sta_ic _ _ S) (conj (U eq_refl) (home_stored _ _ _ _ _ _ _ C)))).
Defined.
