(* ===== verification/StatusProps.v ===== *)
(** * StatusProps: what ifconfig(8) prints

    Theorems on Printf.v and IfStatus.v: addresses, bit names and WPA
    parameters as they are printed, and read back by the handlers and by the
    kernel. *)
From coqutil Require Import Byte Word.LittleEndianList.
From stdpp Require Import base list strings functions.
From Stdlib Require Import Ascii.
From S2P Require Import Prelude CString CNum NetAddr Printf Scan IfData IfNet Net80211 IfCore IfWireless IfStatus.
From S2P Require Import Gate TypeProps IfKernel WlanProps Requests FlagProps AddrProps JoinProps.

(** ** Addresses *)

Lemma addr_octets a :
  0 ≤ a < 2 ^ 32 →
  (a / 2 ^ 24) `mod` 256 * 2 ^ 24 + (a / 2 ^ 16) `mod` 256 * 2 ^ 16 + (a / 2 ^ 8) `mod` 256 * 2 ^ 8 + a `mod` 256 = a.
Proof.
  intros Ha. rewrite (Z.mod_small (a / 2 ^ 24)) by (split; [apply Z.div_pos; lia|apply Z.div_lt_upper_bound; lia]).
  replace (a / 2 ^ 24) with (a / 256 / 256 / 256) by by rewrite !Z.div_div.
  replace (a / 2 ^ 16) with (a / 256 / 256) by by rewrite !Z.div_div.
  change (2 ^ 8) with 256. pose proof (Z.div_mod a 256). pose proof (Z.div_mod (a / 256) 256).
  pose proof (Z.div_mod (a / 256 / 256) 256). lia.
Qed.

(** ** Time slots *)

(** An int has been shifted too far before the sixty-four rounds are over. *)
Lemma slot_loop_undefined todo : ∀ i start sep m,
  0 ≤ i ≤ 31 → 31 < i + Z.of_nat todo → slot_loop todo i start sep m = None.
Proof.
  induction todo as [|todo IH]; intros i start sep m Hi Ht; [lia|]. cbn [slot_loop]. unfold shift1.
  destruct (Z.leb_spec 0 i), (Z.leb_spec i 30); try done. cbn [andb mbind option_bind].
  by repeat case_match; rewrite IH by lia.
Qed.

(** ** WPA parameters *)

(** The words for the parameters the kernel stores for a request. *)
Lemma protos_read p :
  let v := get_protos (set_rsnprotos p) in opt_bits wpaproto (print_wpaprotos v) = Some v.
Proof. unfold set_rsnprotos, translate. by repeat case_match. Qed.
Lemma ciphers_read c :
  let v := get_ciphers (set_rsnciphers c) in opt_bits wpacipher (print_cipherset v) = Some v.
Proof. unfold set_rsnciphers, translate. by repeat case_match. Qed.
Lemma group_read c p :
  let v := get_groupcipher (set_rsngroupcipher c p) in wpacipher (print_cipherset v) = Some v.
Proof. unfold set_rsngroupcipher. by repeat case_match. Qed.

Definition SHA256_AKMS : Z := Z.lor IEEE80211_WPA_AKM_SHA256_8021X IEEE80211_WPA_AKM_SHA256_PSK.

Lemma akms_read a :
  let v := get_akms (set_rsnakms a) in
  has_bits v SHA256_AKMS = false → opt_bits wpaakm (print_wpaakms v) = Some v.
Proof. unfold set_rsnakms, translate. by repeat case_match. Qed.

(** The line for these parameters as words. *)
Lemma stored_words n e p a c gc p' :
  let wpa := mk_wpa n e (get_protos (set_rsnprotos p)) (get_akms (set_rsnakms a)) (get_ciphers (set_rsnciphers c))
               (get_groupcipher (set_rsngroupcipher gc p')) in
  has_bits (i_akms wpa) SHA256_AKMS = false →
  String.words (wpa_status wpa)
  = ["wpaprotos"; print_wpaprotos (i_protos wpa); "wpaakms"; print_wpaakms (i_akms wpa);
     "wpaciphers"; print_cipherset (i_ciphers wpa); "wpagroupcipher"; print_cipherset (i_groupcipher wpa)].
Proof.
  cbv zeta. cbn [i_protos i_akms i_ciphers i_groupcipher].
  unfold set_rsnakms, translate. repeat case_match; intros Hs; try discriminate Hs; clear Hs;
    unfold set_rsnprotos, translate; repeat case_match;
    unfold set_rsnciphers, translate; repeat case_match;
    unfold set_rsngroupcipher; repeat case_match; reflexivity.
Qed.

Lemma wpa_status_words n w cf :
  let wpa := wpa_of n (with_wpaparms w cf) in
  has_bits (i_akms wpa) SHA256_AKMS = false →
  String.words (wpa_status wpa)
  = ["wpaprotos"; print_wpaprotos (i_protos wpa); "wpaakms"; print_wpaakms (i_akms wpa);
     "wpaciphers"; print_cipherset (i_ciphers wpa); "wpagroupcipher"; print_cipherset (i_groupcipher wpa)].
Proof. apply stored_words. Qed.

Lemma with_wpaparms_twice w w' cf : with_wpaparms w (with_wpaparms w' cf) = with_wpaparms w cf.
Proof. unfold with_wpaparms. cbn [cf_essid cf_esslen cf_psk cf_flags]. by rewrite <- Z.lor_assoc, Z.lor_diag. Qed.

(** The parameters sent one by one, as they are printed, are those that were
    stored. *)
Lemma wpa_words_conf n w cf cf0 :
  let wpa := wpa_of n (with_wpaparms w cf) in
  wpa_word n (set_groupcipher (i_groupcipher wpa))
    (wpa_word n (set_ciphers (i_ciphers wpa))
       (wpa_word n (set_akms (i_akms wpa))
          (wpa_word n (set_protos (i_protos wpa)) (wpa_word n (set_enabled 1) cf0))))
  = with_wpaparms w cf0.
Proof.
  cbv zeta. unfold wpa_word. rewrite !with_wpaparms_twice. unfold with_wpaparms.
  cbn [wpa_of set_groupcipher set_ciphers set_akms set_protos i_protos i_akms i_ciphers i_groupcipher
       cf_essid cf_esslen cf_psk cf_flags cf_protos cf_akms cf_ciphers cf_group].
  by rewrite !set_get_protos, !set_get_akms, !set_get_ciphers, !set_get_group.
Qed.

(** ** Prefix lengths of IPv6 *)

(** The mask of a length, and the length that is printed for it. *)
Lemma prefix6_mask n :
  0 ≤ n ≤ 128 →
  le_combine (rev (prefix_mask 16 n)) = (if n =? 0 then 2 ^ 128 - 1 else 2 ^ 128 - 2 ^ (128 - n))
  ∧ prefix6 (prefix_mask 16 n) = (if n =? 0 then 128 else n).
Proof.
  intros Hn.
  assert ((le_combine (rev (prefix_mask 16 n)) =? if n =? 0 then 2 ^ 128 - 1 else 2 ^ 128 - 2 ^ (128 - n))
          && (prefix6 (prefix_mask 16 n) =? if n =? 0 then 128 else n) = true) as H.
  { apply (decide_below (λ n, (le_combine (rev (prefix_mask 16 n)) =? if n =? 0 then 2 ^ 128 - 1 else 2 ^ 128 - 2 ^ (128 - n))
      && (prefix6 (prefix_mask 16 n) =? if n =? 0 then 128 else n)) 129); [by vm_compute|lia]. }
  lia.
Qed.

(** A socket address with its length and its address stored. *)
Lemma sin6_stored b bs sa :
  length sa = 28%nat → length bs = 16%nat →
  sa_len (poke 8 bs (poke 0 [b] sa)) = byte.unsigned b ∧ sin6_addr (poke 8 bs (poke 0 [b] sa)) = bs.
Proof.
  intros Hs Hb. assert (length (poke 0 [b] sa) = 28%nat) as Hp by (rewrite length_poke; cbn [length]; lia). split.
  - unfold sa_len. rewrite !nth_poke by (cbn [length]; lia). done.
  - unfold sin6_addr, poke at 1. rewrite drop_app_length' by (rewrite length_take; lia). by rewrite take_app_length'.
Qed.

Section wpa_line.
Context {E : WlanEnv} {WF : WlanFrame E} {WC : WlanConf E} {LB : Libs}.
Context (clone : iocmd ifreq → string → list ifnet → Z * list ifnet).
Context (grp : ∀ A, iocmd A → A → list ifnet → Z * A).
Context (n : string) (others : string → option ieee80211com) (n_short : slen n ≤ 7).

Lemma joins_param f cf :
  (∀ w, wpa_name (f w) = wpa_name w ∧ wpa_enabled (f w) = wpa_enabled w) → settled cf →
  joins clone grp n others (with_wpa f) true cf true (wpa_word n f cf).
Proof using WF WC n_short.
  intros Hf S. destruct (Hf (wpa_of n cf)) as [Hn He].
  apply joins_with_wpa; [done|done|by rewrite He; apply settled_enabled].
Qed.

Lemma loops_wpa_line w cf u cf0 :
  let wpa := wpa_of n (with_wpaparms w cf) in
  has_bits (i_akms wpa) SHA256_AKMS = false →
  loops clone grp n others
    [Some "wpa"; Some "wpaprotos"; Some (print_wpaprotos (i_protos wpa)); Some "wpaakms";
     Some (print_wpaakms (i_akms wpa)); Some "wpaciphers"; Some (print_cipherset (i_ciphers wpa));
     Some "wpagroupcipher"; Some (print_cipherset (i_groupcipher wpa))] u cf0 true (with_wpaparms w cf0).
Proof using WF WC n_short.
  intros wpa Hs. rewrite <- (wpa_words_conf n w cf cf0).
  eapply loops_word; [reflexivity|done|done|by apply joins_wpa|].
  eapply loops_arg; [reflexivity| |].
  { eapply (joins_opt_list _ _ _ _ wpaproto _ _ (λ v, with_wpa (set_protos v)));
      [apply protos_read|by apply joins_param, settled_wpa]. }
  eapply loops_arg; [reflexivity| |].
  { eapply (joins_opt_list _ _ _ _ wpaakm _ _ (λ v, with_wpa (set_akms v)));
      [by apply akms_read|by apply joins_param, settled_wpa]. }
  eapply loops_arg; [reflexivity| |].
  { eapply (joins_opt_list _ _ _ _ wpacipher _ _ (λ v, with_wpa (set_ciphers v)));
      [apply ciphers_read|by apply joins_param, settled_wpa]. }
  eapply loops_arg; [reflexivity| |apply loops_nil].
  eapply joins_group; [apply group_read|by apply joins_param, settled_wpa].
Qed.
End wpa_line.

(** ** The theorems *)

(** C28. An address that ifconfig prints is read back: inet_aton() of the text
    of inet_ntoa() is the address, for all 32-bit addresses. *)
Theorem inet_ntoa_roundtrip a rest :
  0 ≤ a < 2 ^ 32 → inet_aton (bytes (inet_ntoa a) ++ NUL :: rest) = Some (Some a).
Proof.
  intros Ha. unfold inet_ntoa, text, bytes. rewrite String.list_ascii_of_string_of_list_ascii.
  rewrite inet_aton_spec by (apply Z.mod_pos_bound; lia). by rewrite addr_octets.
Qed.

(** C29. The names printb() and printb_status() print are those of the bits
    that are set, in the order of the table, with commas between them, for a
    table of bit numbers from 1 to 31 and names of visible characters. *)
Theorem printb_names s v base tbl :
  bit_table tbl → base ≠ 8 → 0 < base < 128 →
  printb s v (bits_of base tbl)
    = Some (s +:+ "=" +:+ fmt_x (u32 v) +:+ "<" +:+ text (set_names id (u32 v) false tbl) +:+ ">")
  ∧ printb_status v (bits_of base tbl) = Some (text (set_names tolower (u16 v) false tbl)).
Proof.
  intros Ht Hb Hr. unfold printb, printb_status, bit_names, bits_of, text, bytes.
  rewrite String.list_ascii_of_string_of_list_ascii. cbn [tail]. rewrite !printb_spec by done.
  cbn [fmap option_fmap option_map mbind option_bind].
  rewrite sch_low, uch_small, (proj2 (Z.eqb_neq _ _) Hb) by (rewrite ?uch_small; lia). done.
Qed.

(** C21. The WPA parameters ifconfig prints for an interface are a command
    line that sets them.  Whatever parameters a request has stored for a
    wireless interface, the words of the line that is printed for the kernel's
    answer, after the word wpa, are accepted by ifconfig_gate() and give an
    interface in any configuration the same parameters, so that on the
    interface itself they change nothing; the wireless part of no other
    interface changes.  The authentication protocols with SHA-256 are left out:
    there is no word for them. *)
Theorem wpa_status_roundtrip `{E : WlanEnv, !WlanFrame E, !WlanConf E, !Libs} clone grp
    (g : @glob (wlan_kernel clone grp)) n w i u cf i1 wpa i2 cf0 :
  wl_on u cf i → wpa_enabled w ≠ 0 →
  iwn_ioctl SIOCS80211WPAPARMS w i = (Ok (0, w), i1) →
  iwn_ioctl SIOCG80211WPAPARMS (mk_wpa n 0 0 0 0 0) i1 = (Ok (0, wpa), i2) →
  has_bits (i_akms wpa) SHA256_AKMS = false →
  n ≠ "" → slen n ≤ 7 → wl_at false cf0 (g_k g) n →
  quiet g → sock_ok AF_INET g → alloc_never_fails (g_env g) →
  let line := map Some ("wpa" :: String.words (wpa_status wpa)) in
  ∃ g', ifconfig_gate (Zlen line) line n g = (Ok tt, g')
    ∧ wl_at true (with_wpaparms w cf0) (g_k g') n
    ∧ with_wpaparms w (with_wpaparms w cf0) = with_wpaparms w cf0
    ∧ ∀ m, m ≠ n → wlan_of (g_k g') m = wlan_of (g_k g) m.
Proof.
  intros Hi He Es Eg Hs Hn Hl Hw Hq Hsock Ha. cbv zeta.
  destruct (wpa_run w cf u i He Hi) as (i1' & Es' & Hi1). rewrite Es in Es'. injection Es' as <-.
  destruct (getwpa_run (mk_wpa n 0 0 0 0 0) _ _ _ Hi1) as (i2' & Eg' & _). rewrite Eg in Eg'. injection Eg' as -> _.
  cbn [wpa_name] in *. rewrite wpa_status_words by done. cbn [map].
  destruct (wp_elim _ _ _ (wp_gate clone grp n (wlan_of (g_k g)) Hl Hn "wpa" _ false cf0 true _ g ltac:(done)
    (loops_wpa_line clone grp n (wlan_of (g_k g)) Hl w cf false cf0 Hs) Ha Hw ltac:(done) Hq Hsock))
    as ([] & g' & E' & J & _).
  exists g'. split; [exact E'|]. split; [apply J|]. split; [apply with_wpaparms_twice|apply J].
Qed.

(** C35. in6_getprefix() stores, as the mask of the address to be added, as many
    leading one bits as the text says, and prefix() prints for that mask the
    length that was given, from 1 to 128; for a length of 0 all the bits are
    stored and 128 is printed.  Nothing else of the request changes, and a text
    that is no number up to 128 ends the program. *)
Theorem in6_prefix_roundtrip `{!Kernel} t g :
  let q := g_in6_addreq (g_in6 g) in
  length (ifra6_prefixmask q) = 28%nat →
  match strtonum_s t 0 128 with
  | inl n =>
      ∃ mask, in6_getprefix t MASK g
              = (Ok tt, set_in6_addreq (mk_alias6 (ifra6_name q) (ifra6_addr q) (ifra6_dstaddr q) mask
                                          (ifra6_flags q) (ifra6_lifetime q)) g)
        ∧ sa_len mask = SIZEOF_SIN6
        ∧ le_combine (rev (sin6_addr mask)) = (if n =? 0 then 2 ^ 128 - 1 else 2 ^ 128 - 2 ^ (128 - n))
        ∧ prefix6 (sin6_addr mask) = (if n =? 0 then 128 else n)
  | inr _ => in6_getprefix t MASK g = (Stop (SExit 1), g)
  end.
Proof.
  intros q Hl. unfold in6_getprefix, strtonum_or_err. destruct (strtonum_s t 0 128) as [n|] eqn:En; [|done].
  destruct (sin6_stored (byte.of_Z SIZEOF_SIN6) (prefix_mask 16 n) (ifra6_prefixmask q)) as [H1 H2];
    [done|apply prefix_mask_len|].
  eexists (poke 8 _ (poke 0 _ (ifra6_prefixmask q))). split; [reflexivity|]. split; [exact H1|]. rewrite H2. apply prefix6_mask.
  by eapply strtonum_s_range.
Qed.

(** C34. The line of the time slots is never printed in a defined way: when the
    driver answers the request, whatever the map of the slots, the loop shifts
    an int by 31 before its sixty-four rounds are over. *)
Theorem timeslot_status_undefined `{!Kernel, !Libs} g r ts_map g' :
  ioctl SIOCGIFTIMESLOT (set_ifr_data (g_ifr g), 0) g = (Ok (0, (r, ts_map)), g') →
  ∃ g1, timeslot_status g = (Stop SUndef, g1).
Proof.
  intros E. unfold timeslot_status, ioctl_data, mbind, CM_bind, gets, modify, mret, CM_ret. cbv beta iota.
  rewrite E. cbn [Z.eqb]. unfold out_need. rewrite (slot_loop_undefined 64) by lia. by eexists.
Qed.

Lemma inet_ntoa_roundtrip_witness :
  inet_aton (bytes (inet_ntoa 0xc0a80107) ++ NUL :: []) = Some (Some 0xc0a80107).
Proof. apply (inet_ntoa_roundtrip 0xc0a80107 []). lia. Defined.

Lemma printb_names_witness :
  printb "flags" 3 (bits_of 16 [(1, "CACHE"); (2, "BSS"); (3, "AUTH")]) = Some "flags=3<CACHE,BSS>"
  ∧ printb_status 6 (bits_of 16 [(1, "CACHE"); (2, "BSS"); (3, "AUTH")]) = Some "bss,auth".
Proof.
  assert (bit_table [(1, "CACHE"); (2, "BSS"); (3, "AUTH")]) as Ht.
  { unfold bit_table. repeat constructor; try lia; vm_compute; done. }
  split.
  - apply (printb_names "flags" 3 16 [(1, "CACHE"); (2, "BSS"); (3, "AUTH")] Ht); lia.
  - apply (printb_names "flags" 6 16 [(1, "CACHE"); (2, "BSS"); (3, "AUTH")] Ht); lia.
Defined.

Lemma in6_prefix_roundtrip_witness :
  ∃ mask g', @in6_getprefix iwn_kernel "64" MASK iwn_start = (Ok tt, g')
    ∧ ifra6_prefixmask (g_in6_addreq (g_in6 g')) = mask ∧ prefix6 (sin6_addr mask) = 64.
Proof.
  destruct (@in6_prefix_roundtrip iwn_kernel "64" iwn_start eq_refl) as (mask & E & _ & _ & H).
  exists mask. eexists. split; [exact E|]. split; [done|exact H].
Defined.

(** WPA2 with a pre-shared key and CCMP, on one station, and what is printed
    for it given to iwn0. *)
Definition wpa2_params : ieee80211_wpaparams :=
  mk_wpa "iwn0" 1 IEEE80211_WPA_PROTO_WPA2 IEEE80211_WPA_AKM_PSK IEEE80211_WPA_CIPHER_CCMP IEEE80211_WPA_CIPHER_CCMP.

Lemma wpa_status_roundtrip_witness :
  ∃ g', @ifconfig_gate iwn_kernel no_names 9
          (map Some ["wpa"; "wpaprotos"; "wpa2"; "wpaakms"; "psk"; "wpaciphers"; "ccmp"; "wpagroupcipher"; "ccmp"])
          "iwn0" iwn_start = (Ok tt, g')
    ∧ wl_at true (with_wpaparms wpa2_params (conf still_ic)) (g_k g') "iwn0".
Proof.
  assert (wl_on false (conf still_ic) iwn0) as Hi.
  { exists still_ic. split; [|done]. by split; [..|left]. }
  destruct (@wpa_run still_env still_conf wpa2_params _ _ _ ltac:(done) Hi) as (i1 & Es & Hi1).
  destruct (@getwpa_run still_env (mk_wpa "iwn0" 0 0 0 0 0) _ _ _ Hi1) as (i2 & Eg & _).
  pose proof (@wpa_status_roundtrip still_env still_frame still_conf no_names
    (λ _ _ l, (EINVAL, l)) (λ _ _ x _, (EINVAL, x)) iwn_start "iwn0" wpa2_params iwn0 false (conf still_ic)
    i1 _ i2 (conf still_ic) Hi ltac:(done) Es Eg eq_refl ltac:(done) ltac:(done)
    home_station ltac:(done) ltac:(by exists 3, [iwn0]) ltac:(by vm_compute)) as H.
  cbv zeta in H. set (line := map Some _) in H. assert (line =
    map Some ["wpa"; "wpaprotos"; "wpa2"; "wpaakms"; "psk"; "wpaciphers"; "ccmp"; "wpagroupcipher"; "ccmp"]) as El
    by (vm_compute; reflexivity).
  clearbody line. subst line. destruct H as (g' & E & H & _). exists g'. exact (conj E H).
Defined.

(** A driver with time slots. *)
Definition slots_env : WlanEnv := {|
  w_suser := 0;
  w_set_key := λ _, 0;
  w_newstate := ic_set IC_state;
  w_scan := ic_set IC_state IEEE80211_S_SCAN;
  w_tsleep := 0;
  w_hardware := λ ic, (0, ic);
  w_pslevel := None;
  w_stack := 0;
  w_other := λ A c, match c in iocmd A return A → ifnet → Z * A * ifnet with
                    | SIOCGIFTIMESLOT => λ x i, (0, (x.1, 5), i)
                    | _ => λ x i, (EINVAL, x, i)
                    end;
|}.
Definition slots_kernel : Kernel := @wlan_kernel slots_env (λ _ _ l, (EINVAL, l)) (λ _ _ x _, (EINVAL, x)).
Definition slots_glob : @glob slots_kernel :=
  set_ifr (set_ifr_name (@ifreq_zero) "san0")
    (@glob_init slots_kernel (mk_cenv [] 0 []) [mk_ifnet "san0" 0 0 0 1500 0 0 "" [] None]).

Lemma timeslot_status_undefined_witness :
  ∃ g1, @timeslot_status slots_kernel slots_glob = (Stop SUndef, g1).
Proof. eapply (@timeslot_status_undefined slots_kernel no_names slots_glob _ 5). reflexivity. Defined.
