(* ===== verification/Conf.v ===== *)
(** * Conf: the configuration file

    Models src/ifconfigd/parse.y: the macros (symset, symget), the stack of
    files (pushfile, popfile), the lexical analyser (lgetc, lungetc, yylex)
    and the grammar with its actions.

    A character is the int of the C code: [EOF], the unsigned value getc(3)
    returns, or the signed value of a char that comes back from the pushback
    buffer or from a macro.  The parser that yacc(1) makes of the grammar is
    written as one procedure for each nonterminal, with the token that has been
    read ahead in the state: it asks for that token where the tables of yacc
    need one, and reads newlines as long as it can, as yacc does where the
    rules for optional newlines leave the choice.

    yyerror() counts an error, after which parse_config() returns NULL and
    main() exits with status 1, whatever the rest of the file holds; here it
    ends the program at once.  Line numbers, which only the messages show, and
    the field used of a macro, which is never read, are left out. *)
From stdpp Require Import base list strings.
From Stdlib Require Import Ascii.
From S2P Require Import Prelude CString CNum IfData Daemon.

(** ** Tokens *)

Inductive kw :=
| NETWORK | ETHERNETNAME | WIRELESSNAME | BSSID | CHANNEL | DOMAINNAME | DOMAINNAMESERVERS | ERROR
| INCLUDE | INET | INTERFACE | YES | LLADDR | MINSIGNAL | NETMASK | NWID | NO | PRIORITY | RUNDOWN
| RUNUP | UPDATEINTERVAL | DHCP | WEP | WEPKEY | WPA | WPAAKMS | WPACIPHERS | WPAGROUPCIPHER | WPAKEY.

#[global] Instance kw_eq_dec : EqDecision kw.
Proof. solve_decision. Defined.

(** A character stands for itself; the end of the input is token 0. *)
Inductive token :=
| T_end
| T_char (c : Z)
| T_kw (k : kw)
| STRING (s : string)
| NUMBER (n : Z).

#[global] Instance token_eq_dec : EqDecision token.
Proof. solve_decision. Defined.

Definition conf_keywords : list (string * kw) :=
  [("bssid", BSSID); ("chan", CHANNEL); ("dhcp", DHCP); ("domain-name", DOMAINNAME);
   ("domain-name-servers", DOMAINNAMESERVERS); ("error", ERROR); ("ethernet", ETHERNETNAME);
   ("include", INCLUDE); ("inet", INET); ("interface", INTERFACE); ("lladdr", LLADDR);
   ("minsignal", MINSIGNAL); ("netmask", NETMASK); ("network", NETWORK); ("no", NO);
   ("nwid", NWID); ("priority", PRIORITY); ("run-down", RUNDOWN); ("run-up", RUNUP);
   ("update_interval", UPDATEINTERVAL); ("wep", WEP); ("wepkey", WEPKEY);
   ("wireless", WIRELESSNAME); ("wpa", WPA); ("wpaakms", WPAAKMS); ("wpaciphers", WPACIPHERS);
   ("wpagroupcipher", WPAGROUPCIPHER); ("wpakey", WPAKEY); ("yes", YES)].

Definition kw_cmp (k : string) (e : string * kw) : Z := str_compare k e.1.

(** lookup(): the keyword of a word; the outer [None] when the search does
    not end. *)
Definition kw_lookup (s : string) : option (option kw) :=
  r ← bsearch (λ i, from_option (kw_cmp s) 0 (conf_keywords !! i)) (length conf_keywords);
  match r with
  | None => Some None
  | Some i => Some (snd <$> conf_keywords !! i)
  end.

(** ** The state *)

Definition EOF : Z := -1.
Definition MAXPUSHBACK : Z := 128.
Definition BUFSIZE : Z := 8096.

Record sym := mk_sym { sym_nam : string; sym_val : string; sym_persist : bool }.

(** [l_files] are the streams of the open files, the one being read first;
    [l_pushback] is the pushback buffer, its last character first; [l_la] is
    the token the parser has read ahead. *)
Record lstate := mk_l {
  l_files : list (list ascii);
  l_parsebuf : option (list ascii);
  l_parseindex : Z;
  l_pushback : list Z;
  l_syms : list sym;
  l_la : option token;
  l_env : cenv;
}.

Definition set_files v l := mk_l v (l_parsebuf l) (l_parseindex l) (l_pushback l) (l_syms l) (l_la l) (l_env l).
Definition set_parsebuf b i l := mk_l (l_files l) b i (l_pushback l) (l_syms l) (l_la l) (l_env l).
Definition set_pushback v l := mk_l (l_files l) (l_parsebuf l) (l_parseindex l) v (l_syms l) (l_la l) (l_env l).
Definition set_syms v l := mk_l (l_files l) (l_parsebuf l) (l_parseindex l) (l_pushback l) v (l_la l) (l_env l).
Definition set_la v l := mk_l (l_files l) (l_parsebuf l) (l_parseindex l) (l_pushback l) (l_syms l) v (l_env l).
Definition set_lenv v l := mk_l (l_files l) (l_parsebuf l) (l_parseindex l) (l_pushback l) (l_syms l) (l_la l) v.

Definition lenv {A} (m : CM cenv A) : CM lstate A := zoom l_env set_lenv m.
Definition yyerror {A} : CM lstate A := stopM (SExit 1).
(** An allocation whose failure ends the program. *)
Definition must_alloc : CM lstate unit := ok ← lenv alloc_ok; if ok : bool then mret tt else stopM (SExit 1).

(** What is left to read, apart from a macro and with it: a bound on the
    rounds of every loop. *)
Definition l_input (l : lstate) : nat :=
  length (l_pushback l) + length (concat (l_files l)) + length (l_files l).

Definition l_size (l : lstate) : nat :=
  l_input l + from_option (λ b, Z.to_nat (Zlen b + 1 - Z.max 0 (l_parseindex l))) O (l_parsebuf l).

(** ** Macros *)

(** symset(): a persistent macro is kept, another one replaced. *)
Definition symset (nam val : string) (persist : bool) : CM lstate Z :=
  syms ← gets l_syms;
  let found := list_find (λ s, sym_nam s = nam) syms in
  if from_option (λ p, sym_persist p.2) false found then mret 0
  else
    modify (set_syms (match found with Some p => delete p.1 syms | None => syms end));;
    ok1 ← lenv alloc_ok;
    if negb ok1 then mret (-1)
    else
      ok2 ← lenv alloc_ok;
      if negb ok2 then mret (-1)
      else
        ok3 ← lenv alloc_ok;
        if negb ok3 then mret (-1)
        else modify (λ l, set_syms (l_syms l ++ [mk_sym nam val persist]) l);; mret 0.

Definition symget (nam : string) : CM lstate (option string) :=
  syms ← gets l_syms;
  mret ((λ p, sym_val p.2) <$> list_find (λ s, sym_nam s = nam) syms).

(** ** Files *)

Class Files := {
  fopen : string → option (list ascii);
  fstat : string → option (Z * Z);
  stdin : list ascii;
  getuid : Z;
}.

Definition S_IRWXG : Z := 0x38.
Definition S_IRWXO : Z := 0x07.

(** [fstat] gives the owner and the mode. *)
Definition check_file_secrecy `{Files} (fname : string) : Z :=
  match fstat fname with
  | None => -1
  | Some (uid, mode) =>
      if negb (uid =? 0) && negb (uid =? getuid) then -1
      else if has_bits mode (Z.lor S_IRWXG S_IRWXO) then -1
      else 0
  end.

(** The result is whether a file was opened; it becomes the current one. *)
Definition pushfile `{Files} (name : string) (secret : bool) : CM lstate bool :=
  ok ← lenv alloc_ok;
  if negb ok then mret false
  else
    ok ← lenv alloc_ok;
    if negb ok then mret false
    else
      files ← gets l_files;
      if bool_decide (files = []) && bool_decide (name = "-") then
        ok ← lenv alloc_ok;
        if negb ok then mret false else modify (set_files (stdin :: files));; mret true
      else
        match fopen name with
        | None => mret false
        | Some s =>
            if secret && negb (check_file_secrecy name =? 0) then mret false
            else modify (set_files (s :: files));; mret true
        end.

(** ** Characters *)

Definition ch (a : ascii) : Z := uch a.
(** (char)c, and a char as an int. *)
Definition to_char (c : Z) : ascii := Ascii.ascii_of_N (Z.to_N (c `mod` 256)).
Definition of_char (a : ascii) : Z := if uch a <? 128 then uch a else uch a - 256.

Definition nl_c : Z := 10.
Definition tab_c : Z := 9.

(** A macro of ctype.h for the C locale. *)
Definition ctype (f : ascii → bool) (c : Z) : bool := negb (c =? EOF) && f (to_char c).
Definition is_alnum (a : ascii) : bool := isalpha a || isdigit a.
Definition is_punct (a : ascii) : bool :=
  in_range 33 47 a || in_range 58 64 a || in_range 91 96 a || in_range 123 126 a.

(** Whether [c] is one of the characters of a string. *)
Definition one_of (s : string) (c : Z) : bool := existsb (λ a, c =? ch a) (bytes s).

(** popfile() and getc(3) until a file that has not ended: the files left
    open and the character. *)
Fixpoint next_file (files : list (list ascii)) : Z * list (list ascii) :=
  match files with
  | [] => (EOF, [])
  | [s] => (EOF, [s])
  | _ :: ((c :: s) :: files) => (ch c, s :: files)
  | _ :: files => next_file files
  end.

(** The loop over backslashes: one before a newline is dropped with it, one
    before another character is dropped. *)
Fixpoint getc_escaped (s : list ascii) : Z * list ascii :=
  match s with
  | [] => (EOF, [])
  | c :: s =>
      if Ascii.eqb c "\" then
        match s with
        | [] => (EOF, [])
        | next :: s => if Ascii.eqb next "010" then getc_escaped s else (ch next, s)
        end
      else (ch c, s)
  end.

(** The part of lgetc() that reads the current file. *)
Definition lgetc_file (quotec : Z) : CM lstate Z :=
  files ← gets l_files;
  match files with
  | [] => stopM SUndef
  | s :: rest =>
      if negb (quotec =? 0) then
        match s with
        | [] => yyerror
        | c :: s => modify (set_files (s :: rest));; mret (ch c)
        end
      else
        let '(c, s) := getc_escaped s in
        if c =? EOF then
          let '(c, files) := next_file (s :: rest) in
          modify (set_files files);; mret c
        else modify (set_files (s :: rest));; mret c
  end.

Definition lgetc_pushback (quotec : Z) : CM lstate Z :=
  pb ← gets l_pushback;
  match pb with
  | c :: pb => modify (set_pushback pb);; mret c
  | [] => lgetc_file quotec
  end.

Definition lgetc (quotec : Z) : CM lstate Z :=
  b ← gets l_parsebuf; i ← gets l_parseindex;
  match b with
  | None => lgetc_pushback quotec
  | Some buf =>
      if 0 <=? i then
        match (buf ++ [NUL]) !! Z.to_nat i with
        | None => stopM SUndef
        | Some a =>
            if is_nul a then modify (set_parsebuf None (i + 1));; lgetc_pushback quotec
            else modify (set_parsebuf b (i + 1));; mret (of_char a)
        end
      else modify (set_parsebuf b (i + 1));; lgetc_pushback quotec
  end.

(** The result is never looked at.  A character that finds the buffer full is
    lost. *)
Definition lungetc (c : Z) : CM lstate unit :=
  if c =? EOF then mret tt
  else
    b ← gets l_parsebuf; i ← gets l_parseindex;
    let i := match b with Some _ => i - 1 | None => i end in
    modify (set_parsebuf b i);;
    if bool_decide (is_Some b) && (0 <=? i) then mret tt
    else
      pb ← gets l_pushback;
      if Zlen pb <? MAXPUSHBACK - 1 then modify (set_pushback (of_char (to_char c) :: pb)) else mret tt.

(** ** yylex *)

Definition loop {A} (body : nat → CM lstate A) : CM lstate A := n ← gets l_size; body (S n).

(** The first character that [stop] holds of. *)
Fixpoint skip_until (stop : Z → bool) (fuel : nat) : CM lstate Z :=
  match fuel with
  | O => stopM SFuel
  | S fuel => c ← lgetc 0; if stop c then mret c else skip_until stop fuel
  end.

(** The name of a macro; [None] at the end of the input. *)
Fixpoint macro_name (buf : list ascii) (fuel : nat) : CM lstate (option (list ascii)) :=
  match fuel with
  | O => stopM SFuel
  | S fuel =>
      c ← lgetc 0;
      if c =? EOF then mret None
      else if BUFSIZE - 1 <=? Zlen buf + 1 then yyerror
      else if ctype is_alnum c || (c =? ch "_") then macro_name (buf ++ [to_char c]) fuel
      else lungetc c;; mret (Some buf)
  end.

(** A quoted string, as far as its closing quote; [None] at the end of the
    input. *)
Fixpoint quoted (quotec : Z) (buf : list ascii) (fuel : nat) : CM lstate (option (list ascii)) :=
  match fuel with
  | O => stopM SFuel
  | S fuel =>
      let store c :=
        if BUFSIZE - 1 <=? Zlen buf + 1 then yyerror else quoted quotec (buf ++ [to_char c]) fuel in
      c ← lgetc quotec;
      if c =? EOF then mret None
      else if c =? nl_c then quoted quotec buf fuel
      else if c =? ch "\" then
        next ← lgetc quotec;
        if next =? EOF then mret None
        else if (next =? quotec) || (c =? ch " ") || (c =? tab_c) then store next
        else if next =? nl_c then quoted quotec buf fuel
        else lungetc next;; store c
      else if c =? quotec then mret (Some buf)
      else store c
  end.

(** The characters of a word, the first of which is [c], while [more] holds,
    and the character after them. *)
Fixpoint word (more : Z → bool) (buf : list ascii) (c : Z) (fuel : nat) : CM lstate (list ascii * Z) :=
  match fuel with
  | O => stopM SFuel
  | S fuel =>
      let buf := buf ++ [to_char c] in
      if BUFSIZE <=? Zlen buf then yyerror
      else
        c ← lgetc 0;
        if negb (c =? EOF) && more c then word more buf c fuel else mret (buf, c)
  end.

Definition allowed_to_end_number (c : Z) : bool := ctype isspace c || one_of "),/}=" c.
Definition allowed_in_string (c : Z) : bool :=
  ctype is_alnum c || (ctype is_punct c && negb (one_of "(){}!=#," c)).

(** The string in a buffer: what comes before the first NUL. *)
Fixpoint until_nul (buf : list ascii) : string :=
  match buf with
  | [] => ""
  | a :: buf => if is_nul a then "" else String a (until_nul buf)
  end.

Definition strdup (buf : list ascii) : CM lstate string := must_alloc;; mret (until_nul buf).

Fixpoint lungetc_all (l : list ascii) : CM lstate unit :=
  match l with
  | [] => mret tt
  | a :: l => lungetc (of_char a);; lungetc_all l
  end.

(** A number, or the first character of what only begins like one. *)
Definition lex_number (c : Z) : CM lstate (Z + Z) :=
  '(buf, c) ← loop (word (ctype isdigit) [] c);
  lungetc c;;
  let is_minus := bool_decide (buf = ["-"%char]) in
  if negb is_minus && ((c =? EOF) || allowed_to_end_number c) then
    match strtonum_s (String.string_of_list_ascii buf) LLONG_MIN LLONG_MAX with
    | inl n => mret (inl n)
    | inr _ => yyerror
    end
  else
    lungetc_all (rev (tail buf));;
    mret (inr (from_option of_char EOF (head buf))).

Definition char_token (c : Z) : token := if c <=? 0 then T_end else T_char c.

(** From the test for a word on. *)
Definition lex_word (c : Z) : CM lstate token :=
  if ctype is_alnum c || (c =? ch ":") || (c =? ch "_") then
    '(buf, c) ← loop (word allowed_in_string [] c);
    lungetc c;;
    let s := until_nul buf in
    match kw_lookup s with
    | None => stopM SFuel
    | Some (Some k) => mret (T_kw k)
    | Some None => must_alloc;; mret (STRING s)
    end
  else mret (char_token c).

Definition lex_rest (c : Z) : CM lstate token :=
  if one_of "'" c || (c =? 34) then
    buf ← loop (quoted c []);
    match buf with
    | None => mret T_end
    | Some buf => s ← strdup buf; mret (STRING s)
    end
  else if (c =? ch "-") || ctype isdigit c then
    r ← lex_number c;
    match r with
    | inl n => mret (NUMBER n)
    | inr c => if c =? ch "-" then mret (T_char c) else lex_word c
    end
  else lex_word c.

(** From the label top; [fuel] bounds the macros expanded on the way. *)
Fixpoint yylex_top (fuel : nat) : CM lstate token :=
  match fuel with
  | O => stopM SFuel
  | S fuel =>
      c ← loop (skip_until (λ c, negb ((c =? ch " ") || (c =? tab_c))));
      c ← (if c =? ch "#" then loop (skip_until (λ c, (c =? nl_c) || (c =? EOF))) else mret c);
      b ← gets l_parsebuf;
      if (c =? ch "$") && bool_decide (b = None) then
        nam ← loop (macro_name []);
        match nam with
        | None => mret T_end
        | Some nam =>
            val ← symget (String.string_of_list_ascii nam);
            match val with
            | None => yyerror
            | Some val => modify (set_parsebuf (Some (bytes val)) 0);; yylex_top fuel
            end
        end
      else lex_rest c
  end.

Definition yylex : CM lstate token := loop yylex_top.

(** ** The parser *)

(** The token ahead, read if need be, and taking it. *)
Definition peek : CM lstate token :=
  la ← gets l_la;
  match la with
  | Some t => mret t
  | None => t ← yylex; modify (set_la (Some t));; mret t
  end.

Definition next_token : CM lstate token := t ← peek; modify (set_la None);; mret t.

Definition expect (t : token) : CM lstate unit :=
  t' ← next_token; if bool_decide (t' = t) then mret tt else yyerror.

Definition string_token : CM lstate string :=
  t ← next_token; match t with STRING s => mret s | _ => yyerror end.

Definition number_token : CM lstate Z :=
  t ← next_token; match t with NUMBER n => mret n | _ => yyerror end.

Definition NL : token := T_char nl_c.
Definition LBRACE : token := T_char (ch "{").
Definition RBRACE : token := T_char (ch "}").

(** optnl and nl *)
Fixpoint optnl (fuel : nat) : CM lstate unit :=
  match fuel with
  | O => stopM SFuel
  | S fuel => t ← peek; if bool_decide (t = NL) then next_token;; optnl fuel else mret tt
  end.

Definition nl (fuel : nat) : CM lstate unit := expect NL;; optnl fuel.

Definition yesno : CM lstate Z :=
  t ← next_token;
  match t with
  | T_kw YES => mret 1
  | T_kw NO => mret 0
  | _ => yyerror
  end.

(** string: further words are added after a space. *)
Fixpoint more_strings (s : string) (fuel : nat) : CM lstate string :=
  match fuel with
  | O => stopM SFuel
  | S fuel =>
      t ← peek;
      match t with
      | STRING s' => next_token;; must_alloc;; more_strings (s +:+ " " +:+ s') fuel
      | _ => mret s
      end
  end.

(** The rules of the form X_l: X_l X nl | X, as far as the brace that closes
    the block. *)
Fixpoint opts_l {A} (opt : A → CM lstate A) (a : A) (fuel : nat) : CM lstate A :=
  match fuel with
  | O => stopM SFuel
  | S fuel =>
      t ← peek;
      if bool_decide (t = RBRACE) then next_token;; mret a
      else a ← opt a; nl fuel;; opts_l opt a fuel
  end.

(** The rules X_block: '{' optnl X_l '}' | '{' optnl '}' | ; *)
Definition block {A} (opt : A → CM lstate A) (a : A) (fuel : nat) : CM lstate A :=
  t ← peek;
  if bool_decide (t = LBRACE) then
    next_token;; optnl fuel;;
    t ← peek;
    if bool_decide (t = RBRACE) then next_token;; mret a
    else a ← opt a; opts_l opt a fuel
  else mret a.

(** *** Static options *)

Definition static_zero : static_cfg := mk_static None None None None.

(** staticopts: an empty one changes nothing.  The result is [None] when the
    token ahead begins no option. *)
Definition staticopts (c : static_cfg) : CM lstate (option static_cfg) :=
  t ← peek;
  match t with
  | T_kw DOMAINNAME =>
      next_token;; s ← string_token; mret (Some (mk_static (st_inet c) (st_netmask c) (Some s) (st_domainserver c)))
  | T_kw DOMAINNAMESERVERS =>
      next_token;; s ← string_token; mret (Some (mk_static (st_inet c) (st_netmask c) (st_domainname c) (Some s)))
  | T_kw INET =>
      next_token;; s ← string_token; mret (Some (mk_static (Some s) (st_netmask c) (st_domainname c) (st_domainserver c)))
  | T_kw NETMASK =>
      next_token;; s ← string_token; mret (Some (mk_static (st_inet c) (Some s) (st_domainname c) (st_domainserver c)))
  | _ => mret None
  end.

(** strncpy(3) into an array of [n] bytes. *)
Definition strncpy_s (s : string) (n : nat) : string := stake n s.
Definition NAME_ARRAY : nat := 512.
Definition INTERFACE_ARRAY : nat := 128.

(** *** Ethernet networks *)

(** The network and the object staticonfig points to; the network has it as
    its staticopts if [ec_linked]. *)
Record eth_ctx := mk_ec { ec_eth : ethernet; ec_static : static_cfg; ec_linked : bool }.

Definition set_eth_interface v e := mk_eth (eth_name e) v (eth_priority e) (eth_isdhcp e) (eth_staticopts e) (eth_lladdr e) (eth_run_up e) (eth_run_down e).
Definition set_eth_priority v e := mk_eth (eth_name e) (eth_interface e) v (eth_isdhcp e) (eth_staticopts e) (eth_lladdr e) (eth_run_up e) (eth_run_down e).
Definition set_eth_isdhcp v e := mk_eth (eth_name e) (eth_interface e) (eth_priority e) v (eth_staticopts e) (eth_lladdr e) (eth_run_up e) (eth_run_down e).
Definition set_eth_staticopts v e := mk_eth (eth_name e) (eth_interface e) (eth_priority e) (eth_isdhcp e) v (eth_lladdr e) (eth_run_up e) (eth_run_down e).
Definition set_eth_lladdr v e := mk_eth (eth_name e) (eth_interface e) (eth_priority e) (eth_isdhcp e) (eth_staticopts e) v (eth_run_up e) (eth_run_down e).
Definition set_eth_run_up v e := mk_eth (eth_name e) (eth_interface e) (eth_priority e) (eth_isdhcp e) (eth_staticopts e) (eth_lladdr e) v (eth_run_down e).
Definition set_eth_run_down v e := mk_eth (eth_name e) (eth_interface e) (eth_priority e) (eth_isdhcp e) (eth_staticopts e) (eth_lladdr e) (eth_run_up e) v.

Definition eth_set (f : ethernet → ethernet) (c : eth_ctx) : eth_ctx :=
  mk_ec (f (ec_eth c)) (ec_static c) (ec_linked c).

Definition eth_string (f : string → ethernet → ethernet) (c : eth_ctx) : CM lstate eth_ctx :=
  next_token;; s ← string_token; mret (eth_set (f s) c).

Definition ethernetoptsl (c : eth_ctx) : CM lstate eth_ctx :=
  t ← peek;
  match t with
  | T_kw PRIORITY => next_token;; n ← number_token; mret (eth_set (set_eth_priority (i32 n)) c)
  | T_kw INTERFACE => eth_string (λ s, set_eth_interface (strncpy_s s INTERFACE_ARRAY)) c
  | T_kw DHCP =>
      next_token;; n ← yesno;
      mret (if n =? 0 then mk_ec (set_eth_isdhcp 0 (ec_eth c)) (ec_static c) true
            else mk_ec (set_eth_isdhcp 1 (ec_eth c)) (ec_static c) false)
  | T_kw LLADDR => eth_string (λ s, set_eth_lladdr (Some s)) c
  | T_kw RUNUP => eth_string (λ s, set_eth_run_up (Some s)) c
  | T_kw RUNDOWN => eth_string (λ s, set_eth_run_down (Some s)) c
  | _ =>
      s ← staticopts (ec_static c);
      mret (match s with Some s => mk_ec (ec_eth c) s (ec_linked c) | None => c end)
  end.

Definition eth_close (c : eth_ctx) : ethernet :=
  set_eth_staticopts (if ec_linked c then Some (ec_static c) else None) (ec_eth c).

Definition ethernet_new (name : string) : eth_ctx :=
  mk_ec (mk_eth (strncpy_s name NAME_ARRAY) "" 0 0 None None None None) static_zero true.

(** ethernet, after its keyword. *)
Definition ethernet_rule (fuel : nat) : CM lstate ethernet :=
  s ← string_token;
  must_alloc;; must_alloc;;
  c ← block ethernetoptsl (ethernet_new s) fuel;
  mret (eth_close c).

(** *** Wireless networks *)

(** The network, the object staticonfig points to, which is always that of the
    network, and the one wpa points to. *)
Record wlan_ctx := mk_wc { wx_wlan : wireless; wx_static : static_cfg; wx_wpa : wpa_cfg }.

Definition wpaoptsl (c : wpa_cfg) : CM lstate wpa_cfg :=
  t ← peek;
  match t with
  | T_kw WPAKEY => next_token;; s ← string_token;
      mret (mk_wpacfg (Some s) (wc_wpagroupcipher c) (wc_wpaciphers c) (wc_wpaakms c))
  | T_kw WPAGROUPCIPHER => next_token;; s ← string_token;
      mret (mk_wpacfg (wc_wpakey c) (Some s) (wc_wpaciphers c) (wc_wpaakms c))
  | T_kw WPAAKMS => next_token;; s ← string_token;
      mret (mk_wpacfg (wc_wpakey c) (wc_wpagroupcipher c) (wc_wpaciphers c) (Some s))
  | T_kw WPACIPHERS => next_token;; s ← string_token;
      mret (mk_wpacfg (wc_wpakey c) (wc_wpagroupcipher c) (Some s) (wc_wpaakms c))
  | _ => mret c
  end.

Definition wepoptsl (k : cptr) : CM lstate cptr :=
  t ← peek;
  match t with
  | T_kw WEPKEY => next_token;; s ← string_token; mret (Some s)
  | _ => mret k
  end.

Definition set_wl_interface v w := mk_wlan (wl_name w) v (wl_priority w) (wl_nwid w) (wl_bssid w) (wl_minsignal w) (wl_channel w) (wl_isdhcp w) (wl_staticopts w) (wl_wpa w) (wl_wep_nwkex w) (wl_lladdr w) (wl_run_up w) (wl_run_down w).
Definition set_wl_priority v w := mk_wlan (wl_name w) (wl_interface w) v (wl_nwid w) (wl_bssid w) (wl_minsignal w) (wl_channel w) (wl_isdhcp w) (wl_staticopts w) (wl_wpa w) (wl_wep_nwkex w) (wl_lladdr w) (wl_run_up w) (wl_run_down w).
Definition set_wl_nwid v w := mk_wlan (wl_name w) (wl_interface w) (wl_priority w) v (wl_bssid w) (wl_minsignal w) (wl_channel w) (wl_isdhcp w) (wl_staticopts w) (wl_wpa w) (wl_wep_nwkex w) (wl_lladdr w) (wl_run_up w) (wl_run_down w).
Definition set_wl_bssid v w := mk_wlan (wl_name w) (wl_interface w) (wl_priority w) (wl_nwid w) v (wl_minsignal w) (wl_channel w) (wl_isdhcp w) (wl_staticopts w) (wl_wpa w) (wl_wep_nwkex w) (wl_lladdr w) (wl_run_up w) (wl_run_down w).
Definition set_wl_minsignal v w := mk_wlan (wl_name w) (wl_interface w) (wl_priority w) (wl_nwid w) (wl_bssid w) v (wl_channel w) (wl_isdhcp w) (wl_staticopts w) (wl_wpa w) (wl_wep_nwkex w) (wl_lladdr w) (wl_run_up w) (wl_run_down w).
Definition set_wl_channel v w := mk_wlan (wl_name w) (wl_interface w) (wl_priority w) (wl_nwid w) (wl_bssid w) (wl_minsignal w) v (wl_isdhcp w) (wl_staticopts w) (wl_wpa w) (wl_wep_nwkex w) (wl_lladdr w) (wl_run_up w) (wl_run_down w).
Definition set_wl_isdhcp v w := mk_wlan (wl_name w) (wl_interface w) (wl_priority w) (wl_nwid w) (wl_bssid w) (wl_minsignal w) (wl_channel w) v (wl_staticopts w) (wl_wpa w) (wl_wep_nwkex w) (wl_lladdr w) (wl_run_up w) (wl_run_down w).
Definition set_wl_objects st wpa w := mk_wlan (wl_name w) (wl_interface w) (wl_priority w) (wl_nwid w) (wl_bssid w) (wl_minsignal w) (wl_channel w) (wl_isdhcp w) st wpa (wl_wep_nwkex w) (wl_lladdr w) (wl_run_up w) (wl_run_down w).
Definition set_wl_wep v w := mk_wlan (wl_name w) (wl_interface w) (wl_priority w) (wl_nwid w) (wl_bssid w) (wl_minsignal w) (wl_channel w) (wl_isdhcp w) (wl_staticopts w) (wl_wpa w) v (wl_lladdr w) (wl_run_up w) (wl_run_down w).
Definition set_wl_lladdr v w := mk_wlan (wl_name w) (wl_interface w) (wl_priority w) (wl_nwid w) (wl_bssid w) (wl_minsignal w) (wl_channel w) (wl_isdhcp w) (wl_staticopts w) (wl_wpa w) (wl_wep_nwkex w) v (wl_run_up w) (wl_run_down w).
Definition set_wl_run_up v w := mk_wlan (wl_name w) (wl_interface w) (wl_priority w) (wl_nwid w) (wl_bssid w) (wl_minsignal w) (wl_channel w) (wl_isdhcp w) (wl_staticopts w) (wl_wpa w) (wl_wep_nwkex w) (wl_lladdr w) v (wl_run_down w).
Definition set_wl_run_down v w := mk_wlan (wl_name w) (wl_interface w) (wl_priority w) (wl_nwid w) (wl_bssid w) (wl_minsignal w) (wl_channel w) (wl_isdhcp w) (wl_staticopts w) (wl_wpa w) (wl_wep_nwkex w) (wl_lladdr w) (wl_run_up w) v.

(** An option that is a keyword and a string or a number. *)
Definition wlan_set (f : wireless → wireless) (c : wlan_ctx) : wlan_ctx :=
  mk_wc (f (wx_wlan c)) (wx_static c) (wx_wpa c).

Definition wlan_string (f : string → wireless → wireless) (c : wlan_ctx) : CM lstate wlan_ctx :=
  next_token;; s ← string_token; mret (wlan_set (f s) c).

Definition wlan_number (f : Z → wireless → wireless) (c : wlan_ctx) : CM lstate wlan_ctx :=
  next_token;; n ← number_token; mret (wlan_set (f (i32 n)) c).

Definition wirelessoptsl (fuel : nat) (c : wlan_ctx) : CM lstate wlan_ctx :=
  t ← peek;
  match t with
  | T_kw PRIORITY => wlan_number set_wl_priority c
  | T_kw INTERFACE => wlan_string (λ s, set_wl_interface (strncpy_s s INTERFACE_ARRAY)) c
  | T_kw NWID => wlan_string (λ s, set_wl_nwid (Some s)) c
  | T_kw CHANNEL => wlan_number set_wl_channel c
  | T_kw BSSID => wlan_string (λ s, set_wl_bssid (Some s)) c
  | T_kw MINSIGNAL => wlan_number set_wl_minsignal c
  | T_kw DHCP =>
      next_token;; n ← yesno;
      if n =? 0 then
        must_alloc;; mret (mk_wc (set_wl_isdhcp 0 (wx_wlan c)) static_zero (wx_wpa c))
      else mret (wlan_set (set_wl_isdhcp 1) c)
  | T_kw WPA =>
      next_token;; w ← block wpaoptsl (wx_wpa c) fuel; mret (mk_wc (wx_wlan c) (wx_static c) w)
  | T_kw WEP =>
      next_token;; k ← block wepoptsl (wl_wep_nwkex (wx_wlan c)) fuel; mret (wlan_set (set_wl_wep k) c)
  | T_kw RUNUP => wlan_string (λ s, set_wl_run_up (Some s)) c
  | T_kw RUNDOWN => wlan_string (λ s, set_wl_run_down (Some s)) c
  | T_kw LLADDR => wlan_string (λ s, set_wl_lladdr (Some s)) c
  | _ =>
      s ← staticopts (wx_static c);
      mret (match s with Some s => mk_wc (wx_wlan c) s (wx_wpa c) | None => c end)
  end.

Definition wlan_close (c : wlan_ctx) : wireless :=
  set_wl_objects (Some (wx_static c)) (Some (wx_wpa c)) (wx_wlan c).

Definition wireless_new (name : string) : wlan_ctx :=
  mk_wc (mk_wlan (strncpy_s name NAME_ARRAY) "" 0 None None 0 0 0 None None None None None None)
    static_zero (mk_wpacfg None None None None).

Definition wireless_rule (fuel : nat) : CM lstate wireless :=
  s ← string_token;
  must_alloc;; must_alloc;; must_alloc;;
  c ← block (wirelessoptsl fuel) (wireless_new s) fuel;
  mret (wlan_close c).

(** *** Networks *)

(** networkoptsl: a new element comes first in its list. *)
Definition networkoptsl (fuel : nat) (n : network) : CM lstate network :=
  t ← peek;
  match t with
  | T_kw ETHERNETNAME =>
      next_token;; e ← ethernet_rule fuel;
      mret (mk_network (nw_name n) (nw_priority n) (e :: ethernet_list n) (wireless_list n))
  | T_kw WIRELESSNAME =>
      next_token;; w ← wireless_rule fuel;
      mret (mk_network (nw_name n) (nw_priority n) (ethernet_list n) (w :: wireless_list n))
  | _ => mret n
  end.

(** network, after its keyword. *)
Definition network_rule (fuel : nat) : CM lstate network :=
  s ← string_token;
  if 64 <? slen s then yyerror
  else
    must_alloc;;
    expect LBRACE;; optnl fuel;;
    n ← networkoptsl fuel (mk_network (strncpy_s s NAME_ARRAY) 0 [] []);
    optnl fuel;;
    opts_l (networkoptsl fuel) n fuel.

(** *** The configuration *)

Record ifconfigd_conf := mk_conf { network_list : list network; upinterval : Z }.

Definition MIN_UPDATE_INTERVAL : Z := 5.

Section parser.
Context `{Files}.

(** One alternative of the rules for grammar and the newline after it; [None]
    at the end of the input.  Nothing is read ahead before the new file of an
    include is pushed. *)
Definition statement (fuel : nat) (conf : ifconfigd_conf) : CM lstate (option ifconfigd_conf) :=
  t ← peek;
  match t with
  | T_end => mret None
  | T_kw INCLUDE =>
      next_token;; s ← string_token;
      ok ← pushfile s true;
      if negb ok then yyerror
      else lungetc nl_c;; expect NL;; mret (Some conf)
  | T_kw UPDATEINTERVAL =>
      next_token;; n ← number_token;
      if n <? MIN_UPDATE_INTERVAL then yyerror
      else expect NL;; mret (Some (mk_conf (network_list conf) (i32 n)))
  | STRING nam =>
      next_token;; s ← string_token; val ← more_strings s fuel;
      z ← symset nam val false;
      if z =? -1 then stopM (SExit 1) else expect NL;; mret (Some conf)
  | T_kw NETWORK =>
      next_token;; n ← network_rule fuel;
      expect NL;; mret (Some (mk_conf (n :: network_list conf) (upinterval conf)))
  | _ => expect NL;; mret (Some conf)
  end.

Fixpoint grammar (fuel : nat) (conf : ifconfigd_conf) : CM lstate ifconfigd_conf :=
  match fuel with
  | O => stopM SFuel
  | S fuel =>
      r ← statement fuel conf;
      match r with None => mret conf | Some conf => grammar fuel conf end
  end.

(** parse_config() as main() calls it: an error ends the program. *)
Definition parse_config (fuel : nat) (filename : string) : CM lstate ifconfigd_conf :=
  must_alloc;;
  ok ← pushfile filename false;
  if negb ok then stopM (SExit 1) else grammar fuel (mk_conf [] 0).
End parser.

Definition lex_init (e : cenv) : lstate := mk_l [] None 0 [] [] None e.
