(* ===== verification/LexProps.v ===== *)
(** * LexProps: the lexical analyser

    Theorems on the lexical analyser of Conf.v.  A text is read through the
    pushback buffer and the file; every token of the grammar has a text that
    yylex() reads back, whatever follows it.  And yylex() ends on every
    input. *)
From stdpp Require Import base list strings.
From Stdlib Require Import Ascii.
From S2P Require Import Prelude CString CNum NetAddr InetNet IfData Conf.

#[local] Arguments Z.eqb : simpl never.
#[local] Arguments Z.ltb : simpl never.
#[local] Arguments Z.leb : simpl never.
#[local] Arguments Z.add : simpl never.

(** ** A text to be read *)

(** Everything but the input is the same. *)
Definition same_rest (st st' : lstate) : Prop :=
  l_syms st' = l_syms st ∧ l_la st' = l_la st ∧ l_env st' = l_env st.

Lemma same_rest_refl st : same_rest st st.
Proof. done. Qed.

Lemma same_rest_trans st1 st2 st3 : same_rest st1 st2 → same_rest st2 st3 → same_rest st1 st3.
Proof. unfold same_rest. intuition congruence. Qed.

(** The input is [text], the first [n] characters of which are pushed back. *)
Record reads_at (pb : list ascii) (text : list ascii) (st : lstate) : Prop := {
  ra_buf : l_parsebuf st = None;
  ra_pushback : l_pushback st = map uch pb;
  ra_files : l_files st = [text];
}.

(** The input is [text]; at most one character of it is pushed back. *)
Definition reads (text : list ascii) (st : lstate) : Prop :=
  reads_at [] text st ∨ ∃ a text', text = a :: text' ∧ uch a < 128 ∧ reads_at [a] text' st.

Lemma reads_size text st : reads text st → (length text < l_size st)%nat.
Proof.
  intros [[Hb Hp Hf]|(a & t & -> & _ & [Hb Hp Hf])]; unfold l_size, l_input; rewrite Hb, Hp, Hf; simpl;
    rewrite length_app; simpl; lia.
Qed.

Lemma uch_not_EOF a : (uch a =? EOF) = false.
Proof. pose proof (uch_range a). apply Z.eqb_neq. unfold EOF. lia. Qed.

Lemma getc_escaped_plain a s : a ≠ "\"%char → getc_escaped (a :: s) = (uch a, s).
Proof. intros Ha. cbn [getc_escaped]. by rewrite (proj2 (Ascii.eqb_neq _ _)). Qed.

(** Reading a character: outside quotes it must not be a backslash. *)
Lemma lgetc_reads q a text st :
  reads (a :: text) st → q ≠ 0 ∨ a ≠ "\"%char →
  wp (lgetc q) (λ c st', c = uch a ∧ reads_at [] text st' ∧ same_rest st st') st.
Proof.
  intros Hr Hq. pose proof (uch_range a) as Hu.
  unfold wp, lgetc. run_unfold.
  destruct Hr as [[Hb Hp Hf]|(a' & t & [= <- <-] & _ & [Hb Hp Hf])]; rewrite Hb;
    unfold lgetc_pushback; run_unfold; rewrite Hp; cbn [map]; [|by repeat split].
  unfold lgetc_file. run_unfold. rewrite Hf. destruct (Z.eqb_spec q 0) as [->|]; cbn [negb].
  - destruct Hq as [|Ha]; [done|]. rewrite getc_escaped_plain by done.
    rewrite (proj2 (Z.eqb_neq (uch a) EOF)) by (unfold EOF; lia). by repeat split.
  - by repeat split.
Qed.

Lemma lgetc_end st :
  reads [] st → wp (lgetc 0) (λ c st', c = EOF ∧ reads_at [] [] st' ∧ same_rest st st') st.
Proof.
  intros [[Hb Hp Hf]|(a & t & [=] & _)]. unfold wp, lgetc. run_unfold. rewrite Hb.
  unfold lgetc_pushback. run_unfold. rewrite Hp. cbn [map]. unfold lgetc_file. run_unfold.
  rewrite Hf. cbn. by repeat split.
Qed.

Lemma of_to_char a : uch a < 128 → of_char (to_char (uch a)) = uch a.
Proof. destruct a as [[] [] [] [] [] [] [] []]; vm_compute; intros H; done || discriminate H. Qed.

Lemma to_char_uch a : to_char (uch a) = a.
Proof. by destruct a as [[] [] [] [] [] [] [] []]. Qed.

(** Giving a character back. *)
Lemma lungetc_reads a text st :
  reads_at [] text st → uch a < 128 →
  wp (lungetc (uch a)) (λ _ st', reads (a :: text) st' ∧ same_rest st st') st.
Proof.
  intros [Hb Hp Hf] Ha. pose proof (uch_range a). unfold wp, lungetc.
  rewrite (proj2 (Z.eqb_neq (uch a) EOF)) by (unfold EOF; lia). run_unfold.
  destruct st. simpl in *. subst. rewrite bool_decide_false by (intros [? [=]]). cbn.
  rewrite of_to_char by done. split; [|done]. right. by exists a, text.
Qed.

Lemma lungetc_end text st :
  reads_at [] text st → wp (lungetc EOF) (λ _ st', reads text st' ∧ same_rest st st') st.
Proof. intros H. split; [by left|done]. Qed.

(** ** The loops *)

(** The loops run with more fuel than there is input. *)
Lemma wp_loop {A} (body : nat → CM lstate A) Q text st :
  reads text st → (∀ fuel, (length text < fuel)%nat → wp (body fuel) Q st) → wp (loop body) Q st.
Proof.
  intros Hr Hb. unfold loop. apply wp_bind, wp_gets, Hb. pose proof (reads_size _ _ Hr). lia.
Qed.

(** A bind on a read. *)
Lemma wp_lgetc {A} q a text st (f : Z → CM lstate A) Q :
  reads (a :: text) st → q ≠ 0 ∨ a ≠ "\"%char →
  (∀ st', reads_at [] text st' → same_rest st st' → wp (f (uch a)) Q st') →
  wp (lgetc q ≫= f) Q st.
Proof.
  intros Hr Hq Hf. eapply wp_bind, wp_mono; [by apply lgetc_reads|].
  intros c st' (-> & Hr' & Hs). by apply Hf.
Qed.

Lemma wp_lungetc {A} a text st (f : unit → CM lstate A) Q :
  reads_at [] text st → uch a < 128 →
  (∀ st', reads (a :: text) st' → same_rest st st' → wp (f tt) Q st') →
  wp (lungetc (uch a) ≫= f) Q st.
Proof.
  intros Hr Ha Hf. eapply wp_bind, wp_mono; [by apply lungetc_reads|].
  intros [] st' [Hr' Hs]. by apply Hf.
Qed.

Definition no_backslash (l : list ascii) : Prop := Forall (λ a, a ≠ "\"%char) l.

Lemma skip_until_spec stop bl a text st fuel :
  Forall (λ b, stop (uch b) = false) bl → no_backslash (bl ++ [a]) → stop (uch a) = true →
  reads (bl ++ a :: text) st → (length bl < fuel)%nat →
  wp (skip_until stop fuel) (λ c st', c = uch a ∧ reads_at [] text st' ∧ same_rest st st') st.
Proof.
  revert bl st. induction fuel as [|fuel IH]; intros bl st Hbl Hn Ha Hr Hf; [lia|]. cbn [skip_until].
  destruct bl as [|b bl]; apply list.Forall_cons_1 in Hn as [Hb Hn].
  - apply (wp_lgetc 0 a text); [done|by right|]. intros st' Hr' Hs. rewrite Ha. by apply wp_ret.
  - apply list.Forall_cons_1 in Hbl as [Hsb Hbl].
    apply (wp_lgetc 0 b (bl ++ a :: text)); [done|by right|]. intros st' Hr' Hs. rewrite Hsb.
    eapply wp_mono; [apply (IH bl); [done..|by left|simpl in Hf; lia]|].
    intros c st2 (-> & Hr2 & Hs2). split_and!; [done..|by eapply same_rest_trans].
Qed.

(** A word and the character after it. *)
Lemma word_spec more buf a w x text st fuel :
  Forall (λ b, more (uch b) = true) w → no_backslash (w ++ [x]) → more (uch x) = false →
  Zlen (buf ++ a :: w) < BUFSIZE → reads (w ++ x :: text) st → (length w < fuel)%nat →
  wp (word more buf (uch a) fuel)
    (λ r st', r = (buf ++ a :: w, uch x) ∧ reads_at [] text st' ∧ same_rest st st') st.
Proof.
  revert buf a w st. induction fuel as [|fuel IH]; intros buf a w st Hw Hn Hx Hlen Hr Hf; [lia|].
  cbn [word]. cbv zeta. rewrite to_char_uch. rewrite (proj2 (Z.leb_gt BUFSIZE _)).
  2: { rewrite !Zlen_app, Zlen_cons in Hlen. rewrite Zlen_app, Zlen_cons, Zlen_nil.
       pose proof (Zlen_nonneg w). lia. }
  destruct w as [|b w]; apply list.Forall_cons_1 in Hn as [Hb Hn].
  - apply (wp_lgetc 0 x text); [done|by right|]. intros st' Hr' Hs. rewrite uch_not_EOF, Hx. by apply wp_ret.
  - apply list.Forall_cons_1 in Hw as [Hmb Hw].
    apply (wp_lgetc 0 b (w ++ x :: text)); [done|by right|]. intros st' Hr' Hs. rewrite uch_not_EOF, Hmb.
    cbn [negb andb]. eapply wp_mono; [apply (IH (buf ++ [a]) b w); [done..| |by left|simpl in Hf; lia]|].
    + by rewrite <- app_assoc.
    + intros r st2 (-> & Hr2 & Hs2). rewrite <- app_assoc.
      split_and!; [done..|by eapply same_rest_trans].
Qed.

(** ** Quoted strings *)

Definition dquote : ascii := "034".

(** A quote is written with a backslash before it. *)
Fixpoint escape (s : list ascii) : list ascii :=
  match s with
  | [] => []
  | c :: s => if Ascii.eqb c dquote then "\"%char :: dquote :: escape s else c :: escape s
  end.

(** Characters that a quoted string keeps. *)
Definition plain (c : ascii) : Prop := 0 < uch c < 128 ∧ uch c ≠ nl_c.

(** The string does not end with a backslash. *)
Definition str_ok (s : list ascii) : Prop :=
  Forall plain s ∧ list.last s ≠ Some "\"%char ∧ Zlen s < BUFSIZE - 2.

(** The conditions can be tested. *)
Definition str_okb (s : list ascii) : bool :=
  forallb (λ c, (0 <? uch c) && (uch c <? 128) && negb (uch c =? nl_c)) s
  && negb (bool_decide (list.last s = Some "\"%char)) && (Zlen s <? BUFSIZE - 2).

Lemma str_okb_ok s : str_okb s = true → str_ok s.
Proof.
  intros [[Hp Hl%negb_true_iff%bool_decide_eq_false]%andb_true_iff Hlen%Z.ltb_lt]%andb_true_iff.
  split_and!; [|done|done]. apply list.Forall_forall. intros c Hc. rewrite forallb_forall in Hp.
  apply list_elem_of_In in Hc. specialize (Hp c Hc). unfold plain. lia.
Qed.

Lemma escape_head s :
  Forall plain s → s ≠ [] → ∃ x rest, escape s = x :: rest ∧ x ≠ dquote ∧ plain x.
Proof.
  destruct s as [|c s]; [done|]. intros Hp _. apply list.Forall_cons_1 in Hp as [Hc _].
  cbn [escape]. destruct (Ascii.eqb_spec c dquote); by eexists _, _.
Qed.

(** One character of a string. *)
Lemma quoted_char buf c s text st fuel Q :
  plain c → Forall plain s → (c = "\"%char → s ≠ []) → Zlen buf < BUFSIZE - 2 →
  reads (escape (c :: s) ++ dquote :: text) st →
  (∀ st1, reads (escape s ++ dquote :: text) st1 → same_rest st st1 →
     wp (quoted (uch dquote) (buf ++ [c]) fuel) Q st1) →
  wp (quoted (uch dquote) buf (S fuel)) Q st.
Proof.
  intros [Hc Hnl] Hp Hbsl Hlen Hr Hgo. cbn [quoted]. cbv zeta.
  assert ((BUFSIZE - 1 <=? Zlen buf + 1) = false) as Hb by (apply Z.leb_gt; lia).
  cbn [escape] in Hr. destruct (Ascii.eqb_spec c dquote) as [->|Hd].
  { apply (wp_lgetc _ "\" (dquote :: escape s ++ dquote :: text)); [done|by left|].
    intros st1 Hr1 Hs1. rewrite uch_not_EOF. cbn -[lgetc quoted].
    apply (wp_lgetc _ dquote (escape s ++ dquote :: text)); [by left|by left|].
    intros st2 Hr2 Hs2. rewrite uch_not_EOF. cbn -[quoted]. rewrite Hb, to_char_uch.
    apply Hgo; [by left|by eapply same_rest_trans]. }
  apply (wp_lgetc _ c (escape s ++ dquote :: text)); [done|by left|].
  intros st1 Hr1 Hs1. rewrite uch_not_EOF, (proj2 (Z.eqb_neq _ _) Hnl).
  destruct (Z.eqb_spec (uch c) (ch "\")) as [Ebs%uch_inj|Hbs].
  - destruct (escape_head s Hp (Hbsl Ebs)) as (x & rest & Ex & Hx & [Hx1 Hx2]). rewrite Ex in *.
    apply (wp_lgetc _ x (rest ++ dquote :: text)); [by left|by left|]. intros st2 Hr2 Hs2.
    rewrite uch_not_EOF, (proj2 (Z.eqb_neq (uch x) (uch dquote))) by (by intros E%uch_inj).
    rewrite Ebs. cbn -[lungetc quoted]. rewrite (proj2 (Z.eqb_neq (uch x) _) Hx2).
    apply (wp_lungetc x (rest ++ dquote :: text)); [done|lia|]. intros st3 Hr3 Hs3.
    rewrite Hb, <- Ebs, to_char_uch.
    apply Hgo; [done|]. eapply same_rest_trans; [|done]. by eapply same_rest_trans.
  - rewrite (proj2 (Z.eqb_neq (uch c) (uch dquote))) by (by intros E%uch_inj).
    rewrite Hb, to_char_uch. apply Hgo; [by left|done].
Qed.

Lemma quoted_spec buf s text st fuel :
  Forall plain s → list.last s ≠ Some "\"%char → Zlen (buf ++ s) < BUFSIZE - 2 →
  reads (escape s ++ dquote :: text) st → (length s < fuel)%nat →
  wp (quoted (uch dquote) buf fuel)
    (λ r st', r = Some (buf ++ s) ∧ reads_at [] text st' ∧ same_rest st st') st.
Proof.
  revert buf s st. induction fuel as [|fuel IH]; intros buf s st Hp Hl Hlen Hr Hf; [lia|].
  destruct s as [|c s].
  - cbn [quoted]. cbv zeta. apply (wp_lgetc _ dquote text); [done|by left|]. intros st' Hr' Hs.
    rewrite uch_not_EOF. cbn. rewrite app_nil_r. by split_and!.
  - apply list.Forall_cons_1 in Hp as [Hc Hp]. pose proof (Zlen_nonneg s).
    eapply (quoted_char _ c s); [done|done| | |done|].
    + intros -> ->. by apply Hl.
    + rewrite Zlen_app, Zlen_cons in Hlen. lia.
    + intros st1 Hr1 Hs1. eapply wp_mono; [apply (IH (buf ++ [c]) s); [done| | |done|simpl in Hf; lia]|].
      * destruct s; [done|]. by rewrite list.last_cons_cons in Hl.
      * by rewrite <- app_assoc.
      * intros r st2 (-> & Hr2 & Hs2). rewrite <- app_assoc.
        split_and!; [done..|by eapply same_rest_trans].
Qed.

(** ** Numbers *)

Fixpoint digits (fuel : nat) (n : Z) : list ascii :=
  match fuel with
  | O => []
  | S fuel => if n <? 10 then [dec_char n] else digits fuel (n `div` 10) ++ [dec_char (n `mod` 10)]
  end.

(** Twenty digits are enough for a long long. *)
Definition decimal (n : Z) : list ascii :=
  if n <? 0 then "-"%char :: digits 20 (- n) else digits 20 n.

Lemma dec_char_digit k : 0 ≤ k < 10 → isdigit (dec_char k) = true ∧ decimal_digit (dec_char k) = Some k.
Proof.
  intros Hk. pose proof (decide_below (λ k, isdigit (dec_char k)
    && bool_decide (decimal_digit (dec_char k) = Some k)) 10 eq_refl k Hk) as H.
  by apply andb_true_iff in H as [? ?%bool_decide_eq_true].
Qed.

Lemma digits_spec fuel n :
  (0 < fuel)%nat → 0 ≤ n < 10 ^ Z.of_nat fuel →
  Forall (λ c, isdigit c = true) (digits fuel n) ∧ digits fuel n ≠ []
  ∧ (length (digits fuel n) ≤ fuel)%nat
  ∧ ∃ ds, mapM decimal_digit (digits fuel n) = Some ds ∧ value 10 0 ds = n.
Proof.
  revert n. induction fuel as [|fuel IH]; intros n Hf Hn; [lia|]. cbn [digits].
  destruct (Z.ltb_spec n 10) as [Hs|Hs].
  - destruct (dec_char_digit n) as [H1 H2]; [lia|]. split_and!; [by repeat constructor|done|simpl; lia|].
    exists [n]. simpl. by rewrite H2.
  - assert (0 < fuel)%nat as Hf' by (destruct fuel; [simpl in Hn; lia|lia]).
    rewrite Nat2Z.inj_succ, Z.pow_succ_r in Hn by lia.
    destruct (IH (n `div` 10)) as (Hd & Hne & Hl & ds & Hm & Hv); [done| |].
    { split; [apply Z.div_pos; lia|apply Z.div_lt_upper_bound; lia]. }
    destruct (dec_char_digit (n `mod` 10)) as [H1 H2]; [apply Z.mod_pos_bound; lia|].
    split_and!; [apply list.Forall_app; split; [done|by repeat constructor]|by destruct (digits fuel _)
      |rewrite length_app; simpl; lia|].
    exists (ds ++ [n `mod` 10]). split.
    + apply mapM_Some. apply mapM_Some in Hm. apply Forall2_app; [done|]. by repeat constructor.
    + unfold value in *. rewrite fold_left_app, Hv. simpl. pose proof (Z.div_mod n 10). lia.
Qed.

Definition longlong (n : Z) : Prop := LLONG_MIN ≤ n ≤ LLONG_MAX.

(** The text of a number begins with a sign or a digit, goes on with digits,
    and denotes it. *)
Lemma decimal_spec n :
  longlong n →
  ∃ c l, decimal n = c :: l ∧ (c = "-"%char ∧ l ≠ [] ∨ isdigit c = true)
    ∧ Forall (λ c, isdigit c = true) l ∧ (length l ≤ 20)%nat
    ∧ strtonum_s (String.string_of_list_ascii (c :: l)) LLONG_MIN LLONG_MAX = inl n.
Proof.
  intros Hn. unfold longlong, LLONG_MIN, LLONG_MAX in Hn.
  assert (∀ s v, numeral s = Some v → v = n → strtonum_s s LLONG_MIN LLONG_MAX = inl n) as Hnum.
  { intros s v Hs ->. unfold strtonum_s. rewrite Hs. unfold LLONG_MIN, LLONG_MAX.
    by rewrite !(proj2 (Z.ltb_ge _ _)) by lia. }
  unfold decimal. destruct (Z.ltb_spec n 0).
  - destruct (digits_spec 20 (- n)) as (Hd & Hne & Hl & ds & Hm & Hv); [lia|lia|].
    exists "-"%char, (digits 20 (- n)). split_and!; [done|by left|done|lia|].
    apply (Hnum _ (- - n)); [|lia]. unfold numeral. rewrite bytes_of_list.
    cbn [drop_space isspace]. change (split_sign _) with (true, digits 20 (- n)). cbv beta iota.
    destruct (digits 20 (- n)); [done|]. rewrite Hm. cbn. by rewrite Hv.
  - destruct (digits_spec 20 n) as (Hd & Hne & Hl & ds & Hm & Hv); [lia|lia|].
    destruct (digits 20 n) as [|c l] eqn:E; [done|]. apply list.Forall_cons_1 in Hd as [Hc Hd].
    exists c, l. split_and!; [done|by right|done|simpl in Hl; lia|].
    apply (Hnum _ n); [|done]. unfold numeral. rewrite bytes_of_list.
    assert (drop_space (c :: l) = c :: l ∧ split_sign (c :: l) = (false, c :: l)) as [-> ->].
    { by destruct c as [[] [] [] [] [] [] [] []]. }
    cbv beta iota. rewrite Hm. cbn. by rewrite Hv.
Qed.

(** ** Tokens and their texts *)

Definition kw_name (k : kw) : string :=
  from_option fst "" (snd <$> list_find (λ e, e.2 = k) conf_keywords).

(** The characters that are tokens whatever comes after them. *)
Definition single (c : Z) : bool :=
  (0 <? c) && (c <? 128) && negb (ctype is_alnum c) && negb (one_of " :_-#$'\" c)
  && negb (c =? tab_c) && negb (c =? 34).

Definition token_chars (t : token) : list ascii :=
  match t with
  | T_end => []
  | T_char c => [to_char c]
  | T_kw k => bytes (kw_name k)
  | STRING s => dquote :: escape (bytes s) ++ [dquote]
  | NUMBER n => decimal n
  end.

(** A token and a space. *)
Definition token_text (t : token) : list ascii := token_chars t ++ [" "%char].

Definition token_ok (t : token) : Prop :=
  match t with
  | T_end => False
  | T_char c => single c = true
  | T_kw _ => True
  | STRING s => str_ok (bytes s)
  | NUMBER n => longlong n
  end.

Definition tokens_text (ts : list token) : list ascii := concat (map token_text ts).

(** ** yylex on a text *)

(** The state after a token: what the allocator may still answer is a part of
    what it could answer before. *)
Definition lexed (text : list ascii) (st st' : lstate) : Prop :=
  reads text st' ∧ l_syms st' = l_syms st ∧ l_la st' = l_la st
  ∧ alloc_never_fails (l_env st').

Lemma wp_must_alloc {A} text st (f : unit → CM lstate A) Q :
  reads text st → alloc_never_fails (l_env st) →
  (∀ st', lexed text st st' → wp (f tt) Q st') → wp (must_alloc ≫= f) Q st.
Proof.
  intros Hr Ha Hf. unfold must_alloc, lenv. unfold wp, mbind, CM_bind, zoom.
  destruct (alloc_ok_spec (l_env st)) as (b & c' & E & _ & Hb). rewrite E.
  destruct (Hb Ha) as [-> Ha']. run_unfold. apply Hf. split_and!; try done.
  destruct Hr as [[]|(a & t & ? & ? & [])]; [left|right; exists a, t; split_and!]; done.
Qed.

Lemma same_lexed text st st' :
  reads text st' → same_rest st st' → alloc_never_fails (l_env st) → lexed text st st'.
Proof. intros Hr (? & ? & E) Ha. split_and!; [done..|]. by rewrite E. Qed.

Lemma lex_string s text st :
  str_ok (bytes s) → reads (escape (bytes s) ++ dquote :: text) st → alloc_never_fails (l_env st) →
  wp (lex_rest (uch dquote)) (λ t st', t = STRING s ∧ lexed text st st') st.
Proof.
  intros (Hp & Hl & Hlen) Hr Ha. unfold lex_rest. cbn [orb]. change (one_of "'" (uch dquote) || _) with true.
  cbv beta iota. eapply wp_bind. eapply (wp_loop _ _ _ _ Hr). intros fuel Hf.
  eapply wp_mono; [apply (quoted_spec [] (bytes s) text); [done..|]|].
  - rewrite length_app in Hf. simpl in Hf.
    assert (length (bytes s) ≤ length (escape (bytes s)))%nat; [|lia]. clear.
    induction (bytes s) as [|c l IH]; simpl; [lia|]. case_match; simpl; lia.
  - intros r st1 (-> & Hr1 & Hs1). unfold strdup. cbn [app].
    assert (alloc_never_fails (l_env st1)) as Ha1 by (by destruct Hs1 as (_ & _ & ->)).
    apply wp_bind. eapply wp_must_alloc; [by left|done|]. intros st2 (Hr2 & E1 & E2 & Ha2).
    apply wp_ret, wp_ret. split; [|destruct Hs1 as (? & ? & ?); split_and!; congruence || done].
    f_equal. apply bytes_inj. clear -Hp. unfold bytes. induction s as [|c s IH]; [done|]. simpl in *.
    apply list.Forall_cons_1 in Hp as [[Hc _] Hp].
    destruct (is_nul c) eqn:E; [apply is_nul_spec in E as ->; by destruct Hc|].
    simpl. by rewrite IH.
Qed.

Lemma ctype_uch f a : ctype f (uch a) = f a.
Proof. unfold ctype. by rewrite uch_not_EOF, to_char_uch. Qed.

Lemma digit_no_backslash l : Forall (λ c, isdigit c = true) l → no_backslash (l ++ [" "%char]).
Proof.
  intros H. apply list.Forall_app. split; [|by repeat constructor].
  eapply list.Forall_impl; [exact H|]. by intros c Hc ->.
Qed.

Lemma lex_number_text n c l text st :
  longlong n → decimal n = c :: l → reads (l ++ " "%char :: text) st → alloc_never_fails (l_env st) →
  wp (lex_rest (uch c)) (λ t st', t = NUMBER n ∧ lexed (" "%char :: text) st st') st.
Proof.
  intros Hn E Hr Ha. destruct (decimal_spec n Hn) as (c' & l' & E' & Hc & Hl & Hlen & Hnum).
  rewrite E in E'. injection E' as <- <-.
  assert (Zlen ([] ++ c :: l) < BUFSIZE) as Hb
    by (rewrite app_nil_l, Zlen_cons; unfold Zlen, BUFSIZE; lia).
  unfold lex_rest. rewrite ctype_uch.
  assert ((one_of "'" (uch c) || (uch c =? 34)) = false ∧ ((uch c =? ch "-") || isdigit c) = true
    ∧ (bool_decide (c :: l = ["-"%char]) = false)) as (-> & -> & Hm).
  { split_and!; [destruct Hc as [[-> _]|Hc]; [done|by destruct c as [[] [] [] [] [] [] [] []]]
      |destruct Hc as [[-> _]| ->]; [done|by rewrite orb_true_r]|].
    apply bool_decide_eq_false. intros [= -> ->]. destruct Hc as [[_ Hc]|Hc]; done. }
  apply wp_bind. unfold lex_number. eapply wp_bind, (wp_loop _ _ _ _ Hr). intros fuel Hf.
  eapply wp_mono; [apply (word_spec _ [] c l " " text)|].
  - eapply list.Forall_impl; [exact Hl|]. intros b. by rewrite ctype_uch.
  - by apply digit_no_backslash.
  - done.
  - done.
  - done.
  - rewrite length_app in Hf. lia.
  - intros r st1 (-> & Hr1 & Hs1). cbv beta iota. apply (wp_lungetc " " text); [done..|].
    intros st2 Hr2 Hs2. cbn [app]. rewrite Hm. cbn [negb andb].
    change ((uch " " =? EOF) || allowed_to_end_number (uch " ")) with true. cbv beta iota.
    rewrite Hnum. apply wp_ret, wp_ret. split; [done|].
    apply same_lexed; [done|by eapply same_rest_trans|done].
Qed.

(** The keywords are words that the table holds. *)
Definition kw_ok (k : kw) : bool :=
  match bytes (kw_name k) with
  | [] => false
  | c :: l =>
      is_alnum c && negb (isdigit c) && negb (one_of "'-" (uch c)) && negb (uch c =? 34)
      && forallb (λ b, allowed_in_string (uch b) && negb (Ascii.eqb b "\")) l
      && (Zlen (c :: l) <? BUFSIZE)
      && bool_decide (kw_lookup (until_nul (c :: l)) = Some (Some k))
  end.

Lemma kws_ok k : kw_ok k = true.
Proof. by destruct k; vm_compute. Qed.

Lemma lex_keyword k c l text st :
  bytes (kw_name k) = c :: l → reads (l ++ " "%char :: text) st → alloc_never_fails (l_env st) →
  wp (lex_rest (uch c)) (λ t st', t = T_kw k ∧ lexed (" "%char :: text) st st') st.
Proof.
  intros E Hr Ha. pose proof (kws_ok k) as Hk. unfold kw_ok in Hk. rewrite E in Hk.
  apply andb_true_iff in Hk as [Hk Hlook%bool_decide_eq_true].
  apply andb_true_iff in Hk as [Hk Hlen%Z.ltb_lt].
  apply andb_true_iff in Hk as [Hk Hl]. apply andb_true_iff in Hk as [Hk Hq%negb_true_iff].
  apply andb_true_iff in Hk as [[Ha1 Hd%negb_true_iff]%andb_true_iff Hs%negb_true_iff].
  unfold one_of in Hs. cbn [bytes String.list_ascii_of_string existsb] in Hs.
  apply orb_false_iff in Hs as [Hs1 [Hs2 _]%orb_false_iff].
  unfold lex_rest, one_of. cbn [bytes String.list_ascii_of_string existsb].
  rewrite Hs1, Hs2, Hq, ctype_uch, Hd. cbn [orb]. unfold lex_word. rewrite ctype_uch, Ha1. cbn [orb].
  eapply wp_bind, (wp_loop _ _ _ _ Hr). intros fuel Hf.
  assert (Forall (λ b, allowed_in_string (uch b) = true ∧ b ≠ "\"%char) l) as Hl'.
  { apply list.Forall_forall. intros b Hb. rewrite forallb_forall in Hl.
    apply list_elem_of_In in Hb. specialize (Hl b Hb).
    apply andb_true_iff in Hl as [? ?%negb_true_iff%Ascii.eqb_neq]. done. }
  eapply wp_mono; [apply (word_spec _ [] c l " " text)|].
  - eapply list.Forall_impl; [exact Hl'|]. by intros b [].
  - apply list.Forall_app. split; [|by repeat constructor].
    eapply list.Forall_impl; [exact Hl'|]. by intros b [].
  - done.
  - done.
  - done.
  - rewrite length_app in Hf. lia.
  - intros r st1 (-> & Hr1 & Hs1'). cbv beta iota. apply (wp_lungetc " " text); [done..|].
    intros st2 Hr2 Hs2'. cbn [app]. rewrite Hlook. apply wp_ret. split; [done|].
    apply same_lexed; [done|by eapply same_rest_trans|done].
Qed.

(** A character that ends the skipping of blanks and is an ordinary one. *)
Definition first_ok (a : ascii) : bool :=
  negb (existsb (Ascii.eqb a) [" "; "009"; "#"; "$"; "\"]%char).

Lemma first_ok_ne a b :
  first_ok a = true → b ∈ [" "; "009"; "#"; "$"; "\"]%char → a ≠ b ∧ (uch a =? ch b) = false.
Proof.
  intros Ha%negb_true_iff Hb. assert (a ≠ b) as Hne.
  { intros ->. apply list_elem_of_In in Hb.
    assert (existsb (Ascii.eqb b) [" "; "009"; "#"; "$"; "\"]%char = true) as E; [|congruence].
    apply existsb_exists. exists b. split; [done|]. apply Ascii.eqb_refl. }
  split; [done|]. apply Z.eqb_neq. by intros ?%uch_inj.
Qed.

Definition single_facts (c : Z) : bool :=
  (uch (to_char c) =? c) && first_ok (to_char c)
  && negb (one_of "'" c || (c =? 34) || ((c =? ch "-") || ctype isdigit c)
           || (ctype is_alnum c || (c =? ch ":") || (c =? ch "_")) || (c <=? 0)).

Lemma single_spec c : single c = true → single_facts c = true.
Proof.
  intros H. assert (0 ≤ c < 128) as Hc by (unfold single in H; lia).
  pose proof (decide_below (λ c, negb (single c) || single_facts c) 128 eq_refl c Hc) as Hd.
  cbv beta in Hd. by rewrite H in Hd.
Qed.

(** The first character of a token ends the skipping of blanks. *)
Lemma token_first t :
  token_ok t → ∃ c l, token_chars t = c :: l ∧ first_ok c = true.
Proof.
  destruct t as [|c|k|s|n]; cbn [token_ok token_chars]; intros Ht.
  - done.
  - exists (to_char c), []. split; [done|]. apply single_spec in Ht.
    by apply andb_true_iff in Ht as [[_ ?]%andb_true_iff _].
  - exists (default NUL (head (bytes (kw_name k)))), (tail (bytes (kw_name k))). by destruct k.
  - by eexists _, _.
  - destruct (decimal_spec n Ht) as (c & l & E & Hc & _). exists c, l. split; [done|].
    destruct Hc as [[-> _]|Hc]; [done|]. by destruct c as [[] [] [] [] [] [] [] []].
Qed.

Lemma lex_rest_token t c l rest st :
  token_ok t → token_chars t = c :: l → reads (l ++ " "%char :: rest) st →
  alloc_never_fails (l_env st) →
  wp (lex_rest (uch c)) (λ t' st', t' = t ∧ lexed (" "%char :: rest) st st') st.
Proof.
  destruct t as [|k|k|s|n]; cbn [token_ok token_chars]; intros Ht E Hr Ha.
  - done.
  - injection E as <- <-.
    apply single_spec in Ht. unfold single_facts in Ht.
    apply andb_true_iff in Ht as [[Hu%Z.eqb_eq _]%andb_true_iff Ht%negb_true_iff].
    apply orb_false_iff in Ht as [[[H1 H2]%orb_false_iff H3]%orb_false_iff H4].
    rewrite Hu. unfold lex_rest, lex_word, char_token. rewrite H1, H2, H3, H4.
    apply wp_ret. split; [done|]. by apply same_lexed.
  - by apply (lex_keyword k c l).
  - injection E as <- <-. rewrite <- app_assoc in Hr. by apply lex_string.
  - by apply (lex_number_text n c l).
Qed.

(** Blanks before a token: none or one. *)
Definition gap (bl : list ascii) : Prop := bl = [] ∨ bl = [" "%char].

Lemma yylex_token bl t rest st :
  gap bl → token_ok t → reads (bl ++ token_text t ++ rest) st → alloc_never_fails (l_env st) →
  wp yylex (λ t' st', t' = t ∧ lexed (" "%char :: rest) st st') st.
Proof.
  intros Hg Ht Hr Ha. destruct (token_first t Ht) as (c & l & E & Hc).
  unfold token_text in Hr. rewrite E, <- app_assoc in Hr. cbn [app] in Hr.
  pose proof (λ b, first_ok_ne c b Hc) as Hne.
  destruct (Hne " "%char) as [_ H1]; [compute_done|]. destruct (Hne "009"%char) as [_ H2]; [compute_done|].
  destruct (Hne "#"%char) as [_ H3]; [compute_done|]. destruct (Hne "$"%char) as [_ H4]; [compute_done|].
  destruct (Hne "\"%char) as [H5 _]; [compute_done|]. change (ch "009") with tab_c in H2.
  unfold yylex. apply (wp_loop _ _ _ _ Hr). intros fuel Hf. destruct fuel as [|fuel]; [lia|].
  cbn [yylex_top]. eapply wp_bind, (wp_loop _ _ _ _ Hr). intros fuel' Hf'.
  eapply wp_mono; [apply (skip_until_spec _ bl c (l ++ " "%char :: rest))|].
  - destruct Hg as [-> | ->]; by repeat constructor.
  - apply list.Forall_app. split; [destruct Hg as [-> | ->]; by repeat constructor|by repeat constructor].
  - by rewrite H1, H2.
  - done.
  - rewrite length_app in Hf'. lia.
  - intros c' st1 (-> & Hr1 & Hs1). rewrite H3.
    apply wp_bind, wp_ret. apply wp_bind, wp_gets. rewrite H4. cbn [andb].
    assert (alloc_never_fails (l_env st1)) as Ha1 by (by destruct Hs1 as (_ & _ & ->)).
    eapply wp_mono; [apply (lex_rest_token t c l rest); [done..|by left|done]|].
    intros t' st2 (-> & Hr2 & E1 & E2 & Ha2). destruct Hs1 as (? & ? & ?).
    split; [done|]. split_and!; congruence || done.
Qed.

Lemma yylex_end bl st :
  gap bl → reads bl st → alloc_never_fails (l_env st) →
  wp yylex (λ t st', t = T_end ∧ lexed [] st st') st.
Proof.
  intros Hg Hr Ha. unfold yylex. apply (wp_loop _ _ _ _ Hr). intros fuel Hf.
  destruct fuel as [|fuel]; [lia|]. cbn [yylex_top].
  eapply wp_bind, (wp_loop _ _ _ _ Hr). intros fuel' Hf'.
  apply (wp_mono _ (λ c st', c = EOF ∧ reads [] st' ∧ same_rest st st')).
  - destruct fuel' as [|fuel']; [lia|]. destruct Hg as [-> | ->]; cbn [skip_until].
    + eapply wp_bind, wp_mono; [by apply lgetc_end|]. intros c st1 (-> & Hr1 & Hs1).
      apply wp_ret. split_and!; [done|by left|done].
    + apply (wp_lgetc 0 " " []); [done|by right|]. intros st1 Hr1 Hs1.
      destruct fuel' as [|fuel']; [simpl in Hf'; lia|]. cbn -[lgetc].
      eapply wp_bind, wp_mono; [apply lgetc_end; by left|]. intros c st2 (-> & Hr2 & Hs2).
      apply wp_ret. split_and!; [done|by left|by eapply same_rest_trans].
  - intros c st1 (-> & Hr1 & Hs1). cbn -[lex_rest]. apply wp_ret. split; [done|]. by apply same_lexed.
Qed.

(** ** Reading a list of tokens *)

(** As many calls of yylex() as there are tokens. *)
Fixpoint lex_tokens (n : nat) : CM lstate (list token) :=
  match n with
  | O => mret []
  | S n => t ← yylex; ts ← lex_tokens n; mret (t :: ts)
  end.

Lemma lex_tokens_spec ts bl st :
  gap bl → Forall token_ok ts → reads (bl ++ tokens_text ts) st → alloc_never_fails (l_env st) →
  wp (lex_tokens (S (length ts))) (λ r st', r = ts ++ [T_end] ∧ reads [] st') st.
Proof.
  revert bl st. induction ts as [|t ts IH]; intros bl st Hg Ht Hr Ha.
  - cbn [tokens_text map concat length lex_tokens] in *. rewrite app_nil_r in Hr.
    eapply wp_bind, wp_mono; [by apply (yylex_end bl)|]. intros t st1 (-> & Hr1 & _).
    apply wp_ret, wp_ret. done.
  - apply list.Forall_cons_1 in Ht as [Ht Hts]. cbn [length lex_tokens].
    eapply wp_bind, wp_mono; [by apply (yylex_token bl t (tokens_text ts))|].
    intros t' st1 (-> & Hr1 & _ & _ & Ha1). apply wp_bind.
    eapply wp_mono; [apply (IH [" "%char]); [by right|done|done|done]|].
    intros r st2 (-> & Hr2). by apply wp_ret.
Qed.

(** ** Every loop ends

    [halts m Q st]: [m] does not run out of fuel, and [Q] holds if it
    returns. *)

Definition halts {A} (m : CM lstate A) (Q : A → lstate → Prop) (st : lstate) : Prop :=
  match m st with (Ok a, st') => Q a st' | (Stop w, _) => w ≠ SFuel end.

Lemma halts_ret {A} (a : A) (Q : A → lstate → Prop) st : Q a st → halts (mret a) Q st.
Proof. done. Qed.

Lemma halts_error {A} (Q : A → lstate → Prop) st : halts yyerror Q st.
Proof. done. Qed.

Lemma halts_bind {A B} (m : CM lstate A) (f : A → CM lstate B) Q st :
  halts m (λ a st', halts (f a) Q st') st → halts (m ≫= f) Q st.
Proof. unfold halts, mbind, CM_bind. by destruct (m st) as [[a|w] st']. Qed.

Lemma halts_mono {A} (m : CM lstate A) (P Q : A → lstate → Prop) st :
  halts m P st → (∀ a st', P a st' → Q a st') → halts m Q st.
Proof. unfold halts. destruct (m st) as [[a|w] st']; auto. Qed.

(** Reading takes from the input, if only at its end. *)
Definition took (c : Z) (st st' : lstate) : Prop :=
  (l_input st' ≤ l_input st)%nat ∧ (l_size st' ≤ l_size st)%nat
  ∧ (c ≠ EOF → (l_size st' < l_size st)%nat
     ∧ (l_parsebuf st' = None → (l_input st' < l_input st)%nat))
  ∧ (l_parsebuf st = None → l_parsebuf st' = None).

Lemma getc_escaped_length s c s' :
  getc_escaped s = (c, s') → (length s' ≤ length s)%nat ∧ (c ≠ EOF → (length s' < length s)%nat).
Proof.
  revert s'. induction s as [s IH] using (induction_ltof1 _ length). unfold ltof in IH.
  intros s'. destruct s as [|a s]; cbn [getc_escaped]; [by intros [= <- <-]|].
  destruct (Ascii.eqb a "\"); [|intros [= <- <-]; simpl; lia].
  destruct s as [|b s]; [intros [= <- <-]; simpl; lia|].
  destruct (Ascii.eqb b "010"); [|intros [= <- <-]; simpl; lia].
  intros E. apply IH in E; simpl; lia.
Qed.

Lemma next_file_length files c files' :
  next_file files = (c, files') → files ≠ [] →
  (length (concat files') + length files' ≤ length (concat files) + length files)%nat
  ∧ (c ≠ EOF → (length (concat files') + length files' < length (concat files) + length files)%nat).
Proof.
  revert files'. induction files as [|f files IH]; intros files'; [done|]. intros E _.
  destruct files as [|[|a g] files]; cbn [next_file] in E.
  - by injection E as <- <-.
  - apply IH in E; [|done]. simpl in *. rewrite length_app. lia.
  - injection E as <- <-. simpl. rewrite !length_app. simpl. rewrite length_app. lia.
Qed.
Lemma lgetc_pushback_halts q st :
  halts (lgetc_pushback q) (λ c st', l_parsebuf st' = l_parsebuf st ∧ l_parseindex st' = l_parseindex st
    ∧ (l_input st' ≤ l_input st)%nat ∧ (c ≠ EOF → (l_input st' < l_input st)%nat)) st.
Proof.
  destruct st as [files b i pb syms la e]. unfold halts, lgetc_pushback. run_unfold. cbn [l_pushback].
  destruct pb as [|c pb]; [|unfold l_input; simpl; split_and!; try done; intros; lia].
  unfold lgetc_file. run_unfold. cbn [l_files]. destruct files as [|s rest]; [done|].
  destruct (q =? 0); cbn [negb].
  - destruct (getc_escaped s) as [c s'] eqn:E. apply getc_escaped_length in E as [E1 E2].
    destruct (Z.eqb_spec c EOF) as [->|Hc].
    + destruct (next_file (s' :: rest)) as [c' files'] eqn:En.
      apply next_file_length in En as [E3 E4]; [|done].
      unfold l_input. simpl in *. rewrite !length_app in *. split_and!; [done..|lia|]. intros ?%E4. lia.
    + unfold l_input. simpl. rewrite !length_app. specialize (E2 Hc). split_and!; [done..|lia|lia].
  - destruct s as [|a s]; [done|]. unfold l_input. simpl. split_and!; [done..|lia|lia].
Qed.

Lemma lgetc_halts q st : halts (lgetc q) (λ c st', took c st st') st.
Proof.
  assert (∀ b i st0, l_input st0 = l_input st → l_parsebuf st0 = b → l_parseindex st0 = i →
    (l_parsebuf st = None → b = None) →
    (from_option (λ b, Z.to_nat (Zlen b + 1 - Z.max 0 i)) O b
     ≤ from_option (λ b, Z.to_nat (Zlen b + 1 - Z.max 0 (l_parseindex st))) O (l_parsebuf st))%nat →
    halts (lgetc_pushback q) (λ c st', took c st st') st0) as Hpb.
  { intros b i st0 Hin Hb Hi Hn Hle. eapply halts_mono; [apply lgetc_pushback_halts|].
    intros c st' (E1 & E2 & E3 & E4). rewrite Hin in *. unfold took, l_size. rewrite E1, E2, Hb, Hi.
    split_and!; [done|lia| |done]. intros Hc%E4. lia. }
  unfold lgetc. apply halts_bind. unfold gets at 1, halts at 1. apply halts_bind.
  unfold gets at 1, halts at 1. destruct (l_parsebuf st) as [buf|] eqn:Eb.
  2: { apply (Hpb None (l_parseindex st)); try done. }
  destruct (Z.leb_spec 0 (l_parseindex st)) as [Hi|Hi].
  - destruct ((buf ++ [NUL]) !! Z.to_nat (l_parseindex st)) as [a|] eqn:El; [|done].
    pose proof (lookup_lt_Some _ _ _ El) as Hl. rewrite length_app in Hl. simpl in Hl.
    destruct (is_nul a) eqn:Ea.
    + apply halts_bind. unfold modify, halts at 1. apply (Hpb None (l_parseindex st + 1)); try done. simpl. lia.
    + apply halts_bind. unfold modify, halts at 1. apply halts_ret. unfold took, l_size.
      assert (Z.to_nat (l_parseindex st) < length buf)%nat as Hl'.
      { destruct (decide (Z.to_nat (l_parseindex st) = length buf)) as [E|]; [|lia].
        rewrite E, list_lookup_middle in El by done. injection El as <-. done. }
      rewrite Eb. cbn [set_parsebuf l_parsebuf l_parseindex from_option]. unfold l_input. simpl.
      unfold Zlen. split_and!; [lia|lia| |done]. intros _. split; [lia|done].
  - apply halts_bind. unfold modify, halts at 1.
    apply (Hpb (Some buf) (l_parseindex st + 1)); try done. simpl. lia.
Qed.

(** Giving back one character. *)
Lemma lungetc_halts c st :
  halts (lungetc c) (λ _ st', (l_size st' ≤ S (l_size st))%nat ∧ (l_input st' ≤ S (l_input st))%nat
    ∧ (l_parsebuf st' = l_parsebuf st)) st.
Proof.
  destruct st as [files b i pb syms la e]. unfold halts, lungetc. destruct (c =? EOF).
  { simpl. split_and!; lia || done. }
  run_unfold. cbn [l_parsebuf l_parseindex set_parsebuf l_pushback].
  destruct b as [b|].
  - rewrite (bool_decide_true (is_Some (Some b))) by done. cbn [andb].
    destruct (Z.leb_spec 0 (i - 1)); [|simpl; match goal with |- context [Zlen pb <? ?x] => destruct (Zlen pb <? x) end];
      unfold l_size, l_input; simpl; split_and!; lia || done.
  - rewrite (bool_decide_false (is_Some None)) by (by intros [? [=]]). cbn [andb].
    simpl; match goal with |- context [Zlen pb <? ?x] => destruct (Zlen pb <? x) end; unfold l_size, l_input; simpl; split_and!; lia || done.
Qed.
Lemma took_trans c st0 st1 st2 :
  (l_input st1 ≤ l_input st0)%nat → (l_size st1 ≤ l_size st0)%nat →
  (l_parsebuf st0 = None → l_parsebuf st1 = None) → took c st1 st2 → took c st0 st2.
Proof.
  intros Hi Hs Hb (H1 & H2 & H3 & H4). split_and!; [lia|lia| |auto].
  intros Hc. destruct (H3 Hc) as [H5 H6]. split; [lia|]. intros H7%H6. lia.
Qed.

Lemma skip_until_halts stop fuel st :
  stop EOF = true → (l_size st < fuel)%nat → halts (skip_until stop fuel) (λ c st', took c st st') st.
Proof.
  intros Hs. revert st. induction fuel as [|fuel IH]; intros st Hf; [lia|]. cbn [skip_until].
  eapply halts_bind, halts_mono; [apply lgetc_halts|]. intros c st1 Ht.
  destruct (stop c) eqn:E; [by apply halts_ret|].
  destruct Ht as (H1 & H2 & H3 & H4). destruct H3 as [H3 _]; [congruence|].
  eapply halts_mono; [apply IH; lia|]. intros c' st2. by apply took_trans.
Qed.

Lemma macro_name_halts buf fuel st :
  l_parsebuf st = None → (l_size st < fuel)%nat →
  halts (macro_name buf fuel) (λ _ st', (l_input st' ≤ l_input st)%nat) st.
Proof.
  revert buf st. induction fuel as [|fuel IH]; intros buf st Hb Hf; [lia|]. cbn [macro_name].
  eapply halts_bind, halts_mono; [apply lgetc_halts|]. intros c st1 (H1 & H2 & H3 & H4).
  destruct (Z.eqb_spec c EOF) as [|Hc]; [by apply halts_ret|].
  destruct (H3 Hc) as [H5 H6]. specialize (H6 (H4 Hb)).
  destruct (_ <=? _); [apply halts_error|]. destruct (_ || _).
  - eapply halts_mono; [apply IH; [auto|lia]|]. simpl. intros r st2 ?. lia.
  - eapply halts_bind, halts_mono; [apply lungetc_halts|]. intros [] st2 (_ & H7 & _).
    apply halts_ret. lia.
Qed.

Lemma quoted_halts q buf fuel st :
  (l_size st < fuel)%nat → halts (quoted q buf fuel) (λ _ _, True) st.
Proof.
  revert buf st. induction fuel as [|fuel IH]; intros buf st Hf; [lia|]. cbn [quoted]. cbv zeta.
  eapply halts_bind, halts_mono; [apply lgetc_halts|]. intros c st1 (_ & H2 & H3 & _).
  destruct (Z.eqb_spec c EOF) as [|Hc]; [done|]. destruct (H3 Hc) as [H5 _].
  assert (∀ st' b, (l_size st' ≤ l_size st1)%nat →
    halts (if BUFSIZE - 1 <=? Zlen buf + 1 then yyerror else quoted q (buf ++ [b]) fuel) (λ _ _, True) st') as Hgo.
  { intros st' b Hle. destruct (_ <=? _); [done|]. apply IH. lia. }
  destruct (c =? nl_c); [apply IH; lia|]. destruct (c =? ch "\").
  - eapply halts_bind, halts_mono; [apply lgetc_halts|]. intros next st2 (_ & H6 & H7 & _).
    destruct (Z.eqb_spec next EOF) as [|Hn]; [done|]. destruct (H7 Hn) as [H8 _].
    destruct (_ || _); [apply Hgo; lia|]. destruct (next =? nl_c); [apply IH; lia|].
    eapply halts_bind, halts_mono; [apply lungetc_halts|]. intros [] st3 (H9 & _). apply Hgo. lia.
  - destruct (c =? q); [done|]. apply Hgo. lia.
Qed.

Lemma word_halts more buf c fuel st :
  (l_size st < fuel)%nat → halts (word more buf c fuel) (λ _ _, True) st.
Proof.
  revert buf c st. induction fuel as [|fuel IH]; intros buf c st Hf; [lia|]. cbn [word]. cbv zeta.
  destruct (_ <=? _); [done|]. eapply halts_bind, halts_mono; [apply lgetc_halts|].
  intros c' st1 (_ & H2 & H3 & _). destruct (Z.eqb_spec c' EOF) as [|Hc]; [done|].
  destruct (H3 Hc) as [H5 _]. destruct (more c'); [apply IH; lia|done].
Qed.
Lemma conf_keywords_sorted : words_sorted (fst <$> conf_keywords).
Proof. apply words_sorted_check; [repeat constructor|reflexivity]. Qed.

(** lookup() finds the keyword of a word, and takes any other word for a
    string. *)
Lemma kw_lookup_spec w :
  no_nul w →
  ∃ r, kw_lookup w = Some r ∧ match r with
    | Some k => (w, k) ∈ conf_keywords
    | None => w ∉ fst <$> conf_keywords
    end.
Proof.
  intros Hw. unfold kw_lookup, kw_cmp.
  destruct (bsearch_table fst conf_keywords w Hw conf_keywords_sorted) as (r & -> & Hr). simpl.
  destruct r as [i|]; [|by exists None]. destruct Hr as ([w' k] & Hi & E). simpl in E. subst w'.
  exists (Some k). rewrite Hi. split; [done|]. by apply list_elem_of_lookup_2 with i.
Qed.

Lemma until_nul_no_nul buf : no_nul (until_nul buf).
Proof.
  unfold no_nul, bytes. induction buf as [|a buf IH]; simpl; [constructor|].
  destruct (is_nul a) eqn:E; [constructor|by constructor].
Qed.

Lemma halts_loop {A} (body : nat → CM lstate A) Q st :
  halts (body (S (l_size st))) Q st → halts (loop body) Q st.
Proof. intros H. apply halts_bind. exact H. Qed.

Lemma must_alloc_halts st : halts must_alloc (λ _ _, True) st.
Proof.
  unfold halts, must_alloc, lenv. run_unfold.
  destruct (alloc_ok_spec (l_env st)) as (b & c & -> & _). by destruct b.
Qed.

Lemma lungetc_all_halts l st : halts (lungetc_all l) (λ _ _, True) st.
Proof.
  revert st. induction l as [|a l IH]; intros st; [done|]. cbn [lungetc_all].
  eapply halts_bind, halts_mono; [apply lungetc_halts|]. intros [] st1 _. apply IH.
Qed.

Lemma lex_word_halts c st : halts (lex_word c) (λ _ _, True) st.
Proof.
  unfold lex_word. destruct (_ || _); [|done].
  eapply halts_bind, halts_mono; [apply halts_loop, word_halts; lia|]. intros [buf c'] st1 _.
  eapply halts_bind, halts_mono; [apply lungetc_halts|]. intros [] st2 _. cbv zeta.
  destruct (kw_lookup_spec (until_nul buf) (until_nul_no_nul buf)) as (r & -> & _).
  destruct r as [k|]; [done|]. eapply halts_bind, halts_mono; [apply must_alloc_halts|]. done.
Qed.

Lemma lex_rest_halts c st : halts (lex_rest c) (λ _ _, True) st.
Proof.
  unfold lex_rest. destruct (_ || (c =? 34)).
  { eapply halts_bind, halts_mono; [apply halts_loop, quoted_halts; lia|]. intros [buf|] st1 _; [|done].
    apply halts_bind. unfold strdup. eapply halts_bind, halts_mono; [apply must_alloc_halts|]. done. }
  destruct (_ || _); [|apply lex_word_halts]. apply halts_bind. unfold lex_number.
  eapply halts_bind, halts_mono; [apply halts_loop, word_halts; lia|]. intros [buf c'] st1 _.
  eapply halts_bind, halts_mono; [apply lungetc_halts|]. intros [] st2 _. cbv zeta. destruct (_ && _).
  - by destruct (strtonum_s _ _ _).
  - eapply halts_bind, halts_mono; [apply lungetc_all_halts|]. intros [] st3 _. apply halts_ret.
    destruct (_ =? _); [done|]. apply lex_word_halts.
Qed.

Lemma yylex_top_halts fuel st : (l_input st < fuel)%nat → halts (yylex_top fuel) (λ _ _, True) st.
Proof.
  revert st. induction fuel as [|fuel IH]; intros st Hf; [lia|]. cbn [yylex_top].
  eapply halts_bind, halts_mono; [apply halts_loop, skip_until_halts; [done|lia]|]. intros c st1 H1.
  eapply halts_bind, (halts_mono _ (λ c' st2, took c' st st2)).
  { destruct (c =? ch "#"); [|by apply halts_ret].
    eapply halts_mono; [apply halts_loop, skip_until_halts; [done|lia]|]. intros c' st2.
    destruct H1 as (? & ? & _ & ?). by apply took_trans. }
  intros c' st2 (_ & _ & H3 & _). apply halts_bind. unfold gets, halts at 1.
  destruct (Z.eqb_spec c' (ch "$")) as [->|]; cbn [andb]; [|apply lex_rest_halts].
  case_bool_decide as Hb; [|apply lex_rest_halts].
  destruct H3 as [_ H3]; [done|]. specialize (H3 Hb).
  eapply halts_bind, halts_mono; [apply halts_loop, macro_name_halts; [done|lia]|].
  intros [nam|] st3 H4; [|done]. apply halts_bind. unfold symget, halts at 1. run_unfold.
  destruct (list_find _ _); [|done]. cbn [fmap option_fmap option_map].
  apply IH. unfold l_input in *. simpl in *. lia.
Qed.
(** ** The theorems *)

(** C22. The lexical analyser terminates: whatever the open files, the macros,
    the pushback buffer and the allocator hold, a call of yylex() ends within
    the rounds that the length of its input allows. *)
Theorem yylex_terminates st : (yylex st).1 ≠ Stop SFuel.
Proof.
  assert (halts yylex (λ _ _, True) st) as H.
  { apply halts_loop, yylex_top_halts. unfold l_size. lia. }
  unfold halts in H. destruct (yylex st) as [[t|w] st']; [done|]. simpl. by intros [= ->].
Qed.

(** C23. Any list of keywords, strings, numbers and punctuation that is written
    out, strings between quotes with a backslash before each quote in them, is
    read back by successive calls of yylex(), which then reports the end of the
    input; whatever macros are defined.  The strings are those a quoted string
    can hold: ASCII without NUL and newline, shorter than the buffer, and not
    ending with a backslash. *)
Theorem yylex_roundtrip ts syms e :
  Forall token_ok ts → alloc_never_fails e →
  ∃ st', lex_tokens (S (length ts)) (mk_l [tokens_text ts] None 0 [] syms None e)
         = (Ok (ts ++ [T_end]), st').
Proof.
  intros Ht Ha.
  destruct (wp_elim _ _ _ (lex_tokens_spec ts [] (mk_l [tokens_text ts] None 0 [] syms None e)
    ltac:(by left) Ht ltac:(by left) Ha)) as (r & st' & E & -> & _).
  by exists st'.
Qed.

Lemma yylex_roundtrip_witness :
  ∃ st', lex_tokens 6 (mk_l [tokens_text [T_kw INTERFACE; STRING "em0"; T_char 10; T_kw PRIORITY; NUMBER (-1)]]
           None 0 [] [] None (mk_cenv [] 0 []))
         = (Ok [T_kw INTERFACE; STRING "em0"; T_char 10; T_kw PRIORITY; NUMBER (-1); T_end], st').
Proof.
  apply (yylex_roundtrip [T_kw INTERFACE; STRING "em0"; T_char 10; T_kw PRIORITY; NUMBER (-1)] []
    (mk_cenv [] 0 [])).
  - repeat constructor; done.
  - constructor.
Defined.
