(* ===== verification/ConfProps.v ===== *)
(** * ConfProps: the configuration file

    Theorems on Conf.v.  A configuration that is written out is the one
    parse_config() makes of its text, and every configuration it makes has
    networks for which the connection routines of Daemon.v exit or are
    undefined. *)
From stdpp Require Import base list strings.
From Stdlib Require Import Ascii.
From S2P Require Import Prelude CString CNum NetAddr IfData IfCore IfNet IfKernel FlagProps Daemon DaemonProps Conf LexProps.

(** ** What an accepted configuration holds

    [post m P]: whatever [m] returns satisfies [P]. *)

Definition post {S A} (m : CM S A) (P : A → Prop) : Prop := ∀ s a s', m s = (Ok a, s') → P a.

Lemma post_ret {S A} (a : A) (P : A → Prop) : P a → post (mret a : CM S A) P.
Proof. intros HP s b s' [= <- _]. done. Qed.

Lemma post_stop {S A} w (P : A → Prop) : post (stopM w : CM S A) P.
Proof. by intros s a s'. Qed.

Lemma post_bind {S A B} (m : CM S A) (f : A → CM S B) P : (∀ a, post (f a) P) → post (m ≫= f) P.
Proof. intros Hf s b s' (a & s1 & _ & E)%bind_inv. by eapply Hf. Qed.

Lemma post_bind_with {S A B} (m : CM S A) (f : A → CM S B) R P :
  post m R → (∀ a, R a → post (f a) P) → post (m ≫= f) P.
Proof. intros Hm Hf s b s' (a & s1 & E1 & E2)%bind_inv. eapply Hf; [by eapply Hm|done]. Qed.

Lemma post_opts_l {A} (opt : A → CM lstate A) (I : A → Prop) a fuel :
  (∀ a, I a → post (opt a) I) → I a → post (opts_l opt a fuel) I.
Proof.
  intros Ho. revert a. induction fuel as [|fuel IH]; intros a Ha; [apply post_stop|].
  cbn [opts_l]. apply post_bind. intros t. case_bool_decide.
  - apply post_bind. intros _. by apply post_ret.
  - eapply post_bind_with; [by apply Ho|]. intros a' Ha'. apply post_bind. intros _. by apply IH.
Qed.

Lemma post_block {A} (opt : A → CM lstate A) (I : A → Prop) a fuel :
  (∀ a, I a → post (opt a) I) → I a → post (block opt a fuel) I.
Proof.
  intros Ho Ha. unfold block. apply post_bind. intros t. case_bool_decide; [|by apply post_ret].
  do 3 (apply post_bind; intros ?). case_bool_decide.
  - apply post_bind. intros _. by apply post_ret.
  - eapply post_bind_with; [by apply Ho|]. intros a' Ha'. by apply post_opts_l.
Qed.

(** An ethernet network has DHCP or static options, a wireless one static
    options. *)
Definition eth_usable (e : ethernet) : Prop := eth_isdhcp e = 1 ∨ is_Some (eth_staticopts e).
Definition wlan_usable (w : wireless) : Prop := wl_isdhcp w = 1 ∨ is_Some (wl_staticopts w).
Definition network_usable (n : network) : Prop :=
  Forall eth_usable (ethernet_list n) ∧ Forall wlan_usable (wireless_list n).

Definition ec_inv (c : eth_ctx) : Prop := eth_isdhcp (ec_eth c) = 1 ∨ ec_linked c = true.

Lemma post_ethernetoptsl c : ec_inv c → post (ethernetoptsl c) ec_inv.
Proof.
  intros Hc. unfold ethernetoptsl, eth_string. apply post_bind. intros t.
  assert (post (s ← staticopts (ec_static c);
    mret (match s with Some s => mk_ec (ec_eth c) s (ec_linked c) | None => c end)) ec_inv) as Hs.
  { apply post_bind. intros [s|]; by apply post_ret. }
  destruct t as [| |k| |]; try done. destruct k; try done;
    repeat (apply post_bind; intros ?); apply post_ret; try done.
  case_match; [by right|by left].
Qed.

Lemma post_ethernet_rule fuel : post (ethernet_rule fuel) eth_usable.
Proof.
  unfold ethernet_rule. do 3 (apply post_bind; intros ?).
  eapply post_bind_with; [apply (post_block _ ec_inv); [apply post_ethernetoptsl|by right]|].
  intros c Hc. apply post_ret. unfold eth_usable, eth_close. simpl.
  destruct Hc as [Hc| ->]; [by left|by right].
Qed.

Lemma post_wireless_rule fuel : post (wireless_rule fuel) wlan_usable.
Proof.
  unfold wireless_rule. do 5 (apply post_bind; intros ?). apply post_ret. right. by eexists.
Qed.

Lemma post_networkoptsl fuel n : network_usable n → post (networkoptsl fuel n) network_usable.
Proof.
  intros [He Hw]. unfold networkoptsl. apply post_bind. intros t.
  destruct t as [| |k| |]; try by apply post_ret. destruct k; try by apply post_ret.
  - apply post_bind. intros _. eapply post_bind_with; [apply post_ethernet_rule|].
    intros e Hus. apply post_ret. split; [by apply list.Forall_cons_2|done].
  - apply post_bind. intros _. eapply post_bind_with; [apply post_wireless_rule|].
    intros w Hus. apply post_ret. split; [done|by apply list.Forall_cons_2].
Qed.

Lemma post_network_rule fuel : post (network_rule fuel) network_usable.
Proof.
  unfold network_rule. apply post_bind. intros s. case_match; [apply post_stop|].
  do 3 (apply post_bind; intros ?).
  eapply post_bind_with; [by apply post_networkoptsl|]. intros n Hn.
  apply post_bind. intros _. by apply post_opts_l; [apply post_networkoptsl|].
Qed.

Section accepted.
Context `{F : Files}.

Definition conf_usable (c : ifconfigd_conf) : Prop := Forall network_usable (network_list c).

Lemma post_statement fuel c :
  conf_usable c → post (statement fuel c) (λ r, from_option conf_usable True r).
Proof.
  intros Hc. unfold statement. apply post_bind. intros t.
  assert (post (expect NL;; mret (Some c)) (λ r, from_option conf_usable True r)) as Hnl
    by (apply post_bind; intros _; by apply post_ret).
  destruct t as [| |k|nam|]; try done; [by apply post_ret|destruct k; try done|].
  - apply post_bind. intros _. eapply post_bind_with; [apply post_network_rule|].
    intros n Hn. apply post_bind. intros _. apply post_ret. by apply list.Forall_cons_2.
  - do 3 (apply post_bind; intros ?). case_match; [apply post_stop|]. by apply post_bind; intros _.
  - do 2 (apply post_bind; intros ?). case_match; [apply post_stop|].
    apply post_bind. intros _. by apply post_ret.
  - do 4 (apply post_bind; intros ?). case_match; [apply post_stop|done].
Qed.

Lemma post_grammar fuel c : conf_usable c → post (grammar fuel c) conf_usable.
Proof.
  revert c. induction fuel as [|fuel IH]; intros c Hc; [apply post_stop|]. cbn [grammar].
  eapply post_bind_with; [by apply post_statement|]. intros [c'|] Hr; [by apply IH|by apply post_ret].
Qed.

Lemma post_parse_config fuel filename : post (parse_config fuel filename) conf_usable.
Proof.
  unfold parse_config. do 2 (apply post_bind; intros ?). case_match; [apply post_stop|].
  apply post_grammar. apply list.Forall_nil_2.
Qed.
End accepted.

(** ** The tokens that are left *)

(** The parser will see the tokens [ts]; the first may have been read. *)
Definition feeds (ts : list token) (st : lstate) : Prop :=
  alloc_never_fails (l_env st) ∧ Forall token_ok ts ∧
  ∃ bl, gap bl ∧
    match l_la st with
    | None => reads (bl ++ tokens_text ts) st
    | Some t => ∃ ts', ts = t :: ts' ∧ reads (bl ++ tokens_text ts') st
    end.

Lemma reads_set_la text la st : reads text st → reads text (set_la la st).
Proof. intros [[]|(a & t & ? & ? & [])]; [left|right; exists a, t; split_and!]; done. Qed.

Lemma wp_peek {A} t ts st (f : token → CM lstate A) Q :
  feeds (t :: ts) st → (∀ st', feeds (t :: ts) st' → l_la st' = Some t → wp (f t) Q st') →
  wp (peek ≫= f) Q st.
Proof.
  intros (Ha & Ht & bl & Hg & Hr) Hf. apply wp_bind. unfold peek. apply wp_bind, wp_gets.
  destruct (l_la st) as [t'|] eqn:E.
  - destruct Hr as (ts' & [= <- <-] & Hr). apply wp_ret. apply Hf; [|done].
    split_and!; [done..|]. exists bl. split; [done|]. rewrite E. by exists ts.
  - pose proof Ht as [Ht1 Ht2]%list.Forall_cons_1.
    eapply wp_bind, wp_mono; [by apply (yylex_token bl t (tokens_text ts))|].
    intros t' st1 (-> & Hr1 & _ & _ & Ha1). apply wp_bind, wp_modify, wp_ret. apply Hf; [|done].
    split_and!; [done..|]. exists [" "%char]. split; [by right|]. exists ts. split; [done|].
    by apply reads_set_la.
Qed.

Lemma wp_next {A} t ts st (f : token → CM lstate A) Q :
  feeds (t :: ts) st → (∀ st', feeds ts st' → wp (f t) Q st') → wp (next_token ≫= f) Q st.
Proof.
  intros Hfd Hf. unfold next_token. apply wp_bind, (wp_peek t ts); [done|].
  intros st1 (Ha & Ht & bl & Hg & Hr) E. apply wp_bind, wp_modify, wp_ret. apply Hf.
  rewrite E in Hr. destruct Hr as (ts' & [= <-] & Hr). apply list.Forall_cons_1 in Ht as [_ Ht].
  split_and!; [done..|]. exists bl. split; [done|]. by apply reads_set_la.
Qed.

(** At the end of the input. *)
Lemma wp_peek_end {A} st (f : token → CM lstate A) Q :
  feeds [] st → (∀ st', wp (f T_end) Q st') → wp (peek ≫= f) Q st.
Proof.
  intros (Ha & Ht & bl & Hg & Hr) Hf. apply wp_bind. unfold peek. apply wp_bind, wp_gets.
  destruct (l_la st) as [t'|] eqn:E; [by destruct Hr as (ts' & [=] & _)|].
  cbn [tokens_text map concat] in Hr. rewrite app_nil_r in Hr.
  eapply wp_bind, wp_mono; [by apply (yylex_end bl)|]. intros t st1 (-> & _).
  apply wp_bind, wp_modify, wp_ret, Hf.
Qed.

Lemma wp_expect {A} t ts st (f : unit → CM lstate A) Q :
  feeds (t :: ts) st → (∀ st', feeds ts st' → wp (f tt) Q st') → wp (expect t ≫= f) Q st.
Proof.
  intros Hfd Hf. apply wp_bind. unfold expect. apply (wp_next t ts); [done|]. intros st1 H1.
  rewrite bool_decide_true by done. apply wp_ret, Hf, H1.
Qed.

Lemma wp_string {A} s ts st (f : string → CM lstate A) Q :
  feeds (STRING s :: ts) st → (∀ st', feeds ts st' → wp (f s) Q st') → wp (string_token ≫= f) Q st.
Proof.
  intros Hfd Hf. apply wp_bind. unfold string_token. apply (wp_next (STRING s) ts); [done|].
  intros st1 H1. apply wp_ret, Hf, H1.
Qed.

Lemma wp_number {A} n ts st (f : Z → CM lstate A) Q :
  feeds (NUMBER n :: ts) st → (∀ st', feeds ts st' → wp (f n) Q st') → wp (number_token ≫= f) Q st.
Proof.
  intros Hfd Hf. apply wp_bind. unfold number_token. apply (wp_next (NUMBER n) ts); [done|].
  intros st1 H1. apply wp_ret, Hf, H1.
Qed.

Lemma wp_alloc {A} ts st (f : unit → CM lstate A) Q :
  feeds ts st → (∀ st', feeds ts st' → wp (f tt) Q st') → wp (must_alloc ≫= f) Q st.
Proof.
  intros (Ha & Ht & bl & Hg & Hr) Hf.
  assert (∃ text, reads text st ∧ (∀ st', l_la st' = l_la st → reads text st' →
     match l_la st' with
     | None => reads (bl ++ tokens_text ts) st'
     | Some t => ∃ ts', ts = t :: ts' ∧ reads (bl ++ tokens_text ts') st'
     end)) as (text & Hrt & Hback).
  { destruct (l_la st) as [t|] eqn:E; [destruct Hr as (ts' & -> & Hr)|];
      eexists; (split; [exact Hr|]); intros st' -> Hr'; [by exists ts'|done]. }
  eapply wp_must_alloc; [done..|]. intros st' (Hr' & _ & E & Ha'). apply Hf.
  split_and!; [done..|]. exists bl. split; [done|]. by apply Hback.
Qed.

(** ** Blocks of options *)

(** An option: its tokens, and what it does. *)
Definition entry (A : Type) : Type := list token * (A → A).

Definition lines {A} (es : list (entry A)) : list token := concat (map (λ e, e.1 ++ [NL]) es).
Definition run_entries {A} (es : list (entry A)) (a : A) : A := foldl (λ a e, e.2 a) a es.
Definition block_tokens {A} (es : list (entry A)) : list token := LBRACE :: NL :: lines es ++ [RBRACE].

Section options.
Context {A : Type} (opt : A → CM lstate A).

(** [opt] reads the tokens of an option, which begin neither a line nor the
    end of the block, and nothing more. *)
Definition does (e : entry A) : Prop :=
  (∃ t o, e.1 = t :: o ∧ t ≠ NL ∧ t ≠ RBRACE)
  ∧ ∀ a rest st, feeds (e.1 ++ rest) st → wp (opt a) (λ a' st', a' = e.2 a ∧ feeds rest st') st.

(** [opt] reads nothing of an empty line. *)
Definition idle : Prop :=
  ∀ a rest st, feeds (NL :: rest) st → wp (opt a) (λ a' st', a' = a ∧ feeds (NL :: rest) st') st.

(** The tokens after a newline are not a newline. *)
Lemma lines_first es rest :
  Forall does es → ∃ t o, lines es ++ RBRACE :: rest = t :: o ∧ t ≠ NL.
Proof.
  destruct es as [|e es]; [by eexists _, _|]. intros [[(t & o & E & Ht & _) _] _]%list.Forall_cons_1.
  exists t, (o ++ [NL] ++ lines es ++ RBRACE :: rest). split; [|done]. unfold lines. simpl.
  rewrite E. simpl. by rewrite <- !app_assoc.
Qed.

Lemma optnl_spec n t rest st fuel :
  feeds (replicate n NL ++ t :: rest) st → t ≠ NL → (n < fuel)%nat →
  wp (optnl fuel) (λ _ st', feeds (t :: rest) st') st.
Proof.
  revert n st. induction fuel as [|fuel IH]; intros n st Hf Ht Hn; [lia|]. cbn [optnl].
  destruct n as [|n]; cbn [replicate app] in Hf.
  - apply (wp_peek t rest); [done|]. intros st1 H1 _. rewrite bool_decide_false by done. by apply wp_ret.
  - apply (wp_peek NL (replicate n NL ++ t :: rest)); [done|]. intros st1 H1 _.
    rewrite bool_decide_true by done. apply (wp_next NL (replicate n NL ++ t :: rest)); [done|].
    intros st2 H2. apply (IH n); [done|done|lia].
Qed.

(** The newline that ends a line, and the next line of the block. *)
Lemma wp_nl {B} es rest st fuel (f : unit → CM lstate B) Q :
  Forall does es → feeds (NL :: lines es ++ RBRACE :: rest) st → (0 < fuel)%nat →
  (∀ st', feeds (lines es ++ RBRACE :: rest) st' → wp (f tt) Q st') → wp (nl fuel ≫= f) Q st.
Proof.
  intros He Hfd Hfu Hf. destruct (lines_first es rest He) as (t & o & E & Ht). rewrite E in *.
  apply wp_bind. unfold nl. apply (wp_expect NL (t :: o)); [done|]. intros st1 H1.
  eapply wp_mono; [by apply (optnl_spec 0 t o)|]. intros [] st2 H2. by apply Hf.
Qed.

Lemma opts_l_spec es a rest st fuel :
  Forall does es → feeds (lines es ++ RBRACE :: rest) st → (S (length es) < fuel)%nat →
  wp (opts_l opt a fuel) (λ a' st', a' = run_entries es a ∧ feeds rest st') st.
Proof.
  revert a st fuel. induction es as [|e es IH]; intros a st fuel He Hf Hfu.
  - destruct fuel as [|fuel]; [lia|]. cbn [opts_l]. apply (wp_peek RBRACE rest); [done|].
    intros st1 H1 _. rewrite bool_decide_true by done. apply (wp_next RBRACE rest); [done|].
    intros st2 H2. by apply wp_ret.
  - destruct fuel as [|fuel]; [lia|]. cbn [opts_l].
    pose proof He as [Hd He']%list.Forall_cons_1. destruct Hd as [(t & o & E & Ht1 & Ht2) Hd].
    unfold lines in Hf. cbn [map concat] in Hf. rewrite <- !app_assoc in Hf.
    fold (lines es) in Hf. cbn [app] in Hf. pose proof Hf as Hf0. rewrite E in Hf0.
    apply (wp_peek t (o ++ NL :: lines es ++ RBRACE :: rest)); [done|]. intros st1 H1 _.
    rewrite bool_decide_false by done.
    eapply wp_bind, wp_mono; [apply (Hd a (NL :: lines es ++ RBRACE :: rest)); by rewrite E|].
    intros a' st2 [-> H2]. apply (wp_nl es rest); [done|done|simpl in Hfu; lia|].
    intros st3 H3. apply IH; [done|done|simpl in Hfu; lia].
Qed.

(** A block of options has their effects in turn. *)
Lemma block_spec es a rest st fuel :
  idle → Forall does es → feeds (block_tokens es ++ rest) st → (S (S (length es)) < fuel)%nat →
  wp (block opt a fuel) (λ a' st', a' = run_entries es a ∧ feeds rest st') st.
Proof.
  intros Hi He Hf Hfu. unfold block_tokens in Hf. cbn [app] in Hf.
  rewrite <- app_assoc in Hf. cbn [app] in Hf. unfold block.
  apply (wp_peek LBRACE (NL :: lines es ++ RBRACE :: rest)); [done|]. intros st1 H1 _.
  rewrite bool_decide_true by done. apply (wp_next LBRACE (NL :: lines es ++ RBRACE :: rest)); [done|].
  intros st2 H2. destruct (lines_first es rest He) as (t & o & E & Ht). rewrite E in *.
  eapply wp_bind, wp_mono; [apply (optnl_spec 1 t o); [done|done|lia]|].
  intros [] st3 H3. apply (wp_peek t o); [done|]. intros st4 H4 _. rewrite <- E in H4.
  destruct es as [|e es].
  - injection E as <- <-. rewrite bool_decide_true by done. apply (wp_next RBRACE rest); [done|].
    intros st5 H5. by apply wp_ret.
  - apply list.Forall_cons_1 in He as [Hd He]. pose proof Hd as [(t' & o' & E' & Ht1 & Ht2) Hd'].
    unfold lines in H4, E. cbn [map concat] in H4, E. rewrite <- !app_assoc in H4, E.
    fold (lines es) in H4, E. rewrite E' in E. injection E as <- _.
    rewrite bool_decide_false by done.
    eapply wp_bind, wp_mono; [by apply (Hd' a (NL :: lines es ++ RBRACE :: rest))|].
    intros a' st5 [-> H5]. destruct fuel as [|fuel]; [lia|]. cbn [opts_l].
    apply (wp_peek NL (lines es ++ RBRACE :: rest)); [done|]. intros st6 H6 _.
    rewrite bool_decide_false by done. eapply wp_bind, wp_mono; [by apply Hi|].
    intros a' st7 [-> H7]. apply (wp_nl es rest); [done|done|lia|]. intros st8 H8.
    apply (opts_l_spec es); [done|done|simpl in Hfu; lia].
Qed.
End options.

Lemma run_entries_app {A} (es es' : list (entry A)) a :
  run_entries (es ++ es') a = run_entries es' (run_entries es a).
Proof. apply foldl_app. Qed.

(** A string that may be missing. *)
Definition str_entry {A} (k : kw) (v : cptr) (set : cptr → A → A) : list (entry A) :=
  match v with Some s => [([T_kw k; STRING s], set (Some s))] | None => [] end.

Lemma run_str_entry {A} k v (set : cptr → A → A) a :
  set None a = a → run_entries (str_entry k v set) a = set v a.
Proof. by destruct v. Qed.

Lemma does_str_entry {A} (opt : A → CM lstate A) k v set :
  (∀ s, does opt ([T_kw k; STRING s], set (Some s))) → Forall (does opt) (str_entry k v set).
Proof. intros H. destruct v; [apply list.Forall_cons_2; [apply H|]|]; apply list.Forall_nil_2. Qed.

(** ** Static options *)

Definition set_inet v c := mk_static v (st_netmask c) (st_domainname c) (st_domainserver c).
Definition set_netmask v c := mk_static (st_inet c) v (st_domainname c) (st_domainserver c).
Definition set_domainname v c := mk_static (st_inet c) (st_netmask c) v (st_domainserver c).
Definition set_domainserver v c := mk_static (st_inet c) (st_netmask c) (st_domainname c) v.

Definition static_entries {A} (lift : (static_cfg → static_cfg) → A → A) (c : static_cfg) : list (entry A) :=
  str_entry INET (st_inet c) (λ v, lift (set_inet v))
  ++ str_entry NETMASK (st_netmask c) (λ v, lift (set_netmask v))
  ++ str_entry DOMAINNAME (st_domainname c) (λ v, lift (set_domainname v))
  ++ str_entry DOMAINNAMESERVERS (st_domainserver c) (λ v, lift (set_domainserver v)).

Lemma length_static_entries {A} (lift : (static_cfg → static_cfg) → A → A) c :
  (length (static_entries lift c) ≤ 4)%nat.
Proof. unfold static_entries, str_entry. rewrite !length_app. repeat case_match; simpl; lia. Qed.

(** Step through the tokens of an option. *)
Ltac parse_step :=
  match goal with
  | H : feeds (?t :: ?ts) ?st |- wp (peek ≫= _) _ ?st =>
      apply (wp_peek t ts); [exact H|]; clear H; intros ? H _
  | H : feeds (?t :: ?ts) ?st |- wp (next_token ≫= _) _ ?st =>
      apply (wp_next t ts); [exact H|]; clear H; intros ? H
  | H : feeds (STRING ?s :: ?ts) ?st |- wp (string_token ≫= _) _ ?st =>
      apply (wp_string s ts); [exact H|]; clear H; intros ? H
  | H : feeds (NUMBER ?n :: ?ts) ?st |- wp (number_token ≫= _) _ ?st =>
      apply (wp_number n ts); [exact H|]; clear H; intros ? H
  | H : feeds ?ts ?st |- wp (must_alloc ≫= _) _ ?st =>
      apply (wp_alloc ts); [exact H|]; clear H; intros ? H
  | |- wp ((_ ≫= _) ≫= _) _ _ => apply wp_bind
  | |- wp (mret _) _ _ => apply wp_ret
  | |- wp (mret _ ≫= _) _ _ => apply wp_bind, wp_ret
  end.

Ltac option_step :=
  split; [by eexists _, _|]; intros a rest st Hf; cbn [fst snd app] in *;
  unfold ethernetoptsl, eth_string, wirelessoptsl, wlan_string, wlan_number, wpaoptsl, wepoptsl,
    staticopts, yesno;
  repeat (parse_step; cbv beta iota delta [NL]).

(** The options of a block one by one. *)
Ltac split_entries :=
  repeat (apply list.Forall_app_2 || apply list.Forall_cons_2 || apply list.Forall_nil_2
          || (apply does_str_entry; intros s)).

Ltac idle_step := intros a rest st Hf; repeat (parse_step; cbv beta iota delta [NL]); done.

(** *** Ethernet networks *)

Definition on_static (f : static_cfg → static_cfg) (c : eth_ctx) : eth_ctx :=
  mk_ec (ec_eth c) (f (ec_static c)) (ec_linked c).

Definition eth_dhcp (n : Z) (c : eth_ctx) : eth_ctx :=
  mk_ec (set_eth_isdhcp n (ec_eth c)) (ec_static c) (n =? 0).

Definition eth_fixed (e : ethernet) : list (entry eth_ctx) :=
  [([T_kw INTERFACE; STRING (eth_interface e)],
    eth_set (set_eth_interface (strncpy_s (eth_interface e) INTERFACE_ARRAY)));
   ([T_kw PRIORITY; NUMBER (eth_priority e)], eth_set (set_eth_priority (i32 (eth_priority e))));
   ([T_kw DHCP; T_kw (if eth_isdhcp e =? 0 then NO else YES)],
    eth_dhcp (if eth_isdhcp e =? 0 then 0 else 1))].

Definition eth_entries (e : ethernet) : list (entry eth_ctx) :=
  eth_fixed e
  ++ static_entries on_static (default static_zero (eth_staticopts e))
  ++ str_entry LLADDR (eth_lladdr e) (λ v, eth_set (set_eth_lladdr v))
  ++ str_entry RUNUP (eth_run_up e) (λ v, eth_set (set_eth_run_up v))
  ++ str_entry RUNDOWN (eth_run_down e) (λ v, eth_set (set_eth_run_down v)).

Lemma idle_ethernet : idle ethernetoptsl.
Proof. unfold idle, ethernetoptsl, staticopts. idle_step. Qed.

Lemma does_eth e : Forall (does ethernetoptsl) (eth_entries e).
Proof.
  unfold eth_entries, eth_fixed, static_entries.
  split_entries.
  all: try (destruct (eth_isdhcp e =? 0)); option_step; done.
Qed.

Record eth_ok (e : ethernet) : Prop := {
  eo_name : str_ok (bytes (eth_name e)) ∧ slen (eth_name e) ≤ 512;
  eo_interface : str_ok (bytes (eth_interface e)) ∧ slen (eth_interface e) ≤ 128;
  eo_priority : - 2 ^ 31 ≤ eth_priority e < 2 ^ 31;
  eo_dhcp : eth_isdhcp e = 1 ∧ eth_staticopts e = None ∨ eth_isdhcp e = 0 ∧ is_Some (eth_staticopts e);
  eo_strings : Forall (λ v : cptr, from_option (str_ok ∘ bytes) True v)
    ([eth_lladdr e; eth_run_up e; eth_run_down e]
     ++ match eth_staticopts e with
        | Some c => [st_inet c; st_netmask c; st_domainname c; st_domainserver c]
        | None => []
        end)
}.

Lemma run_static_eth cfg c :
  ec_static c = static_zero → run_entries (static_entries on_static cfg) c = on_static (λ _, cfg) c.
Proof.
  destruct c as [e st l], cfg as [i m d ds]. simpl. intros ->. unfold static_entries.
  rewrite !run_entries_app, (run_str_entry INET), (run_str_entry NETMASK) by reflexivity.
  by rewrite (run_str_entry DOMAINNAME), (run_str_entry DOMAINNAMESERVERS) by reflexivity.
Qed.

Lemma i32_small n : - 2 ^ 31 ≤ n < 2 ^ 31 → i32 n = n.
Proof. unfold i32, sx. intros. change (32 - 1) with 31. rewrite Z.mod_small; lia. Qed.

Lemma eth_entries_run e :
  eth_ok e → eth_close (run_entries (eth_entries e) (ethernet_new (eth_name e))) = e.
Proof.
  intros [[_ Hn] [_ Hi] Hp Hd _]. unfold eth_entries.
  rewrite !run_entries_app, run_static_eth by reflexivity.
  rewrite (run_str_entry LLADDR), (run_str_entry RUNUP), (run_str_entry RUNDOWN) by reflexivity.
  unfold run_entries, eth_fixed. cbn [foldl snd].
  unfold ethernet_new, strncpy_s, NAME_ARRAY, INTERFACE_ARRAY. rewrite !stake_all, i32_small by lia.
  destruct e as [name intf prio dhcp st ll up down]. simpl in *.
  by destruct Hd as [[-> ->]|[-> [cfg ->]]].
Qed.

(** The tokens of an ethernet network, after its keyword. *)
Definition eth_tokens (e : ethernet) : list token := STRING (eth_name e) :: block_tokens (eth_entries e).

Lemma ethernet_rule_spec e rest st fuel :
  eth_ok e → feeds (eth_tokens e ++ rest) st → (12 < fuel)%nat →
  wp (ethernet_rule fuel) (λ e' st', e' = e ∧ feeds rest st') st.
Proof.
  intros He Hf Hfu. unfold eth_tokens in Hf. cbn [app] in Hf. unfold ethernet_rule.
  do 3 (parse_step; cbv beta). eapply wp_bind, wp_mono.
  { apply (block_spec _ (eth_entries e)); [apply idle_ethernet|apply does_eth|done|].
    unfold eth_entries, eth_fixed, static_entries. rewrite !length_app. unfold str_entry. simpl.
    repeat case_match; simpl; lia. }
  intros c st4 [-> H4]. apply wp_ret. split; [by apply eth_entries_run|done].
Qed.

(** *** Wireless networks *)

Definition wpa_entries (w : wpa_cfg) : list (entry wpa_cfg) :=
  str_entry WPAKEY (wc_wpakey w) (λ v c, mk_wpacfg v (wc_wpagroupcipher c) (wc_wpaciphers c) (wc_wpaakms c))
  ++ str_entry WPAGROUPCIPHER (wc_wpagroupcipher w) (λ v c, mk_wpacfg (wc_wpakey c) v (wc_wpaciphers c) (wc_wpaakms c))
  ++ str_entry WPACIPHERS (wc_wpaciphers w) (λ v c, mk_wpacfg (wc_wpakey c) (wc_wpagroupcipher c) v (wc_wpaakms c))
  ++ str_entry WPAAKMS (wc_wpaakms w) (λ v c, mk_wpacfg (wc_wpakey c) (wc_wpagroupcipher c) (wc_wpaciphers c) v).

Definition wep_entries (s : string) : list (entry cptr) := [([T_kw WEPKEY; STRING s], λ _, Some s)].

Definition on_wstatic (f : static_cfg → static_cfg) (c : wlan_ctx) : wlan_ctx :=
  mk_wc (wx_wlan c) (f (wx_static c)) (wx_wpa c).

Definition wlan_dhcp (n : Z) (c : wlan_ctx) : wlan_ctx :=
  if n =? 0 then mk_wc (set_wl_isdhcp 0 (wx_wlan c)) static_zero (wx_wpa c)
  else wlan_set (set_wl_isdhcp 1) c.

Definition wlan_fixed (w : wireless) : list (entry wlan_ctx) :=
  [([T_kw INTERFACE; STRING (wl_interface w)],
    wlan_set (set_wl_interface (strncpy_s (wl_interface w) INTERFACE_ARRAY)));
   ([T_kw PRIORITY; NUMBER (wl_priority w)], wlan_set (set_wl_priority (i32 (wl_priority w))));
   ([T_kw CHANNEL; NUMBER (wl_channel w)], wlan_set (set_wl_channel (i32 (wl_channel w))));
   ([T_kw MINSIGNAL; NUMBER (wl_minsignal w)], wlan_set (set_wl_minsignal (i32 (wl_minsignal w))));
   ([T_kw DHCP; T_kw (if wl_isdhcp w =? 0 then NO else YES)],
    wlan_dhcp (if wl_isdhcp w =? 0 then 0 else 1))].

(** The blocks for WPA and WEP. *)
Definition wlan_keys (w : wireless) : list (entry wlan_ctx) :=
  let wpa := wpa_entries (default (mk_wpacfg None None None None) (wl_wpa w)) in
  (T_kw WPA :: block_tokens wpa,
   λ c, mk_wc (wx_wlan c) (wx_static c) (run_entries wpa (wx_wpa c)))
  :: match wl_wep_nwkex w with
     | Some s =>
         [(T_kw WEP :: block_tokens (wep_entries s),
           λ c, wlan_set (set_wl_wep (run_entries (wep_entries s) (wl_wep_nwkex (wx_wlan c)))) c)]
     | None => []
     end.

Definition wlan_entries (w : wireless) : list (entry wlan_ctx) :=
  wlan_fixed w
  ++ static_entries on_wstatic (default static_zero (wl_staticopts w))
  ++ str_entry NWID (wl_nwid w) (λ v, wlan_set (set_wl_nwid v))
  ++ str_entry BSSID (wl_bssid w) (λ v, wlan_set (set_wl_bssid v))
  ++ wlan_keys w
  ++ str_entry LLADDR (wl_lladdr w) (λ v, wlan_set (set_wl_lladdr v))
  ++ str_entry RUNUP (wl_run_up w) (λ v, wlan_set (set_wl_run_up v))
  ++ str_entry RUNDOWN (wl_run_down w) (λ v, wlan_set (set_wl_run_down v)).

Lemma idle_wpa : idle wpaoptsl.
Proof. unfold idle, wpaoptsl. idle_step. Qed.

Lemma idle_wep : idle wepoptsl.
Proof. unfold idle, wepoptsl. idle_step. Qed.

Lemma idle_wireless fuel : idle (wirelessoptsl fuel).
Proof. unfold idle, wirelessoptsl, staticopts. idle_step. Qed.

Lemma does_wpa w : Forall (does wpaoptsl) (wpa_entries w).
Proof. unfold wpa_entries. split_entries; option_step; done. Qed.

Lemma does_wep s : Forall (does wepoptsl) (wep_entries s).
Proof. unfold wep_entries. split_entries; option_step; done. Qed.

Lemma length_wpa_entries w : (length (wpa_entries w) ≤ 4)%nat.
Proof. unfold wpa_entries, str_entry. rewrite !length_app. repeat case_match; simpl; lia. Qed.

Lemma does_wlan_keys fuel w : (6 < fuel)%nat → Forall (does (wirelessoptsl fuel)) (wlan_keys w).
Proof.
  intros Hfu. unfold wlan_keys. cbv zeta. set (wpa := wpa_entries _).
  assert (length wpa ≤ 4)%nat as Hl by apply length_wpa_entries.
  apply list.Forall_cons_2; [|destruct (wl_wep_nwkex w) as [s|]; [apply list.Forall_cons_2|]];
    try apply list.Forall_nil_2; (split; [by eexists _, _|]); intros a rest st Hf;
    cbn [fst snd app] in *; unfold wirelessoptsl; do 2 (parse_step; cbv beta iota);
    apply wp_bind; (eapply wp_mono; [apply block_spec; [| |exact Hf|]|]).
  - apply idle_wpa.
  - apply does_wpa.
  - lia.
  - intros c st2 [-> H2]. by apply wp_ret.
  - apply idle_wep.
  - apply does_wep.
  - simpl. lia.
  - intros c st2 [-> H2]. by apply wp_ret.
Qed.

Lemma does_wlan fuel w : (6 < fuel)%nat → Forall (does (wirelessoptsl fuel)) (wlan_entries w).
Proof.
  intros Hfu. unfold wlan_entries, wlan_fixed, static_entries.
  repeat (apply list.Forall_app_2 || by apply does_wlan_keys). all: split_entries.
  all: try (destruct (wl_isdhcp w =? 0)); option_step.
  all: try done.
  change (0 =? 0) with true. cbv iota. by repeat (parse_step; cbv beta iota).
Qed.

Definition wlan_strings (w : wireless) : list cptr :=
  [wl_nwid w; wl_bssid w; wl_wep_nwkex w; wl_lladdr w; wl_run_up w; wl_run_down w]
  ++ match wl_staticopts w with
     | Some c => [st_inet c; st_netmask c; st_domainname c; st_domainserver c]
     | None => []
     end
  ++ match wl_wpa w with
     | Some c => [wc_wpakey c; wc_wpagroupcipher c; wc_wpaciphers c; wc_wpaakms c]
     | None => []
     end.

Record wlan_ok (w : wireless) : Prop := {
  wo_name : str_ok (bytes (wl_name w)) ∧ slen (wl_name w) ≤ 512;
  wo_interface : str_ok (bytes (wl_interface w)) ∧ slen (wl_interface w) ≤ 128;
  wo_numbers : Forall (λ n, - 2 ^ 31 ≤ n < 2 ^ 31) [wl_priority w; wl_channel w; wl_minsignal w];
  wo_dhcp : wl_isdhcp w = 0 ∨ wl_isdhcp w = 1;
  wo_objects : is_Some (wl_staticopts w) ∧ is_Some (wl_wpa w);
  wo_strings : Forall (λ v : cptr, from_option (str_ok ∘ bytes) True v) (wlan_strings w)
}.

Lemma run_static_wlan cfg c :
  wx_static c = static_zero → run_entries (static_entries on_wstatic cfg) c = on_wstatic (λ _, cfg) c.
Proof.
  destruct c as [w st p], cfg as [i m d ds]. simpl. intros ->. unfold static_entries.
  rewrite !run_entries_app, (run_str_entry INET), (run_str_entry NETMASK) by reflexivity.
  by rewrite (run_str_entry DOMAINNAME), (run_str_entry DOMAINNAMESERVERS) by reflexivity.
Qed.

Lemma run_wpa w : run_entries (wpa_entries w) (mk_wpacfg None None None None) = w.
Proof.
  unfold wpa_entries. rewrite !run_entries_app, (run_str_entry WPAKEY) by reflexivity.
  rewrite (run_str_entry WPAGROUPCIPHER), (run_str_entry WPACIPHERS) by reflexivity.
  rewrite (run_str_entry WPAAKMS) by reflexivity. by destruct w.
Qed.

Lemma run_wlan_keys w c :
  wx_wpa c = mk_wpacfg None None None None → wl_wep_nwkex (wx_wlan c) = None → is_Some (wl_wpa w) →
  run_entries (wlan_keys w) c
  = mk_wc (set_wl_wep (wl_wep_nwkex w) (wx_wlan c)) (wx_static c) (default (wx_wpa c) (wl_wpa w)).
Proof.
  intros Hw Hk [wpa E]. unfold wlan_keys. rewrite E. cbn [default].
  destruct c as [wl st p]. simpl in *. subst p. destruct (wl_wep_nwkex w) as [s|];
    unfold run_entries at 1; cbn [foldl snd wx_wlan wx_static wx_wpa]; rewrite run_wpa; [done|].
  f_equal. destruct wl. simpl in *. by subst.
Qed.

Lemma wlan_entries_run w :
  wlan_ok w → wlan_close (run_entries (wlan_entries w) (wireless_new (wl_name w))) = w.
Proof.
  intros [[_ Hn] [_ Hi] Hp Hd [[st Hst] [wpa Hwpa]] _]. unfold wlan_entries.
  repeat (apply list.Forall_cons_1 in Hp as [? Hp]). rewrite !run_entries_app.
  assert (run_entries (wlan_fixed w) (wireless_new (wl_name w))
          = mk_wc (mk_wlan (wl_name w) (wl_interface w) (wl_priority w) None None (wl_minsignal w)
              (wl_channel w) (wl_isdhcp w) None None None None None None) static_zero
              (mk_wpacfg None None None None)) as ->.
  { unfold run_entries, wlan_fixed. cbn [foldl snd]. unfold wireless_new, strncpy_s, NAME_ARRAY, INTERFACE_ARRAY.
    rewrite !stake_all, !i32_small by lia. by destruct Hd as [-> | ->]. }
  rewrite run_static_wlan by reflexivity.
  rewrite (run_str_entry NWID), (run_str_entry BSSID), run_wlan_keys by (reflexivity || by eexists).
  rewrite (run_str_entry LLADDR), (run_str_entry RUNUP), (run_str_entry RUNDOWN) by reflexivity.
  rewrite Hst, Hwpa. destruct w. simpl in *. by subst.
Qed.

Lemma length_wlan_entries w : (length (wlan_entries w) ≤ 16)%nat.
Proof.
  unfold wlan_entries. rewrite !length_app.
  pose proof (length_static_entries on_wstatic (default static_zero (wl_staticopts w))).
  assert (length (wlan_keys w) ≤ 2)%nat as Hk by (unfold wlan_keys; case_match; simpl; lia).
  remember (length (static_entries _ _)) as ns. remember (length (wlan_keys w)) as nk.
  unfold str_entry. repeat case_match; simpl; lia.
Qed.

Definition wlan_tokens (w : wireless) : list token := STRING (wl_name w) :: block_tokens (wlan_entries w).

Lemma wireless_rule_spec w rest st fuel :
  wlan_ok w → feeds (wlan_tokens w ++ rest) st → (20 < fuel)%nat →
  wp (wireless_rule fuel) (λ w' st', w' = w ∧ feeds rest st') st.
Proof.
  intros Hw Hf Hfu. unfold wlan_tokens in Hf. cbn [app] in Hf. unfold wireless_rule.
  do 4 (parse_step; cbv beta). eapply wp_bind, wp_mono.
  { apply (block_spec _ (wlan_entries w)); [apply idle_wireless|apply does_wlan; lia|done|].
    pose proof (length_wlan_entries w). lia. }
  intros c st5 [-> H5]. apply wp_ret. split; [by apply wlan_entries_run|done].
Qed.

(** *** Networks *)

Definition eth_entry (e : ethernet) : entry network :=
  (T_kw ETHERNETNAME :: eth_tokens e,
   λ n, mk_network (nw_name n) (nw_priority n) (e :: ethernet_list n) (wireless_list n)).

Definition wlan_entry (w : wireless) : entry network :=
  (T_kw WIRELESSNAME :: wlan_tokens w,
   λ n, mk_network (nw_name n) (nw_priority n) (ethernet_list n) (w :: wireless_list n)).

(** The lists are in the reverse order of the file. *)
Definition network_entries (n : network) : list (entry network) :=
  map eth_entry (rev (ethernet_list n)) ++ map wlan_entry (rev (wireless_list n)).

Definition network_tokens (n : network) : list token :=
  STRING (nw_name n) :: block_tokens (network_entries n).

Record network_ok (n : network) : Prop := {
  no_name : str_ok (bytes (nw_name n)) ∧ slen (nw_name n) ≤ 64;
  no_priority : nw_priority n = 0;
  no_ethernet : Forall eth_ok (ethernet_list n);
  no_wireless : Forall wlan_ok (wireless_list n)
}.

Lemma does_network fuel n :
  network_ok n → (20 < fuel)%nat → Forall (does (networkoptsl fuel)) (network_entries n).
Proof.
  intros [_ _ He Hw] Hfu. apply list.Forall_app_2; apply list.Forall_fmap, List.Forall_rev.
  - eapply list.Forall_impl; [exact He|]. intros e Hok. split; [by eexists _, _|].
    intros a rest st Hf. cbn [compose eth_entry fst snd app] in *. unfold networkoptsl.
    do 2 (parse_step; cbv beta iota). eapply wp_bind, wp_mono; [by apply (ethernet_rule_spec e rest); [| |lia]|].
    intros e' st3 [-> H3]. by apply wp_ret.
  - eapply list.Forall_impl; [exact Hw|]. intros w Hok. split; [by eexists _, _|].
    intros a rest st Hf. cbn [compose wlan_entry fst snd app] in *. unfold networkoptsl.
    do 2 (parse_step; cbv beta iota). eapply wp_bind, wp_mono; [by apply (wireless_rule_spec w rest)|].
    intros w' st3 [-> H3]. by apply wp_ret.
Qed.

Lemma run_network n :
  network_ok n → run_entries (network_entries n) (mk_network (nw_name n) 0 [] []) = n.
Proof.
  intros [_ Hp _ _]. unfold network_entries. rewrite run_entries_app.
  assert (∀ l m, run_entries (map eth_entry l) m
    = mk_network (nw_name m) (nw_priority m) (rev l ++ ethernet_list m) (wireless_list m)) as ->.
  { induction l as [|e l IH]; intros m; [by destruct m|]. change (run_entries (map eth_entry (e :: l)) m)
      with (run_entries (map eth_entry l) ((eth_entry e).2 m)). rewrite IH. cbn [rev]. by rewrite <- app_assoc. }
  assert (∀ l m, run_entries (map wlan_entry l) m
    = mk_network (nw_name m) (nw_priority m) (ethernet_list m) (rev l ++ wireless_list m)) as ->.
  { induction l as [|e l IH]; intros m; [by destruct m|]. change (run_entries (map wlan_entry (e :: l)) m)
      with (run_entries (map wlan_entry l) ((wlan_entry e).2 m)). rewrite IH. cbn [rev]. by rewrite <- app_assoc. }
  cbn [nw_name nw_priority ethernet_list wireless_list]. rewrite !rev_involutive, !app_nil_r.
  destruct n. simpl in *. by subst.
Qed.

(** The first element of a block may be missing, and its newline too. *)
Lemma network_block_spec fuel es n rest st :
  Forall (does (networkoptsl fuel)) es → feeds (NL :: lines es ++ RBRACE :: rest) st →
  (S (length es) < fuel)%nat →
  wp (optnl fuel;; n ← networkoptsl fuel n; optnl fuel;; opts_l (networkoptsl fuel) n fuel)
    (λ n' st', n' = run_entries es n ∧ feeds rest st') st.
Proof.
  intros He Hf Hfu. destruct (lines_first _ es rest He) as (t & o & E & Ht). rewrite E in *.
  eapply wp_bind, wp_mono; [apply (optnl_spec 1 t o); [done|done|lia]|]. intros [] st1 H1.
  rewrite <- E in H1. destruct es as [|e es].
  - injection E as <- <-. apply (wp_mono _ (λ n' st', n' = n ∧ feeds rest st')); [|done].
    unfold lines in H1. cbn [map concat app] in H1. apply wp_bind. unfold networkoptsl at 1.
    parse_step. apply wp_ret. eapply wp_bind, wp_mono; [by apply (optnl_spec 0 RBRACE rest); [| |lia]|].
    intros [] st3 H3. by apply (opts_l_spec _ []).
  - pose proof He as [[_ Hd] He']%list.Forall_cons_1.
    unfold lines in H1. cbn [map concat] in H1. rewrite <- !app_assoc in H1. fold (lines es) in H1.
    eapply wp_bind, wp_mono; [by apply (Hd n (NL :: lines es ++ RBRACE :: rest))|].
    intros n' st2 [-> H2]. destruct (lines_first _ es rest He') as (t' & o' & E' & Ht').
    rewrite E' in H2. eapply wp_bind, wp_mono; [apply (optnl_spec 1 t' o'); [done|done|lia]|].
    intros [] st3 H3. rewrite <- E' in H3.
    apply (opts_l_spec _ es); [done|done|simpl in Hfu; lia].
Qed.

Lemma network_rule_spec n rest st fuel :
  network_ok n → feeds (network_tokens n ++ rest) st →
  (20 < fuel)%nat → (S (length (network_entries n)) < fuel)%nat →
  wp (network_rule fuel) (λ n' st', n' = n ∧ feeds rest st') st.
Proof.
  intros Hn Hf Hfu Hl. unfold network_tokens, block_tokens in Hf. cbn [app] in Hf.
  rewrite <- app_assoc in Hf. cbn [app] in Hf. unfold network_rule. parse_step. cbv beta.
  pose proof (no_name _ Hn) as [_ Hname]. rewrite (proj2 (Z.ltb_ge 64 _)) by lia.
  parse_step. cbv beta. apply (wp_expect LBRACE (NL :: lines (network_entries n) ++ RBRACE :: rest)); [done|].
  intros st3 H3. eapply wp_mono; [apply (network_block_spec _ (network_entries n)); [by apply does_network|done|done]|].
  intros n' st4 [-> H4]. split; [|done].
  unfold strncpy_s, NAME_ARRAY. rewrite stake_all by lia. by apply run_network.
Qed.

(** *** The file *)

Definition network_statement (n : network) : list token := T_kw NETWORK :: network_tokens n ++ [NL].

Definition conf_tokens (c : ifconfigd_conf) : list token :=
  (if upinterval c =? 0 then [] else [T_kw UPDATEINTERVAL; NUMBER (upinterval c); NL])
  ++ concat (map network_statement (rev (network_list c))).

Definition conf_text (c : ifconfigd_conf) : string := String.string_of_list_ascii (tokens_text (conf_tokens c)).

Record conf_ok (c : ifconfigd_conf) : Prop := {
  co_networks : Forall network_ok (network_list c);
  co_interval : upinterval c = 0 ∨ MIN_UPDATE_INTERVAL ≤ upinterval c < 2 ^ 31
}.

(** Enough for the options of a network, its elements, and the networks. *)
Definition network_size (n : network) : nat := length (ethernet_list n) + length (wireless_list n).
Definition conf_fuel (c : ifconfigd_conf) : nat :=
  25 + length (network_list c) + sum_list (map network_size (network_list c)).

Lemma sum_list_rev l : sum_list (rev l) = sum_list l.
Proof.
  assert (∀ l k, sum_list (l ++ k) = sum_list l + sum_list k)%nat as Happ.
  { clear l. induction l as [|x l IH]; intros k; simpl; [done|]. rewrite IH. lia. }
  induction l as [|x l IH]; [done|]. cbn [rev]. rewrite Happ, IH. simpl. lia.
Qed.

Section file.
Context `{F : Files}.

Lemma network_statement_spec n c rest st fuel :
  network_ok n → feeds (network_statement n ++ rest) st →
  (20 < fuel)%nat → (S (network_size n) < fuel)%nat →
  wp (statement fuel c)
    (λ r st', r = Some (mk_conf (n :: network_list c) (upinterval c)) ∧ feeds rest st') st.
Proof.
  intros Hn Hf Hfu Hl. unfold network_statement in Hf. cbn [app] in Hf. rewrite <- app_assoc in Hf.
  unfold statement. do 2 (parse_step; cbv beta iota).
  eapply wp_bind, wp_mono; [apply (network_rule_spec n ([NL] ++ rest)); [done..|]|].
  { unfold network_entries. rewrite length_app, !length_map, !length_rev. exact Hl. }
  intros n' st3 [-> H3]. apply (wp_expect NL rest); [done|]. intros st4 H4. by apply wp_ret.
Qed.

Lemma grammar_networks ns c st fuel :
  Forall network_ok ns → feeds (concat (map network_statement ns)) st →
  (25 + length ns + sum_list (map network_size ns) ≤ fuel)%nat →
  wp (grammar fuel c) (λ c' _, c' = mk_conf (rev ns ++ network_list c) (upinterval c)) st.
Proof.
  revert c st fuel. induction ns as [|n ns IH]; intros c st fuel Hn Hf Hfu;
    (destruct fuel as [|fuel]; [simpl in Hfu; lia|]); cbn [grammar].
  - apply wp_bind. unfold statement. apply wp_peek_end; [done|]. intros st1. apply wp_ret, wp_ret.
    by destruct c.
  - apply list.Forall_cons_1 in Hn as [Hn Hns]. cbn [map concat] in Hf.
    cbn [length map sum_list foldr fmap] in Hfu. unfold sum_list in *. simpl in Hfu.
    eapply wp_bind, wp_mono; [apply (network_statement_spec n); [done|done|lia|lia]|].
    intros r st1 [-> H1]. eapply wp_mono; [apply IH; [done|done|simpl; lia]|].
    intros c' st2 ->. cbn [network_list upinterval rev]. by rewrite <- app_assoc.
Qed.

Lemma grammar_spec c st fuel :
  conf_ok c → feeds (conf_tokens c) st → (conf_fuel c < fuel)%nat →
  wp (grammar fuel (mk_conf [] 0)) (λ c' _, c' = c) st.
Proof.
  intros [Hn Hi] Hf Hfu. unfold conf_tokens in Hf. unfold conf_fuel in Hfu.
  assert (∀ fuel v st, feeds (concat (map network_statement (rev (network_list c)))) st →
    (conf_fuel c ≤ fuel)%nat →
    wp (grammar fuel (mk_conf [] v)) (λ c' _, c' = mk_conf (network_list c) v) st) as Hgo.
  { intros fuel' v st' Hf' Hfu'. eapply wp_mono.
    - apply (grammar_networks (rev (network_list c))); [by apply List.Forall_rev|done|].
      unfold conf_fuel in Hfu'. rewrite length_rev, map_rev.
      by rewrite sum_list_rev.
    - intros c' _ ->. simpl. by rewrite rev_involutive, app_nil_r. }
  destruct Hi as [Hi|Hi].
  - rewrite Hi in Hf. eapply wp_mono; [apply Hgo; [done|unfold conf_fuel; lia]|].
    intros c' _ ->. destruct c. simpl in *. by subst.
  - unfold MIN_UPDATE_INTERVAL in Hi. rewrite (proj2 (Z.eqb_neq _ 0)) in Hf by lia. cbn [app] in Hf.
    destruct fuel as [|fuel]; [lia|]. cbn [grammar]. apply wp_bind. unfold statement.
    do 3 (parse_step; cbv beta iota). rewrite (proj2 (Z.ltb_ge _ _)) by (unfold MIN_UPDATE_INTERVAL; lia).
    eapply wp_expect; [done|]. intros st4 H4. apply wp_ret.
    eapply wp_mono; [apply Hgo; [done|unfold conf_fuel; lia]|].
    intros c' _ ->. rewrite i32_small by lia. by destruct c.
Qed.

(** *** The tokens can be written out *)

Lemma lines_ok {A} (es : list (entry A)) :
  Forall (λ e, Forall token_ok e.1) es → Forall token_ok (block_tokens es).
Proof.
  intros H. unfold block_tokens. do 2 (apply list.Forall_cons_2; [done|]).
  apply list.Forall_app_2; [|by apply list.Forall_cons_2; [|apply list.Forall_nil_2]].
  unfold lines. induction H as [|e es He Hes IH]; [apply list.Forall_nil_2|]. cbn [map concat].
  apply list.Forall_app_2; [|done]. apply list.Forall_app_2; [done|].
  by apply list.Forall_cons_2; [|apply list.Forall_nil_2].
Qed.

Lemma str_entry_ok {A} k v (set : cptr → A → A) :
  from_option (str_ok ∘ bytes) True v → Forall (λ e, Forall token_ok e.1) (str_entry k v set).
Proof.
  destruct v as [s|]; intros H; [|apply list.Forall_nil_2].
  apply list.Forall_cons_2; [|apply list.Forall_nil_2]. by repeat (apply list.Forall_cons_2 || apply list.Forall_nil_2).
Qed.

(** Break a list of entries down to the strings in it. *)
Ltac entries_ok :=
  repeat (apply list.Forall_app_2 || (apply str_entry_ok; assumption) || apply list.Forall_cons_2
          || apply list.Forall_nil_2); try done.

Lemma static_entries_ok {A} (lift : (static_cfg → static_cfg) → A → A) c :
  Forall (λ v : cptr, from_option (str_ok ∘ bytes) True v)
    [st_inet c; st_netmask c; st_domainname c; st_domainserver c] →
  Forall (λ e, Forall token_ok e.1) (static_entries lift c).
Proof.
  intros H. repeat (apply list.Forall_cons_1 in H as [? H]). unfold static_entries. entries_ok.
Qed.

Lemma int_longlong n : - 2 ^ 31 ≤ n < 2 ^ 31 → longlong n.
Proof. unfold longlong, LLONG_MIN, LLONG_MAX. lia. Qed.

Lemma eth_tokens_ok e : eth_ok e → Forall token_ok (eth_tokens e).
Proof.
  intros [[Hn _] [Hi _] Hp%int_longlong Hd Hs].
  apply list.Forall_app in Hs as [Hs Hst]. repeat (apply list.Forall_cons_1 in Hs as [? Hs]).
  apply list.Forall_cons_2; [done|]. apply lines_ok. unfold eth_entries, eth_fixed.
  apply list.Forall_app_2; [entries_ok|]. apply list.Forall_app_2; [|entries_ok].
  apply static_entries_ok. destruct (eth_staticopts e); [done|]. entries_ok.
Qed.

Lemma wpa_entries_ok w :
  Forall (λ v : cptr, from_option (str_ok ∘ bytes) True v)
    [wc_wpakey w; wc_wpagroupcipher w; wc_wpaciphers w; wc_wpaakms w] →
  Forall (λ e, Forall token_ok e.1) (wpa_entries w).
Proof.
  intros H. repeat (apply list.Forall_cons_1 in H as [? H]). unfold wpa_entries. entries_ok.
Qed.

Lemma wlan_tokens_ok w : wlan_ok w → Forall token_ok (wlan_tokens w).
Proof.
  intros [[Hn _] [Hi _] Hp Hd [[st Est] [wpa Ewpa]] Hs]. unfold wlan_strings in Hs.
  apply list.Forall_app in Hs as [Hs [Hst Hwpa]%list.Forall_app]. rewrite Est in Hst. rewrite Ewpa in Hwpa.
  do 6 (apply list.Forall_cons_1 in Hs as [? Hs]).
  do 3 (apply list.Forall_cons_1 in Hp as [?%int_longlong Hp]).
  apply list.Forall_cons_2; [done|]. apply lines_ok. unfold wlan_entries, wlan_fixed.
  apply list.Forall_app_2; [entries_ok|].
  apply list.Forall_app_2; [apply static_entries_ok; by rewrite Est|].
  do 2 (apply list.Forall_app_2; [entries_ok|]). apply list.Forall_app_2; [|entries_ok].
  unfold wlan_keys. rewrite Ewpa. apply list.Forall_cons_2.
  - apply list.Forall_cons_2; [done|]. by apply lines_ok, wpa_entries_ok.
  - destruct (wl_wep_nwkex w); [|apply list.Forall_nil_2]. apply list.Forall_cons_2; [|apply list.Forall_nil_2].
    apply list.Forall_cons_2; [done|]. apply lines_ok. unfold wep_entries. entries_ok.
Qed.

Lemma network_statement_ok n : network_ok n → Forall token_ok (network_statement n).
Proof.
  intros [[Hn _] _ He Hw]. apply list.Forall_cons_2; [done|].
  apply list.Forall_app_2; [|entries_ok]. apply list.Forall_cons_2; [done|]. apply lines_ok.
  apply list.Forall_app_2; apply list.Forall_fmap, List.Forall_rev.
  - eapply list.Forall_impl; [exact He|]. intros e Hok. apply list.Forall_cons_2; [done|]. by apply eth_tokens_ok.
  - eapply list.Forall_impl; [exact Hw|]. intros w Hok. apply list.Forall_cons_2; [done|]. by apply wlan_tokens_ok.
Qed.

Lemma conf_tokens_ok c : conf_ok c → Forall token_ok (conf_tokens c).
Proof.
  intros [Hn Hi]. apply list.Forall_app_2.
  - destruct (Z.eqb_spec (upinterval c) 0); [apply list.Forall_nil_2|]. entries_ok.
    apply int_longlong. unfold MIN_UPDATE_INTERVAL in Hi. lia.
  - apply List.Forall_rev in Hn. induction Hn as [|n ns Hok Hns IH]; [apply list.Forall_nil_2|].
    cbn [map concat]. apply list.Forall_app_2; [by apply network_statement_ok|done].
Qed.
End file.

(** ** The theorems *)

Lemma wp_lenv_alloc {A} files syms e (f : bool → CM lstate A) Q :
  alloc_never_fails e →
  (∀ e', alloc_never_fails e' → wp (f true) Q (mk_l files None 0 [] syms None e')) →
  wp (lenv alloc_ok ≫= f) Q (mk_l files None 0 [] syms None e).
Proof.
  intros Ha Hf. unfold lenv, wp, mbind, CM_bind, zoom. simpl.
  destruct (alloc_ok_spec e) as (b & e' & E & _ & Hb). rewrite E. destruct (Hb Ha) as [-> Ha'].
  by apply Hf.
Qed.

(** C14. A configuration that is written out is the one the daemon reads: for
    every configuration of networks with any number of ethernet and wireless
    networks in them, with all their options, parse_config() on a file that
    holds its text gives that configuration back. *)
Theorem conf_roundtrip `{F : Files} c filename e fuel :
  conf_ok c → alloc_never_fails e → filename ≠ "-" →
  fopen filename = Some (bytes (conf_text c)) → (conf_fuel c < fuel)%nat →
  ∃ st, parse_config fuel filename (lex_init e) = (Ok c, st).
Proof.
  intros Hc Ha Hname Hopen Hfu.
  assert (wp (parse_config fuel filename) (λ c' _, c' = c) (lex_init e)) as H;
    [|destruct (wp_elim _ _ _ H) as (c' & st & E & ->); by exists st].
  unfold parse_config, must_alloc, lex_init. apply wp_bind, wp_lenv_alloc; [done|]. intros e1 H1.
  apply wp_ret, wp_bind. unfold pushfile. apply wp_lenv_alloc; [done|]. intros e2 H2. cbn [negb].
  apply wp_lenv_alloc; [done|]. intros e3 H3. cbn [negb]. apply wp_bind, wp_gets.
  rewrite (bool_decide_false (filename = "-")), andb_false_r, Hopen by done. cbn [andb].
  apply wp_bind, wp_modify, wp_ret. cbn [negb]. apply grammar_spec; [done| |done].
  split_and!; [done|by apply conf_tokens_ok|]. exists []. split; [by left|]. left.
  split; [done|done|]. unfold conf_text. simpl. by rewrite bytes_of_list.
Qed.

(** C37. No network of a configuration that parse_config() accepts can be
    connected to: connect_ethernet() and connect_wireless() never return in a
    defined way for the networks it makes.  Each uses DHCP or has static options.  The call of
    dhclient(8) lacks the null pointer that ends its arguments, and the words
    for a static address are wiped before they are used, so the process exits
    or its behaviour is not defined. *)
Theorem connect_never_returns `{K : Kernel, LB : Libs, F : Files} fuel filename st c st' :
  parse_config fuel filename st = (Ok c, st') →
  Forall (λ n, Forall (λ e, stops (connect_ethernet e)) (ethernet_list n)
               ∧ Forall (λ w, stops (connect_wireless w)) (wireless_list n)) (network_list c).
Proof.
  intros E%post_parse_config. eapply list.Forall_impl; [exact E|]. intros n [He Hw]. split.
  - eapply list.Forall_impl; [exact He|]. intros e. apply stops_connect_ethernet.
  - eapply list.Forall_impl; [exact Hw|]. intros w. apply stops_connect_wireless.
Qed.

(** *** Examples *)

Definition file_text (lines : list string) : list ascii := concat (map (λ l, bytes l ++ ["010"%char]) lines).
(** Every name opens a file with these lines. *)
Definition one_file (lines : list string) : Files := {|
  fopen _ := Some (file_text lines); fstat _ := None; stdin := []; getuid := 0 |}.
Definition ethernet_example (dhcp : string) : list string :=
  ["network name {"; "ethernet ethsub1 {"; "interface em0"; "priority 2"; dhcp; "}"; "}"].

Definition sample_conf : ifconfigd_conf :=
  mk_conf [mk_network "home" 0
             [mk_eth "desk" "em0" 1 0 (Some (mk_static (Some "10.0.0.2") (Some "255.0.0.0") None None))
                None None (Some "/etc/down")]
             [mk_wlan "sofa" "iwn0" (-2) (Some "my net") None 20 6 1 (Some static_zero)
                (Some (mk_wpacfg (Some "secret phrase") None None None)) None None None None]] 40.

Definition sample_files : Files := {|
  fopen _ := Some (bytes (conf_text sample_conf)); fstat _ := None; stdin := []; getuid := 0 |}.

Lemma conf_roundtrip_witness :
  ∃ st, @parse_config sample_files 50 "f" (lex_init (mk_cenv [] 0 [])) = (Ok sample_conf, st).
Proof.
  apply (@conf_roundtrip sample_files sample_conf "f" (mk_cenv [] 0 []) 50); [|by constructor|done|done|].
  - split; [|right; vm_compute; split; [discriminate|reflexivity]].
    apply list.Forall_cons_2; [|apply list.Forall_nil_2]. split.
    + split; [by apply str_okb_ok|by vm_compute].
    + done.
    + apply list.Forall_cons_2; [|apply list.Forall_nil_2].
      split; [split; [by apply str_okb_ok|by vm_compute]..|by vm_compute|by right; eexists|].
      repeat (apply list.Forall_cons_2 || apply list.Forall_nil_2); try done; by apply str_okb_ok.
    + apply list.Forall_cons_2; [|apply list.Forall_nil_2].
      split; [split; [by apply str_okb_ok|by vm_compute]..| |by right|by split; eexists|].
      * repeat (apply list.Forall_cons_2 || apply list.Forall_nil_2); by vm_compute.
      * repeat (apply list.Forall_cons_2 || apply list.Forall_nil_2); try done; by apply str_okb_ok.
  - vm_compute. repeat constructor.
Defined.

Lemma connect_never_returns_witness :
  ∃ c st, @parse_config (one_file (ethernet_example "dhcp yes")) 100 "f" (lex_init (mk_cenv [] 0 [])) = (Ok c, st)
    ∧ Forall (λ n, Forall (λ e, stops (@connect_ethernet plain_kernel no_libs e)) (ethernet_list n)
                   ∧ Forall (λ w, stops (@connect_wireless plain_kernel no_libs w)) (wireless_list n))
        (network_list c).
Proof.
  eexists _, _. split; [vm_compute; reflexivity|].
  eapply (@connect_never_returns plain_kernel no_libs (one_file (ethernet_example "dhcp yes")) 100 "f"
    (lex_init (mk_cenv [] 0 []))).
  vm_compute. reflexivity.
Defined.
