(* ===== verification/System.v ===== *)
(** * System: the engine and the parent joined by their pipe

    The engine of Engine.v and the parent of Daemon.v, and the socket pair
    between them, as one step relation: clients act on the engine, the engine
    writes to the pipe, and the parent reads from it and handles what it has
    received.  The theorems carry the laws of Channel.v over to the two
    processes and follow the commands of a client through both. *)
From coqutil Require Import Byte.
From stdpp Require Import base list strings relations.
From S2P Require Import Prelude IfData Gate IfNet IfKernel FlagProps ImsgBuffer Imsg Channel Engine.
From S2P Require Import EngineProps Daemon.

(** ** Payloads *)

Definition payload : Type := imsg_hdr * list byte.
Definition payload_of (m : msg) : payload := (g_hdr m, g_data m).
Definition raw (ps : list payload) : list byte := concat (map (λ p, frame p.1 p.2) ps).
Definition framed (p : payload) : Prop := frame_ok p.1 p.2.

(** ** The state and its steps *)

Section system.
Context `{K : Kernel, LB : Libs}.

(** [s_sent] is what the engine has queued for the parent and [s_got] what the
    parent has handled since the start; no code reads them. *)
Record sys := mk_sys {
  s_engine : engine;
  s_net : list segment;
  s_daemon : daemon;
  s_sent : list msg;
  s_got : list payload;
}.

Context (networks : list network).

Inductive sys_step : sys → sys → Prop :=
| SY_client e e' net d sent got ms :
    e_exit e = false → client_step e (Ok tt, e') →
    queues (ie_ibuf (e_parent e)) ms (ie_ibuf (e_parent e')) →
    sys_step (mk_sys e net d sent got) (mk_sys e' net d (sent ++ ms) got)
| SY_send e e' net d sent got rcv snd :
    e_exit e = false → ie_added (e_parent e) = true → has_bits (ie_events (e_parent e)) EV_WRITE →
    sendmsg_answer (i_w (ie_ibuf (e_parent e))) snd →
    ifconfigd_dispatch_parent EV_WRITE rcv snd (set_parent (event_del (e_parent e)) e) = (Ok tt, e') →
    sys_step (mk_sys e net d sent got)
      (mk_sys e' (net ++ sendmsg_segments (i_w (ie_ibuf (e_parent e))) snd) d sent got)
| SY_merge e n1 fd b1 b2 n2 d sent got :
    sys_step (mk_sys e (n1 ++ mk_seg fd b1 :: mk_seg None b2 :: n2) d sent got)
      (mk_sys e (n1 ++ mk_seg fd (b1 ++ b2) :: n2) d sent got)
| SY_read e sg net d d' sent got k snd new :
    0 < k ≤ Zlen (sg_bytes sg) → Zlen (i_r (ie_ibuf (d_iev d))) + k ≤ IBUF_READ_SIZE →
    d_exit d = false → ie_added (d_iev d) = true →
    main_dispatch_ifconfigde networks EV_READ (RecvOk (Ztake k (sg_bytes sg)) (seg_cmsgs sg)) snd
      (set_diev (event_del (d_iev d)) d) = (Ok tt, d') →
    i_r (ie_ibuf (d_iev d)) ++ Ztake k (sg_bytes sg) = raw new ++ i_r (ie_ibuf (d_iev d')) →
    Forall framed new → incomplete (i_r (ie_ibuf (d_iev d'))) = true →
    sys_step (mk_sys e (sg :: net) d sent got)
      (mk_sys e (seg_rest k sg ++ net) d' sent (got ++ new)).

Definition sys_init (lfd pfd fd pid child : Z) (c1 c2 : cenv) (k : kstate) : sys :=
  mk_sys (engine_init lfd pfd fd child c1) [] (daemon_init fd pfd pid child c2 k) [] [].

Definition sys_reach (s : sys) : Prop :=
  ∃ lfd pfd fd pid child c1 c2 k, lfd ≠ pfd ∧ rtc sys_step (sys_init lfd pfd fd pid child c1 c2 k) s.
End system.

(** ** Payloads are determined by their bytes *)

Lemma frame_inj h1 d1 h2 d2 r1 r2 :
  frame_ok h1 d1 → frame_ok h2 d2 → frame h1 d1 ++ r1 = frame h2 d2 ++ r2 →
  h1 = h2 ∧ d1 = d2 ∧ r1 = r2.
Proof.
  intros H1 H2 E. assert (h1 = h2) as ->.
  { rewrite <- (hdr_decode_frame h1 d1 r1), E by apply H1. apply hdr_decode_frame, H2. }
  split; [done|]. apply app_inj_1 in E as [E ->].
  - unfold frame in E. by apply app_inv_head in E.
  - apply Nat2Z.inj. fold (Zlen (frame h2 d1)). fold (Zlen (frame h2 d2)). by rewrite !Zlen_frame.
Qed.

Lemma not_incomplete h d r : frame_ok h d → incomplete (frame h d ++ r) = false.
Proof.
  intros Hok. pose proof (Zlen_frame _ _ Hok) as Hl. pose proof Hok as [(_ & Hr & _) _].
  unfold incomplete. rewrite hdr_decode_frame, Zlen_app, Hl by apply Hok.
  pose proof (Zlen_nonneg r). apply orb_false_intro; apply Z.ltb_ge; lia.
Qed.

Lemma raw_cons h d ps : raw ((h, d) :: ps) = frame h d ++ raw ps.
Proof. reflexivity. Qed.

Lemma raw_unique ps1 : ∀ ps2 r1 r2,
  Forall framed ps1 → Forall framed ps2 → incomplete r1 = true → incomplete r2 = true →
  raw ps1 ++ r1 = raw ps2 ++ r2 → ps1 = ps2 ∧ r1 = r2.
Proof.
  induction ps1 as [|[h1 d1] ps1 IH]; intros [|[h2 d2] ps2] r1 r2 H1 H2 I1 I2 E;
    rewrite ?raw_cons, <- ?app_assoc in E.
  - done.
  - apply list.Forall_cons in H2 as [Hf _].
    pose proof (not_incomplete h2 d2 (raw ps2 ++ r2) Hf) as Hc. rewrite <- E in Hc.
    change (incomplete r1 = false) in Hc. congruence.
  - apply list.Forall_cons in H1 as [Hf _].
    pose proof (not_incomplete h1 d1 (raw ps1 ++ r1) Hf) as Hc. rewrite E in Hc.
    change (incomplete r2 = false) in Hc. congruence.
  - apply list.Forall_cons in H1 as [Hf1 H1]. apply list.Forall_cons in H2 as [Hf2 H2].
    destruct (frame_inj h1 d1 h2 d2 _ _ Hf1 Hf2 E) as (-> & -> & E').
    destruct (IH ps2 r1 r2) as [-> ->]; done.
Qed.

Lemma wire_raw ms : wire ms = raw (map payload_of ms).
Proof. unfold wire, raw. by rewrite map_map. Qed.

Lemma framed_payloads ms : Forall msg_ok ms → Forall framed (map payload_of ms).
Proof. induction 1 as [|m ms Hm _ IH]; constructor; [apply Hm|done]. Qed.

(** ** The messages queued are determined by the queue *)

Definition holds (m : msg) (b : ibuf) : Prop := msg_ok m ∧ iov b = wire1 m ∧ b_fd b = g_fd m.

Lemma queues_bufs ib ms ib' :
  queues ib ms ib' → ∃ bs, m_bufs (i_w ib') = m_bufs (i_w ib) ++ bs ∧ Forall2 holds ms bs.
Proof.
  induction 1 as [|ms ib' m b _ (bs & Hb & Hf) Hm Hl Hr Hfd Hi].
  { exists []. by rewrite app_nil_r. }
  exists (bs ++ [b]). simpl. rewrite Hb, <- app_assoc. split; [done|].
  apply Forall2_app; [done|]. apply Forall2_cons. split; [done|constructor].
Qed.

Lemma holds_inj m1 m2 b : holds m1 b → holds m2 b → m1 = m2.
Proof.
  intros (Hm1 & H1 & F1) (Hm2 & H2 & F2). rewrite H1 in H2. unfold wire1 in H2.
  destruct (frame_inj (g_hdr m1) (g_data m1) (g_hdr m2) (g_data m2) [] []) as (Hh & Hd & _);
    [apply Hm1|apply Hm2|by rewrite H2|]. destruct m1, m2; simpl in *. congruence.
Qed.

Lemma queues_unique ib ms1 ms2 ib' : queues ib ms1 ib' → queues ib ms2 ib' → ms1 = ms2.
Proof.
  intros (bs1 & E1 & F1)%queues_bufs (bs2 & E2 & F2)%queues_bufs.
  rewrite E1 in E2. apply app_inv_head in E2 as <-. clear E1. revert ms2 F2.
  induction F1 as [|m b ms bs Hm _ IH]; intros ms2 F2.
  - by apply Forall2_nil_inv_r in F2 as ->.
  - apply Forall2_cons_inv_r in F2 as (m2 & ms' & Hm2 & F2 & ->).
    f_equal; [by eapply holds_inj|auto].
Qed.

(** ** What the engine does to the channel *)

(** A message the engine makes of one of a client. *)
Definition from_client (m : msg) : Prop :=
  ∃ pid c td, frame_ok (im_hdr c) (im_data c) ∧ forward c = Some td ∧ m = to_parent pid td.

Lemma forwards_from_client pid ms qs :
  all_framed ms → qs `sublist_of` forwards pid ms → Forall from_client qs.
Proof.
  intros Hall Hs. apply list.Forall_forall. intros m Hm.
  apply (elem_of_sublist _ _ _ Hm) in Hs.
  apply list_elem_of_fmap in Hs as (td & -> & Htd). apply list_elem_of_omap in Htd as (c & Hc & Hf).
  exists pid, c, td. split_and!; [|done..]. by apply (proj1 (list.Forall_forall _ _) Hall).
Qed.

Lemma client_step_queues e e' :
  engine_inv e → client_step e (Ok tt, e') →
  engine_inv e' ∧ ∃ qs, queues (ie_ibuf (e_parent e)) qs (ie_ibuf (e_parent e')) ∧ Forall from_client qs.
Proof.
  intros Hinv Hs. inversion Hs as [a Hn E|i c event rcv snd Hi _ _ _ Hr Hsnd E].
  - pose proof (accept_step_inv a e Hinv Hn) as H. unfold wpx in H. rewrite E in H. split; [done|].
    exists []. split; [|constructor]. clear -E. unfold control_accept in E.
    destruct (ac_fd a) as [fd|]; [|by injection E as <-; constructor].
    unfold session_socket_blockmode in E. destruct (ac_getfl a); [|done]. destruct (ac_setfl a); [|done].
    unfold env in E. run in E. destruct (alloc_ok (e_env e)) as [[[|]|w] c1]; simpl in E; simplify_eq; constructor.
  - pose proof (conn_step_inv i c event rcv snd e Hinv Hi Hr Hsnd) as H. unfold wp in H.
    unfold conn_fd in H. rewrite E in H. destruct H as (Hinv' & open & ms & rest & _ & Hall & Hf & _).
    split; [done|]. destruct Hf as (qs & Hsub & Hg & _). exists qs. split; [apply Hg|].
    by eapply forwards_from_client.
Qed.

Lemma chan_env tx c net rx crx sent got u1 u2 c' crx' :
  chan_inv_at (mk_chan tx c net rx crx sent got) u1 u2 →
  chan_inv_at (mk_chan tx c' net rx crx' sent got) u1 u2.
Proof. by intros []. Qed.

Lemma chan_queues tx c net rx crx sent got ms tx' :
  queues tx ms tx' → chan_inv (mk_chan tx c net rx crx sent got) →
  chan_inv (mk_chan tx' c net rx crx (sent ++ ms) got).
Proof.
  induction 1 as [|ms tx' m b _ IH Hm Hl Hr Hf Hi]; intros Hinv; [by rewrite app_nil_r|].
  destruct (IH Hinv) as (u1 & u2 & Hat). exists u1, (u2 ++ [m]). rewrite app_assoc.
  by eapply inv_compose.
Qed.

(** ** What the parent does to the channel *)

Section parent.
Context `{K : Kernel, LB : Libs}.
Context (networks : list network).

Definition d_ib (d : daemon) : imsgbuf := ie_ibuf (d_iev d).
Definition d_env (d : daemon) : cenv := g_env (d_g d).

(** The parent can handle a message: its switch returns. *)
Definition handled (m : msg) : Prop :=
  ∃ g g', main_switch networks (mk_imsg (g_hdr m) (g_fd m) (g_data m)) g = (Ok tt, g').

Lemma denv_run {A} (m : CM cenv A) a c d :
  m (d_env d) = (Ok a, c) → denv m d = (Ok a, set_dg (set_env c (d_g d)) d).
Proof. intros E. unfold denv, gm, in_env, zoom. unfold d_env in E. by rewrite E. Qed.

Lemma gm_inv {A} (m : GM A) (a : A) d d' :
  gm m d = (Ok a, d') → ∃ g', m (d_g d) = (Ok a, g') ∧ d' = set_dg g' d.
Proof.
  unfold gm, zoom. destruct (m (d_g d)) as [[b|w] g']; [|done]. intros [= -> <-]. by eexists.
Qed.

Lemma main_loop_chan fuel : ∀ d d' tx c net sent got u1 u2,
  chan_inv_at (mk_chan tx c net (d_ib d) (d_env d) sent got) u1 u2 →
  main_loop networks fuel d = (Ok tt, d') →
  ∃ ms, chan_inv (mk_chan tx c net (d_ib d') (d_env d') sent (got ++ ms))
    ∧ i_r (d_ib d) = wire ms ++ i_r (d_ib d') ∧ Forall msg_ok ms ∧ Forall handled ms
    ∧ incomplete (i_r (d_ib d')) = true.
Proof.
  induction fuel as [|fuel IH]; intros d d' tx c net sent got u1 u2 Hinv E; [done|].
  cbn [main_loop] in E. rewrite bind_gets in E. fold (d_ib d) in E.
  destruct (imsg_get_cases (d_ib d) (d_env d))
    as [[Hb G]|[(Hb & Hinc & G)|(h & data & rest & c1 & Hok & Hr & Hcl & Ha & [G|[G Hna]])]];
    rewrite (bind_ok _ _ _ _ _ (denv_run _ _ _ _ G)), bind_modify in E; cbv beta iota in E;
    try done.
  - injection E as <-. exists []. rewrite app_nil_r. split_and!; try done; try constructor.
    exists u1, u2. by eapply chan_env.
  - assert (0 < h_len h) as Hpos by (destruct Hok as [(_ & H & _) _]; unfold IMSG_HEADER_SIZE in H; lia).
    rewrite (proj2 (Z.eqb_neq _ _)), (proj2 (Z.eqb_neq _ _)) in E by lia.
    destruct (inv_get _ _ _ _ _ _ _ _ _ Hinv)
      as [[G' _]|(m & u & c2 & -> & _ & [[G' _]|(rx' & G' & Hinv')])];
      rewrite G in G'; injection G'; intros; subst; try lia; try done.
    rewrite H1 in *. apply bind_inv in E as ([] & d1 & Es & E).
    apply gm_inv in Es as (g' & Es & ->).
    eapply IH in E as (ms & Hc & Hr' & Hok' & Hh & Hinc); [|by eapply chan_env].
    exists (m :: ms). rewrite cons_middle, app_assoc. split_and!; [done| | | |done].
    + rewrite Hr, wire_cons, <- app_assoc. f_equal. exact Hr'.
    + constructor; [|done]. destruct Hinv as [_ Hall]. by apply list.Forall_cons in Hall as [? _].
    + constructor; [|done]. by eexists _, _.
Qed.

Lemma main_read_segment data sg d shut d' :
  0 < Zlen data → main_read (RecvOk data (seg_cmsgs sg)) d = (Ok shut, d') →
  shut = false ∧ d_ib d' = mk_imsgbuf (i_fds (d_ib d) ++ seg_fds sg) (i_r (d_ib d) ++ data)
                             (i_w (d_ib d)) (i_fd (d_ib d)) (i_pid (d_ib d)).
Proof.
  intros Hd E. unfold main_read in E. rewrite bind_gets in E.
  destruct (imsg_read (RecvOk data (seg_cmsgs sg)) (d_ib d) (d_env d)) as [[[n ib]|w] c] eqn:G.
  2: { unfold denv, gm, in_env, zoom, mbind, CM_bind in E. unfold d_ib, d_env in G. by rewrite G in E. }
  fold (d_ib d) in E. rewrite (bind_ok _ _ _ _ _ (denv_run _ _ _ _ G)), bind_modify in E.
  destruct (Z.eqb_spec n (-1)) as [|Hn]; [done|]. injection E as <- <-.
  assert (n = Zlen data) as ->.
  { destruct (imsg_read_spec (RecvOk data (seg_cmsgs sg)) (d_ib d) (d_env d))
      as (n' & ifds & c' & G' & [Hn'|Hn'] & _); rewrite G in G'; simplify_eq; done. }
  apply imsg_read_segment in G as [_ ->]; [|done]. split; [|done]. apply Z.eqb_neq. lia.
Qed.

Lemma dispatch_chan d d' tx c sg net sent got u1 u2 k snd :
  chan_inv_at (mk_chan tx c (sg :: net) (d_ib d) (d_env d) sent got) u1 u2 →
  0 < k ≤ Zlen (sg_bytes sg) →
  main_dispatch_ifconfigde networks EV_READ (RecvOk (Ztake k (sg_bytes sg)) (seg_cmsgs sg)) snd
    (set_diev (event_del (d_iev d)) d) = (Ok tt, d') →
  ∃ ms, chan_inv (mk_chan tx c (seg_rest k sg ++ net) (d_ib d') (d_env d') sent (got ++ ms))
    ∧ i_r (d_ib d) ++ Ztake k (sg_bytes sg) = wire ms ++ i_r (d_ib d')
    ∧ Forall msg_ok ms ∧ Forall handled ms ∧ incomplete (i_r (d_ib d')) = true.
Proof.
  intros Hinv Hk E. unfold main_dispatch_ifconfigde in E.
  change (has_bits EV_READ EV_READ) with true in E. change (has_bits EV_READ EV_WRITE) with false in E.
  apply bind_inv in E as (shut & d1 & Er & E).
  apply main_read_segment in Er as [-> Hib]; [|rewrite Zlen_Ztake; lia].
  rewrite bind_ret_l, bind_gets in E. apply bind_inv in E as ([] & d2 & El & E).
  injection E as <-. change (d_ib (set_diev (event_del (d_iev d)) d)) with (d_ib d) in Hib.
  eapply main_loop_chan in El as (ms & Hc & Hr & Hok & Hh & Hi).
  2: { apply (inv_recv tx c sg net (d_ib d) (d_env d) sent got u1 u2 k); [exact Hinv|exact Hk|exact Hib]. }
  exists ms. split_and!; try done. rewrite Hib in Hr. exact Hr.
Qed.
End parent.

(** ** The invariant of the system *)

Section invariant.
Context `{K : Kernel, LB : Libs}.
Context (networks : list network).

Record sys_inv (s : sys) : Prop := mk_sysinv {
  si_engine : engine_inv (s_engine s);
  si_client : Forall from_client (s_sent s);
  si_chan : ∃ got, s_got s = map payload_of got ∧ Forall (handled networks) got
    ∧ chan_inv (mk_chan (ie_ibuf (e_parent (s_engine s))) (e_env (s_engine s)) (s_net s)
                  (d_ib (s_daemon s)) (d_env (s_daemon s)) (s_sent s) got);
}.

Lemma sys_init_inv lfd pfd fd pid child c1 c2 k :
  lfd ≠ pfd → sys_inv (sys_init lfd pfd fd pid child c1 c2 k).
Proof.
  intros Hn. split; [by apply engine_init_inv|constructor|].
  exists []. split_and!; [done|constructor|].
  destruct (chan_inv_init pfd child fd pid c1 c2) as (u1 & u2 & H). exists u1, u2.
  by eapply chan_env.
Qed.

Lemma client_inv e e' net d sent got ms :
  sys_inv (mk_sys e net d sent got) → client_step e (Ok tt, e') →
  queues (ie_ibuf (e_parent e)) ms (ie_ibuf (e_parent e')) →
  sys_inv (mk_sys e' net d (sent ++ ms) got).
Proof.
  intros [Hinv Hcl (gm & Hg & Hh & Hch)] Hs Hq. simpl in *.
  destruct (client_step_queues _ _ Hinv Hs) as (Hinv' & qs & Hq' & Hfrom).
  rewrite <- (queues_unique _ _ _ _ Hq Hq') in Hfrom.
  split; simpl; [done|by apply Forall_app_2|]. exists gm. split_and!; [done..|].
  destruct (chan_queues _ _ _ _ _ _ _ _ _ Hq Hch) as (u1 & u2 & H). exists u1, u2. by eapply chan_env.
Qed.

Lemma send_inv e e' net d sent got rcv snd :
  sys_inv (mk_sys e net d sent got) → sendmsg_answer (i_w (ie_ibuf (e_parent e))) snd →
  ifconfigd_dispatch_parent EV_WRITE rcv snd (set_parent (event_del (e_parent e)) e) = (Ok tt, e') →
  sys_inv (mk_sys e' (net ++ sendmsg_segments (i_w (ie_ibuf (e_parent e))) snd) d sent got).
Proof.
  intros [Hinv Hcl (gm & Hg & Hh & (u1 & u2 & Hch))] Hs E. simpl in *.
  change (ifconfigd_dispatch_parent EV_WRITE rcv snd)
    with (ifconfigd_dispatch_parent EV_WRITE (RecvOk [] []) snd) in E.
  pose proof (parent_step_inv EV_WRITE (RecvOk [] []) snd e Hinv) as Hp. unfold wpx in Hp.
  rewrite E in Hp. split; simpl; [apply Hp; [|done]|done|].
  { simpl. rewrite Zlen_nil. pose proof (ei_parent _ Hinv) as [_ Hl]. lia. }
  unfold ifconfigd_dispatch_parent in E. change (EV_WRITE =? EV_READ) with false in E.
  change (EV_WRITE =? EV_WRITE) with true in E.
  exists gm. split_and!; [done..|]. apply bind_inv in E as (p & e0 & [= <- <-] & E).
  apply bind_inv in E as ([z w] & e1 & E1 & E).
  unfold env, zoom in E1. cbn [e_env e_parent set_parent ie_ibuf event_del] in E1, E.
  destruct (msgbuf_write snd (i_w (ie_ibuf (e_parent e))) (e_env e)) as [[[z' w']|] c] eqn:G; [|done].
  injection E1 as <- <- <-. apply bind_inv in E as ([] & e0 & [= <-] & E).
  destruct (z' =? -1); [done|]. injection E as <-.
  cbn [e_parent set_parent imsg_event_add ie_ibuf set_ibuf].
  destruct (inv_send _ _ _ _ _ _ _ _ _ _ _ _ _ Hch Hs G) as (v1 & v2 & H). exists v1, v2.
  by eapply chan_env.
Qed.

Lemma read_inv e sg net d d' sent got k snd new :
  sys_inv (mk_sys e (sg :: net) d sent got) → 0 < k ≤ Zlen (sg_bytes sg) →
  main_dispatch_ifconfigde networks EV_READ (RecvOk (Ztake k (sg_bytes sg)) (seg_cmsgs sg)) snd
    (set_diev (event_del (d_iev d)) d) = (Ok tt, d') →
  i_r (d_ib d) ++ Ztake k (sg_bytes sg) = raw new ++ i_r (d_ib d') →
  Forall framed new → incomplete (i_r (d_ib d')) = true →
  sys_inv (mk_sys e (seg_rest k sg ++ net) d' sent (got ++ new)).
Proof.
  intros [Hinv Hcl (gm & Hg & Hh & (u1 & u2 & Hch))] Hk E Hnew Hf Hi. simpl in *.
  destruct (dispatch_chan networks _ _ _ _ _ _ _ _ _ _ _ _ Hch Hk E) as (ms & Hc & Hr & Hok & Hh' & _).
  rewrite wire_raw in Hr. rewrite Hr in Hnew.
  apply raw_unique in Hnew as [<- _]; [|by apply framed_payloads|done..].
  split; simpl; [done..|]. exists (gm ++ ms). split_and!; [|by apply Forall_app_2|done].
  by rewrite map_app, Hg.
Qed.

Lemma sys_step_inv s s' : sys_inv s → sys_step networks s s' → sys_inv s'.
Proof.
  intros Hinv Hs. destruct Hs.
  - by eapply client_inv.
  - by eapply send_inv.
  - destruct Hinv as [He Hcl (gm & Hg & Hh & (u1 & u2 & Hch))]. split; simpl in *; try done.
    exists gm. split_and!; [done..|]. exists u1, u2. by apply inv_merge.
  - by eapply read_inv.
Qed.

Lemma sys_reach_inv s : sys_reach networks s → sys_inv s.
Proof.
  intros (lfd & pfd & fd & pid & child & c1 & c2 & k & Hn & Hs).
  pose proof (sys_init_inv lfd pfd fd pid child c1 c2 k Hn) as Hinv.
  induction Hs as [|s1 s2 s3 H12 _ IH]; [done|]. apply IH. by eapply sys_step_inv.
Qed.
End invariant.

(** ** Claims *)

Section claims.
Context `{K : Kernel, LB : Libs}.
Context (networks : list network).

Lemma use_ethernet_undefined m g :
  from_client m → h_type (g_hdr m) = IMSG_USE_ETHERNET →
  main_switch networks (mk_imsg (g_hdr m) (g_fd m) (g_data m)) g = (Stop SUndef, g).
Proof.
  intros (pid & c & td & _ & Hf & ->) Ht. simpl in Ht. unfold main_switch. cbn [im_hdr im_data to_parent g_hdr g_data h_type].
  rewrite Ht. unfold forward in Hf. destruct (h_type (im_hdr c) =? IMSG_USE_ETHERNET).
  - destruct (_ =? _); [|done]. injection Hf as <-. simpl.
    rewrite (proj2 (Z.ltb_lt _ _)); [done|].
    unfold PTR_SIZE, MAX_NETWORK_NAME_SIZE. rewrite Zlen_Ztake by lia. lia.
  - destruct (decide _) as [Hin|]; [|done]. injection Hf as <-. simpl in Ht. rewrite Ht in Hin.
    exfalso. revert Hin. compute_done.
Qed.


(** C31. The command to use an ethernet network cannot work: the engine passes
    on eight bytes of the name where the parent copies sixty-four, so that
    handling such a message has no defined behaviour, and no run in which the
    parent goes on has handled one. *)
Theorem use_ethernet_never_served s :
  sys_reach networks s →
  (∀ m g, m ∈ s_sent s → h_type (g_hdr m) = IMSG_USE_ETHERNET →
     main_switch networks (mk_imsg (g_hdr m) (g_fd m) (g_data m)) g = (Stop SUndef, g))
  ∧ ∀ p, p ∈ s_got s → h_type p.1 ≠ IMSG_USE_ETHERNET.
Proof.
  intros [_ Hc (got & -> & Hh & (u1 & u2 & [Hs _ _ _ _ _ _ _ _ _]))]%sys_reach_inv. simpl in Hs.
  rewrite list.Forall_forall in Hc, Hh. split.
  - intros m g Hm. apply use_ethernet_undefined. auto.
  - intros p (m & -> & Hm)%list_elem_of_fmap Ht. destruct (Hh m Hm) as (g & g' & E).
    rewrite use_ethernet_undefined in E; [done| |done]. apply Hc. rewrite Hs. apply elem_of_app. by left.
Qed.
End claims.

(** ** A run *)

Module Run.
#[local] Existing Instance plain_kernel.
#[local] Existing Instance no_libs.

(** A client asks to monitor, and later to use an ethernet network. *)
Definition client_sends (h : imsg_hdr) (data : list byte) (e : engine) : engine :=
  match e_conns e with
  | c :: _ =>
      (control_dispatch_imsg 9 EV_READ (RecvOk (frame h data) []) (SysOk 0)
         (set_conns (<[0%nat := event_del c]> (e_conns e)) e)).2
  | [] => e
  end.

Definition monitor_hdr : imsg_hdr := mk_hdr IMSG_IFCONFIGD_MONITOR 16 0 0 200.
Definition use_hdr : imsg_hdr := mk_hdr IMSG_USE_ETHERNET 80 0 0 201.

Definition e2 : engine := client_sends monitor_hdr [] run1.
Definition e3 : engine :=
  (ifconfigd_dispatch_parent EV_WRITE (RecvOk [] []) (SysOk 16) (set_parent (event_del (e_parent e2)) e2)).2.
Definition e4 : engine := client_sends use_hdr (zeros 64) e3.

Definition m1 : msg := to_parent 100 (IMSG_IFCONFIGD_MONITOR, []).
Definition m2 : msg := to_parent 100 (IMSG_USE_ETHERNET, zeros 8).

Definition seg : segment := mk_seg None (wire1 m1).
Definition d0 : daemon := daemon_init 7 6 50 100 (mk_cenv [] 0 []) [].
Definition d1 : daemon :=
  (main_dispatch_ifconfigde [] EV_READ (RecvOk (wire1 m1) []) (SysOk 0) (set_diev (event_del (d_iev d0)) d0)).2.

Definition final : sys := mk_sys e4 [] d1 [m1; m2] [payload_of m1].

Lemma queued e e' m b :
  ie_ibuf (e_parent e') = set_w (ie_ibuf (e_parent e)) (ibuf_enqueue (i_w (ie_ibuf (e_parent e))) b) →
  msg_ok m → ibuf_live b → b_rpos b = 0 → b_fd b = g_fd m → iov b = wire1 m →
  queues (ie_ibuf (e_parent e)) [m] (ie_ibuf (e_parent e')).
Proof. intros ->. intros. apply (queues_snoc _ [] _ m b); try done. constructor. Qed.

Definition buf (e : engine) : ibuf :=
  default (mk_ibuf [] 0 0 0 0 0) (head (m_bufs (i_w (ie_ibuf (e_parent e))))).

Ltac queue_by b :=
  apply (queued _ _ _ b); [by vm_compute| |by vm_compute..];
  split; [split; [repeat split; by vm_compute|by vm_compute]|by vm_compute].

Lemma step1 : sys_step [] (sys_init 5 6 7 50 100 (mk_cenv [] 0 []) (mk_cenv [] 0 []) [])
                (mk_sys run1 [] d0 [] []).
Proof.
  apply (SY_client [] _ _ _ _ [] [] []); [done| |constructor].
  apply (CS_accept run0 (mk_accept (Some 9) (Some 2) true)). intros fd [= <-]. compute_done.
Qed.

Lemma step2 : sys_step [] (mk_sys run1 [] d0 [] []) (mk_sys e2 [] d0 [m1] []).
Proof.
  apply (SY_client [] _ _ _ _ [] [] [m1]); [done| |].
  - assert (control_dispatch_imsg 9 EV_READ (RecvOk (frame monitor_hdr []) []) (SysOk 0)
      (set_conns [event_del run_conn] run1) = (Ok tt, e2)) as <- by (by vm_compute).
    by apply (CS_conn run1 0 run_conn EV_READ (RecvOk (frame monitor_hdr []) []) (SysOk 0)).
  - queue_by (buf e2).
Qed.

Lemma step3 : sys_step [] (mk_sys e2 [] d0 [m1] []) (mk_sys e3 [seg] d0 [m1] []).
Proof.
  assert ([seg] = [] ++ sendmsg_segments (i_w (ie_ibuf (e_parent e2))) (SysOk 16)) as -> by (by vm_compute).
  by apply (SY_send [] e2 e3 [] d0 [m1] [] (RecvOk [] []) (SysOk 16)).
Qed.

Lemma step4 : sys_step [] (mk_sys e3 [seg] d0 [m1] []) (mk_sys e3 [] d1 [m1] [payload_of m1]).
Proof.
  apply (SY_read [] e3 seg [] d0 d1 [m1] [] 16 (SysOk 0) [payload_of m1]);
    [by vm_compute|by vm_compute|done|done| |by vm_compute| |by vm_compute].
  - replace (RecvOk _ _) with (RecvOk (wire1 m1) []) by (by vm_compute).
    rewrite (surjective_pairing (main_dispatch_ifconfigde _ _ _ _ _)). by f_equal.
  - constructor; [|constructor]. split; [repeat split; by vm_compute|by vm_compute].
Qed.

Lemma step5 : sys_step [] (mk_sys e3 [] d1 [m1] [payload_of m1]) final.
Proof.
  apply (SY_client [] _ _ _ _ [m1] _ [m2]); [done| |].
  - assert (control_dispatch_imsg 9 EV_READ (RecvOk (frame use_hdr (zeros 64)) []) (SysOk 0)
      (set_conns (<[0%nat := event_del run_conn]> (e_conns e3)) e3) = (Ok tt, e4)) as <- by (by vm_compute).
    by apply (CS_conn e3 0 run_conn EV_READ (RecvOk (frame use_hdr (zeros 64)) []) (SysOk 0)).
  - queue_by (buf e4).
Qed.

Lemma final_reach : sys_reach [] final.
Proof.
  exists 5, 6, 7, 50, 100, (mk_cenv [] 0 []), (mk_cenv [] 0 []), []. split; [done|].
  eapply rtc_l; [apply step1|]. eapply rtc_l; [apply step2|]. eapply rtc_l; [apply step3|].
  eapply rtc_l; [apply step4|]. eapply rtc_l; [apply step5|]. apply rtc_refl.
Qed.


Lemma use_ethernet_never_served_witness :
  main_switch [] (mk_imsg (g_hdr m2) (g_fd m2) (g_data m2)) (d_g d1) = (Stop SUndef, d_g d1).
Proof.
  destruct (use_ethernet_never_served [] final final_reach) as [H _]. apply H; [|done].
  apply list_elem_of_further, list_elem_of_here.
Defined.
End Run.
