(* ===== verification/Ctl.v ===== *)
(** * Ctl: the control program

    Models src/ifconfigctl/ifconfigctl.c and the keyword table of
    src/ifconfigctl/ifconfigctl.h.  The program finds its command with
    bsearch(3), connects to the control socket, queues at most one message and
    writes it out.  The option loop of main(), which only chooses the path of
    the socket, is left out; [argv] is what follows the options, and argv[argc]
    is NULL. *)
From coqutil Require Import Byte.
From stdpp Require Import base list strings.
From Stdlib Require Import Ascii.
From S2P Require Import Prelude CString CNum ImsgBuffer Imsg Channel Engine EngineProps.

(** ** Keywords *)

Definition K_NULL : Z := 0.
Definition K_MONITOR : Z := 1.
Definition K_SHOW : Z := 2.
Definition K_USE_ETH : Z := 3.
Definition K_USE_NET : Z := 4.
Definition K_USE_WLAN : Z := 5.

Record keytab := mk_key { kt_cp : string; kt_i : Z }.

Definition keywords : list keytab :=
  [mk_key "monitor" K_MONITOR; mk_key "show" K_SHOW; mk_key "uselan" K_USE_ETH;
   mk_key "usenet" K_USE_NET; mk_key "usewlan" K_USE_WLAN].

(** strcmp(3) on the key and the word of a row. *)
Definition keycmp (key : string) (kt : keytab) : Z := str_compare key (kt_cp kt).

(** [None] when the search does not end, which [keyword_spec] excludes. *)
Definition keyword (cp : string) : option Z :=
  r ← bsearch (λ i, from_option (keycmp cp) 0 (keywords !! i)) (length keywords);
  match r with
  | None => Some K_NULL
  | Some i => kt_i <$> keywords !! i
  end.

(** ** main() *)

(** The array name[] after strncpy(3). *)
Definition name_array (s : string) : option (list byte) :=
  map byte_of_ascii <$> strncpy_copy (bytes s ++ [NUL]) (Z.to_nat MAX_NETWORK_NAME_SIZE).

(** imsgflag and name[], which only one command sets. *)
Definition parse_command (argv : list string) : CM cenv (Z * list byte) :=
  match argv with
  | [] => stopM (SExit 1)
  | w :: argv =>
      match keyword w with
      | None => stopM SFuel
      | Some k =>
          if k =? K_MONITOR then mret (IMSG_IFCONFIGD_MONITOR, [])
          else if k =? K_SHOW then mret (IMSG_SHOW_NETWORKS, [])
          else if k =? K_USE_ETH then
            match argv with
            | [] => stopM SUndef
            | s :: _ =>
                match name_array s with
                | Some name => mret (IMSG_USE_ETHERNET, name)
                | None => stopM SUndef
                end
            end
          else if k =? K_USE_NET then mret (IMSG_USE_NETWORKS, [])
          else if k =? K_USE_WLAN then mret (IMSG_USE_WIRELESS, [])
          else stopM (SExit 1)
      end
  end.

(** The second switch; the result of imsg_compose() is not looked at. *)
Definition compose_command (ib : imsgbuf) (imsgflag : Z) (name : list byte) : CM cenv imsgbuf :=
  if imsgflag =? IMSG_USE_ETHERNET then
    '(_, ib) ← imsg_compose ib IMSG_USE_ETHERNET 0 0 (-1) name MAX_NETWORK_NAME_SIZE; mret ib
  else if imsgflag =? IMSG_IFCONFIGD_MONITOR then
    '(_, ib) ← imsg_compose ib IMSG_IFCONFIGD_MONITOR 0 0 (-1) [] 0; mret ib
  else mret ib.

(** [answers] are the kernel's answers to the successive calls. *)
Fixpoint write_loop (answers : list sysret) (ib : imsgbuf) : CM cenv imsgbuf :=
  if m_queued (i_w ib) =? 0 then mret ib else
  match answers with
  | [] => stopM SFuel
  | r :: answers =>
      '(z, w) ← msgbuf_write r (i_w ib);
      if z <? 0 then stopM (SExit 1) else write_loop answers (set_w ib w)
  end.

(** [sock] is the answer to socket(2), [conn] whether connect(2) succeeds. *)
Definition ctl_main (argv : list string) (sock : option Z) (conn : bool) (pid : Z)
    (answers : list sysret) : CM cenv Z :=
  '(imsgflag, name) ← parse_command argv;
  match sock with
  | None => stopM (SExit 1)
  | Some ctl_sock =>
      if negb conn then stopM (SExit 1)
      else
        ib ← compose_command (imsg_init ctl_sock pid) imsgflag name;
        _ ← write_loop answers ib;
        close ctl_sock;; mret 0
  end.

(** ** Keywords are found *)

Definition key_words : list string := kt_cp <$> keywords.

Lemma keywords_sorted : words_sorted key_words.
Proof. apply words_sorted_check; [repeat constructor|reflexivity]. Qed.

(** The search finds the row of a word, and only its row. *)
Lemma keyword_spec cp k :
  no_nul cp →
  keyword cp = Some k ↔ (mk_key cp k ∈ keywords ∨ ((cp ∉ key_words) ∧ k = K_NULL)).
Proof.
  intros Hn. unfold keyword, keycmp.
  destruct (bsearch_table kt_cp keywords cp Hn keywords_sorted) as (r & -> & Hr). simpl.
  destruct r as [i|].
  - destruct Hr as ([w v] & Hi & E). simpl in E. subst w. rewrite Hi. simpl.
    pose proof (list_elem_of_lookup_2 _ _ _ Hi) as Hin. split; [by intros [= <-]; left|].
    intros [Hin'|[Hnin _]].
    + by injection (table_unique kt_cp keywords _ _ keywords_sorted Hin' Hin eq_refl) as ->.
    + destruct Hnin. apply list_elem_of_fmap. by exists (mk_key cp v).
  - split; [intros [= <-]; by right|]. intros [Hin|[_ ->]]; [|done].
    destruct Hr. apply list_elem_of_fmap. by exists (mk_key cp k).
Qed.

(** ** What the commands send *)

(** A name as it is sent: cut or padded to the size of the array. *)
Definition name64 (s : string) : list byte :=
  map byte_of_ascii (bytes (stake 64 s) ++ repeat NUL (64 - String.length s)).

(** The type and the data of the messages of a command. *)
Definition request (argv : list string) : option (list (Z * list byte)) :=
  match argv with
  | [] => None
  | w :: argv =>
      if bool_decide (w = "monitor") then Some [(IMSG_IFCONFIGD_MONITOR, [])]
      else if bool_decide (w = "uselan") then
        match argv with s :: _ => Some [(IMSG_USE_ETHERNET, name64 s)] | [] => None end
      else if bool_decide (w ∈ ["show"; "usenet"; "usewlan"]) then Some [] else None
  end.

Lemma Zlen_name64 s : Zlen (name64 s) = 64.
Proof.
  unfold name64, Zlen. rewrite length_map, length_app, repeat_length. unfold stake, bytes at 1.
  rewrite String.list_ascii_of_string_of_list_ascii, length_take, length_bytes. lia.
Qed.

Lemma keyword_other w : no_nul w → w ∉ key_words → keyword w = Some K_NULL.
Proof. intros Hn Hw. apply keyword_spec; auto. Qed.

Lemma name_array_name64 s : no_nul s → name_array s = Some (name64 s).
Proof.
  intros Hn. unfold name_array. rewrite (strncpy_copy_string _ s); [done|].
  split; [done|by exists []].
Qed.

Lemma parse_command_spec argv c :
  Forall no_nul argv →
  match request argv with
  | Some rs => ∃ flag name, parse_command argv c = (Ok (flag, name), c)
      ∧ (rs = [(flag, name)] ∧ (flag = IMSG_USE_ETHERNET ∧ Zlen name = 64
                                ∨ flag = IMSG_IFCONFIGD_MONITOR ∧ name = [])
         ∨ rs = [] ∧ flag ≠ IMSG_USE_ETHERNET ∧ flag ≠ IMSG_IFCONFIGD_MONITOR)
  | None => parse_command argv c = (Stop (if bool_decide (argv = ["uselan"]) then SUndef else SExit 1), c)
  end.
Proof.
  intros Hn. destruct argv as [|w argv]; [done|].
  apply list.Forall_cons in Hn as [Hw Hn]. unfold request, parse_command.
  remember (bool_decide (w :: argv = ["uselan"])) as b eqn:Eb.
  assert (w ≠ "uselan" → b = false) as Hb by (intros; subst b; apply bool_decide_false; by intros [= ->]).
  assert (w = "uselan" → argv = [] → b = true) as Hb' by (intros -> ->; by subst b).
  clear Eb. repeat case_bool_decide; try subst w.
  - change (keyword "monitor") with (Some K_MONITOR). eexists _, _. split; [done|]. left. auto.
  - change (keyword "uselan") with (Some K_USE_ETH). destruct argv as [|s argv]; [by rewrite Hb'|].
    apply list.Forall_cons in Hn as [Hs _]. cbn -[name_array name64]. rewrite name_array_name64 by done.
    eexists _, _. split; [done|]. left. auto using Zlen_name64.
  - lazymatch goal with H : w ∈ _ |- _ => rename H into Hin end.
    repeat (apply elem_of_cons in Hin as [->|Hin]; [by eexists _, _; split; [done|right]|]).
    by apply not_elem_of_nil in Hin.
  - rewrite keyword_other; [by rewrite Hb|done|]. unfold key_words. simpl.
    rewrite !elem_of_cons in *. intuition.
Qed.

Lemma compose_command_spec fd pid flag name c rs :
  alloc_never_fails c →
  (rs = [(flag, name)] ∧ (flag = IMSG_USE_ETHERNET ∧ Zlen name = 64
                          ∨ flag = IMSG_IFCONFIGD_MONITOR ∧ name = [])
   ∨ rs = [] ∧ flag ≠ IMSG_USE_ETHERNET ∧ flag ≠ IMSG_IFCONFIGD_MONITOR) →
  wp (compose_command (imsg_init fd pid) flag name)
     (λ ib c', queues (imsg_init fd pid) (map (to_parent pid) rs) ib
               ∧ ce_closed c' = ce_closed c) c.
Proof.
  intros Ha H. unfold compose_command.
  assert (∀ type data n, 0 ≤ type < 2 ^ 16 → n = Zlen data → n ≤ 64 →
    wp ('(_, ib) ← imsg_compose (imsg_init fd pid) type 0 0 (-1) data n; mret ib)
     (λ ib c', queues (imsg_init fd pid) [to_parent pid (type, data)] ib
               ∧ ce_closed c' = ce_closed c) c) as Hc.
  { intros type data n Ht -> Hn. pose proof (Zlen_nonneg data).
    destruct (compose_queues (imsg_init fd pid) type data (Zlen data) c)
      as (z & ib & c' & E & Hcl & [(-> & Hq & _)|(_ & _ & Hna)]);
      [done|lia|unfold IMSG_HEADER_SIZE, MAX_IMSGSIZE; lia| |done].
    apply wp_bind. eapply wp_intro; [exact E|]. apply wp_ret. split; [|done].
    unfold Ztake, Zlen in Hq. rewrite Nat2Z.id, take_ge in Hq by done. exact Hq. }
  destruct H as [(-> & [[-> Hl]|[-> ->]])|(-> & Hu & Hm)].
  - by apply Hc.
  - by apply Hc.
  - rewrite (proj2 (Z.eqb_neq _ _) Hu), (proj2 (Z.eqb_neq _ _) Hm). apply wp_ret. by repeat constructor.
Qed.

Lemma stream_nil mb : msgbuf_wf mb → stream mb = [] → m_queued mb = 0.
Proof.
  intros [Hf ->] Hs. destruct (m_bufs mb) as [|b bs] eqn:E; [done|].
  apply list.Forall_cons in Hf as [[Hb Hl] _]. pose proof (Zlen_iov b Hb) as Hi.
  unfold stream in Hs. rewrite E in Hs. simpl in Hs. apply app_eq_nil in Hs as [Hs _].
  rewrite Hs in Hi. change (Zlen (@nil byte)) with 0 in Hi. lia.
Qed.

(** A kernel that takes all of one message empties the queue. *)
Lemma write_loop_one ib b c :
  m_bufs (i_w ib) = [b] → msgbuf_wf (i_w ib) →
  wp (write_loop [SysOk (Zlen (iov b))] ib) (λ _ _, True) c.
Proof.
  intros Hb Hwf. pose proof Hwf as [Hf Hq]. rewrite Hb in Hf, Hq.
  apply list.Forall_cons in Hf as [[Hw Hlive] _]. pose proof (Zlen_iov b Hw) as Hi.
  assert (stream (i_w ib) = iov b) as Hs by (unfold stream; rewrite Hb; simpl; by rewrite app_nil_r).
  cbn [write_loop]. rewrite Hq. change (u32 (Zlen [b]) =? 0) with false. cbv iota.
  destruct (msgbuf_write_spec (i_w ib) (SysOk (Zlen (iov b))) c Hwf) as (w & c' & E & Hw' & _ & _ & _ & Hs').
  { simpl. rewrite Hb. simpl. destruct Hw as (_ & ? & ? & ?).
    destruct (b_fd b =? -1); simpl; rewrite app_nil_r; lia. }
  apply wp_bind. eapply wp_intro; [exact E|]. cbn [write_result].
  rewrite (proj2 (Z.eqb_neq (Zlen (iov b)) 0)) by lia. cbn [Z.ltb Z.compare write_loop i_w set_w].
  rewrite stream_nil; [done|done|]. rewrite Hs', Hs. apply Zdrop_all. simpl. lia.
Qed.

Lemma write_loop_spec fd pid ms ib c :
  queues (imsg_init fd pid) ms ib → (length ms ≤ 1)%nat →
  wp (write_loop [SysOk (Zlen (wire ms))] ib) (λ _ _, True) c.
Proof.
  intros Hq Hl.
  destruct (queues_spec _ _ _ Hq) as ([Hwf _] & _); [split; [split; [constructor|done]|done]|].
  inversion Hq as [Hn|ms' ib' m b Hq' Hm Hlive Hr Hfd Hi Hms]; subst; [by apply wp_ret|].
  destruct ms' as [|? ?]; [|rewrite length_app in Hl; simpl in Hl; lia].
  inversion Hq' as [|ms'' ? ? ? ? ? ? ? ? ? E]; [|by destruct ms'']. subst ib'.
  assert (wire ([] ++ [m]) = iov b) as -> by (unfold wire; simpl; by rewrite app_nil_r).
  by apply write_loop_one.
Qed.

(** C25. What ifconfigctl(8) sends: one message for the commands monitor and
    uselan, the second with the name cut or padded to sixty-four bytes, and
    nothing for show, usenet and usewlan, after which it reports success all the
    same; any other word ends it with status 1 before it connects, and uselan
    without a name copies from a null pointer.  The commands of the manual,
    reload and use, are among the other words. *)
Theorem ctl_sends argv fd pid c :
  Forall no_nul argv → alloc_never_fails c →
  (match request argv with
  | Some rs =>
      let ms := map (to_parent pid) rs in
      ∃ ib c1 c',
        ('(flag, name) ← parse_command argv; compose_command (imsg_init fd pid) flag name) c
          = (Ok ib, c1)
        ∧ queues (imsg_init fd pid) ms ib
        ∧ ctl_main argv (Some fd) true pid [SysOk (Zlen (wire ms))] c = (Ok 0, c')
  | None =>
      ctl_main argv (Some fd) true pid [] c
      = (Stop (if bool_decide (argv = ["uselan"]) then SUndef else SExit 1), c)
  end)
  ∧ ∀ w rest, w ∈ ["reload"; "use"] → argv = w :: rest →
      ctl_main argv (Some fd) true pid [] c = (Stop (SExit 1), c).
Proof.
  intros Hn Ha. pose proof (parse_command_spec argv c Hn) as H. split.
  2: { intros w rest Hw ->. assert (request (w :: rest) = None ∧ w ≠ "uselan") as [Hr Hu]
         by by repeat (apply elem_of_cons in Hw as [->|Hw]; [done|]); apply not_elem_of_nil in Hw.
       rewrite Hr, bool_decide_false in H by (by intros [= ->]). by apply bind_stop. }
  unfold ctl_main. destruct (request argv) as [rs|]; [|by apply bind_stop].
  destruct H as (flag & name & E & Hrs). rewrite !(bind_ok _ _ _ _ _ E). cbv beta iota.
  destruct (wp_elim _ _ _ (compose_command_spec fd pid flag name c rs Ha Hrs)) as (ib & c1 & Ec & Hq & _).
  destruct (wp_elim _ _ _ (write_loop_spec fd pid _ ib c1 Hq ltac:(
    rewrite length_map; destruct Hrs as [(-> & _)|(-> & _)]; simpl; lia))) as (ib' & c2 & Ew & _).
  eexists ib, c1, _. split_and!; [done..|].
  cbv beta iota. cbn [negb]. rewrite (bind_ok _ _ _ _ _ Ec), (bind_ok _ _ _ _ _ Ew). done.
Qed.

Lemma ctl_sends_witness :
  ∃ ib c1 c',
    ('(flag, name) ← parse_command ["uselan"; "office"]; compose_command (imsg_init 3 200) flag name)
      (mk_cenv [] 0 []) = (Ok ib, c1)
    ∧ queues (imsg_init 3 200) [to_parent 200 (IMSG_USE_ETHERNET, name64 "office")] ib
    ∧ ctl_main ["uselan"; "office"] (Some 3) true 200 [SysOk 80] (mk_cenv [] 0 []) = (Ok 0, c').
Proof. apply (ctl_sends ["uselan"; "office"] 3 200 (mk_cenv [] 0 [])); repeat constructor. Defined.
